(** * The scrollback ring (src/ring.c) and the SIXEL decoder (src/sixel.cc)

    A shallow embedding of the two cores and the theorems that settle what
    the specification says about them.

    Conventions of the embedding.
    - [long] and [int] are [Z].  Signed overflow is undefined in C; the
      model describes the executions whose intermediate values stay in
      range, and no wrap-around is invented for them.
    - C's [%] truncates towards zero: it is [Z.rem].
    - A pointer that may be [NULL] is an [option]; [None] is [NULL].
    - An execution that leaves the defined behaviour of C (an array access
      out of bounds, a failed [g_assert]) has no result: the operations
      return in [option], and [None] is that outcome.  A theorem that
      describes what a call leaves also proves that the call returns; an
      invariant is stated over the calls that return.
    - [g_return_if_fail] logs and returns, [g_assert] aborts, as GLib
      builds them by default; [_vte_ring_validate] is empty unless
      [VTE_DEBUG] is defined and [_vte_debug_print] does not touch the
      ring: neither is in the model. *)

From Stdlib Require Import ZArith Lia Bool List SpecFloat.
From stdpp Require Import base list.
Import ListNotations.

Local Open Scope Z_scope.

(** The error monad of the embedding: [None] is an execution without a
    defined result. *)
Definition bind {A B : Type} (m : option A) (k : A -> option B) : option B :=
  match m with
  | Some a => k a
  | None => None
  end.

Notation "'do' x <- m ; k" := (bind m (fun x => k))
  (at level 10, x name, m at level 100, k at level 200).

(** [a[i]] and [a[i] = v] on a C array of known size: defined inside the
    array only. *)
Definition array_at {A : Type} (a : list A) (i : Z) : option A :=
  if 0 <=? i then a !! Z.to_nat i else None.

Definition array_store {A : Type} (a : list A) (i : Z) (v : A) : option (list A) :=
  if (0 <=? i) && (i <? Z.of_nat (List.length a))
  then Some (<[Z.to_nat i := v]> a)
  else None.

(** [CLAMP(x, low, high)] and [MAX(a, b)] of GLib. *)
Definition CLAMP (x low high : Z) : Z :=
  if x >? high then high else if x <? low then low else x.

Definition MAX (a b : Z) : Z := if a >? b then a else b.

(* ===================================================================== *)
(** * The ring *)
(* ===================================================================== *)

Module Ring.

Section WithRows.

(** The rows are opaque to the ring: it stores pointers to them. *)
Variable Row : Type.

(** A [gpointer] holds a row, or [NULL]. *)
Local Abbreviation gpointer := (option Row) (only parsing).

(** [struct _VteRing].  [freed] is not a field of the C structure: it is
    the log of the rows handed to [_vte_free_row_data], oldest first. *)
Record VteRing : Type := mkRing {
  delta : Z;
  length : Z;
  max : Z;
  cached_item : Z;
  cached_data : gpointer;
  array : list gpointer;
  freed : list Row
}.

Definition with_array (ring : VteRing) (a : list gpointer) : VteRing :=
  mkRing (delta ring) (length ring) (max ring)
         (cached_item ring) (cached_data ring) a (freed ring).

Definition with_delta (ring : VteRing) (d : Z) : VteRing :=
  mkRing d (length ring) (max ring)
         (cached_item ring) (cached_data ring) (array ring) (freed ring).

Definition with_length (ring : VteRing) (n : Z) : VteRing :=
  mkRing (delta ring) n (max ring)
         (cached_item ring) (cached_data ring) (array ring) (freed ring).

(** [_vte_free_row_data]: nothing on [NULL], otherwise the row is
    destroyed. *)
Definition _vte_free_row_data (ring : VteRing) (row : gpointer) : VteRing :=
  match row with
  | None => ring
  | Some x =>
      mkRing (delta ring) (length ring) (max ring)
             (cached_item ring) (cached_data ring) (array ring)
             (freed ring ++ [x])
  end.

(** ** The accessors of ring.h *)

(** Modelled from the spec: the macro [_vte_ring_contains] of ring.h, which
    is not among the sources: [delta <= p < delta + length]. *)
Definition _vte_ring_contains (ring : VteRing) (p : Z) : bool :=
  (delta ring <=? p) && (p <? delta ring + length ring).

(** Modelled from the spec: the macro [_vte_ring_next] of ring.h:
    [delta + length], the next absolute index to append. *)
Definition _vte_ring_next (ring : VteRing) : Z := delta ring + length ring.

(** Modelled from the spec: the macro [_vte_ring_set_cache] of ring.h: store
    the one-entry memo; [p = -1] invalidates. *)
Definition _vte_ring_set_cache (ring : VteRing) (p : Z) (row : gpointer) : VteRing :=
  mkRing (delta ring) (length ring) (max ring) p row (array ring) (freed ring).

(** The slot of an absolute index: [ring->array[p % ring->max]]. *)
Definition _vte_ring_at (ring : VteRing) (p : Z) : option gpointer :=
  array_at (array ring) (Z.rem p (max ring)).

(** Modelled from the spec: the macro [_vte_ring_index] of ring.h: the row at
    [array[p mod max]]; if [p == cached_item], [cached_data] directly. *)
Definition _vte_ring_index (ring : VteRing) (p : Z) : option gpointer :=
  if p =? cached_item ring then Some (cached_data ring) else _vte_ring_at ring p.

(** ** Construction *)

Definition _vte_ring_new (max_elements : Z) : VteRing :=
  let m := MAX max_elements 2 in
  mkRing 0 0 m (-1) None (replicate (Z.to_nat m) None) [].

Definition _vte_ring_new_with_delta (max_elements d : Z) : VteRing :=
  with_delta (_vte_ring_new max_elements) d.

(** ** Insertion *)

(** [while (point < 0) point += ring->max;] *)
Fixpoint lift_point (fuel : nat) (point m : Z) : option Z :=
  if point <? 0 then
    match fuel with
    | O => None
    | S fuel' => lift_point fuel' (point + m) m
    end
  else Some point.

(** [for (i = point; i > position; i--) array[i % max] = array[(i - 1) % max];]
    with [n] the number of iterations left and [i] the current index. *)
Fixpoint bubble_down (m : Z) (a : list gpointer) (i : Z) (n : nat)
  : option (list gpointer) :=
  match n with
  | O => Some a
  | S n' =>
      do v <- array_at a (Z.rem (i - 1) m);
      do a' <- array_store a (Z.rem i m) v;
      bubble_down m a' (i - 1) n'
  end.

Definition _vte_ring_insert (ring : VteRing) (position : Z) (data : gpointer)
  : option VteRing :=
  (* g_return_if_fail: the call returns and the ring is as it was *)
  if negb (position >=? delta ring) then Some ring
  else if negb (position <=? delta ring + length ring) then Some ring
  else match data with
  | None => Some ring
  | Some _ =>
    if position =? length ring + delta ring then
      (* Initial insertion, or append. *)
      do old <- array_at (array ring) (Z.rem position (max ring));
      let ring := _vte_free_row_data ring old in
      do a <- array_store (array ring) (Z.rem position (max ring)) data;
      let ring := with_array ring a in
      if length ring =? max ring then
        let ring := with_delta ring (delta ring + 1) in
        Some (if delta ring >? cached_item ring
              then _vte_ring_set_cache ring (-1) None
              else ring)
      else Some (with_length ring (length ring + 1))
    else
      let ring := if position <=? cached_item ring
                  then _vte_ring_set_cache ring (-1) None
                  else ring in
      do point <- lift_point (Z.to_nat (- (delta ring + length ring - 1)))
                             (delta ring + length ring - 1) (max ring);
      do rp <- (if length ring =? max ring
                then do last <- array_at (array ring) (Z.rem point (max ring));
                     Some (_vte_free_row_data ring last, point)
                else Some (ring, point + 1));
      let '(ring, point) := rp in
      do a <- bubble_down (max ring) (array ring) point (Z.to_nat (point - position));
      do a <- array_store a (Z.rem position (max ring)) data;
      let ring := with_array ring a in
      Some (with_length ring (CLAMP (length ring + 1) 0 (max ring)))
  end.

(** [_vte_ring_append]: [g_assert(data != NULL)] aborts on [NULL]. *)
Definition _vte_ring_append (ring : VteRing) (data : gpointer) : option VteRing :=
  match data with
  | None => None
  | Some _ => _vte_ring_insert ring (delta ring + length ring) data
  end.

(** ** Removal *)

(** [for (i = position; i < delta + length - 1; i++)
       array[i % max] = array[(i + 1) % max];] *)
Fixpoint bubble_up (m : Z) (a : list gpointer) (i : Z) (n : nat)
  : option (list gpointer) :=
  match n with
  | O => Some a
  | S n' =>
      do v <- array_at a (Z.rem (i + 1) m);
      do a' <- array_store a (Z.rem i m) v;
      bubble_up m a' (i + 1) n'
  end.

Definition _vte_ring_remove (ring : VteRing) (position : Z) (free_element : bool)
  : option VteRing :=
  let ring := if position <=? cached_item ring
              then _vte_ring_set_cache ring (-1) None
              else ring in
  do ring <- (if free_element
              then do old <- array_at (array ring) (Z.rem position (max ring));
                   Some (_vte_free_row_data ring old)
              else Some ring);
  do a <- array_store (array ring) (Z.rem position (max ring)) None;
  do a <- bubble_up (max ring) a position
                    (Z.to_nat (delta ring + length ring - 1 - position));
  do a <- array_store a (Z.rem (delta ring + length ring - 1) (max ring)) None;
  let ring := with_array ring a in
  Some (if length ring >? 0 then with_length ring (length ring - 1) else ring).

(** ** Insertion that preserves the rows below *)

(** [for (i = position; i < point; i++) tmp[i - position] = _vte_ring_index(ring, i);] *)
Fixpoint save_rows (ring : VteRing) (i : Z) (n : nat) : option (list gpointer) :=
  match n with
  | O => Some []
  | S n' =>
      do v <- _vte_ring_index ring i;
      do rest <- save_rows ring (i + 1) n';
      Some (v :: rest)
  end.

(** [for (i = point; i > position; i--) _vte_ring_remove(ring, i - 1, FALSE);] *)
Fixpoint remove_rows (ring : VteRing) (i : Z) (n : nat) : option VteRing :=
  match n with
  | O => Some ring
  | S n' =>
      do ring' <- _vte_ring_remove ring (i - 1) false;
      remove_rows ring' (i - 1) n'
  end.

(** [for (i = position; i < point; i++) _vte_ring_append(ring, tmp[i - position]);] *)
Fixpoint append_rows (ring : VteRing) (tmp : list gpointer) : option VteRing :=
  match tmp with
  | [] => Some ring
  | v :: rest =>
      do ring' <- _vte_ring_append ring v;
      append_rows ring' rest
  end.

Definition _vte_ring_insert_preserve (ring : VteRing) (position : Z) (data : gpointer)
  : option VteRing :=
  if negb (position <=? _vte_ring_next ring) then Some ring
  else
    let ring := if position <=? cached_item ring
                then _vte_ring_set_cache ring (-1) None
                else ring in
    let point := _vte_ring_next ring in
    do tmp <- save_rows ring position (Z.to_nat (point - position));
    do ring <- remove_rows ring point (Z.to_nat (point - position));
    do ring <- _vte_ring_append ring data;
    append_rows ring tmp.

(** ** Sequences of operations *)

(** The mutations of the ring and [_vte_ring_set_cache], as a client
    issues them. *)
Inductive ring_op : Type :=
| Insert (position : Z) (data : gpointer)
| Insert_preserve (position : Z) (data : gpointer)
| Remove (position : Z) (free_element : bool)
| Append (data : gpointer)
| Set_cache (p : Z) (row : gpointer).

Definition apply_op (ring : VteRing) (o : ring_op) : option VteRing :=
  match o with
  | Insert position data => _vte_ring_insert ring position data
  | Insert_preserve position data => _vte_ring_insert_preserve ring position data
  | Remove position free_element => _vte_ring_remove ring position free_element
  | Append data => _vte_ring_append ring data
  | Set_cache p row => Some (_vte_ring_set_cache ring p row)
  end.

(** The same client on a ring built without a cache: [set_cache] does
    nothing. *)
Definition apply_op_nocache (ring : VteRing) (o : ring_op) : option VteRing :=
  match o with
  | Set_cache _ _ => Some ring
  | _ => apply_op ring o
  end.

Fixpoint run (step : VteRing -> ring_op -> option VteRing)
         (ring : VteRing) (ops : list ring_op) : option VteRing :=
  match ops with
  | [] => Some ring
  | o :: ops' => do ring' <- step ring o; run step ring' ops'
  end.

(** ** Well-formed rings *)

(** What [_vte_ring_new] establishes and the operations keep: the capacity,
    the size of the array, a window that fits, and indices that are not
    negative (so that [%] is the mathematical remainder). *)
Definition ring_ok (ring : VteRing) : Prop :=
  2 <= max ring /\ 0 <= delta ring /\ 0 <= length ring <= max ring /\
  Z.of_nat (List.length (array ring)) = max ring.

(** The cache is empty, or it memoizes a row of the live window. *)
Definition cache_ok (ring : VteRing) : Prop :=
  cached_item ring = -1 \/
  (_vte_ring_contains ring (cached_item ring) = true /\
   _vte_ring_at ring (cached_item ring) = Some (cached_data ring)).

(** [holds ring d rows]: the live window of [ring] starts at [d] and holds
    [rows], oldest first. *)
Definition holds (ring : VteRing) (d : Z) (rows : list Row) : Prop :=
  ring_ok ring /\ delta ring = d /\ length ring = Z.of_nat (List.length rows) /\
  forall (i : nat) (x : Row),
    rows !! i = Some x -> _vte_ring_at ring (d + Z.of_nat i) = Some (Some x).

(** The ring with its cache emptied: the state of a ring that never had
    one. *)
Definition erase (ring : VteRing) : VteRing := _vte_ring_set_cache ring (-1) None.

(** When a client may issue an operation: [remove] within its precondition
    of section 4.1, [contains(position)], and [set_cache] only to memoize
    the row that is at an index of the live window, or to invalidate.  The
    insertions check their positions themselves. *)
Definition op_ok (ring : VteRing) (o : ring_op) : Prop :=
  match o with
  | Insert _ _ => True
  | Insert_preserve _ _ => True
  | Remove position _ => _vte_ring_contains ring position = true
  | Append _ => True
  | Set_cache p row =>
      (p = -1 /\ row = None) \/
      (_vte_ring_contains ring p = true /\ _vte_ring_at ring p = Some row)
  end.

Fixpoint ops_ok (ring : VteRing) (ops : list ring_op) : Prop :=
  match ops with
  | [] => True
  | o :: ops' =>
      op_ok ring o /\
      match apply_op ring o with
      | Some ring' => ops_ok ring' ops'
      | None => True
      end
  end.

(** ** What section 8 says, as properties of one call or one run *)

(** [insert_preserve] at one ring, position and row: the call returns, at
    most the top row is evicted, and the window reads as the old one with
    [x] inserted at [position]. *)
Definition insert_preserve_reads (r : VteRing) (position : Z) (x : Row) : Prop :=
  exists r', _vte_ring_insert_preserve r position (Some x) = Some r' /\
    delta r' = delta r + (if length r =? max r then 1 else 0) /\
    _vte_ring_next r' = _vte_ring_next r + 1 /\
    forall p, _vte_ring_contains r' p = true ->
      _vte_ring_index r' p =
        if p <? position then _vte_ring_index r p
        else if p =? position then Some (Some x)
        else _vte_ring_index r (p - 1).

(** The cache at one ring and one sequence of operations: the ring with a
    cache and the ring without one abort together, or both return, with
    the same window and the same rows read in it. *)
Definition cache_transparent (r : VteRing) (ops : list ring_op) : Prop :=
  match run apply_op r ops, run apply_op_nocache (erase r) ops with
  | Some rc, Some ru =>
      forall p, _vte_ring_contains rc p = _vte_ring_contains ru p /\
                (_vte_ring_contains rc p = true ->
                 _vte_ring_index rc p = _vte_ring_index ru p)
  | None, None => True
  | _, _ => False
  end.

(** Two rings that differ in their cache only, and two outcomes that do. *)
Definition same_rows (r1 r2 : VteRing) : Prop :=
  delta r1 = delta r2 /\ length r1 = length r2 /\ max r1 = max r2 /\
  array r1 = array r2 /\ freed r1 = freed r2.

Definition same_outcome (o1 o2 : option VteRing) : Prop :=
  match o1, o2 with
  | Some r1, Some r2 => same_rows r1 r2
  | None, None => True
  | _, _ => False
  end.

(** A ring that never had a cache, and an outcome that still has none. *)
Definition no_cache (r : VteRing) : Prop := cached_item r = -1 /\ cached_data r = None.

Definition keeps_no_cache (o : option VteRing) : Prop :=
  match o with
  | Some r => no_cache r
  | None => True
  end.

End WithRows.

Arguments mkRing {Row}.
Arguments delta {Row}.
Arguments length {Row}.
Arguments max {Row}.
Arguments cached_item {Row}.
Arguments cached_data {Row}.
Arguments array {Row}.
Arguments freed {Row}.
Arguments _vte_ring_contains {Row}.
Arguments _vte_ring_next {Row}.
Arguments _vte_ring_set_cache {Row}.
Arguments _vte_ring_at {Row}.
Arguments _vte_ring_index {Row}.
Arguments _vte_ring_new {Row}.
Arguments _vte_ring_new_with_delta {Row}.
Arguments _vte_ring_insert {Row}.
Arguments _vte_ring_append {Row}.
Arguments _vte_ring_remove {Row}.
Arguments _vte_ring_insert_preserve {Row}.
Arguments _vte_free_row_data {Row}.
Arguments with_array {Row}.
Arguments with_delta {Row}.
Arguments with_length {Row}.
Arguments bubble_down {Row}.
Arguments bubble_up {Row}.
Arguments save_rows {Row}.
Arguments remove_rows {Row}.
Arguments append_rows {Row}.
Arguments Insert {Row}.
Arguments Insert_preserve {Row}.
Arguments Remove {Row}.
Arguments Append {Row}.
Arguments Set_cache {Row}.
Arguments apply_op {Row}.
Arguments apply_op_nocache {Row}.
Arguments run {Row}.
Arguments ring_ok {Row}.
Arguments cache_ok {Row}.
Arguments holds {Row}.
Arguments erase {Row}.
Arguments op_ok {Row}.
Arguments ops_ok {Row}.
Arguments insert_preserve_reads {Row}.
Arguments cache_transparent {Row}.
Arguments same_rows {Row}.
Arguments same_outcome {Row}.
Arguments no_cache {Row}.
Arguments keeps_no_cache {Row}.

(** ** The end of a ring, and the rows that it owns *)

Section Lifetimes.

Variable Row : Type.

(** [for (i = 0; i < ring->max; i++) _vte_free_row_data (ring->array[i]);]
    of [_vte_ring_free], from the slot [i] on, [n] counting the slots
    left. *)
Fixpoint free_rows (ring : VteRing Row) (i : Z) (n : nat) : option (VteRing Row) :=
  match n with
  | O => Some ring
  | S n' =>
      do row <- array_at (array ring) i;
      free_rows (_vte_free_row_data ring row) (i + 1) n'
  end.

(** [_vte_ring_free].  The ring is gone after the call: what is left of it
    is the log of the rows that were destroyed, during its life and, with
    [free_elements], from its slots. *)
Definition _vte_ring_free (ring : VteRing Row) (free_elements : bool) : option (list Row) :=
  do ring <- (if free_elements then free_rows ring 0 (Z.to_nat (max ring)) else Some ring);
  Some (freed ring).

(** The row at the index [p] of a window that starts at [d] and holds
    [rows], and [NULL] past its end. *)
Definition row_at (d : Z) (rows : list Row) (p : Z) : option Row :=
  if d <=? p then rows !! Z.to_nat (p - d) else None.

(** The window of the ring starts at [d] and holds [rows], and the slots
    that are not of the window hold [NULL]: every slot of the array is
    accounted for. *)
Definition holds_only (ring : VteRing Row) (d : Z) (rows : list Row) : Prop :=
  ring_ok ring /\ delta ring = d /\ length ring = Z.of_nat (List.length rows) /\
  forall p, d <= p < d + max ring -> _vte_ring_at ring p = Some (row_at d rows p).

(** The row that an operation hands over to the ring. *)
Definition row_given (o : ring_op Row) : list Row :=
  match o with
  | Insert _ (Some x) | Insert_preserve _ (Some x) | Append (Some x) => [x]
  | _ => []
  end.

(** The rows that a sequence of operations hands over. *)
Definition rows_given (ops : list (ring_op Row)) : list Row := flat_map row_given ops.

(** The operations of a client that leaves its rows to the ring: it
    inserts rows inside the window or at its end, and removes, with
    [free_element], rows that the ring contains. *)
Definition op_owned (ring : VteRing Row) (o : ring_op Row) : Prop :=
  match o with
  | Insert position data | Insert_preserve position data =>
      delta ring <= position <= _vte_ring_next ring /\ data <> None
  | Remove position free_element =>
      _vte_ring_contains ring position = true /\ free_element = true
  | Append data => data <> None
  | Set_cache p row =>
      (p = -1 /\ row = None) \/
      (_vte_ring_contains ring p = true /\ _vte_ring_at ring p = Some row)
  end.

(** A sequence of such operations, each on the ring that the ones before
    it leave. *)
Fixpoint ops_owned (ring : VteRing Row) (ops : list (ring_op Row)) : Prop :=
  match ops with
  | [] => True
  | o :: ops' =>
      op_owned ring o /\
      match apply_op ring o with
      | Some ring' => ops_owned ring' ops'
      | None => True
      end
  end.

End Lifetimes.

Arguments free_rows {Row}.
Arguments _vte_ring_free {Row}.
Arguments row_at {Row}.
Arguments holds_only {Row}.
Arguments row_given {Row}.
Arguments rows_given {Row}.
Arguments op_owned {Row}.
Arguments ops_owned {Row}.

(** ** A ring for the examples *)

(** A full ring of capacity 2 with the rows 11 and 12 at the indices 1 and
    2, as three appends leave it. *)
Definition two_rows : Ring.VteRing nat :=
  mkRing 1 2 2 (-1) None [Some 12%nat; Some 11%nat] [10%nat].

End Ring.

(* ===================================================================== *)
(** * The SIXEL decoder *)
(* ===================================================================== *)

Module Sixel.

(** ** Colours *)

(** [SIXEL_RGB], [PALVAL] and [SIXEL_XRGB].  C's [/] on [int] truncates:
    it is [Z.quot]. *)
Definition SIXEL_RGB (r g b : Z) : Z := r + Z.shiftl g 8 + Z.shiftl b 16.

Definition PALVAL (n a m : Z) : Z := Z.quot (n * a + Z.quot m 2) m.

Definition SIXEL_XRGB (r g b : Z) : Z :=
  SIXEL_RGB (PALVAL r 255 100) (PALVAL g 255 100) (PALVAL b 255 100).

Definition sixel_default_color_table : list Z :=
  [ SIXEL_XRGB 0 0 0;     (*  0 Black    *)
    SIXEL_XRGB 20 20 80;  (*  1 Blue     *)
    SIXEL_XRGB 80 13 13;  (*  2 Red      *)
    SIXEL_XRGB 20 80 20;  (*  3 Green    *)
    SIXEL_XRGB 80 20 80;  (*  4 Magenta  *)
    SIXEL_XRGB 20 80 80;  (*  5 Cyan     *)
    SIXEL_XRGB 80 80 20;  (*  6 Yellow   *)
    SIXEL_XRGB 53 53 53;  (*  7 Gray 50% *)
    SIXEL_XRGB 26 26 26;  (*  8 Gray 25% *)
    SIXEL_XRGB 33 33 60;  (*  9 Blue*    *)
    SIXEL_XRGB 60 26 26;  (* 10 Red*     *)
    SIXEL_XRGB 33 60 33;  (* 11 Green*   *)
    SIXEL_XRGB 60 33 60;  (* 12 Magenta* *)
    SIXEL_XRGB 33 60 60;  (* 13 Cyan*    *)
    SIXEL_XRGB 60 60 33;  (* 14 Yellow*  *)
    SIXEL_XRGB 80 80 80   (* 15 Gray 75% *) ].

(** *** [double]

    The intermediate values of [hls_to_rgb] are IEEE 754 binary64 numbers:
    the operations are the ones of [SpecFloat] at precision 53, rounding to
    nearest even as C does by default. *)
Definition double : Type := spec_float.

Definition double_of_int (z : Z) : double := binary_normalize 53 1024 z 0 false.
Definition dadd : double -> double -> double := SFadd 53 1024.
Definition dsub : double -> double -> double := SFsub 53 1024.
Definition dmul : double -> double -> double := SFmul 53 1024.
Definition ddiv : double -> double -> double := SFdiv 53 1024.

(** The conversion of a [double] to [int] drops the fraction; it is not
    defined on infinities and NaN. *)
Definition int_of_double (f : double) : option Z :=
  match f with
  | S754_zero _ => Some 0
  | S754_finite s m e =>
      let v := if 0 <=? e then Z.pos m * 2 ^ e else Z.pos m / 2 ^ (- e) in
      Some (if s then - v else v)
  | _ => None
  end.

(** The bounds of the interpolation, [max] and [min] of [hls_to_rgb]. *)
Definition hls_spread (lum sat : Z) : double :=
  let k := sat * (100 - (if lum >? 50 then 1 else -1) * (Z.shiftl lum 1 - 100)) in
  ddiv (double_of_int k) (double_of_int 200).

Definition hls_max (lum sat : Z) : double := dadd (double_of_int lum) (hls_spread lum sat).

Definition hls_min (lum sat : Z) : double := dsub (double_of_int lum) (hls_spread lum sat).

(** HLS hue color ring is rotated -120 degree from HSL's one. *)
Definition hls_hue (hue : Z) : Z := Z.rem (hue + 240) 360.

(** The channels of [hls_to_rgb] before the scaling to 0..255. *)
Definition hls_channels (hue lum sat : Z) : option (Z * Z * Z) :=
  (* if (sat == 0) r = g = b = lum;  every case below assigns the three again *)
  let max := hls_max lum sat in
  let min := hls_min lum sat in
  let hue := hls_hue hue in
  let sixty := double_of_int 60 in
  let mix (h : Z) := dadd min (dmul (dsub max min) (ddiv (double_of_int h) sixty)) in
  let sextant := Z.quot hue 60 in
  if sextant =? 0 then
    do r <- int_of_double max;
    do g <- int_of_double (mix hue);
    do b <- int_of_double min;
    Some (r, g, b)
  else if sextant =? 1 then
    do r <- int_of_double (mix (120 - hue));
    do g <- int_of_double max;
    do b <- int_of_double min;
    Some (r, g, b)
  else if sextant =? 2 then
    do r <- int_of_double min;
    do g <- int_of_double max;
    do b <- int_of_double (mix (hue - 120));
    Some (r, g, b)
  else if sextant =? 3 then
    do r <- int_of_double min;
    do g <- int_of_double (mix (240 - hue));
    do b <- int_of_double max;
    Some (r, g, b)
  else if sextant =? 4 then
    do r <- int_of_double (mix (hue - 240));
    do g <- int_of_double min;
    do b <- int_of_double max;
    Some (r, g, b)
  else
    do r <- int_of_double max;
    do g <- int_of_double min;
    do b <- int_of_double (mix (360 - hue));
    Some (r, g, b).

Definition hls_to_rgb (hue lum sat : Z) : option Z :=
  do rgb <- hls_channels hue lum sat;
  let '(r, g, b) := rgb in
  Some (SIXEL_XRGB r g b).

(** ** The decoder state *)

Inductive parse_state_t : Type :=
| PS_ESC | PS_DCS | PS_DECSIXEL | PS_DECGRA | PS_DECGRI | PS_DECGCI.

(** [sixel_image_t].  [data] is [NULL] or the buffer of palette indices;
    [palette] is the array of [DECSIXEL_PALETTE_MAX] colours. *)
Record sixel_image_t : Type := {
  width : Z;
  height : Z;
  data : option (list Z);
  palette : list Z;
  ncolors : Z;
  palette_modified : Z;
  use_private_register : Z
}.

(** [sixel_state_t].  [params] is the array of [DECSIXEL_PARAMS_MAX]
    parameters, of which the first [nparams] are set. *)
Record sixel_state_t : Type := {
  state : parse_state_t;
  pos_x : Z;
  pos_y : Z;
  max_x : Z;
  max_y : Z;
  attributed_pan : Z;
  attributed_pad : Z;
  attributed_ph : Z;
  attributed_pv : Z;
  repeat_count : Z;
  color_index : Z;
  param : Z;
  nparams : Z;
  params : list Z;
  image : sixel_image_t
}.

Definition set_width (x : sixel_image_t) (v : Z) : sixel_image_t :=
  Build_sixel_image_t v (height x) (data x) (palette x) (ncolors x) (palette_modified x) (use_private_register x).

Definition set_height (x : sixel_image_t) (v : Z) : sixel_image_t :=
  Build_sixel_image_t (width x) v (data x) (palette x) (ncolors x) (palette_modified x) (use_private_register x).

Definition set_data (x : sixel_image_t) (v : option (list Z)) : sixel_image_t :=
  Build_sixel_image_t (width x) (height x) v (palette x) (ncolors x) (palette_modified x) (use_private_register x).

Definition set_palette (x : sixel_image_t) (v : list Z) : sixel_image_t :=
  Build_sixel_image_t (width x) (height x) (data x) v (ncolors x) (palette_modified x) (use_private_register x).

Definition set_ncolors (x : sixel_image_t) (v : Z) : sixel_image_t :=
  Build_sixel_image_t (width x) (height x) (data x) (palette x) v (palette_modified x) (use_private_register x).

Definition set_palette_modified (x : sixel_image_t) (v : Z) : sixel_image_t :=
  Build_sixel_image_t (width x) (height x) (data x) (palette x) (ncolors x) v (use_private_register x).

Definition set_use_private_register (x : sixel_image_t) (v : Z) : sixel_image_t :=
  Build_sixel_image_t (width x) (height x) (data x) (palette x) (ncolors x) (palette_modified x) v.

Definition set_state (x : sixel_state_t) (v : parse_state_t) : sixel_state_t :=
  Build_sixel_state_t v (pos_x x) (pos_y x) (max_x x) (max_y x) (attributed_pan x) (attributed_pad x) (attributed_ph x) (attributed_pv x) (repeat_count x) (color_index x) (param x) (nparams x) (params x) (image x).

Definition set_pos_x (x : sixel_state_t) (v : Z) : sixel_state_t :=
  Build_sixel_state_t (state x) v (pos_y x) (max_x x) (max_y x) (attributed_pan x) (attributed_pad x) (attributed_ph x) (attributed_pv x) (repeat_count x) (color_index x) (param x) (nparams x) (params x) (image x).

Definition set_pos_y (x : sixel_state_t) (v : Z) : sixel_state_t :=
  Build_sixel_state_t (state x) (pos_x x) v (max_x x) (max_y x) (attributed_pan x) (attributed_pad x) (attributed_ph x) (attributed_pv x) (repeat_count x) (color_index x) (param x) (nparams x) (params x) (image x).

Definition set_max_x (x : sixel_state_t) (v : Z) : sixel_state_t :=
  Build_sixel_state_t (state x) (pos_x x) (pos_y x) v (max_y x) (attributed_pan x) (attributed_pad x) (attributed_ph x) (attributed_pv x) (repeat_count x) (color_index x) (param x) (nparams x) (params x) (image x).

Definition set_max_y (x : sixel_state_t) (v : Z) : sixel_state_t :=
  Build_sixel_state_t (state x) (pos_x x) (pos_y x) (max_x x) v (attributed_pan x) (attributed_pad x) (attributed_ph x) (attributed_pv x) (repeat_count x) (color_index x) (param x) (nparams x) (params x) (image x).

Definition set_attributed_pan (x : sixel_state_t) (v : Z) : sixel_state_t :=
  Build_sixel_state_t (state x) (pos_x x) (pos_y x) (max_x x) (max_y x) v (attributed_pad x) (attributed_ph x) (attributed_pv x) (repeat_count x) (color_index x) (param x) (nparams x) (params x) (image x).

Definition set_attributed_pad (x : sixel_state_t) (v : Z) : sixel_state_t :=
  Build_sixel_state_t (state x) (pos_x x) (pos_y x) (max_x x) (max_y x) (attributed_pan x) v (attributed_ph x) (attributed_pv x) (repeat_count x) (color_index x) (param x) (nparams x) (params x) (image x).

Definition set_attributed_ph (x : sixel_state_t) (v : Z) : sixel_state_t :=
  Build_sixel_state_t (state x) (pos_x x) (pos_y x) (max_x x) (max_y x) (attributed_pan x) (attributed_pad x) v (attributed_pv x) (repeat_count x) (color_index x) (param x) (nparams x) (params x) (image x).

Definition set_attributed_pv (x : sixel_state_t) (v : Z) : sixel_state_t :=
  Build_sixel_state_t (state x) (pos_x x) (pos_y x) (max_x x) (max_y x) (attributed_pan x) (attributed_pad x) (attributed_ph x) v (repeat_count x) (color_index x) (param x) (nparams x) (params x) (image x).

Definition set_repeat_count (x : sixel_state_t) (v : Z) : sixel_state_t :=
  Build_sixel_state_t (state x) (pos_x x) (pos_y x) (max_x x) (max_y x) (attributed_pan x) (attributed_pad x) (attributed_ph x) (attributed_pv x) v (color_index x) (param x) (nparams x) (params x) (image x).

Definition set_color_index (x : sixel_state_t) (v : Z) : sixel_state_t :=
  Build_sixel_state_t (state x) (pos_x x) (pos_y x) (max_x x) (max_y x) (attributed_pan x) (attributed_pad x) (attributed_ph x) (attributed_pv x) (repeat_count x) v (param x) (nparams x) (params x) (image x).

Definition set_param (x : sixel_state_t) (v : Z) : sixel_state_t :=
  Build_sixel_state_t (state x) (pos_x x) (pos_y x) (max_x x) (max_y x) (attributed_pan x) (attributed_pad x) (attributed_ph x) (attributed_pv x) (repeat_count x) (color_index x) v (nparams x) (params x) (image x).

Definition set_nparams (x : sixel_state_t) (v : Z) : sixel_state_t :=
  Build_sixel_state_t (state x) (pos_x x) (pos_y x) (max_x x) (max_y x) (attributed_pan x) (attributed_pad x) (attributed_ph x) (attributed_pv x) (repeat_count x) (color_index x) (param x) v (params x) (image x).

Definition set_params (x : sixel_state_t) (v : list Z) : sixel_state_t :=
  Build_sixel_state_t (state x) (pos_x x) (pos_y x) (max_x x) (max_y x) (attributed_pan x) (attributed_pad x) (attributed_ph x) (attributed_pv x) (repeat_count x) (color_index x) (param x) (nparams x) v (image x).

Definition set_image (x : sixel_state_t) (v : sixel_image_t) : sixel_state_t :=
  Build_sixel_state_t (state x) (pos_x x) (pos_y x) (max_x x) (max_y x) (attributed_pan x) (attributed_pad x) (attributed_ph x) (attributed_pv x) (repeat_count x) (color_index x) (param x) (nparams x) (params x) v.

(** ** The allocator

    [g_malloc] is outside the program: the model takes the outcomes of the
    allocations to come, in order, [false] for one that returns [NULL];
    when the list is used up every allocation succeeds. *)
Definition heap : Type := list bool.

Definition g_malloc (h : heap) : bool * heap :=
  match h with
  | [] => (true, [])
  | ok :: h' => (ok, h')
  end.

Section WithLimits.

(** The limits of sixel.h, which is not among the sources. *)
Variables DECSIXEL_PARAMS_MAX DECSIXEL_PALETTE_MAX DECSIXEL_PARAMVALUE_MAX : Z.
Variables DECSIXEL_WIDTH_MAX DECSIXEL_HEIGHT_MAX : Z.

(** ** The default palette *)

(** [palette[n++] = v] for each [v] of a list, from [n] on. *)
Fixpoint store_colors (pal : list Z) (n : Z) (vs : list Z) : option (list Z * Z) :=
  match vs with
  | [] => Some (pal, n)
  | v :: vs' =>
      do pal' <- array_store pal n v;
      store_colors pal' (n + 1) vs'
  end.

Definition zero_to_five : list Z := [0; 1; 2; 3; 4; 5].

(** The 6x6x6 cube in the order of the three nested loops. *)
Definition color_cube : list Z :=
  flat_map (fun r => flat_map (fun g => map (fun b =>
    SIXEL_RGB (r * 51) (g * 51) (b * 51)) zero_to_five) zero_to_five) zero_to_five.

Definition gray_ramp : list Z :=
  map (fun i => SIXEL_RGB (i * 11) (i * 11) (i * 11)) (map Z.of_nat (seq 0 24)).

Definition set_default_color (image : sixel_image_t) : option (Z * sixel_image_t) :=
  (* palette initialization *)
  do pn <- store_colors (palette image) 1 sixel_default_color_table;
  (* colors 17-232 are a 6x6x6 color cube *)
  do pn <- store_colors (fst pn) (snd pn) color_cube;
  (* colors 233-256 are a grayscale ramp *)
  do pn <- store_colors (fst pn) (snd pn) gray_ramp;
  do pn <- store_colors (fst pn) (snd pn)
             (replicate (Z.to_nat (DECSIXEL_PALETTE_MAX - snd pn))
                        (SIXEL_RGB 255 255 255));
  Some (0, set_palette image (fst pn)).

(** ** The image buffer *)

Definition sixel_image_init (h : heap) (image : sixel_image_t)
           (width height fgcolor bgcolor use_private_register : Z)
  : option (Z * sixel_image_t * heap) :=
  let image := set_width image width in
  let image := set_height image height in
  let '(ok, h) := g_malloc h in
  let image := set_ncolors image 2 in
  let image := set_use_private_register image use_private_register in
  if negb ok then Some (-1, set_data image None, h)
  else
    let image := set_data image (Some (replicate (Z.to_nat (width * height)) 0)) in
    do pal <- array_store (palette image) 0 bgcolor;
    do pal <- (if use_private_register =? 0 then Some pal
               else array_store pal 1 fgcolor);
    let image := set_palette image pal in
    let image := set_palette_modified image 0 in
    Some (0, image, h).

(** [memcpy(dst, src + off, n)] reads [n] cells of [src] from [off] on. *)
Definition cells_from (src : list Z) (off n : Z) : option (list Z) :=
  if (0 <=? off) && (0 <=? n) && (off + n <=? Z.of_nat (List.length src))
  then Some (take (Z.to_nat n) (drop (Z.to_nat off) src))
  else None.

(** The rows of the new buffer that the two copy loops of
    [image_buffer_resize] write, [n] counting the rows left and [row] the
    current one.  Row [row] goes to offset [width * row]: the rows come out
    one after the other. *)
Fixpoint copy_rows (src : list Z) (old_width width : Z) (row : Z) (n : nat)
  : option (list Z) :=
  match n with
  | O => Some []
  | S n' =>
      do line <- (if width >? old_width then
                    (* copy from source image, fill extended area with
                       background color *)
                    do cells <- cells_from src (old_width * row) old_width;
                    Some (cells ++ replicate (Z.to_nat (width - old_width)) 0)
                  else cells_from src (old_width * row) width);
      do rest <- copy_rows src old_width width (row + 1) n';
      Some (line ++ rest)
  end.

Definition image_buffer_resize (h : heap) (image : sixel_image_t) (width height : Z)
  : option (Z * sixel_image_t * heap) :=
  let '(ok, h) := g_malloc h in
  if negb ok then
    (* free source image *)
    Some (-1, set_data image None, h)
  else
    do src <- data image;
    let min_height := if height >? Sixel.height image then Sixel.height image else height in
    do top <- copy_rows src (Sixel.width image) width 0 (Z.to_nat min_height);
    do alt_buffer <-
      (if height >? Sixel.height image then
         (* fill extended area with background color *)
         if (width * Sixel.height image =? Z.of_nat (List.length top))
            && (0 <=? width * (height - Sixel.height image))
         then Some (top ++ replicate (Z.to_nat (width * (height - Sixel.height image))) 0)
         else None
       else Some top);
    let image := set_data image (Some alt_buffer) in
    let image := set_width image width in
    let image := set_height image height in
    Some (0, image, h).

Definition sixel_image_deinit (image : sixel_image_t) : sixel_image_t :=
  set_data image None.

(** ** The public functions *)

(** [sixel_parser_init] fills the structure it is given: [params] and the
    palette entries it does not set keep what was there. *)
Definition sixel_parser_init (h : heap) (st : sixel_state_t)
           (fgcolor bgcolor use_private_register : Z)
  : option (Z * sixel_state_t * heap) :=
  let st := set_state st PS_DCS in
  let st := set_pos_x st 0 in
  let st := set_pos_y st 0 in
  let st := set_max_x st 0 in
  let st := set_max_y st 0 in
  let st := set_attributed_pan st 2 in
  let st := set_attributed_pad st 1 in
  let st := set_attributed_ph st 0 in
  let st := set_attributed_pv st 0 in
  let st := set_repeat_count st 1 in
  let st := set_color_index st 16 in
  let st := set_nparams st 0 in
  let st := set_param st 0 in
  (* buffer initialization *)
  do r <- sixel_image_init h (image st) 1 1 fgcolor bgcolor use_private_register;
  let '(status, img, h) := r in
  Some (status, set_image st img, h).

Definition sixel_parser_set_default_color (st : sixel_state_t)
  : option (Z * sixel_state_t) :=
  do r <- set_default_color (image st);
  Some (fst r, set_image st (snd r)).

(** The four bytes of one pixel: [palette[*src]] as B, G, R, A. *)
Definition bgra (color : Z) : list Z :=
  [ Z.land (Z.shiftr color 16) 255;
    Z.land (Z.shiftr color 8) 255;
    Z.land (Z.shiftr color 0) 255;
    255 ].

(** [for (x = 0; x < width; ++x)] of [sixel_parser_finalize]: [n] pixels read
    from [src] on. *)
Fixpoint emit_pixels (d pal : list Z) (src : Z) (n : nat) : option (list Z) :=
  match n with
  | O => Some []
  | S n' =>
      do idx <- array_at d src;
      do color <- array_at pal idx;
      do rest <- emit_pixels d pal (src + 1) n';
      Some (bgra color ++ rest)
  end.

(** [for (y = 0; y < height; ++y)]: [rows] rows of [w] pixels. *)
Fixpoint emit_rows (d pal : list Z) (src : Z) (w : Z) (rows : nat) : option (list Z) :=
  match rows with
  | O => Some []
  | S rows' =>
      do line <- emit_pixels d pal src (Z.to_nat w);
      do rest <- emit_rows d pal (src + Z.of_nat (Z.to_nat w)) w rows';
      Some (line ++ rest)
  end.

(** [image->use_private_register && image->ncolors > 2 &&
    !image->palette_modified]: the test under which
    [sixel_parser_finalize] loads the default palette. *)
Definition loads_default_palette (img : sixel_image_t) : bool :=
  negb (use_private_register img =? 0) && (ncolors img >? 2)
  && (palette_modified img =? 0).

(** The second half of [sixel_parser_finalize], from that test on: the
    default palette where it applies, and the pixels in scan order. *)
Definition write_raster (h : heap) (status : Z) (st : sixel_state_t)
  : option (Z * sixel_state_t * list Z * heap) :=
  let img := image st in
  let load := loads_default_palette img in
  do r <- (if load then set_default_color img else Some (status, img));
  let '(status, img) := r in
  let st := set_image st img in
  if load && (status <? 0) then Some (status, st, [], h)
  else
    do d <- data img;
    do pixels <- emit_rows d (palette img) 0 (width img) (Z.to_nat (height img));
    Some (0, st, pixels, h).

(** [sixel_parser_finalize]: the status, the state, the bytes written to
    [pixels] in order, and the allocator. *)
Definition sixel_parser_finalize (h : heap) (st : sixel_state_t)
  : option (Z * sixel_state_t * list Z * heap) :=
  let status := -1 in
  let st := set_max_x st (max_x st + 1) in
  let st := if max_x st <? attributed_ph st then set_max_x st (attributed_ph st) else st in
  let st := set_max_y st (max_y st + 1) in
  let st := if max_y st <? attributed_pv st then set_max_y st (attributed_pv st) else st in
  let sx := max_x st in
  let sy := max_y st in
  let shrink := (width (image st) >? sx) || (height (image st) >? sy) in
  do r <- (if shrink then image_buffer_resize h (image st) sx sy
           else Some (status, image st, h));
  let '(status, img, h) := r in
  let st := set_image st img in
  if shrink && (status <? 0) then Some (status, st, [], h)
  else write_raster h status st.

(** ** The parser *)

(** The bytes the parser names. *)
Definition is_digit (c : Z) : bool := (48 <=? c) && (c <=? 57).

(** [if (st->nparams < DECSIXEL_PARAMS_MAX) st->params[st->nparams++] = st->param;] *)
Definition push_param (st : sixel_state_t) : option sixel_state_t :=
  if nparams st <? DECSIXEL_PARAMS_MAX then
    do ps <- array_store (params st) (nparams st) (param st);
    Some (set_nparams (set_params st ps) (nparams st + 1))
  else Some st.

(** [st->param = st->param * 10 + *p - '0';] and the clamp of the three
    states that have one. *)
Definition accumulate (st : sixel_state_t) (c : Z) : sixel_state_t :=
  set_param st (param st * 10 + c - 48).

Definition accumulate_clamped (st : sixel_state_t) (c : Z) : sixel_state_t :=
  let st := accumulate st c in
  if param st >? DECSIXEL_PARAMVALUE_MAX
  then set_param st DECSIXEL_PARAMVALUE_MAX
  else st.

(** How one turn of the [while] loop ends: at the [break] of the outer
    [switch], with or without [p++] before it, or at [goto end]. *)
Inductive flow : Type :=
| Continue (consumed : bool) (status : Z) (st : sixel_state_t) (h : heap)
| Goto_end (consumed : bool) (status : Z) (st : sixel_state_t) (h : heap).

(** [case PS_ESC] *)
Definition iteration_ESC (h : heap) (status : Z) (st : sixel_state_t) (c : Z) : option flow :=
  if (c =? 92) || (c =? 156) then Some (Goto_end true status st h)
  else if c =? 80 (* 'P' *) then
    Some (Goto_end true status (set_state (set_param st (-1)) PS_DCS) h)
  else Some (Goto_end true status st h).

(** The table of [Pn1]. *)
Definition pad_of_Pn1 (pn1 : Z) : Z :=
  if (pn1 =? 0) || (pn1 =? 1) then 2
  else if pn1 =? 2 then 5
  else if (pn1 =? 3) || (pn1 =? 4) then 4
  else if (pn1 =? 5) || (pn1 =? 6) then 3
  else if (pn1 =? 7) || (pn1 =? 8) then 2
  else if pn1 =? 9 then 1
  else 2.

(** [case PS_DCS] *)
Definition iteration_DCS (h : heap) (status : Z) (st : sixel_state_t) (c : Z) : option flow :=
  if c =? 27 then Some (Continue true status (set_state st PS_ESC) h)
  else if is_digit c then
    let st := if param st <? 0 then set_param st 0 else st in
    Some (Continue true status (accumulate st c) h)
  else if c =? 59 (* ';' *) then
    let st := if param st <? 0 then set_param st 0 else st in
    do st <- push_param st;
    Some (Continue true status (set_param st 0) h)
  else if c =? 113 (* 'q' *) then
    do st <- (if (param st >=? 0) && (nparams st <? DECSIXEL_PARAMS_MAX)
              then push_param st else Some st);
    do st <- (if nparams st >? 0 then
                (* Pn1 *)
                do pn1 <- array_at (params st) 0;
                Some (set_attributed_pad st (pad_of_Pn1 pn1))
              else Some st);
    do st <- (if nparams st >? 2 then
                (* Pn3 *)
                do pn3 <- array_at (params st) 2;
                do ps <- (if pn3 =? 0 then array_store (params st) 2 10
                          else Some (params st));
                let st := set_params st ps in
                do pn3 <- array_at (params st) 2;
                let st := set_attributed_pan st (Z.quot (attributed_pan st * pn3) 10) in
                let st := set_attributed_pad st (Z.quot (attributed_pad st * pn3) 10) in
                let st := if attributed_pan st <=? 0 then set_attributed_pan st 1 else st in
                let st := if attributed_pad st <=? 0 then set_attributed_pad st 1 else st in
                Some st
              else Some st);
    Some (Continue true status (set_state (set_nparams st 0) PS_DECSIXEL) h)
  else Some (Continue true status st h).

(** *** Painting *)

(** [image->data[pos] = st->color_index;] *)
Definition store_pixel (st : sixel_state_t) (pos : Z) : option sixel_state_t :=
  do d <- data (image st);
  do d' <- array_store d pos (color_index st);
  Some (set_image st (set_data (image st) (Some d'))).

(** [if (st->max_x < x) st->max_x = x; if (st->max_y < y) st->max_y = y;] *)
Definition bump_max (st : sixel_state_t) (x y : Z) : sixel_state_t :=
  let st := if max_x st <? x then set_max_x st x else st in
  if max_y st <? y then set_max_y st y else st.

(** The loop of a sixel that is not repeated:
    [for (i = 0; i < 6; i++) { ...; sixel_vertical_mask <<= 1; }],
    [n] counting the turns left. *)
Fixpoint paint_column (n : nat) (i mask bits : Z) (st : sixel_state_t)
  : option sixel_state_t :=
  match n with
  | O => Some st
  | S n' =>
      do st <- (if negb (Z.land bits mask =? 0) then
                  let pos := width (image st) * (pos_y st + i) + pos_x st in
                  do st <- store_pixel st pos;
                  Some (bump_max st (pos_x st) (pos_y st + i))
                else Some st);
      paint_column n' (i + 1) (Z.shiftl mask 1) bits st
  end.

(** [for (n = 1; (i + n) < 6; n++) { if ((bits & c) == 0) break; c <<= 1; }]:
    the value of [n] after the loop. *)
Fixpoint run_length (fuel : nat) (bits c i n : Z) : option Z :=
  if i + n <? 6 then
    match fuel with
    | O => None
    | S fuel' =>
        if Z.land bits c =? 0 then Some n
        else run_length fuel' bits (Z.shiftl c 1) i (n + 1)
    end
  else Some n.

(** [for (x = st->pos_x; x < st->pos_x + st->repeat_count; ++x)
       image->data[image->width * y + x] = st->color_index;] *)
Fixpoint fill_cells (st : sixel_state_t) (y x : Z) (n : nat) : option sixel_state_t :=
  match n with
  | O => Some st
  | S n' =>
      do st <- store_pixel st (width (image st) * y + x);
      fill_cells st y (x + 1) n'
  end.

(** [for (y = st->pos_y + i; y < st->pos_y + i + n; ++y) ...] *)
Fixpoint fill_rows (st : sixel_state_t) (y : Z) (n : nat) : option sixel_state_t :=
  match n with
  | O => Some st
  | S n' =>
      do st <- fill_cells st y (pos_x st) (Z.to_nat (repeat_count st));
      fill_rows st (y + 1) n'
  end.

(** The loop of a repeated sixel: each run of set bits is painted as one
    rectangle, and [i] and the mask skip the run. *)
Fixpoint paint_runs (fuel : nat) (i mask bits : Z) (st : sixel_state_t)
  : option sixel_state_t :=
  if i <? 6 then
    match fuel with
    | O => None
    | S fuel' =>
        if negb (Z.land bits mask =? 0) then
          do n <- run_length 6 bits (Z.shiftl mask 1) i 1;
          do st <- fill_rows st (pos_y st + i) (Z.to_nat n);
          let st := bump_max st (pos_x st + repeat_count st - 1) (pos_y st + i + n - 1) in
          paint_runs fuel' (i + (n - 1) + 1) (Z.shiftl (Z.shiftl mask (n - 1)) 1) bits st
        else paint_runs fuel' (i + 1) (Z.shiftl mask 1) bits st
    end
  else Some st.

(** [while (sx < pos_x + repeat_count || sy < pos_y + 6) { sx *= 2; sy *= 2; }] *)
Fixpoint grow (fuel : nat) (sx sy tx ty : Z) : option (Z * Z) :=
  if (sx <? tx) || (sy <? ty) then
    match fuel with
    | O => None
    | S fuel' => grow fuel' (sx * 2) (sy * 2) tx ty
    end
  else Some (sx, sy).

(** The sixel characters ['?'] to ['~'] of [case PS_DECSIXEL]. *)
Definition sixel_character (h : heap) (status : Z) (st : sixel_state_t) (c : Z)
  : option flow :=
  let image := image st in
  do r <- (if ((width image <? pos_x st + repeat_count st)
               || (height image <? pos_y st + 6))
              && (width image <? DECSIXEL_WIDTH_MAX)
              && (height image <? DECSIXEL_HEIGHT_MAX)
           then
             let tx := pos_x st + repeat_count st in
             let ty := pos_y st + 6 in
             do s <- grow (Z.to_nat (Z.max tx ty)) (width image * 2) (height image * 2) tx ty;
             let sx := if fst s >? DECSIXEL_WIDTH_MAX then DECSIXEL_WIDTH_MAX else fst s in
             let sy := if snd s >? DECSIXEL_HEIGHT_MAX then DECSIXEL_HEIGHT_MAX else snd s in
             do r <- image_buffer_resize h image sx sy;
             let '(status, image, h) := r in
             Some (true, status, set_image st image, h)
           else Some (false, status, st, h));
  let '(resized, status, st, h) := r in
  if resized && (status <? 0) then Some (Goto_end false status st h)
  else
    let st := if color_index st >? ncolors (Sixel.image st)
              then set_image st (set_ncolors (Sixel.image st) (color_index st))
              else st in
    let st := if pos_x st + repeat_count st >? width (Sixel.image st)
              then set_repeat_count st (width (Sixel.image st) - pos_x st)
              else st in
    do st <- (if (repeat_count st >? 0) && (pos_y st - 5 <? height (Sixel.image st)) then
                let bits := c - 63 in
                if negb (bits =? 0) then
                  if repeat_count st <=? 1
                  then paint_column 6 0 1 bits st
                  else paint_runs 6 0 1 bits st
                else Some st
              else Some st);
    let st := if repeat_count st >? 0
              then set_pos_x st (pos_x st + repeat_count st)
              else st in
    let st := set_repeat_count st 1 in
    Some (Continue true status st h).

(** [case PS_DECSIXEL] *)
Definition iteration_DECSIXEL (h : heap) (status : Z) (st : sixel_state_t) (c : Z)
  : option flow :=
  if c =? 27 then Some (Continue true status (set_state st PS_ESC) h)
  else if c =? 34 (* the double quote *) then
    Some (Continue true status (set_state (set_nparams (set_param st 0) 0) PS_DECGRA) h)
  else if c =? 33 (* '!' *) then
    Some (Continue true status (set_state (set_nparams (set_param st 0) 0) PS_DECGRI) h)
  else if c =? 35 (* '#' *) then
    Some (Continue true status (set_state (set_nparams (set_param st 0) 0) PS_DECGCI) h)
  else if c =? 36 (* '$' *) then
    (* DECGCR Graphics Carriage Return *)
    Some (Continue true status (set_pos_x st 0) h)
  else if c =? 45 (* '-' *) then
    (* DECGNL Graphics Next Line *)
    let st := set_pos_x st 0 in
    let st := if pos_y st <? DECSIXEL_HEIGHT_MAX - 5 - 6
              then set_pos_y st (pos_y st + 6)
              else set_pos_y st (DECSIXEL_HEIGHT_MAX + 1) in
    Some (Continue true status st h)
  else if (c >=? 63) && (c <=? 126) then sixel_character h status st c
  else Some (Continue true status st h).

(** [case PS_DECGRA]: Set Raster Attributes, a double quote and then
    [Pan; Pad; Ph; Pv] *)
Definition iteration_DECGRA (h : heap) (status : Z) (st : sixel_state_t) (c : Z)
  : option flow :=
  if c =? 27 then Some (Continue true status (set_state st PS_ESC) h)
  else if is_digit c then Some (Continue true status (accumulate_clamped st c) h)
  else if c =? 59 then
    do st <- push_param st;
    Some (Continue true status (set_param st 0) h)
  else
    do st <- push_param st;
    do st <- (if nparams st >? 0
              then do v <- array_at (params st) 0; Some (set_attributed_pad st v)
              else Some st);
    do st <- (if nparams st >? 1
              then do v <- array_at (params st) 1; Some (set_attributed_pan st v)
              else Some st);
    do st <- (if nparams st >? 2
              then do v <- array_at (params st) 2;
                   Some (if v >? 0 then set_attributed_ph st v else st)
              else Some st);
    do st <- (if nparams st >? 3
              then do v <- array_at (params st) 3;
                   Some (if v >? 0 then set_attributed_pv st v else st)
              else Some st);
    let st := if attributed_pan st <=? 0 then set_attributed_pan st 1 else st in
    let st := if attributed_pad st <=? 0 then set_attributed_pad st 1 else st in
    let image := image st in
    do r <- (if (width image <? attributed_ph st) || (height image <? attributed_pv st)
             then
               let sx := attributed_ph st in
               let sx := if width image >? attributed_ph st then width image else sx in
               let sy := attributed_pv st in
               let sy := if height image >? attributed_pv st then height image else sy in
               let sx := if sx >? DECSIXEL_WIDTH_MAX then DECSIXEL_WIDTH_MAX else sx in
               let sy := if sy >? DECSIXEL_HEIGHT_MAX then DECSIXEL_HEIGHT_MAX else sy in
               do r <- image_buffer_resize h image sx sy;
               let '(status, image, h) := r in
               Some (true, status, set_image st image, h)
             else Some (false, status, st, h));
    let '(resized, status, st, h) := r in
    if resized && (status <? 0) then Some (Goto_end false status st h)
    else
      Some (Continue false status
                     (set_nparams (set_param (set_state st PS_DECSIXEL) 0) 0) h).

(** [case PS_DECGRI]: Graphics Repeat Introducer [! Pn Ch] *)
Definition iteration_DECGRI (h : heap) (status : Z) (st : sixel_state_t) (c : Z)
  : option flow :=
  if c =? 27 then Some (Continue true status (set_state st PS_ESC) h)
  else if is_digit c then Some (Continue true status (accumulate_clamped st c) h)
  else
    let st := set_repeat_count st (param st) in
    let st := if repeat_count st =? 0 then set_repeat_count st 1 else st in
    Some (Continue false status
                   (set_nparams (set_param (set_state st PS_DECSIXEL) 0) 0) h).

(** [case PS_DECGCI]: Graphics Color Introducer [# Pc; Pu; Px; Py; Pz] *)
Definition iteration_DECGCI (h : heap) (status : Z) (st : sixel_state_t) (c : Z)
  : option flow :=
  if c =? 27 then Some (Continue true status (set_state st PS_ESC) h)
  else if is_digit c then Some (Continue true status (accumulate_clamped st c) h)
  else if c =? 59 then
    do st <- push_param st;
    Some (Continue true status (set_param st 0) h)
  else
    let st := set_state st PS_DECSIXEL in
    do st <- push_param st;
    let st := set_param st 0 in
    do st <- (if nparams st >? 0 then
                do v <- array_at (params st) 0;
                (* offset 1(background color) added *)
                let st := set_color_index st (1 + v) in
                Some (if color_index st <? 0 then set_color_index st 0
                      else if color_index st >=? DECSIXEL_PALETTE_MAX
                           then set_color_index st (DECSIXEL_PALETTE_MAX - 1)
                           else st)
              else Some st);
    do st <- (if nparams st >? 4 then
                let st := set_image st (set_palette_modified (image st) 1) in
                do pu <- array_at (params st) 1;
                if pu =? 1 then
                  (* HLS *)
                  do px <- array_at (params st) 2;
                  do ps <- (if px >? 360 then array_store (params st) 2 360
                            else Some (params st));
                  do py <- array_at ps 3;
                  do ps <- (if py >? 100 then array_store ps 3 100 else Some ps);
                  do pz <- array_at ps 4;
                  do ps <- (if pz >? 100 then array_store ps 4 100 else Some ps);
                  let st := set_params st ps in
                  do px <- array_at ps 2;
                  do py <- array_at ps 3;
                  do pz <- array_at ps 4;
                  do color <- hls_to_rgb px py pz;
                  do pal <- array_store (palette (image st)) (color_index st) color;
                  Some (set_image st (set_palette (image st) pal))
                else if pu =? 2 then
                  (* RGB *)
                  do px <- array_at (params st) 2;
                  do ps <- (if px >? 100 then array_store (params st) 2 100
                            else Some (params st));
                  do py <- array_at ps 3;
                  do ps <- (if py >? 100 then array_store ps 3 100 else Some ps);
                  do pz <- array_at ps 4;
                  do ps <- (if pz >? 100 then array_store ps 4 100 else Some ps);
                  let st := set_params st ps in
                  do px <- array_at ps 2;
                  do py <- array_at ps 3;
                  do pz <- array_at ps 4;
                  do pal <- array_store (palette (image st)) (color_index st)
                                        (SIXEL_XRGB px py pz);
                  Some (set_image st (set_palette (image st) pal))
                else Some st
              else Some st);
    Some (Continue false status st h).

(** One turn of [while (p < p0 + len) { switch (st->state) ... }] on the
    byte [*p]. *)
Definition parse_iteration (h : heap) (status : Z) (st : sixel_state_t) (c : Z)
  : option flow :=
  match state st with
  | PS_ESC => iteration_ESC h status st c
  | PS_DCS => iteration_DCS h status st c
  | PS_DECSIXEL => iteration_DECSIXEL h status st c
  | PS_DECGRA => iteration_DECGRA h status st c
  | PS_DECGRI => iteration_DECGRI h status st c
  | PS_DECGCI => iteration_DECGCI h status st c
  end.

(** What a call of the parser leaves: the status returned, the state, the
    bytes not consumed, and the allocator. *)
Definition parsed : Type := Z * sixel_state_t * list Z * heap.

(** The [while] loop, [fuel] bounding its turns.  The outer [None] is a
    loop that would need more turns; the inner one an execution without a
    defined result. *)
Fixpoint parse_loop (fuel : nat) (h : heap) (status : Z) (st : sixel_state_t)
         (p : list Z) : option (option parsed) :=
  match p with
  | [] => Some (Some (0, st, [], h))
  | c :: rest =>
      match fuel with
      | O => None
      | S fuel' =>
          match parse_iteration h status st c with
          | None => Some None
          | Some (Continue consumed status st h) =>
              parse_loop fuel' h status st (if consumed then rest else p)
          | Some (Goto_end consumed status st h) =>
              Some (Some (status, st, if consumed then rest else p, h))
          end
      end
  end.

(** [sixel_parser_parse] with all that it leaves.  No byte needs more than
    two turns of the loop ([parse_loop_fuel]). *)
Definition sixel_parser_parse_run (h : heap) (st : sixel_state_t) (p : list Z)
  : option parsed :=
  match data (image st) with
  | None => Some (-1, st, p, h)
  | Some _ =>
      match parse_loop (2 * List.length p) h (-1) st p with
      | Some r => r
      | None => None
      end
  end.

(** [sixel_parser_parse]: the status and the state. *)
Definition sixel_parser_parse (h : heap) (st : sixel_state_t) (p : list Z)
  : option (Z * sixel_state_t) :=
  do r <- sixel_parser_parse_run h st p;
  let '(status, st, _, _) := r in
  Some (status, st).

Definition sixel_parser_deinit (st : sixel_state_t) : sixel_state_t :=
  set_image st (sixel_image_deinit (image st)).

(** ** Well-formed states, and what the specification says of a call *)

(** A cell of the buffer is a palette index. *)
Definition valid_index (v : Z) : Prop := 0 <= v < DECSIXEL_PALETTE_MAX.

(** The buffer, when there is one, has [width * height] cells, each a
    palette index. *)
Definition data_ok (image : sixel_image_t) : Prop :=
  forall d, data image = Some d ->
    Z.of_nat (List.length d) = width image * height image /\ Forall valid_index d.

(** The grid invariants of section 3. *)
Definition image_bounded (image : sixel_image_t) : Prop :=
  1 <= width image <= DECSIXEL_WIDTH_MAX /\
  1 <= height image <= DECSIXEL_HEIGHT_MAX /\
  data_ok image.

(** The invariant of the decoder: the grid invariants, and a current colour
    that is a palette index. *)
Definition decoder_ok (st : sixel_state_t) : Prop :=
  image_bounded (image st) /\ valid_index (color_index st).

(** What a turn of the loop leaves of the decoder's invariant. *)
Definition flow_ok (f : flow) : Prop :=
  match f with
  | Continue _ _ st _ => decoder_ok st
  | Goto_end _ _ st _ => decoder_ok st
  end.

(** The states after [sixel_parser_init] and after every call of
    [sixel_parser_parse] that returns. *)
Inductive reachable : sixel_state_t -> Prop :=
| reach_init (h : heap) (st : sixel_state_t) (fgcolor bgcolor use_private_register : Z)
             (status : Z) (st' : sixel_state_t) (h' : heap) :
    sixel_parser_init h st fgcolor bgcolor use_private_register = Some (status, st', h') ->
    reachable st'
| reach_parse (h : heap) (st : sixel_state_t) (p : list Z)
              (status : Z) (st' : sixel_state_t) :
    reachable st ->
    sixel_parser_parse h st p = Some (status, st') ->
    reachable st'.

(** The turns of the loop that the bytes [p] can take from the state [st]:
    two for a byte, of which the first leaves the byte in place and the
    decoder in [PS_DECSIXEL]. *)
Definition turns (st : sixel_state_t) (p : list Z) : nat :=
  match p with
  | [] => 0
  | _ :: _ =>
      match state st with
      | PS_DECSIXEL => 2 * List.length p - 1
      | _ => 2 * List.length p
      end
  end.

(** The states whose digits are clamped, and the states whose [;] stores a
    parameter. *)
Definition clamping_state (s : parse_state_t) : bool :=
  match s with
  | PS_DECGRA | PS_DECGRI | PS_DECGCI => true
  | _ => false
  end.

Definition listing_state (s : parse_state_t) : bool :=
  match s with
  | PS_DCS | PS_DECGRA | PS_DECGCI => true
  | _ => false
  end.

(** Section 4.2 on [-], read literally: [pos_y] moves down when it is at
    most [DECSIXEL_HEIGHT_MAX - 11]. *)
Definition newline_as_specified (st st' : sixel_state_t) : Prop :=
  pos_x st' = 0 /\
  pos_y st' = (if pos_y st <=? DECSIXEL_HEIGHT_MAX - 11
               then pos_y st + 6 else DECSIXEL_HEIGHT_MAX + 1).

(** Section 4.2 on [;], read literally: [param] goes to [params] when there
    is room, and is reset. *)
Definition semicolon_as_specified (st st' : sixel_state_t) : Prop :=
  param st' = 0 /\
  if nparams st <? DECSIXEL_PARAMS_MAX
  then nparams st' = nparams st + 1 /\
       array_at (params st') (nparams st) = Some (param st)
  else nparams st' = nparams st /\ params st' = params st.

(** Section 4.2 on [parser_finalize], read literally: the raster has the
    extents that [max_x] and [max_y] hold after the call. *)
Definition raster_has_final_extent (h : heap) (st : sixel_state_t) : Prop :=
  exists st' pixels h',
    sixel_parser_finalize h st = Some (0, st', pixels, h') /\
    width (image st') = max_x st' /\ height (image st') = max_y st' /\
    Z.of_nat (List.length pixels) = 4 * max_x st' * max_y st'.

End WithLimits.

(** ** The loop as a function of the bytes, and what a picture is made of *)

Section Runs.

Variables DECSIXEL_PARAMS_MAX DECSIXEL_PALETTE_MAX DECSIXEL_PARAMVALUE_MAX : Z.
Variables DECSIXEL_WIDTH_MAX DECSIXEL_HEIGHT_MAX : Z.

(** The loop from a given status, with the fuel that is enough. *)
Definition parse_bytes (h : heap) (status : Z) (st : sixel_state_t) (p : list Z)
  : option parsed :=
  match parse_loop DECSIXEL_PARAMS_MAX DECSIXEL_PALETTE_MAX DECSIXEL_PARAMVALUE_MAX
          DECSIXEL_WIDTH_MAX DECSIXEL_HEIGHT_MAX (2 * List.length p) h status st p with
  | Some r => r
  | None => None
  end.

End Runs.

(** The number that a run of digits writes, from [p] on. *)
Definition decimal (p : Z) (digits : list Z) : Z :=
  fold_left (fun p c => p * 10 + c - 48) digits p.

(** The decoder [st] with another picture: the buffer [d] and the extents
    [mx] and [my] of what is painted. *)
Definition repaint (st : sixel_state_t) (d : list Z) (mx my : Z) : sixel_state_t :=
  set_max_y (set_max_x (set_image st (set_data (image st) (Some d))) mx) my.

(** What a sixel leaves in the buffer: the cells of the columns [cols] and
    of the rows [py + i] to [py + k - 1] whose bit is set in [bits] hold
    the colour [col], the other cells what they held. *)
Definition cells_painted (w hh : Z) (cols : Z -> bool) (bits py i k col : Z)
           (d d' : list Z) : Prop :=
  List.length d' = List.length d /\
  forall x y, 0 <= x < w -> 0 <= y < hh ->
    array_at d' (w * y + x)
    = if cols x && (py + i <=? y) && (y <? py + k) && Z.testbit bits (y - py)
      then Some col else array_at d (w * y + x).

(** Whether a bit of [i] to [k - 1] is set in [bits]. *)
Definition any_bit (bits i k : Z) : bool := existsb (Z.testbit bits) (seqZ i (k - i)).

(** What it leaves in [max_y]: the row of the highest bit of [i] to [k - 1]
    that is set, if that is more. *)
Definition extent_y (bits i k py my my' : Z) : Prop :=
  my <= my' /\
  (forall j, i <= j < k -> Z.testbit bits j = true -> py + j <= my') /\
  (my' = my \/ exists j, i <= j < k /\ Z.testbit bits j = true /\ my' = py + j).

(** ** Limits and states for the examples

    sixel.h is not among the sources.  The limits of the examples are the
    typical ones of section 6, with a palette that has room for the entries
    1 to 256 that [set_default_color] writes. *)
Definition typical_params_max : Z := 16.
Definition typical_palette_max : Z := 1024.
Definition typical_paramvalue_max : Z := 65535.
Definition typical_width_max : Z := 4096.
Definition typical_height_max : Z := 4096.

(** The memory of a decoder before [sixel_parser_init]: zeros. *)
Definition blank_state : sixel_state_t :=
  Build_sixel_state_t PS_ESC 0 0 0 0 0 0 0 0 0 0 0 0
    (replicate (Z.to_nat typical_params_max) 0)
    (Build_sixel_image_t 0 0 None (replicate (Z.to_nat typical_palette_max) 0) 0 0 0).

(** The decoder that [sixel_parser_init] leaves, with the allocations [h],
    white on black and private colour registers. *)
Definition started (h : heap) : sixel_state_t :=
  match sixel_parser_init h blank_state 16777215 0 1 with
  | Some (_, st, _) => st
  | None => blank_state
  end.

(** The decoder after the bytes [p], all allocations succeeding. *)
Definition after (p : list Z) : sixel_state_t :=
  match sixel_parser_parse typical_params_max typical_palette_max
          typical_paramvalue_max typical_width_max typical_height_max
          [] (started []) p with
  | Some (_, st) => st
  | None => blank_state
  end.

(** The decoder after [q#1;2;100;0;0~]: a red column of six pixels in an
    8x8 image. *)
Definition red_column : sixel_state_t :=
  after [113; 35; 49; 59; 50; 59; 49; 48; 48; 59; 48; 59; 48; 126].

End Sixel.

(* ===================================================================== *)
(** * Facts about the arrays of the embedding *)
(* ===================================================================== *)

Lemma bind_some {A B} (m : option A) (k : A -> option B) b :
  bind m k = Some b -> exists a, m = Some a /\ k a = Some b.
Proof. destruct m as [a|]; simpl; [eauto | discriminate]. Qed.

Lemma array_at_in_range {A} (a : list A) i :
  0 <= i < Z.of_nat (List.length a) -> exists v, array_at a i = Some v.
Proof.
  intros [H0 H1]. unfold array_at.
  destruct (Z.leb_spec 0 i); [|lia].
  destruct (lookup_lt_is_Some_2 a (Z.to_nat i)) as [v Hv]; [lia|]. eauto.
Qed.

Lemma array_store_in_range {A} (a : list A) i v :
  0 <= i < Z.of_nat (List.length a) ->
  array_store a i v = Some (<[Z.to_nat i := v]> a).
Proof.
  intros [H0 H1]. unfold array_store.
  destruct (Z.leb_spec 0 i); [|lia].
  destruct (Z.ltb_spec i (Z.of_nat (List.length a))); [|lia]. reflexivity.
Qed.

Lemma array_store_length {A} (a a' : list A) i v :
  array_store a i v = Some a' -> List.length a' = List.length a.
Proof.
  unfold array_store. destruct (_ && _); [|discriminate].
  intros [= <-]. apply length_insert.
Qed.

Lemma array_store_at {A} (a a' : list A) i v j :
  array_store a i v = Some a' ->
  array_at a' j = if j =? i then Some v else array_at a j.
Proof.
  unfold array_store.
  destruct (Z.leb_spec 0 i); simpl; [|discriminate].
  destruct (Z.ltb_spec i (Z.of_nat (List.length a))); [|discriminate].
  intros [= <-]. unfold array_at.
  destruct (Z.eqb_spec j i) as [->|Hne].
  - destruct (Z.leb_spec 0 i); [|lia].
    apply list_lookup_insert_eq. lia.
  - destruct (Z.leb_spec 0 j); [|reflexivity].
    apply list_lookup_insert_ne. lia.
Qed.

Lemma rem_slot p m : 0 <= p -> 0 < m -> 0 <= Z.rem p m < m.
Proof. intros. rewrite Z.rem_mod_nonneg by lia. apply Z.mod_pos_bound. lia. Qed.

Lemma rem_slot_inj p q m :
  0 <= p -> 0 <= q -> 0 < m -> Z.abs (p - q) < m ->
  Z.rem p m = Z.rem q m -> p = q.
Proof.
  intros Hp Hq Hm Hd. rewrite !Z.rem_mod_nonneg by lia. intros E.
  pose proof (Z.div_mod p m ltac:(lia)) as E1.
  pose proof (Z.div_mod q m ltac:(lia)) as E2.
  assert (p - q = m * (p / m - q / m)) by lia.
  assert (p / m - q / m = 0) by nia. lia.
Qed.

(* ===================================================================== *)
(** * The ring: theorems *)
(* ===================================================================== *)

Module RingFacts.

Import Ring.

Section RingLemmas.
Context {Row : Type}.
Implicit Types (ring r rc ru : VteRing Row) (a : list (option Row)).
Implicit Types (o : ring_op Row) (ops : list (ring_op Row)).

Ltac unbind H :=
  let v := fresh "v" in
  let E := fresh "E" in
  apply bind_some in H; destruct H as (v & E & H).

Lemma bubble_down_frame m a i n a' :
  bubble_down m a i n = Some a' ->
  List.length a' = List.length a /\
  forall s, (forall j, i - Z.of_nat n < j <= i -> Z.rem j m <> s) ->
            array_at a' s = array_at a s.
Proof.
  revert a i. induction n as [|n IH]; intros a i H; simpl in H.
  - injection H as <-. split; [reflexivity | auto].
  - unbind H. unbind H. apply IH in H as [Hlen Hfr].
    split.
    + rewrite Hlen. eapply array_store_length; eauto.
    + intros s Hs. rewrite Hfr by (intros j Hj; apply Hs; lia).
      rewrite (array_store_at _ _ _ _ s E0).
      destruct (Z.eqb_spec s (Z.rem i m)) as [->|]; [|reflexivity].
      exfalso. apply (Hs i); [lia | reflexivity].
Qed.

Lemma bubble_up_frame m a i n a' :
  bubble_up m a i n = Some a' ->
  List.length a' = List.length a /\
  forall s, (forall j, i <= j < i + Z.of_nat n -> Z.rem j m <> s) ->
            array_at a' s = array_at a s.
Proof.
  revert a i. induction n as [|n IH]; intros a i H; simpl in H.
  - injection H as <-. split; [reflexivity | auto].
  - unbind H. unbind H. apply IH in H as [Hlen Hfr].
    split.
    + rewrite Hlen. eapply array_store_length; eauto.
    + intros s Hs. rewrite Hfr by (intros j Hj; apply Hs; lia).
      rewrite (array_store_at _ _ _ _ s E0).
      destruct (Z.eqb_spec s (Z.rem i m)) as [->|]; [|reflexivity].
      exfalso. apply (Hs i); [lia | reflexivity].
Qed.

Lemma lift_point_nonneg fuel point m : 0 <= point -> lift_point fuel point m = Some point.
Proof.
  intros H. destruct fuel; simpl; destruct (Z.ltb_spec point 0); try lia; reflexivity.
Qed.

(** Two live indices, or a live index and the next one, never share a slot. *)
Lemma slots_differ m p q :
  0 < m -> 0 <= p -> 0 <= q -> p <> q -> Z.abs (p - q) < m -> Z.rem p m <> Z.rem q m.
Proof. intros Hm Hp Hq Hne Hd E. apply Hne. eapply rem_slot_inj; eauto. Qed.

Lemma contains_iff r p :
  _vte_ring_contains r p = true <-> delta r <= p < delta r + length r.
Proof. unfold _vte_ring_contains. rewrite andb_true_iff, Z.leb_le, Z.ltb_lt. tauto. Qed.

Lemma index_at r p :
  ring_ok r -> cache_ok r -> _vte_ring_contains r p = true ->
  _vte_ring_index r p = _vte_ring_at r p.
Proof.
  intros (Hm & Hd & Hl & Ha) Hc Hp. apply contains_iff in Hp.
  unfold _vte_ring_index. destruct (Z.eqb_spec p (cached_item r)) as [->|]; [|reflexivity].
  destruct Hc as [Hc|[_ Hc]]; [lia | auto].
Qed.

Lemma free_row_data_fields r old :
  delta (_vte_free_row_data r old) = delta r /\
  length (_vte_free_row_data r old) = length r /\
  max (_vte_free_row_data r old) = max r /\
  cached_item (_vte_free_row_data r old) = cached_item r /\
  cached_data (_vte_free_row_data r old) = cached_data r /\
  array (_vte_free_row_data r old) = array r.
Proof. destruct old; simpl; repeat split. Qed.

(** The cached entry survives a change of the array that leaves its slot
    alone and a change of the window that keeps its index. *)
Lemma cache_ok_frame r r' :
  cache_ok r ->
  cached_item r' = cached_item r -> cached_data r' = cached_data r ->
  max r' = max r ->
  (cached_item r <> -1 ->
   _vte_ring_contains r (cached_item r) = true ->
   _vte_ring_contains r' (cached_item r) = true /\
   array_at (array r') (Z.rem (cached_item r) (max r))
   = array_at (array r) (Z.rem (cached_item r) (max r))) ->
  cache_ok r'.
Proof.
  intros [Hc|[Hc1 Hc2]] Hi Hd Hm Hf.
  - left. congruence.
  - destruct (Z.eq_dec (cached_item r) (-1)) as [E|E]; [left; congruence|].
    right. destruct (Hf E Hc1) as [Hf1 Hf2].
    rewrite Hi, Hd. split; [assumption|].
    unfold _vte_ring_at in *. rewrite Hm, Hf2. assumption.
Qed.

Lemma cache_ok_invalid r : cached_item r = -1 -> cache_ok r.
Proof. intros H. left. assumption. Qed.

Lemma insert_ok r position data r' :
  ring_ok r -> cache_ok r -> _vte_ring_insert r position data = Some r' ->
  ring_ok r' /\ cache_ok r' /\ max r' = max r.
Proof.
  intros Hok Hc H. pose proof Hok as (Hm & Hd & Hl & Ha).
  unfold _vte_ring_insert in H.
  destruct (Z.geb_spec position (delta r)); simpl in H; [|injection H as <-; auto].
  destruct (Z.leb_spec position (delta r + length r)); simpl in H; [|injection H as <-; auto].
  destruct data as [x|]; [|injection H as <-; auto].
  destruct (Z.eqb_spec position (length r + delta r)) as [->|Hne].
  - (* append *)
    unbind H. unbind H.
    destruct (free_row_data_fields r v) as (F1 & F2 & F3 & F4 & F5 & F6).
    set (r1 := _vte_free_row_data r v) in *. clearbody r1.
    pose proof (array_store_length _ _ _ _ E0) as Hlen.
    pose proof (fun j => array_store_at _ _ _ _ j E0) as Hat.
    simpl in H. rewrite F2, F3 in H.
    destruct (Z.eqb_spec (length r) (max r)) as [Hfull|Hnf].
    + assert (ring_ok (with_delta (with_array r1 v0) (delta r1 + 1))) as Hok1.
      { unfold ring_ok; simpl. rewrite ?Hlen, ?F1, ?F2, ?F3, ?F6. lia. }
      assert (cache_ok (with_delta (with_array r1 v0) (delta r1 + 1)) \/
              delta r1 + 1 > cached_item r1) as [Hc1|Hinv].
      { destruct (Z_gt_le_dec (delta r1 + 1) (cached_item r1)) as [G|G]; [right; assumption|].
        left. apply (cache_ok_frame r); simpl; auto.
        intros _ Hin. apply contains_iff in Hin.
        split.
        - apply contains_iff; simpl. rewrite ?F1, ?F2. lia.
        - rewrite Hat, F6, F3.
          destruct (Z.eqb_spec (Z.rem (cached_item r) (max r))
                               (Z.rem (length r + delta r) (max r))) as [E1|]; [|reflexivity].
          exfalso. revert E1. apply slots_differ; lia. }
      * injection H as <-. simpl.
        destruct (Z.gtb_spec (delta r1 + 1) (cached_item r1)).
        -- split; [|split]; [| apply cache_ok_invalid; reflexivity | simpl; auto].
           unfold ring_ok in *; simpl in *. assumption.
        -- auto.
      * injection H as <-. simpl.
        destruct (Z.gtb_spec (delta r1 + 1) (cached_item r1)); [|lia].
        split; [|split]; [| apply cache_ok_invalid; reflexivity | simpl; auto].
        unfold ring_ok in *; simpl in *. assumption.
    + injection H as <-. split; [|split]; [| |simpl; auto].
      * unfold ring_ok; simpl. rewrite ?Hlen, ?F1, ?F2, ?F3, ?F6. lia.
      * apply (cache_ok_frame r); simpl; auto.
        intros _ Hin. apply contains_iff in Hin.
        split.
        -- apply contains_iff; simpl. rewrite ?F1, ?F2. lia.
        -- rewrite Hat, F6, F3.
           destruct (Z.eqb_spec (Z.rem (cached_item r) (max r))
                                (Z.rem (length r + delta r) (max r))) as [E1|]; [|reflexivity].
           exfalso. revert E1. apply slots_differ; lia.
  - (* inside the window *)
    set (r0 := if position <=? cached_item r then _vte_ring_set_cache r (-1) None else r) in *.
    assert (delta r0 = delta r /\ length r0 = length r /\ max r0 = max r /\ array r0 = array r)
      as (G1 & G2 & G3 & G4) by (unfold r0; destruct (_ <=? _); simpl; auto).
    assert (cache_ok r0 /\ (cached_item r0 = -1 \/ cached_item r0 < position)) as [Hc0 Hlt].
    { unfold r0. destruct (Z.leb_spec position (cached_item r)).
      - split; [apply cache_ok_invalid; reflexivity | left; reflexivity].
      - split; auto. }
    clearbody r0.
    rewrite G1, G2, G3 in H.
    rewrite lift_point_nonneg in H by lia. simpl in H.
    unbind H. destruct v as [r1 point].
    assert (delta r1 = delta r /\ length r1 = length r /\ max r1 = max r /\ array r1 = array r
            /\ cached_item r1 = cached_item r0 /\ cached_data r1 = cached_data r0
            /\ position <= point /\ point - delta r < max r /\ point <= delta r + length r)
      as (K1 & K2 & K3 & K4 & K5 & K6 & K7 & K8 & K9).
    { destruct (Z.eqb_spec (length r) (max r)).
      - unbind E. injection E as <- <-.
        destruct (free_row_data_fields r0 v) as (F1 & F2 & F3 & F4 & F5 & F6).
        repeat split; try congruence; lia.
      - injection E as <- <-. repeat split; try congruence; lia. }
    clear E. unbind H. unbind H. injection H as <-.
    apply bubble_down_frame in E as [Hlen Hfr].
    pose proof (array_store_length _ _ _ _ E0) as Hlen0.
    pose proof (fun j => array_store_at _ _ _ _ j E0) as Hat.
    assert (delta r <= position) by lia.
    split; [|split]; [| |simpl; auto].
    + unfold ring_ok; simpl. rewrite ?Hlen0, ?Hlen, ?K1, ?K2, ?K3, ?K4. unfold CLAMP.
      destruct (Z.gtb_spec (length r + 1) (max r)); [lia|].
      destruct (Z.ltb_spec (length r + 1) 0); lia.
    + apply (cache_ok_frame r0); simpl; auto; [congruence|].
      intros Hne1 Hin. apply contains_iff in Hin. rewrite G1, G2 in Hin.
      destruct Hlt as [?|Hlt]; [contradiction|].
      split.
      * apply contains_iff; simpl. rewrite ?K1, ?K2, ?K3. unfold CLAMP.
        destruct (Z.gtb_spec (length r + 1) (max r)); [lia|].
        destruct (Z.ltb_spec (length r + 1) 0); lia.
      * rewrite Hat, K3, G3.
        destruct (Z.eqb_spec (Z.rem (cached_item r0) (max r)) (Z.rem position (max r))) as [E1|_].
        { exfalso. revert E1. apply slots_differ; lia. }
        rewrite Hfr, K4, G4; [reflexivity|].
        intros j Hj. rewrite K3. apply not_eq_sym. apply slots_differ; lia.
Qed.

Lemma remove_ok r position free_element r' :
  ring_ok r -> cache_ok r -> _vte_ring_contains r position = true ->
  _vte_ring_remove r position free_element = Some r' ->
  ring_ok r' /\ cache_ok r' /\ max r' = max r /\ delta r' = delta r /\
  length r' = length r - 1 /\
  forall p, delta r <= p < position -> _vte_ring_at r' p = _vte_ring_at r p.
Proof.
  intros Hok Hc Hin H. pose proof Hok as (Hm & Hd & Hl & Ha).
  apply contains_iff in Hin.
  unfold _vte_ring_remove in H.
  set (r0 := if position <=? cached_item r then _vte_ring_set_cache r (-1) None else r) in *.
  assert (delta r0 = delta r /\ length r0 = length r /\ max r0 = max r /\ array r0 = array r)
    as (G1 & G2 & G3 & G4) by (unfold r0; destruct (_ <=? _); simpl; auto).
  assert (cache_ok r0 /\ (cached_item r0 = -1 \/ cached_item r0 < position)) as [Hc0 Hlt].
  { unfold r0. destruct (Z.leb_spec position (cached_item r)).
    - split; [apply cache_ok_invalid; reflexivity | left; reflexivity].
    - split; auto. }
  clearbody r0.
  unbind H. rename v into r1.
  assert (delta r1 = delta r /\ length r1 = length r /\ max r1 = max r /\ array r1 = array r
          /\ cached_item r1 = cached_item r0 /\ cached_data r1 = cached_data r0)
    as (K1 & K2 & K3 & K4 & K5 & K6).
  { destruct free_element.
    - unbind E. injection E as <-.
      destruct (free_row_data_fields r0 v) as (F1 & F2 & F3 & F4 & F5 & F6).
      repeat split; congruence.
    - injection E as <-. repeat split; congruence. }
  clear E. unbind H. unbind H. unbind H.
  simpl in H. rewrite K2 in H. destruct (Z.gtb_spec (length r) 0); [|lia].
  injection H as <-.
  pose proof (array_store_length _ _ _ _ E) as L1.
  pose proof (fun j => array_store_at _ _ _ _ j E) as A1.
  apply bubble_up_frame in E0 as [L2 A2].
  pose proof (array_store_length _ _ _ _ E1) as L3.
  pose proof (fun j => array_store_at _ _ _ _ j E1) as A3.
  rewrite K1, K2, K3 in *.
  assert (forall p, delta r <= p < position ->
                    array_at v1 (Z.rem p (max r)) = array_at (array r) (Z.rem p (max r))) as Hframe.
  { intros p Hp. rewrite A3.
    destruct (Z.eqb_spec (Z.rem p (max r)) (Z.rem (delta r + length r - 1) (max r))) as [E2|_].
    { exfalso. revert E2. apply slots_differ; lia. }
    rewrite A2.
    2:{ intros j Hj. apply not_eq_sym. apply slots_differ; lia. }
    rewrite A1.
    destruct (Z.eqb_spec (Z.rem p (max r)) (Z.rem position (max r))) as [E2|_].
    { exfalso. revert E2. apply slots_differ; lia. }
    rewrite K4. reflexivity. }
  split; [|split; [|split; [|split; [|split]]]]; simpl; auto.
  - unfold ring_ok; simpl. rewrite L3, L2, L1, K1, K3, K4. lia.
  - apply (cache_ok_frame r0); simpl; auto; [congruence|].
    intros Hne1 Hin'. apply contains_iff in Hin'. rewrite G1, G2 in Hin'.
    destruct Hlt as [?|Hlt]; [contradiction|].
    split.
    + apply contains_iff; simpl. rewrite K1. lia.
    + rewrite G3, Hframe by lia. rewrite G4. reflexivity.
  - intros p Hp. unfold _vte_ring_at; simpl. rewrite K3. apply Hframe. assumption.
Qed.

(** Appending to a ring that holds [rows]. *)
Lemma append_holds r d rows x :
  holds r d rows -> cache_ok r ->
  exists r', _vte_ring_append r (Some x) = Some r' /\ cache_ok r' /\ max r' = max r /\
    if Z.of_nat (List.length rows) <? max r
    then holds r' d (rows ++ [x])
    else holds r' (d + 1) (drop 1 rows ++ [x]).
Proof.
  intros (Hok & Hd & Hl & Hrows) Hc. pose proof Hok as (Hm & Hd0 & Hl0 & Ha).
  destruct (_vte_ring_append r (Some x)) as [r'|] eqn:H.
  2:{ exfalso. unfold _vte_ring_append, _vte_ring_insert in H.
      destruct (Z.geb_spec (delta r + length r) (delta r)); [|lia].
      destruct (Z.leb_spec (delta r + length r) (delta r + length r)); [|lia].
      simpl in H. destruct (Z.eqb_spec (delta r + length r) (length r + delta r)); [|lia].
      destruct (array_at_in_range (array r) (Z.rem (delta r + length r) (max r))) as [old Hold].
      { rewrite Ha. apply rem_slot; lia. }
      rewrite Hold in H. simpl in H.
      rewrite array_store_in_range in H.
      2:{ destruct (free_row_data_fields r old) as (F1 & F2 & F3 & F4 & F5 & F6).
          rewrite F3, F6, Ha. apply rem_slot; lia. }
      simpl in H. destruct (_ =? _); discriminate. }
  exists r'. split; [reflexivity|].
  pose proof H as H'. unfold _vte_ring_append in H'.
  destruct (insert_ok _ _ _ _ Hok Hc H') as (Hok' & Hc' & Hm').
  split; [assumption|]. split; [assumption|].
  clear H'. unfold _vte_ring_append, _vte_ring_insert in H.
  destruct (Z.geb_spec (delta r + length r) (delta r)); [|lia].
  destruct (Z.leb_spec (delta r + length r) (delta r + length r)); [|lia].
  simpl in H. destruct (Z.eqb_spec (delta r + length r) (length r + delta r)); [|lia].
  unbind H. unbind H.
  destruct (free_row_data_fields r v) as (F1 & F2 & F3 & F4 & F5 & F6).
  set (r1 := _vte_free_row_data r v) in *. clearbody r1.
  pose proof (fun j => array_store_at _ _ _ _ j E0) as Hat.
  simpl in H. rewrite F2, F3 in H. rewrite F3, F6 in *. rewrite <- Hl.
  destruct (Z.eqb_spec (length r) (max r)) as [Hfull|Hnf].
  - destruct (Z.ltb_spec (length r) (max r)); [lia|].
    assert (delta r' = delta r + 1 /\ length r' = length r /\ array r' = v0) as (D1 & D2 & D3).
    { injection H as <-. destruct (_ >? _); simpl; rewrite ?F1, ?F2; auto. }
    split; [assumption|]. split; [lia|]. split.
    { rewrite D2, Hl, length_app, length_drop. simpl. lia. }
    intros i y Hy. unfold _vte_ring_at. rewrite D3, Hm', Hat.
    destruct (Z.eqb_spec (Z.rem (d + 1 + Z.of_nat i) (max r))
                         (Z.rem (delta r + length r) (max r))) as [E1|E1].
    + assert (d + 1 + Z.of_nat i = delta r + length r) as E2.
      { pose proof (lookup_lt_Some _ _ _ Hy) as Hlt. rewrite length_app, length_drop in Hlt. simpl in Hlt.
        eapply rem_slot_inj; eauto; lia. }
      rewrite lookup_app_r in Hy by (rewrite length_drop; lia).
      rewrite length_drop in Hy.
      replace (i - (List.length rows - 1))%nat with 0%nat in Hy by lia.
      simpl in Hy. congruence.
    + assert (i < List.length rows - 1)%nat as Hi.
      { pose proof (lookup_lt_Some _ _ _ Hy) as Hlt. rewrite length_app, length_drop in Hlt. simpl in Hlt.
        destruct (Nat.eq_dec i (List.length rows - 1)%nat); [|lia].
        exfalso. apply E1. f_equal. lia. }
      rewrite lookup_app_l in Hy by (rewrite length_drop; lia).
      rewrite lookup_drop in Hy. apply Hrows in Hy.
      unfold _vte_ring_at in Hy. rewrite <- Hy. f_equal. f_equal. lia.
  - destruct (Z.ltb_spec (length r) (max r)); [|lia].
    injection H as <-.
    split; [assumption|]. split; [simpl; lia|]. split.
    { simpl. rewrite ?F2, Hl, length_app. simpl. lia. }
    intros i y Hy. unfold _vte_ring_at. simpl. rewrite F3, Hat.
    destruct (Z.eqb_spec (Z.rem (d + Z.of_nat i) (max r))
                         (Z.rem (delta r + length r) (max r))) as [E1|E1].
    + assert (d + Z.of_nat i = delta r + length r) as E2.
      { pose proof (lookup_lt_Some _ _ _ Hy) as Hlt. rewrite length_app in Hlt. simpl in Hlt.
        eapply rem_slot_inj; eauto; lia. }
      rewrite lookup_app_r in Hy by lia.
      replace (i - List.length rows)%nat with 0%nat in Hy by lia.
      simpl in Hy. congruence.
    + assert (i < List.length rows)%nat as Hi.
      { pose proof (lookup_lt_Some _ _ _ Hy) as Hlt. rewrite length_app in Hlt. simpl in Hlt.
        destruct (Nat.eq_dec i (List.length rows)); [|lia].
        exfalso. apply E1. f_equal. lia. }
      rewrite lookup_app_l in Hy by lia. apply Hrows in Hy.
      unfold _vte_ring_at in Hy. exact Hy.
Qed.

Lemma holds_ok r d rows : holds r d rows -> ring_ok r.
Proof. intros H. apply H. Qed.

(** Removing the last row of the window, the row kept alive. *)
Lemma remove_last_holds r d rows x :
  holds r d (rows ++ [x]) -> cache_ok r ->
  exists r', _vte_ring_remove r (d + Z.of_nat (List.length rows)) false = Some r' /\
             holds r' d rows /\ cache_ok r' /\ max r' = max r.
Proof.
  intros (Hok & Hd & Hl & Hrows) Hc. pose proof Hok as (Hm & Hd0 & Hl0 & Ha).
  rewrite length_app in Hl. simpl in Hl.
  assert (_vte_ring_contains r (d + Z.of_nat (List.length rows)) = true) as Hin.
  { apply contains_iff. lia. }
  destruct (_vte_ring_remove r (d + Z.of_nat (List.length rows)) false) as [r'|] eqn:H.
  2:{ exfalso. unfold _vte_ring_remove in H.
      set (r0 := if _ <=? cached_item r then _vte_ring_set_cache r (-1) None else r) in *.
      assert (delta r0 = delta r /\ length r0 = length r /\ max r0 = max r /\ array r0 = array r)
        as (G1 & G2 & G3 & G4) by (unfold r0; destruct (_ <=? _); simpl; auto).
      clearbody r0. simpl in H. rewrite G1, G2, G3, G4 in H.
      rewrite array_store_in_range in H by (rewrite Ha; apply rem_slot; lia).
      simpl in H.
      replace (Z.to_nat (delta r + length r - 1 - (d + Z.of_nat (List.length rows))))
        with 0%nat in H by lia.
      simpl in H.
      rewrite array_store_in_range in H
        by (rewrite length_insert, Ha; apply rem_slot; lia).
      simpl in H. destruct (_ >? _); discriminate. }
  exists r'. split; [reflexivity|].
  destruct (remove_ok _ _ _ _ Hok Hc Hin H) as (Hok' & Hc' & Hm' & Hd' & Hl' & Hfr).
  split; [|split; assumption].
  split; [assumption|]. split; [congruence|]. split; [lia|].
  intros i y Hy. rewrite Hfr.
  - apply Hrows. apply lookup_app_l_Some. assumption.
  - apply lookup_lt_Some in Hy. lia.
Qed.

Lemma remove_rows_holds r d pre post :
  holds r d (pre ++ post) -> cache_ok r ->
  exists r', remove_rows r (d + Z.of_nat (List.length pre) + Z.of_nat (List.length post))
                         (List.length post) = Some r' /\
             holds r' d pre /\ cache_ok r' /\ max r' = max r.
Proof.
  revert r. induction post as [|x post IH] using rev_ind; intros r Hh Hc.
  - simpl. exists r. rewrite app_nil_r in Hh. auto.
  - rewrite app_assoc in Hh.
    destruct (remove_last_holds _ _ _ _ Hh Hc) as (r1 & H1 & Hh1 & Hc1 & Hm1).
    destruct (IH _ Hh1 Hc1) as (r2 & H2 & Hh2 & Hc2 & Hm2).
    exists r2. split; [|split; [assumption|split; [assumption|congruence]]].
    rewrite length_app in *. simpl List.length in *.
    replace (List.length post + 1)%nat with (S (List.length post)) by lia.
    simpl.
    replace (d + Z.of_nat (List.length pre) + Z.of_nat (S (List.length post)) - 1)
      with (d + Z.of_nat (List.length pre + List.length post)) by lia.
    rewrite H1. simpl.
    replace (d + Z.of_nat (List.length pre + List.length post))
      with (d + Z.of_nat (List.length pre) + Z.of_nat (List.length post)) by lia.
    exact H2.
Qed.

Lemma save_rows_holds r d pre post :
  holds r d (pre ++ post) -> cache_ok r ->
  save_rows r (d + Z.of_nat (List.length pre)) (List.length post) = Some (map Some post).
Proof.
  revert pre. induction post as [|x post IH]; intros pre Hh Hc; [reflexivity|].
  simpl. pose proof Hh as (Hok & Hd & Hl & Hrows).
  rewrite index_at; auto.
  2:{ apply contains_iff. rewrite length_app in Hl. simpl in Hl. lia. }
  rewrite (Hrows (List.length pre) x).
  2:{ rewrite lookup_app_r by lia. rewrite Nat.sub_diag. reflexivity. }
  simpl. specialize (IH (pre ++ [x])).
  rewrite <- app_assoc in IH. simpl in IH. specialize (IH Hh Hc).
  rewrite length_app in IH. simpl in IH.
  replace (d + Z.of_nat (List.length pre) + 1)
    with (d + Z.of_nat (List.length pre + 1)) by lia.
  rewrite IH. reflexivity.
Qed.

(** The rows that [n] top-evictions leave of a sequence. *)
Lemma append_rows_holds r d rows xs :
  holds r d rows -> cache_ok r ->
  exists r', append_rows r (map Some xs) = Some r' /\ cache_ok r' /\ max r' = max r /\
    let e := Z.max 0 (Z.of_nat (List.length rows) + Z.of_nat (List.length xs) - max r) in
    holds r' (d + e) (drop (Z.to_nat e) (rows ++ xs)).
Proof.
  revert r d rows. induction xs as [|x xs IH]; intros r d rows Hh Hc.
  - exists r. split; [reflexivity|]. split; [assumption|]. split; [reflexivity|].
    pose proof Hh as (Hok & Hd & Hl & Hrows). destruct Hok as (? & ? & ? & ?).
    cbv zeta. simpl List.length.
    rewrite Z.max_l by lia. rewrite Z.add_0_r, app_nil_r. exact Hh.
  - destruct (append_holds _ _ _ x Hh Hc) as (r1 & H1 & Hc1 & Hm1 & Hh1).
    cbn [map append_rows]. rewrite H1. cbn [bind].
    pose proof Hh as (Hok & Hd & Hl & Hrows). destruct Hok as (? & ? & ? & ?).
    destruct (Z.ltb_spec (Z.of_nat (List.length rows)) (max r)).
    + destruct (IH _ _ _ Hh1 Hc1) as (r2 & Hr2 & Hc2 & Hm2 & Hh2).
      exists r2. split; [assumption|]. split; [assumption|]. split; [congruence|].
      cbv zeta in *. rewrite length_app in Hh2. simpl List.length in *.
      rewrite Hm1 in Hh2. rewrite <- app_assoc in Hh2. simpl in Hh2.
      replace (Z.of_nat (List.length rows) + Z.of_nat (S (List.length xs)) - max r)
        with (Z.of_nat (List.length rows + 1) + Z.of_nat (List.length xs) - max r) by lia.
      exact Hh2.
    + destruct (IH _ _ _ Hh1 Hc1) as (r2 & Hr2 & Hc2 & Hm2 & Hh2).
      exists r2. split; [assumption|]. split; [assumption|]. split; [congruence|].
      cbv zeta in *. rewrite length_app, length_drop in Hh2. simpl List.length in *.
      rewrite Hm1 in Hh2. rewrite <- app_assoc in Hh2. simpl in Hh2.
      assert (Z.of_nat (List.length rows) = max r) as Hfull by lia.
      rewrite Z.max_r in Hh2 by lia. rewrite Z.max_r by lia.
      replace (d + (Z.of_nat (List.length rows) + Z.of_nat (S (List.length xs)) - max r))
        with (d + 1 + (Z.of_nat (List.length rows - 1 + 1) + Z.of_nat (List.length xs) - max r))
        by lia.
      replace (drop (Z.to_nat (Z.of_nat (List.length rows) + Z.of_nat (S (List.length xs)) - max r))
                    (rows ++ x :: xs))
        with (drop (Z.to_nat (Z.of_nat (List.length rows - 1 + 1)
                              + Z.of_nat (List.length xs) - max r))
                   (drop 1 rows ++ x :: xs)); [exact Hh2|].
      destruct rows as [|y rows]; [simpl in Hfull; lia|].
      simpl List.length in *. change (drop 1 (y :: rows)) with (drop 0 rows). rewrite drop_0.
      replace (Z.to_nat (Z.of_nat (S (List.length rows)) + Z.of_nat (S (List.length xs)) - max r))
        with (S (Z.to_nat (Z.of_nat (S (List.length rows) - 1 + 1)
                           + Z.of_nat (List.length xs) - max r))) by lia.
      reflexivity.
Qed.

Lemma new_holds (max_elements : Z) :
  holds (@_vte_ring_new Row max_elements) 0 [] /\ cache_ok (@_vte_ring_new Row max_elements).
Proof.
  split.
  - unfold holds, ring_ok, _vte_ring_new, MAX; simpl.
    rewrite length_replicate.
    destruct (Z.gtb_spec max_elements 2); repeat split; try lia.
    all: intros i x Hx; rewrite lookup_nil in Hx; discriminate.
  - left. reflexivity.
Qed.

Lemma holds_index r d rows (i : nat) y :
  holds r d rows -> cache_ok r -> rows !! i = Some y ->
  _vte_ring_index r (d + Z.of_nat i) = Some (Some y).
Proof.
  intros Hh Hc Hy. pose proof Hh as (Hok & Hd & Hl & Hrows).
  rewrite index_at; auto.
  apply contains_iff. apply lookup_lt_Some in Hy. lia.
Qed.

Lemma holds_set_cache r d rows p v :
  holds r d rows -> holds (_vte_ring_set_cache r p v) d rows.
Proof. intros H. exact H. Qed.

(** C2.  A ring made by [_vte_ring_new] (capacity [max = MAX(max_elements, 2)],
    origin 0) to which the [n] rows of [rows] are appended in order: all the
    appends return; [length = min(n, max)] and [delta = max(0, n - max)];
    and for [0 <= i < length], [index(delta + i)] is the row appended at step
    [n - length + 1 + i], that is the [(i+1)]-th oldest row still live. *)
Theorem append_sequence_window (max_elements : Z) (rows : list Row) :
  let n := Z.of_nat (List.length rows) in
  exists r, append_rows (_vte_ring_new max_elements) (map Some rows) = Some r /\
    max r = MAX max_elements 2 /\
    length r = Z.min n (max r) /\
    delta r = Z.max 0 (n - max r) /\
    forall i, 0 <= i < length r ->
      exists x, rows !! Z.to_nat (n - length r + i) = Some x /\
                _vte_ring_index r (delta r + i) = Some (Some x).
Proof.
  intros n. destruct (new_holds max_elements) as [Hh Hc].
  destruct (append_rows_holds _ _ _ rows Hh Hc) as (r & Hr & Hc' & Hm & Hh').
  cbv zeta in Hh'. simpl in Hh'. fold n in Hh'.
  change (Ring.max (_vte_ring_new max_elements)) with (MAX max_elements 2) in *.
  rewrite <- Hm in Hh'.
  exists r. split; [assumption|]. split; [assumption|].
  pose proof Hh' as (Hok & Hd & Hl & Hrows). destruct Hok as (? & ? & ? & ?).
  rewrite length_drop in Hl.
  assert (length r = Z.min n (max r)) as Hlen by (unfold n in *; lia).
  split; [assumption|]. split; [assumption|].
  intros i Hi.
  destruct (lookup_lt_is_Some_2 (drop (Z.to_nat (Z.max 0 (n - max r))) rows) (Z.to_nat i))
    as [x Hx].
  { rewrite length_drop. unfold n in *. lia. }
  exists x. split.
  - rewrite lookup_drop in Hx. rewrite <- Hx. f_equal. unfold n in *. lia.
  - rewrite Hd. replace i with (Z.of_nat (Z.to_nat i)) at 1 by lia.
    eapply holds_index; eauto.
Qed.

(** C7, amended.  On a well-formed ring whose live window holds the rows
    [rows], whose cache is valid, and for [delta <= position <= next()],
    [insert_preserve(position, x)] returns; it evicts the top row exactly
    when the ring was full; [next()] grows by one; and every index [p] of
    the new window reads [x] at [position], the old row of [p - 1] above
    it, and the old row of [p] below it.  (The claim asks this of every
    [position <= next()]: below [delta] it fails,
    [insert_preserve_below_window].) *)
Theorem insert_preserve_window r rows position x :
  holds r (delta r) rows -> cache_ok r ->
  delta r <= position <= _vte_ring_next r ->
  insert_preserve_reads r position x.
Proof.
  intros Hh Hc Hpos. pose proof Hh as (Hok & _ & Hl & Hrows).
  pose proof Hok as (Hm & Hd0 & Hl0 & Ha).
  unfold _vte_ring_next in Hpos.
  set (j := Z.to_nat (position - delta r)).
  set (pre := take j rows). set (post := drop j rows).
  assert (rows = pre ++ post) as Erows by (symmetry; apply take_drop).
  assert (List.length pre = j) as Lpre by (unfold pre; rewrite length_take; lia).
  assert (List.length post = Z.to_nat (delta r + length r - position)) as Lpost
    by (unfold post; rewrite length_drop; lia).
  unfold insert_preserve_reads, _vte_ring_insert_preserve.
  unfold _vte_ring_next.
  destruct (Z.leb_spec position (delta r + length r)); [|lia]. cbn [negb].
  set (r0 := if position <=? cached_item r then _vte_ring_set_cache r (-1) None else r).
  assert (holds r0 (delta r) (pre ++ post)) as Hh0
    by (unfold r0; destruct (position <=? cached_item r); rewrite <- Erows; exact Hh).
  assert (cache_ok r0) as Hc0
    by (unfold r0; destruct (position <=? cached_item r); [left; reflexivity | exact Hc]).
  assert (delta r0 = delta r /\ length r0 = length r /\ max r0 = max r) as (D0 & L0 & M0)
    by (unfold r0; destruct (position <=? cached_item r); simpl; auto).
  clearbody r0.
  assert (position = delta r + Z.of_nat (List.length pre)) as Epos by lia.
  assert (Z.to_nat (delta r0 + length r0 - position) = List.length post) as En by lia.
  assert (delta r0 + length r0
          = delta r + Z.of_nat (List.length pre) + Z.of_nat (List.length post)) as Ept by lia.
  rewrite En.
  pose proof (save_rows_holds _ _ _ _ Hh0 Hc0) as Hs. rewrite <- Epos in Hs.
  rewrite Hs. cbn [bind].
  destruct (remove_rows_holds _ _ _ _ Hh0 Hc0) as (r1 & Hr1 & Hh1 & Hc1 & Hm1).
  rewrite <- Ept in Hr1. rewrite Hr1. cbn [bind].
  destruct (append_rows_holds _ _ _ (x :: post) Hh1 Hc1) as (r2 & Hr2 & Hc2 & Hm2 & Hh2).
  cbn [map append_rows] in Hr2. rewrite Hr2.
  exists r2. split; [reflexivity|].
  cbv zeta in Hh2. cbn [List.length] in Hh2.
  rewrite Hm1, M0 in Hh2.
  set (e := Z.max 0 (Z.of_nat (List.length pre) + Z.of_nat (S (List.length post)) - max r)) in *.
  assert (e = if length r =? max r then 1 else 0) as He.
  { unfold e. destruct (Z.eqb_spec (length r) (max r)); lia. }
  pose proof Hh2 as (Hok2 & Hd2 & Hl2 & Hrows2).
  rewrite length_drop, length_app in Hl2. cbn [List.length] in Hl2.
  assert (0 <= e <= 1) as Hbe by (rewrite He; destruct (_ =? _); lia).
  split; [rewrite Hd2, He; reflexivity|].
  split; [unfold _vte_ring_next; lia|].
  intros p Hp. apply contains_iff in Hp.
  destruct (lookup_lt_is_Some_2 (drop (Z.to_nat e) (pre ++ x :: post))
                                (Z.to_nat (p - delta r2))) as [y Hy].
  { rewrite length_drop, length_app. cbn [List.length]. lia. }
  replace p with (delta r + e + Z.of_nat (Z.to_nat (p - delta r2))) at 1 by lia.
  rewrite (holds_index _ _ _ _ _ Hh2 Hc2 Hy).
  rewrite lookup_drop in Hy.
  destruct (Z.ltb_spec p position).
  - rewrite lookup_app_l in Hy by lia.
    unfold pre in Hy. rewrite lookup_take_lt in Hy by lia.
    replace p with (delta r + Z.of_nat (Z.to_nat e + Z.to_nat (p - delta r2))) by lia.
    symmetry. eapply holds_index; eauto.
  - rewrite lookup_app_r in Hy by lia.
    destruct (Z.eqb_spec p position).
    + replace (Z.to_nat e + Z.to_nat (p - delta r2) - List.length pre)%nat with 0%nat in Hy by lia.
      simpl in Hy. congruence.
    + replace (Z.to_nat e + Z.to_nat (p - delta r2) - List.length pre)%nat
        with (S (Z.to_nat (p - 1 - position))) in Hy by lia.
      simpl in Hy. unfold post in Hy. rewrite lookup_drop in Hy.
      replace (p - 1) with (delta r + Z.of_nat (j + Z.to_nat (p - 1 - position))) by lia.
      symmetry. eapply holds_index; eauto.
Qed.

Lemma insert_same_rows r1 r2 position data :
  same_rows r1 r2 ->
  same_outcome (_vte_ring_insert r1 position data) (_vte_ring_insert r2 position data).
Proof.
  destruct r1 as [d1 l1 m1 ci1 cd1 a1 f1], r2 as [d2 l2 m2 ci2 cd2 a2 f2].
  intros (E1 & E2 & E3 & E4 & E5). simpl in *. subst.
  unfold _vte_ring_insert, same_outcome, same_rows, bind, _vte_free_row_data; simpl.
  destruct (negb (position >=? d2)); [simpl; auto|].
  destruct (negb (position <=? d2 + l2)); [simpl; auto|].
  destruct data as [x|]; [|simpl; auto].
  destruct (position =? l2 + d2).
  - destruct (array_at a2 (Z.rem position m2)) as [[y|]|]; simpl; auto.
    all: destruct (array_store a2 (Z.rem position m2) (Some x)); simpl; auto.
    all: destruct (l2 =? m2); simpl; auto.
    all: destruct (d2 + 1 >? ci1), (d2 + 1 >? ci2); simpl; auto.
  - destruct (position <=? ci1), (position <=? ci2); simpl.
    all: destruct (lift_point _ _ _); simpl; auto.
    all: destruct (l2 =? m2); simpl.
    all: try (destruct (array_at a2 _) as [[y|]|]; simpl; auto).
    all: destruct (bubble_down _ _ _ _); simpl; auto.
    all: destruct (array_store _ _ _); simpl; auto.
Qed.

Lemma insert_no_cache r position data :
  no_cache r -> keeps_no_cache (_vte_ring_insert r position data).
Proof.
  destruct r as [d2 l2 m2 ci cd a2 f2]. intros [E1 E2]. simpl in *. subst.
  unfold _vte_ring_insert, keeps_no_cache, no_cache, bind, _vte_free_row_data; simpl.
  destruct (negb (position >=? d2)); [simpl; auto|].
  destruct (negb (position <=? d2 + l2)); [simpl; auto|].
  destruct data as [x|]; [|simpl; auto].
  destruct (position =? l2 + d2).
  - destruct (array_at a2 (Z.rem position m2)) as [[y|]|]; simpl; auto.
    all: destruct (array_store a2 (Z.rem position m2) (Some x)); simpl; auto.
    all: destruct (l2 =? m2); simpl; auto.
    all: destruct (d2 + 1 >? -1); simpl; auto.
  - destruct (position <=? -1); simpl.
    all: destruct (lift_point _ _ _); simpl; auto.
    all: destruct (l2 =? m2); simpl.
    all: try (destruct (array_at a2 _) as [[y|]|]; simpl; auto).
    all: destruct (bubble_down _ _ _ _); simpl; auto.
    all: destruct (array_store _ _ _); simpl; auto.
Qed.

Lemma remove_same_rows r1 r2 position free_element :
  same_rows r1 r2 ->
  same_outcome (_vte_ring_remove r1 position free_element)
               (_vte_ring_remove r2 position free_element).
Proof.
  destruct r1 as [d1 l1 m1 ci1 cd1 a1 f1], r2 as [d2 l2 m2 ci2 cd2 a2 f2].
  intros (E1 & E2 & E3 & E4 & E5). simpl in *. subst.
  unfold _vte_ring_remove, same_outcome, same_rows, bind, _vte_free_row_data; simpl.
  destruct (position <=? ci1), (position <=? ci2); simpl.
  all: destruct free_element; simpl.
  all: try (destruct (array_at a2 _) as [[y|]|]; simpl; auto).
  all: destruct (array_store a2 _ _); simpl; auto.
  all: destruct (bubble_up _ _ _ _); simpl; auto.
  all: destruct (array_store _ _ _); simpl; auto.
  all: destruct (l2 >? 0); simpl; auto.
Qed.

Lemma remove_no_cache r position free_element :
  no_cache r -> keeps_no_cache (_vte_ring_remove r position free_element).
Proof.
  destruct r as [d2 l2 m2 ci cd a2 f2]. intros [E1 E2]. simpl in *. subst.
  unfold _vte_ring_remove, keeps_no_cache, no_cache, bind, _vte_free_row_data; simpl.
  destruct (position <=? -1); simpl.
  all: destruct free_element; simpl.
  all: try (destruct (array_at a2 _) as [[y|]|]; simpl; auto).
  all: destruct (array_store a2 _ _); simpl; auto.
  all: destruct (bubble_up _ _ _ _); simpl; auto.
  all: destruct (array_store _ _ _); simpl; auto.
  all: destruct (l2 >? 0); simpl; auto.
Qed.

Lemma same_outcome_bind (o1 o2 : option (VteRing Row))
      (k1 k2 : VteRing Row -> option (VteRing Row)) :
  same_outcome o1 o2 ->
  (forall r1 r2, same_rows r1 r2 -> same_outcome (k1 r1) (k2 r2)) ->
  same_outcome (bind o1 k1) (bind o2 k2).
Proof. destruct o1, o2; simpl; intros H Hk; auto; contradiction. Qed.

Lemma keeps_no_cache_bind (o : option (VteRing Row))
      (k : VteRing Row -> option (VteRing Row)) :
  keeps_no_cache o -> (forall r, no_cache r -> keeps_no_cache (k r)) ->
  keeps_no_cache (bind o k).
Proof. destruct o; simpl; auto. Qed.

Lemma append_same_rows r1 r2 data :
  same_rows r1 r2 ->
  same_outcome (_vte_ring_append r1 data) (_vte_ring_append r2 data).
Proof.
  intros H. unfold _vte_ring_append. destruct data; [|exact I].
  destruct H as (E1 & E2 & ?). rewrite E1, E2.
  apply insert_same_rows. repeat split; auto; tauto.
Qed.

Lemma append_no_cache r data : no_cache r -> keeps_no_cache (_vte_ring_append r data).
Proof.
  intros H. unfold _vte_ring_append. destruct data; [|exact I].
  apply insert_no_cache. assumption.
Qed.

Lemma remove_rows_same_rows n : forall r1 r2 i,
  same_rows r1 r2 -> same_outcome (remove_rows r1 i n) (remove_rows r2 i n).
Proof.
  induction n as [|n IH]; intros r1 r2 i H; simpl; [exact H|].
  apply same_outcome_bind; [apply remove_same_rows; assumption|].
  intros. apply IH. assumption.
Qed.

Lemma remove_rows_no_cache n : forall r i,
  no_cache r -> keeps_no_cache (remove_rows r i n).
Proof.
  induction n as [|n IH]; intros r i H; simpl; [exact H|].
  apply keeps_no_cache_bind; [apply remove_no_cache; assumption|].
  intros. apply IH. assumption.
Qed.

Lemma append_rows_same_rows tmp : forall r1 r2,
  same_rows r1 r2 -> same_outcome (append_rows r1 tmp) (append_rows r2 tmp).
Proof.
  induction tmp as [|v tmp IH]; intros r1 r2 H; simpl; [exact H|].
  apply same_outcome_bind; [apply append_same_rows; assumption|].
  intros. apply IH. assumption.
Qed.

Lemma append_rows_no_cache tmp : forall r,
  no_cache r -> keeps_no_cache (append_rows r tmp).
Proof.
  induction tmp as [|v tmp IH]; intros r H; simpl; [exact H|].
  apply keeps_no_cache_bind; [apply append_no_cache; assumption|].
  intros. apply IH. assumption.
Qed.

(** Saving the rows from [position] on does not look at a cache entry that
    lies below [position]. *)
Lemma save_rows_same_rows n : forall r1 r2 i position,
  same_rows r1 r2 -> 0 <= position <= i ->
  cached_item r1 < position -> cached_item r2 < position ->
  save_rows r1 i n = save_rows r2 i n.
Proof.
  induction n as [|n IH]; intros r1 r2 i position H Hi H1 H2; simpl; [reflexivity|].
  rewrite (IH r1 r2 (i + 1) position) by (auto; lia).
  unfold _vte_ring_index, _vte_ring_at.
  destruct H as (_ & _ & E3 & E4 & _). rewrite E3, E4.
  destruct (Z.eqb_spec i (cached_item r1)); [lia|].
  destruct (Z.eqb_spec i (cached_item r2)); [lia|]. reflexivity.
Qed.

(** Nor does it tell two rings apart that have the same cache. *)
Lemma save_rows_same_cache n : forall r1 r2 i,
  same_rows r1 r2 ->
  cached_item r1 = cached_item r2 -> cached_data r1 = cached_data r2 ->
  save_rows r1 i n = save_rows r2 i n.
Proof.
  induction n as [|n IH]; intros r1 r2 i H Hi Hd; simpl; [reflexivity|].
  rewrite (IH r1 r2 (i + 1)) by auto.
  unfold _vte_ring_index, _vte_ring_at.
  destruct H as (_ & _ & E3 & E4 & _). rewrite E3, E4, Hi, Hd. reflexivity.
Qed.

(** [insert_preserve] at any position: an entry at or above [position] is
    dropped before the rows are read, and below index 0 both rings read
    with an empty cache. *)
Lemma insert_preserve_same_rows r1 r2 position data :
  same_rows r1 r2 -> -1 <= cached_item r1 -> no_cache r2 ->
  same_outcome (_vte_ring_insert_preserve r1 position data)
               (_vte_ring_insert_preserve r2 position data).
Proof.
  intros H Hge [N1 N2]. pose proof H as (E1 & E2 & E3 & E4 & E5).
  unfold _vte_ring_insert_preserve, _vte_ring_next. rewrite E1, E2.
  destruct (negb (position <=? delta r2 + length r2)); [exact H|].
  set (r1' := if position <=? cached_item r1 then _vte_ring_set_cache r1 (-1) None else r1).
  set (r2' := if position <=? cached_item r2 then _vte_ring_set_cache r2 (-1) None else r2).
  assert (same_rows r1' r2') as H'.
  { unfold r1', r2'. destruct (_ <=? _), (_ <=? _); exact H. }
  assert (forall n, save_rows r1' position n = save_rows r2' position n) as Hsave.
  { intros n. destruct (Z_le_gt_dec 0 position) as [Hpos|Hpos].
    - apply (save_rows_same_rows _ r1' r2' position position); auto; try lia.
      + unfold r1'. destruct (Z.leb_spec position (cached_item r1)); simpl; lia.
      + unfold r2'. destruct (Z.leb_spec position (cached_item r2)); simpl; lia.
    - unfold r1', r2'.
      destruct (Z.leb_spec position (cached_item r1)); [|lia].
      destruct (Z.leb_spec position (cached_item r2)); [|lia].
      apply save_rows_same_cache; auto. }
  clearbody r1' r2'. pose proof H' as (F1 & F2 & _). rewrite F1, F2.
  rewrite Hsave.
  destruct (save_rows r2' position _) as [tmp|]; [|exact I]. cbn [bind].
  apply same_outcome_bind; [apply remove_rows_same_rows; assumption|].
  intros. apply same_outcome_bind; [apply append_same_rows; assumption|].
  intros. apply append_rows_same_rows; assumption.
Qed.

Lemma insert_preserve_no_cache r position data :
  no_cache r -> keeps_no_cache (_vte_ring_insert_preserve r position data).
Proof.
  intros H. unfold _vte_ring_insert_preserve.
  destruct (negb _); [exact H|].
  set (r' := if position <=? cached_item r then _vte_ring_set_cache r (-1) None else r).
  assert (no_cache r') as H'.
  { unfold r'. destruct (_ <=? _); [split; reflexivity | exact H]. }
  clearbody r'.
  destruct (save_rows r' position _) as [tmp|]; [|exact I]. cbn [bind].
  apply keeps_no_cache_bind; [apply remove_rows_no_cache; assumption|].
  intros. apply keeps_no_cache_bind; [apply append_no_cache; assumption|].
  intros. apply append_rows_no_cache; assumption.
Qed.

(** A removal at any position keeps the shape of the ring, and an empty
    cache stays empty. *)
Lemma remove_keeps_shape r position free_element r' :
  ring_ok r -> _vte_ring_remove r position free_element = Some r' ->
  ring_ok r' /\ (cached_item r = -1 -> cached_item r' = -1).
Proof.
  intros (Hm & Hd & Hl & Ha) H. unfold _vte_ring_remove in H.
  set (r0 := if position <=? cached_item r then _vte_ring_set_cache r (-1) None else r) in *.
  assert (delta r0 = delta r /\ length r0 = length r /\ max r0 = max r /\ array r0 = array r
          /\ (cached_item r = -1 -> cached_item r0 = -1))
    as (G1 & G2 & G3 & G4 & G5) by (unfold r0; destruct (_ <=? _); simpl; auto).
  clearbody r0.
  unbind H. rename v into r1.
  assert (delta r1 = delta r0 /\ length r1 = length r0 /\ max r1 = max r0
          /\ array r1 = array r0 /\ cached_item r1 = cached_item r0)
    as (K1 & K2 & K3 & K4 & K5).
  { destruct free_element.
    - unbind E. injection E as <-.
      destruct (free_row_data_fields r0 v) as (F1 & F2 & F3 & F4 & F5 & F6). auto.
    - injection E as <-. auto. }
  clear E. unbind H. unbind H. unbind H.
  pose proof (array_store_length _ _ _ _ E) as L1.
  apply bubble_up_frame in E0 as [L2 _].
  pose proof (array_store_length _ _ _ _ E1) as L3.
  simpl in H.
  destruct (Z.gtb_spec (length r1) 0); injection H as <-; unfold ring_ok; simpl;
    rewrite ?L3, ?L2, ?L1, ?K1, ?K2, ?K3, ?K4, ?K5, ?G1, ?G2, ?G3, ?G4;
    (split; [lia | exact G5]).
Qed.

Lemma remove_rows_keeps_shape n : forall r i r',
  ring_ok r -> cached_item r = -1 -> remove_rows r i n = Some r' ->
  ring_ok r' /\ cached_item r' = -1.
Proof.
  induction n as [|n IH]; intros r i r' Hok Hc H; simpl in H.
  - injection H as <-. auto.
  - apply bind_some in H as (r1 & H1 & H).
    destruct (remove_keeps_shape _ _ _ _ Hok H1) as (Hok1 & Hc1).
    apply (IH r1 (i - 1) r'); auto.
Qed.

(** The invariants along the rows removed and appended again. *)
Lemma remove_rows_ok n : forall r r',
  ring_ok r -> cache_ok r -> Z.of_nat n <= length r ->
  remove_rows r (delta r + length r) n = Some r' ->
  ring_ok r' /\ cache_ok r'.
Proof.
  induction n as [|n IH]; intros r r' Hok Hc Hn H; simpl in H.
  - injection H as <-. auto.
  - apply bind_some in H as (r1 & H1 & H).
    assert (_vte_ring_contains r (delta r + length r - 1) = true) as Hin
      by (apply contains_iff; lia).
    destruct (remove_ok _ _ _ _ Hok Hc Hin H1) as (Hok1 & Hc1 & M1 & D1 & L1 & _).
    replace (delta r + length r - 1) with (delta r1 + length r1) in H by lia.
    apply (IH r1 r'); auto. lia.
Qed.

Lemma append_ok r data r' :
  ring_ok r -> cache_ok r -> _vte_ring_append r data = Some r' ->
  ring_ok r' /\ cache_ok r'.
Proof.
  intros Hok Hc H. unfold _vte_ring_append in H. destruct data; [|discriminate].
  destruct (insert_ok _ _ _ _ Hok Hc H) as (? & ? & ?). auto.
Qed.

Lemma append_rows_ok tmp : forall r r',
  ring_ok r -> cache_ok r -> append_rows r tmp = Some r' -> ring_ok r' /\ cache_ok r'.
Proof.
  induction tmp as [|v tmp IH]; intros r r' Hok Hc H; simpl in H.
  - injection H as <-. auto.
  - apply bind_some in H as (r1 & H1 & H).
    destruct (append_ok _ _ _ Hok Hc H1). eauto.
Qed.

(** [insert_preserve] at any position: inside the window the rows above
    [position] are removed and appended again; below it the cache is empty
    from the start, and stays so. *)
Lemma insert_preserve_ok r position data r' :
  ring_ok r -> cache_ok r ->
  _vte_ring_insert_preserve r position data = Some r' ->
  ring_ok r' /\ cache_ok r'.
Proof.
  intros Hok Hc H. unfold _vte_ring_insert_preserve, _vte_ring_next in H.
  destruct (Z.leb_spec position (delta r + length r)); simpl in H;
    [|injection H as <-; auto].
  set (r0 := if position <=? cached_item r then _vte_ring_set_cache r (-1) None else r) in *.
  assert (ring_ok r0) as Hok0 by (unfold r0; destruct (_ <=? _); exact Hok).
  assert (cache_ok r0) as Hc0
    by (unfold r0; destruct (_ <=? _); [left; reflexivity | exact Hc]).
  assert (delta r0 = delta r /\ length r0 = length r) as (D0 & L0)
    by (unfold r0; destruct (_ <=? _); simpl; auto).
  assert (position < delta r -> cached_item r0 = -1) as Hinv.
  { intros Hlt. unfold r0. destruct (Z.leb_spec position (cached_item r)); [reflexivity|].
    destruct Hc as [Hc|[Hc _]]; [assumption|]. apply contains_iff in Hc. lia. }
  clearbody r0.
  apply bind_some in H as (tmp & _ & H).
  apply bind_some in H as (r1 & H1 & H).
  apply bind_some in H as (r2 & H2 & H).
  destruct (Z_le_gt_dec (delta r) position) as [Hpos|Hpos].
  - assert (Z.of_nat (Z.to_nat (delta r0 + length r0 - position)) <= length r0) as Hle by lia.
    destruct (remove_rows_ok _ _ _ Hok0 Hc0 Hle H1) as (Hok1 & Hc1).
    destruct (append_ok _ _ _ Hok1 Hc1 H2) as (Hok2 & Hc2).
    eapply append_rows_ok; eauto.
  - assert (cached_item r0 = -1) as C0 by (apply Hinv; lia).
    destruct (remove_rows_keeps_shape _ _ _ _ Hok0 C0 H1) as (Hok1 & C1).
    destruct (append_ok _ _ _ Hok1 (cache_ok_invalid _ C1) H2) as (Hok2 & Hc2).
    eapply append_rows_ok; eauto.
Qed.

Lemma apply_op_ok r o r' :
  ring_ok r -> cache_ok r -> op_ok r o -> apply_op r o = Some r' ->
  ring_ok r' /\ cache_ok r'.
Proof.
  intros Hok Hc Ho H. destruct o as [position data|position data|position fe|data|p row];
    simpl in *.
  - destruct (insert_ok _ _ _ _ Hok Hc H) as (? & ? & ?). auto.
  - eapply insert_preserve_ok; eauto.
  - destruct (remove_ok _ _ _ _ Hok Hc Ho H) as (? & ? & ?). auto.
  - eapply append_ok; eauto.
  - injection H as <-. split; [exact Hok|].
    destruct Ho as [[-> ->]|[Ho1 Ho2]]; [left; reflexivity|].
    right. split; assumption.
Qed.

Lemma apply_op_same_rows rc ru o :
  same_rows rc ru -> no_cache ru -> ring_ok rc -> cache_ok rc ->
  same_outcome (apply_op rc o) (apply_op_nocache ru o).
Proof.
  intros H Hn Hok Hc. destruct o as [position data|position data|position fe|data|p row];
    simpl in *.
  - apply insert_same_rows; assumption.
  - apply insert_preserve_same_rows; [assumption| |assumption].
    destruct Hok as (? & ? & ?).
    destruct Hc as [Hc|[Hc _]]; [lia|]. apply contains_iff in Hc. lia.
  - apply remove_same_rows; assumption.
  - apply append_same_rows; assumption.
  - exact H.
Qed.

Lemma apply_op_no_cache ru o : no_cache ru -> keeps_no_cache (apply_op_nocache ru o).
Proof.
  intros H. destruct o as [position data|position data|position fe|data|p row]; simpl.
  - apply insert_no_cache; assumption.
  - apply insert_preserve_no_cache; assumption.
  - apply remove_no_cache; assumption.
  - apply append_no_cache; assumption.
  - exact H.
Qed.

Lemma run_transparent ops : forall rc ru,
  same_rows rc ru -> no_cache ru -> ring_ok rc -> cache_ok rc -> ops_ok rc ops ->
  match run apply_op rc ops, run apply_op_nocache ru ops with
  | Some rc', Some ru' => same_rows rc' ru' /\ no_cache ru' /\ ring_ok rc' /\ cache_ok rc'
  | None, None => True
  | _, _ => False
  end.
Proof.
  induction ops as [|o ops IH]; intros rc ru H Hn Hok Hc Hops; simpl.
  - auto.
  - destruct Hops as [Ho Hops].
    pose proof (apply_op_same_rows _ _ o H Hn Hok Hc) as Hs.
    pose proof (apply_op_no_cache _ o Hn) as Hk.
    destruct (apply_op rc o) as [rc1|] eqn:E1, (apply_op_nocache ru o) as [ru1|];
      simpl in *; try contradiction; auto.
    destruct (apply_op_ok _ _ _ Hok Hc Ho E1) as (Hok1 & Hc1).
    apply IH; auto.
Qed.

(** C8, amended.  From a well-formed ring with a valid cache, along any
    sequence of [insert], [insert_preserve], [remove], [append] and
    [set_cache] in which every [remove] is at a position that the ring
    contains and every [set_cache(p, row)] memoizes the row that is at an
    index [p] of the live window (or invalidates, [p = -1]): the same
    sequence on the ring without a cache, where [set_cache] does nothing,
    aborts exactly when the first does, and otherwise leaves the same live
    window, in which [index(p)] returns the same row.  (The claim allows
    arbitrary [set_cache] calls: [cache_set_arbitrarily]; and a [remove]
    past the window clears a slot of the window without dropping its cache
    entry: [remove_past_the_window].) *)
Theorem cache_is_transparent r ops :
  ring_ok r -> cache_ok r -> ops_ok r ops -> cache_transparent r ops.
Proof.
  intros Hok Hc Hops. unfold cache_transparent.
  pose proof (run_transparent ops r (erase r)) as H.
  destruct (run apply_op r ops) as [rc|], (run apply_op_nocache (erase r) ops) as [ru|].
  2-4: apply H; auto; repeat split; auto.
  destruct H as (Hs & Hn & Hok' & Hc'); auto; try (repeat split; auto; fail).
  destruct Hs as (E1 & E2 & E3 & E4 & E5). destruct Hn as [N1 N2].
  intros p. unfold _vte_ring_contains. rewrite E1, E2. split; [reflexivity|].
  intros Hp. rewrite index_at; auto.
  2:{ unfold _vte_ring_contains. rewrite E1, E2. exact Hp. }
  unfold _vte_ring_index, _vte_ring_at. rewrite N1, E3, E4.
  destruct (Z.eqb_spec p (-1)); [|reflexivity].
  destruct Hok' as (? & ? & ?). apply andb_true_iff in Hp as [Hp _].
  apply Z.leb_le in Hp. lia.
Qed.

End RingLemmas.

(** *** The window, slot by slot

    [holds_only] accounts for every slot of the array, so that the rows
    that an operation destroys can be told from the ones that it keeps. *)

Section RingWindows.
Context {Row : Type}.
Implicit Types (ring r rc ru : VteRing Row) (a : list (option Row)).
Implicit Types (o : ring_op Row) (ops : list (ring_op Row)).

Ltac unbind H :=
  let v := fresh "v" in
  let E := fresh "E" in
  apply bind_some in H; destruct H as (v & E & H).

Lemma bubble_down_at m a i n a' :
  bubble_down m a i n = Some a' -> 0 < m -> 0 <= i - Z.of_nat n -> Z.of_nat n < m ->
  forall j, i - Z.of_nat n < j <= i ->
    array_at a' (Z.rem j m) = array_at a (Z.rem (j - 1) m).
Proof.
  revert a i. induction n as [|n IH]; intros a i H Hm Hi Hn j Hj; [lia|].
  simpl in H. unbind H. unbind H.
  pose proof (fun s => array_store_at _ _ _ _ s E0) as Hat.
  destruct (Z.eq_dec j i) as [->|Hne].
  - apply bubble_down_frame in H as [_ Hfr].
    rewrite Hfr.
    + rewrite Hat, Z.eqb_refl. symmetry. exact E.
    + intros j' Hj'. apply slots_differ; lia.
  - rewrite (IH _ _ H) by lia.
    rewrite Hat.
    destruct (Z.eqb_spec (Z.rem (j - 1) m) (Z.rem i m)) as [E1|]; [|reflexivity].
    exfalso. revert E1. apply slots_differ; lia.
Qed.

Lemma bubble_up_at m a i n a' :
  bubble_up m a i n = Some a' -> 0 < m -> 0 <= i -> Z.of_nat n < m ->
  forall j, i <= j < i + Z.of_nat n ->
    array_at a' (Z.rem j m) = array_at a (Z.rem (j + 1) m).
Proof.
  revert a i. induction n as [|n IH]; intros a i H Hm Hi Hn j Hj; [lia|].
  simpl in H. unbind H. unbind H.
  pose proof (fun s => array_store_at _ _ _ _ s E0) as Hat.
  destruct (Z.eq_dec j i) as [->|Hne].
  - apply bubble_up_frame in H as [_ Hfr].
    rewrite Hfr.
    + rewrite Hat, Z.eqb_refl. symmetry. exact E.
    + intros j' Hj'. apply slots_differ; lia.
  - rewrite (IH _ _ H) by lia.
    rewrite Hat.
    destruct (Z.eqb_spec (Z.rem (j + 1) m) (Z.rem i m)) as [E1|]; [|reflexivity].
    exfalso. revert E1. apply slots_differ; lia.
Qed.

(** The two loops have a result on an array of [m] slots when the indices
    are not negative. *)
Lemma bubble_down_defined m a n : forall i,
  0 < m -> Z.of_nat (List.length a) = m -> 0 <= i - Z.of_nat n ->
  exists a', bubble_down m a i n = Some a'.
Proof.
  revert a. induction n as [|n IH]; intros a i Hm Ha Hi; simpl; [eauto|].
  destruct (array_at_in_range a (Z.rem (i - 1) m)) as [v Hv];
    [rewrite Ha; apply rem_slot; lia|].
  rewrite Hv. cbn [bind].
  rewrite array_store_in_range by (rewrite Ha; apply rem_slot; lia). cbn [bind].
  apply IH; [assumption | rewrite length_insert; assumption | lia].
Qed.

Lemma bubble_up_defined m a n : forall i,
  0 < m -> Z.of_nat (List.length a) = m -> 0 <= i ->
  exists a', bubble_up m a i n = Some a'.
Proof.
  revert a. induction n as [|n IH]; intros a i Hm Ha Hi; simpl; [eauto|].
  destruct (array_at_in_range a (Z.rem (i + 1) m)) as [v Hv];
    [rewrite Ha; apply rem_slot; lia|].
  rewrite Hv. cbn [bind].
  rewrite array_store_in_range by (rewrite Ha; apply rem_slot; lia). cbn [bind].
  apply IH; [assumption | rewrite length_insert; assumption | lia].
Qed.

Lemma holds_only_holds r d rows : holds_only r d rows -> holds r d rows.
Proof.
  intros (Hok & Hd & Hl & Hat). split; [assumption|]. split; [assumption|].
  split; [assumption|]. intros i x Hx.
  pose proof (lookup_lt_Some _ _ _ Hx) as Hlt.
  destruct Hok as (? & ? & ? & ?).
  rewrite Hat by lia. unfold row_at.
  destruct (Z.leb_spec d (d + Z.of_nat i)); [|lia].
  replace (Z.to_nat (d + Z.of_nat i - d)) with i by lia. rewrite Hx. reflexivity.
Qed.

Lemma lookup_insert_at (rows : list Row) (k : nat) x (i : nat) :
  (k <= List.length rows)%nat ->
  (take k rows ++ x :: drop k rows) !! i
  = if (i <? k)%nat then rows !! i
    else if (i =? k)%nat then Some x else rows !! (i - 1)%nat.
Proof.
  intros Hk.
  destruct (Nat.ltb_spec i k).
  - rewrite lookup_app_l by (rewrite length_take; lia).
    apply lookup_take_lt. lia.
  - rewrite lookup_app_r by (rewrite length_take; lia).
    rewrite length_take. replace (i - k `min` List.length rows)%nat with (i - k)%nat by lia.
    destruct (Nat.eqb_spec i k) as [->|Hne].
    + rewrite Nat.sub_diag. reflexivity.
    + destruct (i - k)%nat as [|n] eqn:E; [lia|]. simpl.
      rewrite lookup_drop. f_equal. lia.
Qed.


Lemma row_at_in (d : Z) (rows : list Row) p :
  d <= p -> row_at d rows p = rows !! Z.to_nat (p - d).
Proof. intros H. unfold row_at. destruct (Z.leb_spec d p); [reflexivity | lia]. Qed.


(** On a well-formed ring [_vte_ring_insert] always returns. *)
Lemma insert_defined r position data :
  ring_ok r -> exists r', _vte_ring_insert r position data = Some r'.
Proof.
  intros (Hm & Hd0 & Hl0 & Ha). unfold _vte_ring_insert.
  destruct (Z.geb_spec position (delta r)); simpl; [|eauto].
  destruct (Z.leb_spec position (delta r + length r)); simpl; [|eauto].
  destruct data as [x|]; [|eauto].
  destruct (Z.eqb_spec position (length r + delta r)) as [->|Hne].
  - destruct (array_at_in_range (array r) (Z.rem (length r + delta r) (max r))) as [old Hold];
      [rewrite Ha; apply rem_slot; lia|].
    rewrite Hold. cbn [bind].
    destruct (free_row_data_fields r old) as (F1 & F2 & F3 & F4 & F5 & F6).
    rewrite array_store_in_range by (rewrite F3, F6, Ha; apply rem_slot; lia).
    cbn [bind]. destruct (_ =? _); eauto.
  - set (r0 := if position <=? cached_item r then _vte_ring_set_cache r (-1) None else r).
    assert (delta r0 = delta r /\ length r0 = length r /\ max r0 = max r /\ array r0 = array r)
      as (G1 & G2 & G3 & G4) by (unfold r0; destruct (_ <=? _); simpl; auto).
    clearbody r0. rewrite G1, G2, G3.
    rewrite lift_point_nonneg by lia. cbn [bind].
    assert (exists r1 point,
              (if length r =? max r
               then do last <- array_at (array r0) (Z.rem (delta r + length r - 1) (max r));
                    Some (_vte_free_row_data r0 last, delta r + length r - 1)
               else Some (r0, delta r + length r - 1 + 1)) = Some (r1, point) /\
              max r1 = max r /\ array r1 = array r /\ position <= point)
      as (r1 & point & -> & K1 & K2 & K3).
    { destruct (Z.eqb_spec (length r) (max r)).
      - destruct (array_at_in_range (array r0) (Z.rem (delta r + length r - 1) (max r)))
          as [last Hlast]; [rewrite G4, Ha; apply rem_slot; lia|].
        rewrite Hlast. cbn [bind].
        destruct (free_row_data_fields r0 last) as (F1 & F2 & F3 & F4 & F5 & F6).
        eexists _, _. split; [reflexivity|]. repeat split; try congruence. lia.
      - eexists _, _. split; [reflexivity|]. repeat split; try congruence. lia. }
    cbn [bind]. rewrite K1, K2.
    destruct (bubble_down_defined (max r) (array r) (Z.to_nat (point - position)) point)
      as [a1 Ha1]; [lia | assumption | lia |].
    rewrite Ha1. cbn [bind].
    apply bubble_down_frame in Ha1 as [L1 _].
    rewrite array_store_in_range by (rewrite L1, Ha; apply rem_slot; lia).
    cbn [bind]. eauto.
Qed.

(** Insertion below the end of the window: the rows from [position] on move
    up by one and the row that no longer fits, the last one of a full ring,
    is destroyed. *)
Lemma insert_middle r rows position x :
  holds_only r (delta r) rows -> cache_ok r ->
  delta r <= position < delta r + length r ->
  let k := Z.to_nat (position - delta r) in
  let all := take k rows ++ x :: drop k rows in
  let m := Z.to_nat (max r) in
  exists r', _vte_ring_insert r position (Some x) = Some r' /\
    cache_ok r' /\ max r' = max r /\
    holds_only r' (delta r) (take m all) /\ freed r' = freed r ++ drop m all.
Proof.
  intros (Hok & _ & Hl & Hat) Hc Hpos k all m.
  pose proof Hok as (Hm & Hd0 & Hl0 & Ha).
  assert (k <= List.length rows)%nat as Hk by (unfold k; lia).
  assert (List.length all = S (List.length rows)) as Lall.
  { unfold all. rewrite length_app, length_take. cbn [List.length]. rewrite length_drop. lia. }
  destruct (insert_defined r position (Some x) Hok) as [r' H].
  exists r'. split; [assumption|].
  destruct (insert_ok _ _ _ _ Hok Hc H) as (Hok' & Hc' & Hm').
  split; [assumption|]. split; [assumption|].
  unfold _vte_ring_insert in H.
  destruct (Z.geb_spec position (delta r)); [|lia].
  destruct (Z.leb_spec position (delta r + length r)); [|lia]. simpl in H.
  destruct (Z.eqb_spec position (length r + delta r)); [lia|].
  set (r0 := if position <=? cached_item r then _vte_ring_set_cache r (-1) None else r) in *.
  assert (delta r0 = delta r /\ length r0 = length r /\ max r0 = max r /\ array r0 = array r
          /\ freed r0 = freed r)
    as (G1 & G2 & G3 & G4 & G5) by (unfold r0; destruct (_ <=? _); simpl; auto).
  clearbody r0. rewrite G1, G2, G3 in H.
  rewrite lift_point_nonneg in H by lia. simpl in H.
  unbind H. destruct v as [r1 point].
  assert (delta r1 = delta r /\ length r1 = length r /\ max r1 = max r /\ array r1 = array r
          /\ freed r1 = freed r ++ drop m all
          /\ point = (if length r =? max r then delta r + length r - 1 else delta r + length r))
    as (K1 & K2 & K3 & K4 & K5 & K6).
  { destruct (Z.eqb_spec (length r) (max r)) as [Hfull|Hnf].
    - unbind E. injection E as <- <-.
      destruct (free_row_data_fields r0 v) as (F1 & F2 & F3 & F4 & F5 & F6).
      repeat split; try congruence.
      rewrite G4 in E0.
      pose proof (Hat (delta r + length r - 1) ltac:(lia)) as Hlast.
      unfold _vte_ring_at in Hlast. rewrite Hlast in E0. injection E0 as <-.
      rewrite row_at_in by lia.
      destruct (lookup_lt_is_Some_2 rows (Z.to_nat (delta r + length r - 1 - delta r)))
        as [y Hy]; [lia|].
      rewrite Hy. simpl. rewrite G5. f_equal.
      assert (all !! m = Some y) as Hall.
      { unfold all. rewrite lookup_insert_at by assumption.
        destruct (Nat.ltb_spec m k); [unfold m, k in *; lia|].
        destruct (Nat.eqb_spec m k); [unfold m, k in *; lia|].
        rewrite <- Hy. f_equal. unfold m. lia. }
      apply list_eq. intros [|i].
      + rewrite lookup_drop, Nat.add_0_r. simpl. congruence.
      + rewrite lookup_drop. simpl. symmetry. apply lookup_ge_None_2. rewrite Lall. unfold m. lia.
    - injection E as <- <-. repeat split; try congruence; [|lia].
      rewrite drop_ge by (rewrite Lall; unfold m; lia).
      rewrite app_nil_r. assumption. }
  clear E. unbind H. unbind H. injection H as <-.
  rewrite K3, K4 in *.
  pose proof (bubble_down_frame _ _ _ _ _ E) as [Lv Hfr].
  pose proof (bubble_down_at _ _ _ _ _ E ltac:(lia)) as Hbd.
  pose proof (fun s => array_store_at _ _ _ _ s E0) as Hst.
  assert (position <= point < delta r + max r) as Hpt
    by (rewrite K6; destruct (Z.eqb_spec (length r) (max r)); lia).
  split; [|simpl; assumption].
  split; [assumption|]. split; [simpl; assumption|]. split.
  { simpl. rewrite K2, length_take, Lall. unfold CLAMP, m.
    destruct (Z.gtb_spec (length r + 1) (max r)); [lia|].
    destruct (Z.ltb_spec (length r + 1) 0); lia. }
  intros p Hp. simpl in Hp. unfold _vte_ring_at. simpl. rewrite K3, Hst.
  rewrite row_at_in by lia.
  rewrite lookup_take_lt by (unfold m; lia).
  unfold all. rewrite lookup_insert_at by assumption.
  destruct (Z.eqb_spec (Z.rem p (max r)) (Z.rem position (max r))) as [E1|E1].
  - assert (p = position) as -> by (eapply rem_slot_inj; eauto; lia).
    destruct (Nat.ltb_spec (Z.to_nat (position - delta r)) k); [unfold k in *; lia|].
    destruct (Nat.eqb_spec (Z.to_nat (position - delta r)) k); [reflexivity | unfold k in *; lia].
  - assert (p <> position) as Hne by (intros ->; apply E1; reflexivity).
    destruct (Z_lt_le_dec p position) as [Hlt|Hge].
    + destruct (Nat.ltb_spec (Z.to_nat (p - delta r)) k); [|unfold k in *; lia].
      rewrite Hfr by (intros j Hj; apply slots_differ; lia).
      rewrite <- row_at_in by lia. apply Hat. lia.
    + destruct (Nat.ltb_spec (Z.to_nat (p - delta r)) k); [unfold k in *; lia|].
      destruct (Nat.eqb_spec (Z.to_nat (p - delta r)) k); [unfold k in *; lia|].
      destruct (Z_le_gt_dec p point) as [Hle|Hgt].
      * rewrite Hbd by lia.
        pose proof (Hat (p - 1) ltac:(lia)) as Hp1. unfold _vte_ring_at in Hp1.
        rewrite Hp1, row_at_in by lia. do 2 f_equal. lia.
      * rewrite Hfr by (intros j Hj; apply slots_differ; lia).
        pose proof (Hat p ltac:(lia)) as Hp1. unfold _vte_ring_at in Hp1.
        rewrite Hp1, row_at_in by lia.
        destruct (Z.eqb_spec (length r) (max r)); [lia|].
        rewrite !lookup_ge_None_2 by lia. reflexivity.
Qed.


Lemma rem_wrap p m : 0 <= p -> 0 < m -> Z.rem (p + m) m = Z.rem p m.
Proof.
  intros Hp Hm. rewrite !Z.rem_mod_nonneg by lia.
  rewrite <- (Z.mul_1_l m) at 1. apply Z_mod_plus_full.
Qed.

(** Appending: the oldest row of a full ring makes room and is destroyed. *)
Lemma append_exact r rows x :
  holds_only r (delta r) rows -> cache_ok r ->
  let e := (List.length (rows ++ [x]) - Z.to_nat (max r))%nat in
  exists r', _vte_ring_append r (Some x) = Some r' /\
    cache_ok r' /\ max r' = max r /\
    holds_only r' (delta r + Z.of_nat e) (drop e (rows ++ [x])) /\
    freed r' = freed r ++ take e rows.
Proof.
  intros (Hok & _ & Hl & Hat) Hc e.
  pose proof Hok as (Hm & Hd0 & Hl0 & Ha).
  assert (e = if length r =? max r then 1%nat else 0%nat) as He.
  { unfold e. rewrite length_app. cbn [List.length].
    destruct (Z.eqb_spec (length r) (max r)); lia. }
  unfold _vte_ring_append.
  destruct (insert_defined r (delta r + length r) (Some x) Hok) as [r' H].
  exists r'. split; [assumption|].
  destruct (insert_ok _ _ _ _ Hok Hc H) as (Hok' & Hc' & Hm').
  split; [assumption|]. split; [assumption|].
  unfold _vte_ring_insert in H.
  destruct (Z.geb_spec (delta r + length r) (delta r)); [|lia].
  destruct (Z.leb_spec (delta r + length r) (delta r + length r)); [|lia]. simpl in H.
  destruct (Z.eqb_spec (delta r + length r) (length r + delta r)); [|lia].
  unbind H. unbind H.
  destruct (free_row_data_fields r v) as (F1 & F2 & F3 & F4 & F5 & F6).
  pose proof (fun s => array_store_at _ _ _ _ s E0) as Hst.
  rewrite F3, F6 in *. simpl in H. rewrite ?F2, ?F3 in H.
  clearbody e. revert He.
  destruct (Z.eqb_spec (length r) (max r)) as [Hfull|Hnf]; intros ->.
  - (* the ring is full: the slot is the one of the oldest row *)
    assert (delta r' = delta r + 1 /\ length r' = length r /\ array r' = v0
            /\ freed r' = freed (_vte_free_row_data r v)) as (D1 & D2 & D3 & D4).
    { injection H as <-. destruct (_ >? _); simpl; rewrite ?F1, ?F2; auto. }
    rewrite Hfull, rem_wrap in E by lia.
    pose proof (Hat (delta r) ltac:(lia)) as Hs0. unfold _vte_ring_at in Hs0.
    rewrite Hs0 in E. injection E as <-. rewrite row_at_in in D4 by lia.
    rewrite Z.sub_diag in D4. change (Z.to_nat 0) with 0%nat in D4.
    destruct rows as [|y rows]; [simpl in Hl; lia|].
    split.
    + split; [assumption|]. split; [simpl; lia|]. split.
      { rewrite D2, Hl, length_drop, length_app. simpl. lia. }
      intros p Hp. change (Z.of_nat 1) with 1 in *. rewrite Hm' in Hp.
      unfold _vte_ring_at. rewrite D3, Hm', Hst.
      rewrite row_at_in by lia. rewrite lookup_drop.
      replace (1 + Z.to_nat (p - (delta r + 1)))%nat with (Z.to_nat (p - delta r)) by lia.
      destruct (Z.eqb_spec (Z.rem p (max r)) (Z.rem (delta r + length r) (max r))) as [E1|E1].
      * assert (p = delta r + length r) as -> by (eapply rem_slot_inj; eauto; lia).
        rewrite lookup_app_r by lia.
        replace (Z.to_nat (delta r + length r - delta r) - List.length (y :: rows))%nat
          with 0%nat by lia.
        reflexivity.
      * assert (p < delta r + length r).
        { destruct (Z.eq_dec p (delta r + length r)) as [->|]; [|lia].
          exfalso. apply E1. reflexivity. }
        rewrite lookup_app_l by lia.
        rewrite <- row_at_in by lia. apply Hat. lia.
    + rewrite D4. simpl. reflexivity.
  - (* there is room: the slot is outside the window, and empty *)
    injection H as <-.
    pose proof (Hat (delta r + length r) ltac:(lia)) as Hs0. unfold _vte_ring_at in Hs0.
    rewrite Hs0 in E. injection E as <-.
    assert (row_at (delta r) rows (delta r + length r) = None) as Hnone
      by (rewrite row_at_in by lia; apply lookup_ge_None_2; lia).
    rewrite Hnone in *. cbn [_vte_free_row_data] in *.
    rewrite Z.add_0_r. simpl. split; [|rewrite app_nil_r; reflexivity].
    split; [exact Hok'|]. split; [reflexivity|]. split.
    { cbn [length with_length]. rewrite drop_0, length_app. cbn [List.length]. lia. }
    intros p Hp. simpl in Hp. unfold _vte_ring_at. simpl. rewrite Hst.
    rewrite row_at_in by lia. rewrite drop_0.
    destruct (Z.eqb_spec (Z.rem p (max r)) (Z.rem (delta r + length r) (max r))) as [E1|E1].
    + assert (p = delta r + length r) as -> by (eapply rem_slot_inj; eauto; lia).
      rewrite lookup_app_r by lia.
      replace (Z.to_nat (delta r + length r - delta r) - List.length rows)%nat
        with 0%nat by lia.
      reflexivity.
    + pose proof (Hat p ltac:(lia)) as Hp1. unfold _vte_ring_at in Hp1.
      rewrite Hp1, row_at_in by lia.
      destruct (Z_lt_le_dec p (delta r + length r)).
      * rewrite lookup_app_l by lia. reflexivity.
      * assert (p <> delta r + length r) by (intros ->; apply E1; reflexivity).
        rewrite !lookup_ge_None_2; [reflexivity | rewrite length_app; simpl; lia | lia].
Qed.

(** [_vte_ring_remove] returns on a well-formed ring when [position] and
    the last index are not negative. *)
Lemma remove_defined r position free_element :
  ring_ok r -> 0 <= position -> 1 <= length r ->
  exists r', _vte_ring_remove r position free_element = Some r'.
Proof.
  intros (Hm & Hd0 & Hl0 & Ha) Hp Hl. unfold _vte_ring_remove.
  set (r0 := if position <=? cached_item r then _vte_ring_set_cache r (-1) None else r).
  assert (delta r0 = delta r /\ length r0 = length r /\ max r0 = max r /\ array r0 = array r)
    as (G1 & G2 & G3 & G4) by (unfold r0; destruct (_ <=? _); simpl; auto).
  clearbody r0.
  assert (exists r1, (if free_element
                      then do old <- array_at (array r0) (Z.rem position (max r0));
                           Some (_vte_free_row_data r0 old)
                      else Some r0) = Some r1 /\
            delta r1 = delta r /\ length r1 = length r /\ max r1 = max r /\ array r1 = array r)
    as (r1 & -> & K1 & K2 & K3 & K4).
  { destruct free_element.
    - destruct (array_at_in_range (array r0) (Z.rem position (max r0))) as [old Hold];
        [rewrite G3, G4, Ha; apply rem_slot; lia|].
      rewrite Hold. cbn [bind].
      destruct (free_row_data_fields r0 old) as (F1 & F2 & F3 & F4 & F5 & F6).
      eexists. split; [reflexivity|]. repeat split; congruence.
    - eexists. split; [reflexivity|]. auto. }
  cbn [bind]. rewrite K1, K2, K3, K4.
  rewrite array_store_in_range by (rewrite Ha; apply rem_slot; lia). cbn [bind].
  destruct (bubble_up_defined (max r) (<[Z.to_nat (Z.rem position (max r)) := None]> (array r))
              (Z.to_nat (delta r + length r - 1 - position)) position)
    as [a1 Ha1]; [lia | rewrite length_insert; assumption | lia |].
  rewrite Ha1. cbn [bind].
  apply bubble_up_frame in Ha1 as [L1 _]. rewrite length_insert in L1.
  rewrite array_store_in_range by (rewrite L1, Ha; apply rem_slot; lia).
  cbn [bind]. eauto.
Qed.

(** Removal at an index of the window: the rows above move down by one;
    the row is destroyed when [free_element] is set, and only then. *)
Lemma remove_exact r rows position free_element :
  holds_only r (delta r) rows -> cache_ok r ->
  _vte_ring_contains r position = true ->
  let k := Z.to_nat (position - delta r) in
  exists r' x, rows !! k = Some x /\
    _vte_ring_remove r position free_element = Some r' /\
    cache_ok r' /\ max r' = max r /\
    holds_only r' (delta r) (delete k rows) /\
    freed r' = freed r ++ (if free_element then [x] else []).
Proof.
  intros (Hok & _ & Hl & Hat) Hc Hin k.
  pose proof Hok as (Hm & Hd0 & Hl0 & Ha).
  pose proof Hin as Hpos. apply contains_iff in Hpos.
  destruct (lookup_lt_is_Some_2 rows k) as [x Hx]; [unfold k; lia|].
  destruct (remove_defined r position free_element Hok) as [r' H]; [lia | lia|].
  exists r', x. split; [assumption|]. split; [assumption|].
  destruct (remove_ok _ _ _ _ Hok Hc Hin H) as (Hok' & Hc' & Hm' & Hd' & Hl' & _).
  split; [assumption|]. split; [assumption|].
  unfold _vte_ring_remove in H.
  set (r0 := if position <=? cached_item r then _vte_ring_set_cache r (-1) None else r) in *.
  assert (delta r0 = delta r /\ length r0 = length r /\ max r0 = max r /\ array r0 = array r
          /\ freed r0 = freed r)
    as (G1 & G2 & G3 & G4 & G5) by (unfold r0; destruct (_ <=? _); simpl; auto).
  clearbody r0.
  unbind H. rename v into r1.
  assert (delta r1 = delta r /\ length r1 = length r /\ max r1 = max r /\ array r1 = array r
          /\ freed r1 = freed r ++ (if free_element then [x] else []))
    as (K1 & K2 & K3 & K4 & K5).
  { destruct free_element.
    - unbind E. injection E as <-.
      destruct (free_row_data_fields r0 v) as (F1 & F2 & F3 & F4 & F5 & F6).
      repeat split; try congruence.
      rewrite G3, G4 in E0.
      pose proof (Hat position ltac:(lia)) as Hs0. unfold _vte_ring_at in Hs0.
      rewrite Hs0 in E0. injection E0 as <-. rewrite row_at_in by lia.
      fold k. rewrite Hx. simpl. congruence.
    - injection E as <-. rewrite app_nil_r. auto. }
  clear E. unbind H. unbind H. unbind H.
  simpl in H. rewrite K2 in H. destruct (Z.gtb_spec (length r) 0); [|lia].
  injection H as <-. rewrite K1, K2, K3, K4 in *.
  pose proof (fun s => array_store_at _ _ _ _ s E) as A1.
  pose proof (bubble_up_frame _ _ _ _ _ E0) as [L2 A2].
  pose proof (bubble_up_at _ _ _ _ _ E0 ltac:(lia) ltac:(lia) ltac:(lia)) as B2.
  pose proof (fun s => array_store_at _ _ _ _ s E1) as A3.
  split; [|simpl; assumption].
  split; [assumption|]. split; [simpl; assumption|]. split.
  { simpl. rewrite length_delete by eauto. lia. }
  intros p Hp. simpl in Hp. rewrite K3 in Hp. unfold _vte_ring_at. simpl. rewrite K3, A3.
  rewrite row_at_in by lia.
  destruct (Z.eqb_spec (Z.rem p (max r)) (Z.rem (delta r + length r - 1) (max r))) as [E2|E2].
  - assert (p = delta r + length r - 1) as ->.
    { apply (rem_slot_inj _ _ (max r)); [lia | lia | lia | lia | exact E2]. }
    rewrite lookup_ge_None_2; [reflexivity|].
    rewrite length_delete by eauto. lia.
  - assert (p <> delta r + length r - 1) as Hne by (intros ->; apply E2; reflexivity).
    destruct (Z_lt_le_dec p position) as [Hlt|Hge].
    + rewrite A2 by (intros j Hj; apply slots_differ; lia).
      rewrite A1.
      destruct (Z.eqb_spec (Z.rem p (max r)) (Z.rem position (max r))) as [E3|_].
      { exfalso. revert E3. apply slots_differ; lia. }
      rewrite list_lookup_delete_lt by (unfold k; lia).
      rewrite <- row_at_in by lia. apply Hat. lia.
    + destruct (Z_lt_le_dec p (delta r + length r - 1)) as [Hin'|Hout].
      * rewrite B2 by lia. rewrite A1.
        destruct (Z.eqb_spec (Z.rem (p + 1) (max r)) (Z.rem position (max r))) as [E3|_].
        { exfalso. revert E3. apply slots_differ; lia. }
        rewrite list_lookup_delete_ge by (unfold k; lia).
        pose proof (Hat (p + 1) ltac:(lia)) as Hp1. unfold _vte_ring_at in Hp1.
        rewrite Hp1, row_at_in by lia. do 2 f_equal. lia.
      * rewrite A2 by (intros j Hj; apply slots_differ; lia).
        rewrite A1.
        destruct (Z.eqb_spec (Z.rem p (max r)) (Z.rem position (max r))) as [E3|_].
        { exfalso. revert E3. apply slots_differ; lia. }
        pose proof (Hat p ltac:(lia)) as Hp1. unfold _vte_ring_at in Hp1.
        rewrite Hp1, row_at_in by lia.
        rewrite !lookup_ge_None_2; [reflexivity | | lia].
        rewrite length_delete by eauto. lia.
Qed.

Lemma holds_only_set_cache r d rows p v :
  holds_only r d rows -> holds_only (_vte_ring_set_cache r p v) d rows.
Proof. intros H. exact H. Qed.

(** The rows above [position] taken out one by one, from the last: nothing
    is destroyed. *)
Lemma remove_rows_exact (post : list Row) : forall r pre,
  holds_only r (delta r) (pre ++ post) -> cache_ok r ->
  exists r',
    remove_rows r (delta r + Z.of_nat (List.length pre) + Z.of_nat (List.length post))
                (List.length post) = Some r' /\
    cache_ok r' /\ max r' = max r /\ delta r' = delta r /\
    holds_only r' (delta r) pre /\ freed r' = freed r.
Proof.
  induction post as [|y post IH] using rev_ind; intros r pre Hh Hc.
  - rewrite app_nil_r in Hh. exists r. simpl. auto 10.
  - rewrite length_app. cbn [List.length]. rewrite Nat.add_1_r. cbn [remove_rows].
    pose proof Hh as (Hok & _ & Hl & _).
    rewrite !length_app in Hl. cbn [List.length] in Hl.
    set (p := delta r + Z.of_nat (List.length pre) + Z.of_nat (S (List.length post)) - 1).
    assert (_vte_ring_contains r p = true) as Hin by (apply contains_iff; unfold p; lia).
    destruct (remove_exact r _ p false Hh Hc Hin) as (r1 & x & _ & H1 & Hc1 & Hm1 & Hh1 & Hf1).
    rewrite H1. cbn [bind].
    replace (Z.to_nat (p - delta r)) with (List.length (pre ++ post)) in Hh1
      by (rewrite length_app; unfold p; lia).
    rewrite app_assoc, delete_take_drop, take_app_length in Hh1.
    rewrite drop_ge, app_nil_r in Hh1 by (rewrite !length_app; simpl; lia).
    pose proof Hh1 as (_ & Hd1 & _).
    rewrite <- Hd1 in Hh1.
    destruct (IH r1 pre Hh1 Hc1) as (r' & H' & Hc' & Hm' & Hd' & Hh' & Hf').
    exists r'. rewrite Hd1 in H'.
    replace p with (delta r + Z.of_nat (List.length pre) + Z.of_nat (List.length post))
      by (unfold p; lia).
    rewrite H'. rewrite Hd1 in Hh'. rewrite app_nil_r in Hf1.
    repeat split; try congruence; apply Hh'.
Qed.

(** Rows appended one after the other: each one that finds the ring full
    evicts the oldest row, which is destroyed. *)
Lemma append_rows_exact (xs : list Row) : forall r rows,
  holds_only r (delta r) rows -> cache_ok r ->
  let e := (List.length (rows ++ xs) - Z.to_nat (max r))%nat in
  exists r', append_rows r (map Some xs) = Some r' /\
    cache_ok r' /\ max r' = max r /\
    holds_only r' (delta r + Z.of_nat e) (drop e (rows ++ xs)) /\
    freed r' = freed r ++ take e (rows ++ xs).
Proof.
  induction xs as [|x xs IH]; intros r rows Hh Hc e.
  - pose proof Hh as (Hok & _ & Hl & _). destruct Hok as (Hm & Hd0 & Hl0 & Ha).
    assert (e = 0%nat) as -> by (unfold e; rewrite app_nil_r; lia).
    exists r. rewrite app_nil_r, drop_0, Z.add_0_r, take_0, app_nil_r. simpl. auto.
  - cbn [map append_rows].
    pose proof Hh as (Hok & _ & Hl & _). destruct Hok as (Hm & Hd0 & Hl0 & Ha).
    destruct (append_exact r rows x Hh Hc) as (r1 & H1 & Hc1 & Hm1 & Hh1 & Hf1).
    rewrite H1. cbn [bind].
    set (e1 := (List.length (rows ++ [x]) - Z.to_nat (max r))%nat) in *.
    assert (e1 <= 1)%nat as He1 by (unfold e1; rewrite length_app; simpl; lia).
    pose proof Hh1 as (_ & Hd1 & _).
    rewrite <- Hd1 in Hh1.
    destruct (IH r1 _ Hh1 Hc1) as (r' & H' & Hc' & Hm' & Hh' & Hf').
    exists r'. split; [assumption|]. split; [assumption|]. split; [congruence|].
    set (e2 := (List.length (drop e1 (rows ++ [x]) ++ xs) - Z.to_nat (max r1))%nat) in *.
    assert (e = e1 + e2)%nat as He.
    { unfold e, e2, e1. rewrite Hm1, !length_app, length_drop, length_app.
      cbn [List.length]. lia. }
    assert (drop e1 (rows ++ [x]) ++ xs = drop e1 (rows ++ x :: xs)) as Edrop.
    { rewrite (cons_middle x rows xs), app_assoc. symmetry.
      apply drop_app_le. rewrite length_app. simpl. lia. }
    rewrite Edrop in Hh', Hf'. rewrite drop_drop in Hh'.
    rewrite He, Nat2Z.inj_add, Z.add_assoc, <- Hd1.
    split; [exact Hh'|].
    rewrite Hf', Hf1, <- app_assoc. f_equal.
    rewrite <- take_take_drop. f_equal.
    symmetry. apply take_app_le. unfold e1. rewrite length_app. simpl. lia.
Qed.


(** [insert_preserve] with the rows that it destroys: the row at the top of
    a full ring. *)
Lemma insert_preserve_exact r rows position x :
  holds_only r (delta r) rows -> cache_ok r ->
  delta r <= position <= _vte_ring_next r ->
  let k := Z.to_nat (position - delta r) in
  let all := take k rows ++ x :: drop k rows in
  let e := (List.length all - Z.to_nat (max r))%nat in
  exists r', _vte_ring_insert_preserve r position (Some x) = Some r' /\
    cache_ok r' /\ max r' = max r /\
    holds_only r' (delta r + Z.of_nat e) (drop e all) /\
    freed r' = freed r ++ take e all.
Proof.
  intros Hh Hc Hpos k all e. pose proof Hh as (Hok & _ & Hl & _).
  pose proof Hok as (Hm & Hd0 & Hl0 & Ha).
  unfold _vte_ring_next in Hpos.
  set (pre := take k rows) in *. set (post := drop k rows) in *.
  assert (rows = pre ++ post) as Erows by (symmetry; apply take_drop).
  assert (List.length pre = k) as Lpre by (unfold pre; rewrite length_take; unfold k; lia).
  assert (List.length post = Z.to_nat (delta r + length r - position)) as Lpost
    by (unfold post; rewrite length_drop; unfold k; lia).
  unfold _vte_ring_insert_preserve, _vte_ring_next.
  destruct (Z.leb_spec position (delta r + length r)); [|lia]. cbn [negb].
  set (r0 := if position <=? cached_item r then _vte_ring_set_cache r (-1) None else r).
  assert (holds_only r0 (delta r0) (pre ++ post)) as Hh0
    by (unfold r0; destruct (position <=? cached_item r); rewrite <- Erows; exact Hh).
  assert (cache_ok r0) as Hc0
    by (unfold r0; destruct (position <=? cached_item r); [left; reflexivity | exact Hc]).
  assert (delta r0 = delta r /\ length r0 = length r /\ max r0 = max r /\ freed r0 = freed r)
    as (D0 & L0 & M0 & F0) by (unfold r0; destruct (position <=? cached_item r); simpl; auto).
  clearbody r0.
  assert (position = delta r0 + Z.of_nat (List.length pre)) as Epos by (unfold k in *; lia).
  assert (Z.to_nat (delta r0 + length r0 - position) = List.length post) as En by lia.
  assert (delta r0 + length r0
          = delta r0 + Z.of_nat (List.length pre) + Z.of_nat (List.length post)) as Ept by lia.
  rewrite En.
  pose proof (save_rows_holds _ _ _ _ (holds_only_holds _ _ _ Hh0) Hc0) as Hs.
  rewrite <- Epos in Hs. rewrite Hs. cbn [bind].
  destruct (remove_rows_exact post r0 pre Hh0 Hc0) as (r1 & Hr1 & Hc1 & Hm1 & Hd1 & Hh1 & Hf1).
  rewrite <- Ept in Hr1. rewrite Hr1. cbn [bind].
  rewrite <- Hd1 in Hh1.
  destruct (append_rows_exact (x :: post) r1 pre Hh1 Hc1) as (r2 & Hr2 & Hc2 & Hm2 & Hh2 & Hf2).
  cbn [map append_rows] in Hr2. rewrite Hr2.
  exists r2. split; [reflexivity|]. split; [assumption|]. split; [congruence|].
  unfold e, all. rewrite <- M0, <- Hm1, <- D0, <- Hd1, <- F0, <- Hf1.
  split; assumption.
Qed.

Lemma free_rows_log n : forall r i,
  0 <= i -> i + Z.of_nat n <= Z.of_nat (List.length (array r)) ->
  exists r', free_rows r i n = Some r' /\
    freed r' = freed r ++ omap id (take n (drop (Z.to_nat i) (array r))).
Proof.
  induction n as [|n IH]; intros r i Hi Hn; cbn [free_rows].
  - exists r. rewrite take_0. simpl. rewrite app_nil_r. auto.
  - destruct (array_at_in_range (array r) i) as [row Hrow]; [lia|].
    rewrite Hrow. cbn [bind].
    destruct (free_row_data_fields r row) as (F1 & F2 & F3 & F4 & F5 & F6).
    destruct (IH (_vte_free_row_data r row) (i + 1)) as (r' & H & Hf);
      [lia | rewrite F6; lia |].
    exists r'. split; [assumption|]. rewrite Hf, F6.
    unfold array_at in Hrow. destruct (Z.leb_spec 0 i); [|lia].
    rewrite (drop_S _ _ _ Hrow). cbn [take omap].
    replace (Z.to_nat (i + 1)) with (S (Z.to_nat i)) by lia.
    destruct row as [x|]; simpl; [rewrite <- app_assoc|]; reflexivity.
Qed.

(** The array of a ring is its window, filled up with [NULL] and rotated. *)
Lemma array_rotation r rows :
  holds_only r (delta r) rows ->
  let m := Z.to_nat (max r) in
  let window := map Some rows ++ replicate (m - List.length rows) None in
  exists c, (c <= m)%nat /\ array r = drop c window ++ take c window.
Proof.
  intros (Hok & _ & Hl & Hat) m window. pose proof Hok as (Hm & Hd0 & Hl0 & Ha).
  assert (List.length window = m) as Lw.
  { unfold window. rewrite length_app, length_map, length_replicate. unfold m. lia. }
  assert (forall i, (i < m)%nat -> window !! i = Some (rows !! i)) as Hw.
  { intros i Hi. unfold window.
    destruct (Nat.lt_ge_cases i (List.length rows)).
    - rewrite lookup_app_l by (rewrite length_map; lia).
      rewrite list_lookup_fmap. destruct (lookup_lt_is_Some_2 rows i) as [y Hy]; [lia|].
      rewrite Hy. reflexivity.
    - rewrite lookup_app_r by (rewrite length_map; lia).
      rewrite lookup_replicate_2 by (rewrite length_map; lia).
      rewrite lookup_ge_None_2 by lia. reflexivity. }
  set (cz := delta r mod max r).
  assert (0 <= cz < max r) as Hcz by (apply Z.mod_pos_bound; lia).
  exists (Z.to_nat (max r - cz)). split; [unfold m; lia|].
  apply list_eq. intros s.
  destruct (Nat.lt_ge_cases s m) as [Hs|Hs].
  2:{ rewrite !lookup_ge_None_2; [reflexivity | |lia].
      rewrite length_app, length_drop, length_take. lia. }
  assert (forall i, 0 <= i < max r ->
            array r !! Z.to_nat ((cz + i) mod max r) = Some (rows !! Z.to_nat i)) as Hslot.
  { intros i Hi. pose proof (Hat (delta r + i) ltac:(lia)) as H.
    unfold _vte_ring_at, array_at in H.
    rewrite Z.rem_mod_nonneg in H by lia.
    rewrite <- Zplus_mod_idemp_l in H. fold cz in H.
    destruct (Z.leb_spec 0 ((cz + i) mod max r)) as [_|Hneg].
    2:{ pose proof (Z.mod_pos_bound (cz + i) (max r)). lia. }
    rewrite H, row_at_in by lia. do 2 f_equal. lia. }
  destruct (Z_lt_le_dec (Z.of_nat s) cz) as [Hlt|Hge].
  - rewrite lookup_app_l by (rewrite length_drop; lia).
    rewrite lookup_drop, Hw by lia.
    pose proof (Hslot (Z.of_nat s + max r - cz) ltac:(lia)) as H.
    replace (cz + (Z.of_nat s + max r - cz)) with (Z.of_nat s + 1 * max r) in H by lia.
    rewrite Z_mod_plus_full, Z.mod_small in H by lia.
    rewrite Nat2Z.id in H. rewrite H. do 2 f_equal. lia.
  - rewrite lookup_app_r by (rewrite length_drop; lia).
    rewrite length_drop. rewrite lookup_take_lt by lia. rewrite Hw by lia.
    pose proof (Hslot (Z.of_nat s - cz) ltac:(unfold m in *; lia)) as H.
    replace (cz + (Z.of_nat s - cz)) with (Z.of_nat s) in H by lia.
    rewrite Z.mod_small in H by (unfold m in *; lia).
    rewrite Nat2Z.id in H. rewrite H. do 2 f_equal. lia.
Qed.

Lemma omap_window (rows : list Row) n :
  omap id (map Some rows ++ replicate n None) = rows.
Proof.
  rewrite omap_app.
  assert (omap id (replicate n (@None Row)) = []) as ->
    by (induction n; simpl; auto).
  rewrite app_nil_r. induction rows as [|y rows IH]; simpl; [reflexivity|].
  f_equal. exact IH.
Qed.


(** [_vte_ring_free] with [free_elements] destroys the rows of the window,
    each once, and nothing else. *)
Lemma free_window r rows :
  holds_only r (delta r) rows ->
  exists live, _vte_ring_free r true = Some (freed r ++ live) /\ Permutation live rows.
Proof.
  intros Hh. pose proof Hh as (Hok & _ & Hl & _). pose proof Hok as (Hm & Hd0 & Hl0 & Ha).
  unfold _vte_ring_free.
  destruct (free_rows_log (Z.to_nat (max r)) r 0) as (r' & H & Hf); [lia | lia |].
  rewrite H. cbn [bind]. rewrite Hf.
  change (Z.to_nat 0) with 0%nat. rewrite drop_0, take_ge by lia.
  eexists. split; [reflexivity|].
  destruct (array_rotation r rows Hh) as (c & Hc & ->).
  rewrite omap_app, Permutation_app_comm, <- omap_app, take_drop.
  rewrite omap_window. reflexivity.
Qed.

Lemma new_holds_only (max_elements : Z) :
  holds_only (@_vte_ring_new Row max_elements) 0 [] /\
  cache_ok (@_vte_ring_new Row max_elements).
Proof.
  destruct (new_holds (Row:=Row) max_elements) as [(Hok & Hd & Hl & _) Hc].
  split; [|assumption]. split; [assumption|]. split; [assumption|]. split; [assumption|].
  intros p Hp. unfold _vte_ring_at, _vte_ring_new in *. cbn [array max] in *.
  unfold row_at. rewrite lookup_nil.
  assert (2 <= MAX max_elements 2) by (unfold MAX; destruct (Z.gtb_spec max_elements 2); lia).
  destruct (array_at_in_range (replicate (Z.to_nat (MAX max_elements 2)) (@None Row))
              (Z.rem p (MAX max_elements 2))) as [v Hv].
  { rewrite length_replicate, Z2Nat.id by lia. apply rem_slot; lia. }
  rewrite Hv. unfold array_at in Hv. destruct (0 <=? _); [|discriminate].
  apply lookup_replicate in Hv as [-> _]. destruct (0 <=? p); reflexivity.
Qed.

Lemma insert_at_Permutation (rows : list Row) k x :
  Permutation (take k rows ++ x :: drop k rows) (rows ++ [x]).
Proof.
  rewrite <- Permutation_middle, take_drop. apply Permutation_cons_append.
Qed.

(** One operation of a client that leaves its rows to the ring: the rows
    destroyed and the rows of the window are, together, those that were
    there and the row that the operation brings. *)
Lemma apply_op_owned r rows o :
  holds_only r (delta r) rows -> cache_ok r -> op_owned r o ->
  exists r' rows', apply_op r o = Some r' /\
    holds_only r' (delta r') rows' /\ cache_ok r' /\
    Permutation (freed r' ++ rows') (freed r ++ rows ++ row_given o).
Proof.
  intros Hh Hc Ho. pose proof Hh as (Hok & _ & Hl & _).
  pose proof Hok as (Hm & Hd0 & Hl0 & Ha).
  destruct o as [position data|position data|position fe|data|p row]; cbn [apply_op op_owned] in *.
  - destruct Ho as [Hpos Hdata]. destruct data as [x|]; [|contradiction]. cbn [row_given].
    unfold _vte_ring_next in Hpos.
    destruct (Z.eq_dec position (delta r + length r)) as [->|Hne].
    + destruct (append_exact r rows x Hh Hc) as (r' & H & Hc' & Hm' & Hh' & Hf').
      unfold _vte_ring_append in H.
      pose proof Hh' as (_ & Hd' & _).
      eexists _, _. split; [exact H|]. split; [rewrite Hd'; exact Hh'|]. split; [assumption|].
      rewrite Hf', <- app_assoc.
      rewrite <- (take_app_le rows [x]) by (rewrite length_app; simpl; lia).
      rewrite take_drop. reflexivity.
    + destruct (insert_middle r rows position x Hh Hc ltac:(lia))
        as (r' & H & Hc' & Hm' & Hh' & Hf').
      pose proof Hh' as (_ & Hd' & _).
      eexists _, _. split; [exact H|]. split; [rewrite Hd'; exact Hh'|]. split; [assumption|].
      rewrite Hf', <- app_assoc.
      rewrite (Permutation_app_comm (drop _ _)), take_drop.
      rewrite insert_at_Permutation. reflexivity.
  - destruct Ho as [Hpos Hdata]. destruct data as [x|]; [|contradiction]. cbn [row_given].
    destruct (insert_preserve_exact r rows position x Hh Hc Hpos)
      as (r' & H & Hc' & Hm' & Hh' & Hf').
    pose proof Hh' as (_ & Hd' & _).
    eexists _, _. split; [exact H|]. split; [rewrite Hd'; exact Hh'|]. split; [assumption|].
    rewrite Hf', <- app_assoc, take_drop.
    rewrite insert_at_Permutation. reflexivity.
  - destruct Ho as [Hin ->]. cbn [row_given]. rewrite app_nil_r.
    destruct (remove_exact r rows position true Hh Hc Hin)
      as (r' & x & Hx & H & Hc' & Hm' & Hh' & Hf').
    pose proof Hh' as (_ & Hd' & _).
    eexists _, _. split; [exact H|]. split; [rewrite Hd'; exact Hh'|]. split; [assumption|].
    rewrite Hf', <- app_assoc. apply Permutation_app_head.
    symmetry. apply delete_Permutation. assumption.
  - destruct data as [x|]; [|contradiction]. cbn [row_given].
    destruct (append_exact r rows x Hh Hc) as (r' & H & Hc' & Hm' & Hh' & Hf').
    pose proof Hh' as (_ & Hd' & _).
    eexists _, _. split; [exact H|]. split; [rewrite Hd'; exact Hh'|]. split; [assumption|].
    rewrite Hf', <- app_assoc.
    rewrite <- (take_app_le rows [x]) by (rewrite length_app; simpl; lia).
    rewrite take_drop. reflexivity.
  - cbn [row_given]. rewrite app_nil_r.
    eexists _, rows. split; [reflexivity|]. split; [exact Hh|]. split; [|reflexivity].
    destruct Ho as [[-> ->]|[Ho1 Ho2]]; [left; reflexivity|]. right. split; assumption.
Qed.

Lemma run_owned ops : forall r rows,
  holds_only r (delta r) rows -> cache_ok r -> ops_owned r ops ->
  exists r' rows', run apply_op r ops = Some r' /\
    holds_only r' (delta r') rows' /\ cache_ok r' /\
    Permutation (freed r' ++ rows') (freed r ++ rows ++ rows_given ops).
Proof.
  induction ops as [|o ops IH]; intros r rows Hh Hc Hops; cbn [run ops_owned] in *.
  - exists r, rows. unfold rows_given. simpl. rewrite app_nil_r. auto.
  - destruct Hops as [Ho Hops].
    destruct (apply_op_owned r rows o Hh Hc Ho) as (r1 & rows1 & H1 & Hh1 & Hc1 & P1).
    rewrite H1 in Hops |- *. cbn [bind].
    destruct (IH r1 rows1 Hh1 Hc1 Hops) as (r' & rows' & H' & Hh' & Hc' & P').
    exists r', rows'. split; [assumption|]. split; [assumption|]. split; [assumption|].
    rewrite P'. unfold rows_given. cbn [flat_map]. fold (rows_given ops).
    rewrite (app_assoc (freed r1)), P1. rewrite <- !app_assoc. reflexivity.
Qed.

(** From [_vte_ring_new] to [_vte_ring_free]: a client that inserts rows
    inside the window, removes with [free_element] and in the end frees the
    ring with its elements has every row destroyed exactly once. *)
Theorem every_row_is_destroyed_once (max_elements : Z) ops :
  ops_owned (_vte_ring_new max_elements) ops ->
  exists r log,
    run apply_op (_vte_ring_new max_elements) ops = Some r /\
    _vte_ring_free r true = Some log /\
    Permutation log (rows_given ops).
Proof.
  intros Hops. destruct (new_holds_only max_elements) as [Hh Hc].
  destruct (run_owned ops _ [] Hh Hc Hops) as (r & rows & H & Hh' & Hc' & P).
  destruct (free_window r rows Hh') as (live & Hf & Pl).
  exists r, (freed r ++ live). split; [assumption|]. split; [assumption|].
  rewrite Pl, P. reflexivity.
Qed.

(** [_vte_ring_insert] on a ring whose window holds [rows], at a position
    of the window or at its end: the call returns and the window is [rows]
    with [x] put in at [position], cut to the capacity.  At the end of the
    window the cut is at the top (the oldest row goes and the origin moves
    up), below it at the bottom (the last row goes).  The row cut off is
    destroyed, no other row is, and the slots outside the window are
    [NULL]. *)
Lemma insert_exact r rows position x :
  holds_only r (delta r) rows -> cache_ok r ->
  delta r <= position <= _vte_ring_next r ->
  let k := Z.to_nat (position - delta r) in
  let all := take k rows ++ x :: drop k rows in
  let m := Z.to_nat (max r) in
  let e := (List.length all - m)%nat in
  exists r', _vte_ring_insert r position (Some x) = Some r' /\
    cache_ok r' /\ max r' = max r /\
    if position =? _vte_ring_next r
    then holds_only r' (delta r + Z.of_nat e) (drop e all) /\
         freed r' = freed r ++ take e all
    else holds_only r' (delta r) (take m all) /\
         freed r' = freed r ++ drop m all.
Proof.
  intros Hh Hc Hpos k all m e. pose proof Hh as (Hok & _ & Hl & _).
  pose proof Hok as (Hm & Hd0 & Hl0 & Ha). unfold _vte_ring_next in *.
  destruct (Z.eqb_spec position (delta r + length r)) as [E|E].
  - destruct (append_exact r rows x Hh Hc) as (r' & H & Hc' & Hm' & Hh' & Hf').
    unfold _vte_ring_append in H. rewrite <- E in H.
    exists r'. split; [assumption|]. split; [assumption|]. split; [assumption|].
    assert (all = rows ++ [x]) as Eall.
    { unfold all. rewrite take_ge, drop_ge by (unfold k; lia). reflexivity. }
    unfold e. rewrite Eall. split; [assumption|].
    rewrite Hf'. f_equal. symmetry. apply take_app_le. rewrite length_app. simpl. lia.
  - destruct (insert_middle r rows position x Hh Hc ltac:(lia))
      as (r' & H & Hc' & Hm' & Hh' & Hf').
    exists r'. auto.
Qed.

Theorem insert_window r rows position x :
  holds_only r (delta r) rows -> cache_ok r ->
  delta r <= position <= _vte_ring_next r ->
  let k := Z.to_nat (position - delta r) in
  let all := take k rows ++ x :: drop k rows in
  let m := Z.to_nat (max r) in
  let e := (List.length all - m)%nat in
  exists r', _vte_ring_insert r position (Some x) = Some r' /\
    cache_ok r' /\ max r' = max r /\
    if position =? _vte_ring_next r
    then holds_only r' (delta r + Z.of_nat e) (drop e all) /\
         freed r' = freed r ++ take e all
    else holds_only r' (delta r) (take m all) /\
         freed r' = freed r ++ drop m all.
Proof. apply insert_exact. Qed.

(** [_vte_ring_remove] at an index that the ring contains: the call
    returns, the row at [position] leaves the window and the rows above it
    move down by one; the row is destroyed when [free_element] is set and
    only then, no other row is, and the slot that is no longer used is
    [NULL]. *)
Theorem remove_window r rows position free_element :
  holds_only r (delta r) rows -> cache_ok r ->
  _vte_ring_contains r position = true ->
  let k := Z.to_nat (position - delta r) in
  exists r' x, rows !! k = Some x /\
    _vte_ring_remove r position free_element = Some r' /\
    cache_ok r' /\ max r' = max r /\
    holds_only r' (delta r) (delete k rows) /\
    freed r' = freed r ++ (if free_element then [x] else []).
Proof. apply remove_exact. Qed.

(** [_vte_ring_insert_preserve] destroys a row exactly when the ring is
    full, and it is the row at the top of the window with the new row put
    in: the oldest row, or the new row itself when [position] is the
    origin, in which case the window holds the rows that it held, one index
    higher. *)
Theorem insert_preserve_destroys_the_top_row r rows position x :
  holds_only r (delta r) rows -> cache_ok r ->
  delta r <= position <= _vte_ring_next r ->
  let k := Z.to_nat (position - delta r) in
  let all := take k rows ++ x :: drop k rows in
  let e := (List.length all - Z.to_nat (max r))%nat in
  exists r', _vte_ring_insert_preserve r position (Some x) = Some r' /\
    cache_ok r' /\ max r' = max r /\
    holds_only r' (delta r + Z.of_nat e) (drop e all) /\
    freed r' = freed r ++ take e all /\
    (length r = max r -> position = delta r ->
     holds_only r' (delta r + 1) rows /\ freed r' = freed r ++ [x]).
Proof.
  intros Hh Hc Hpos k all e.
  destruct (insert_preserve_exact r rows position x Hh Hc Hpos)
    as (r' & H & Hc' & Hm' & Hh' & Hf').
  exists r'. split; [assumption|]. split; [assumption|]. split; [assumption|].
  split; [assumption|]. split; [assumption|].
  intros Hfull ->. pose proof Hh as (Hok & _ & Hl & _).
  fold k all e in Hh', Hf'.
  assert (k = 0%nat) as Ek by (unfold k; lia).
  assert (all = x :: rows) as Eall by (unfold all; rewrite Ek, take_0, drop_0; reflexivity).
  assert (e = 1%nat) as Ee by (unfold e; rewrite Eall; simpl; lia).
  rewrite Ee, Eall in Hh', Hf'. auto.
Qed.

(** A row taken out with [remove(position, FALSE)] and put back with
    [insert(position, row)] leaves the window as it was, and no row is
    destroyed. *)
Theorem remove_then_insert_restores r rows position :
  holds_only r (delta r) rows -> cache_ok r ->
  _vte_ring_contains r position = true ->
  exists x r1 r2,
    rows !! Z.to_nat (position - delta r) = Some x /\
    _vte_ring_remove r position false = Some r1 /\
    _vte_ring_insert r1 position (Some x) = Some r2 /\
    holds_only r2 (delta r) rows /\ freed r2 = freed r.
Proof.
  intros Hh Hc Hin. pose proof Hh as (Hok & _ & Hl & _).
  pose proof Hok as (Hm & Hd0 & Hl0 & Ha).
  set (k := Z.to_nat (position - delta r)).
  pose proof Hin as Hpos. apply contains_iff in Hpos.
  destruct (remove_exact r rows position false Hh Hc Hin)
    as (r1 & x & Hx & H1 & Hc1 & Hm1 & Hh1 & Hf1).
  fold k in Hx, Hh1.
  pose proof Hh1 as (_ & Hd1 & Hl1 & _). rewrite length_delete in Hl1 by eauto.
  rewrite <- Hd1 in Hh1.
  assert (take k (delete k rows) ++ x :: drop k (delete k rows) = rows) as Eall.
  { rewrite delete_take_drop, take_app_le, drop_app_ge by (rewrite length_take; lia).
    rewrite take_take, length_take, Nat.min_id.
    replace (k `min` List.length rows - k)%nat with 0%nat by lia.
    replace (k - k `min` List.length rows)%nat with 0%nat by lia.
    rewrite drop_0. apply take_drop_middle. assumption. }
  destruct (insert_exact r1 (delete k rows) position x Hh1 Hc1)
    as (r2 & H2 & Hc2 & Hm2 & Hr2).
  { unfold _vte_ring_next. lia. }
  rewrite Hd1 in Hr2. fold k in Hr2. rewrite Eall in Hr2.
  exists x, r1, r2. split; [assumption|]. split; [assumption|]. split; [assumption|].
  rewrite app_nil_r in Hf1.
  destruct (position =? _vte_ring_next r1); destruct Hr2 as [Hh2 Hf2].
  - replace (List.length rows - Z.to_nat (max r1))%nat with 0%nat in * by lia.
    rewrite drop_0, Z.add_0_r in Hh2. rewrite take_0, app_nil_r in Hf2.
    split; [assumption | congruence].
  - rewrite take_ge in Hh2 by lia. rewrite drop_ge, app_nil_r in Hf2 by lia.
    split; [assumption | congruence].
Qed.

(** On a ring that is not full, a row put in with [insert] and taken out
    again with [remove(position, FALSE)] leaves the window as it was, and
    no row is destroyed. *)
Theorem insert_then_remove_restores r rows position x :
  holds_only r (delta r) rows -> cache_ok r ->
  length r < max r -> delta r <= position <= _vte_ring_next r ->
  exists r1 r2,
    _vte_ring_insert r position (Some x) = Some r1 /\
    _vte_ring_remove r1 position false = Some r2 /\
    holds_only r2 (delta r) rows /\ freed r2 = freed r.
Proof.
  intros Hh Hc Hroom Hpos. pose proof Hh as (Hok & _ & Hl & _).
  pose proof Hok as (Hm & Hd0 & Hl0 & Ha).
  set (k := Z.to_nat (position - delta r)).
  unfold _vte_ring_next in Hpos.
  destruct (insert_exact r rows position x Hh Hc Hpos) as (r1 & H1 & Hc1 & Hm1 & Hr1).
  fold k in Hr1.
  set (all := take k rows ++ x :: drop k rows) in *.
  assert (List.length all = S (List.length rows)) as Lall.
  { unfold all. rewrite length_app, length_take. cbn [List.length]. rewrite length_drop.
    unfold k. lia. }
  assert (holds_only r1 (delta r) all /\ freed r1 = freed r) as [Hh1 Hf1].
  { destruct (position =? _vte_ring_next r); destruct Hr1 as [Hh1 Hf1].
    - replace (List.length all - Z.to_nat (max r))%nat with 0%nat in * by lia.
      rewrite drop_0, Z.add_0_r in Hh1. rewrite take_0, app_nil_r in Hf1. auto.
    - rewrite take_ge in Hh1 by lia. rewrite drop_ge, app_nil_r in Hf1 by lia. auto. }
  pose proof Hh1 as (_ & Hd1 & Hl1 & _). rewrite <- Hd1 in Hh1.
  assert (_vte_ring_contains r1 position = true) as Hin by (apply contains_iff; lia).
  destruct (remove_exact r1 all position false Hh1 Hc1 Hin)
    as (r2 & y & _ & H2 & Hc2 & Hm2 & Hh2 & Hf2).
  rewrite Hd1 in Hh2. fold k in Hh2.
  assert (delete k all = rows) as Edel.
  { unfold all. rewrite <- (take_drop k rows) at 3.
    rewrite <- (delete_middle (take k rows) (drop k rows) x) at 1.
    rewrite length_take. f_equal. unfold k. lia. }
  rewrite Edel in Hh2. rewrite app_nil_r in Hf2.
  exists r1, r2. split; [assumption|]. split; [assumption|].
  split; [assumption | congruence].
Qed.

End RingWindows.

(** *** The theorems at concrete rings *)

Lemma two_rows_appended :
  append_rows (_vte_ring_new 2) [Some 10%nat; Some 11%nat; Some 12%nat] = Some two_rows.
Proof. reflexivity. Qed.

Lemma two_rows_holds : holds two_rows (delta two_rows) [11%nat; 12%nat].
Proof.
  unfold holds, ring_ok, two_rows. simpl. repeat split; try lia.
  intros i x Hx. destruct i as [|[|i]]; simpl in Hx; try discriminate;
    injection Hx as <-; reflexivity.
Defined.

(** The witness of C7: a row inserted at index 2 of [two_rows]. *)
Lemma insert_preserve_window_witness :
  delta two_rows <= 2 <= _vte_ring_next two_rows /\
  insert_preserve_reads two_rows 2 99%nat.
Proof.
  split; [unfold two_rows, _vte_ring_next; simpl; lia|].
  apply (insert_preserve_window two_rows [11%nat; 12%nat] 2 99%nat).
  - exact two_rows_holds.
  - left. reflexivity.
  - unfold two_rows, _vte_ring_next. simpl. lia.
Defined.

(** C7 as the claim states it fails at a position below the window: on the
    ring that [_vte_ring_new_with_delta(2, 1)] and one append leave,
    [insert_preserve(0, x)] saves the [NULL] of the slot of index 0 with the
    rows and aborts at the [g_assert] of [_vte_ring_append]. *)
Lemma insert_preserve_below_window :
  exists r : VteRing nat,
    _vte_ring_append (_vte_ring_new_with_delta 2 1) (Some 10%nat) = Some r /\
    holds r (delta r) [10%nat] /\ cache_ok r /\
    0 <= _vte_ring_next r /\
    _vte_ring_insert_preserve r 0 (Some 99%nat) = None /\
    ~ insert_preserve_reads r 0 99%nat.
Proof.
  exists (mkRing 1 1 2 (-1) None [None; Some 10%nat] []).
  split; [reflexivity|]. split; [|split; [|split; [|split]]].
  - unfold holds, ring_ok. simpl. repeat split; try lia.
    intros i x Hx. destruct i as [|i]; simpl in Hx; try discriminate.
    injection Hx as <-. reflexivity.
  - left. reflexivity.
  - unfold _vte_ring_next. simpl. lia.
  - reflexivity.
  - intros (r' & H & _). vm_compute in H. discriminate H.
Qed.

(** The witness of C8: appends, a memoized lookup, an insertion that evicts
    the cached row, and a removal. *)
Lemma cache_is_transparent_witness :
  cache_transparent (_vte_ring_new 2)
    [Append (Some 1%nat); Set_cache 0 (Some 1%nat); Append (Some 2%nat);
     Insert_preserve 1 (Some 3%nat); Set_cache 2 (Some 2%nat); Remove 1 false].
Proof.
  apply (cache_is_transparent (_vte_ring_new 2)).
  - apply (new_holds (Row:=nat) 2).
  - apply (new_holds (Row:=nat) 2).
  - vm_compute. repeat split; auto; intro; discriminate.
Defined.

(** C8 as the claim states it fails for a [set_cache] that stores another
    row than the one at the index: after [append(row 1)] and
    [set_cache(0, row 2)], [index(0)] returns row 2, the row that the cache
    was given, and row 1 on the ring without a cache. *)
Lemma cache_set_arbitrarily :
  let ops := [Append (Some 1%nat); Set_cache 0 (Some 2%nat)] in
  exists rc ru : VteRing nat,
    run apply_op (_vte_ring_new 2) ops = Some rc /\
    run apply_op_nocache (erase (_vte_ring_new 2)) ops = Some ru /\
    _vte_ring_contains rc 0 = true /\ _vte_ring_contains ru 0 = true /\
    _vte_ring_index rc 0 = Some (Some 2%nat) /\
    _vte_ring_index ru 0 = Some (Some 1%nat) /\
    ~ cache_transparent (_vte_ring_new 2) ops.
Proof.
  cbv zeta.
  exists (mkRing 0 1 2 0 (Some 2%nat) [Some 1%nat; None] []),
         (mkRing 0 1 2 (-1) None [Some 1%nat; None] []).
  do 6 (split; [reflexivity|]).
  unfold cache_transparent. intros H.
  assert (run apply_op (_vte_ring_new 2) [Append (Some 1%nat); Set_cache 0 (Some 2%nat)]
          = Some (mkRing 0 1 2 0 (Some 2%nat) [Some 1%nat; None] [])) as E1 by reflexivity.
  assert (run apply_op_nocache (erase (_vte_ring_new 2))
              [Append (Some 1%nat); Set_cache 0 (Some 2%nat)]
          = Some (mkRing 0 1 2 (-1) None [Some 1%nat; None] [])) as E2 by reflexivity.
  rewrite E1, E2 in H. destruct (H 0) as [_ H0].
  specialize (H0 eq_refl). vm_compute in H0. discriminate H0.
Qed.

(** A [remove] outside its precondition shows the cache too: on the full
    ring of rows 1 and 2 with index 0 memoized, [remove(2)] clears the slot
    that index 0 shares with index 2 and leaves the cache entry, so that
    [index(0)] is row 1 with the cache and [NULL] without. *)
Lemma remove_past_the_window :
  let ops := [Append (Some 1%nat); Append (Some 2%nat);
              Set_cache 0 (Some 1%nat); Remove 2 false] in
  exists rc ru : VteRing nat,
    run apply_op (_vte_ring_new 2) ops = Some rc /\
    run apply_op_nocache (erase (_vte_ring_new 2)) ops = Some ru /\
    _vte_ring_contains rc 0 = true /\ _vte_ring_contains ru 0 = true /\
    _vte_ring_index rc 0 = Some (Some 1%nat) /\
    _vte_ring_index ru 0 = Some None.
Proof.
  cbv zeta.
  exists (mkRing 0 1 2 0 (Some 1%nat) [None; None] []),
         (mkRing 0 1 2 (-1) None [None; None] []).
  repeat split.
Qed.

Lemma two_rows_holds_only : holds_only two_rows (delta two_rows) [11%nat; 12%nat].
Proof.
  split; [|split; [reflexivity|split; [reflexivity|]]].
  - unfold ring_ok, two_rows. simpl. lia.
  - intros p Hp. simpl in Hp.
    assert (p = 1 \/ p = 2) as [->| ->] by lia; reflexivity.
Defined.

Lemma insert_window_witness :
  exists r', _vte_ring_insert two_rows 2 (Some 99%nat) = Some r' /\
    cache_ok r' /\ max r' = 2 /\
    holds_only r' 1 [11%nat; 99%nat] /\ freed r' = [10%nat; 12%nat].
Proof.
  apply (insert_window two_rows [11%nat; 12%nat] 2 99%nat).
  - exact two_rows_holds_only.
  - left. reflexivity.
  - unfold two_rows, _vte_ring_next. simpl. lia.
Defined.

Lemma remove_window_witness :
  exists r' x, [11%nat; 12%nat] !! 0%nat = Some x /\
    _vte_ring_remove two_rows 1 true = Some r' /\
    cache_ok r' /\ max r' = 2 /\
    holds_only r' 1 [12%nat] /\ freed r' = [10%nat] ++ [x].
Proof.
  apply (remove_window two_rows [11%nat; 12%nat] 1 true).
  - exact two_rows_holds_only.
  - left. reflexivity.
  - reflexivity.
Defined.

Lemma insert_preserve_destroys_the_top_row_witness :
  exists r', _vte_ring_insert_preserve two_rows 1 (Some 99%nat) = Some r' /\
    cache_ok r' /\ max r' = 2 /\
    holds_only r' 2 [11%nat; 12%nat] /\
    freed r' = [10%nat; 99%nat] /\
    (length two_rows = max two_rows -> 1 = delta two_rows ->
     holds_only r' 2 [11%nat; 12%nat] /\ freed r' = [10%nat] ++ [99%nat]).
Proof.
  apply (insert_preserve_destroys_the_top_row two_rows [11%nat; 12%nat] 1 99%nat).
  - exact two_rows_holds_only.
  - left. reflexivity.
  - unfold two_rows, _vte_ring_next. simpl. lia.
Defined.

Lemma remove_then_insert_restores_witness :
  exists x r1 r2,
    [11%nat; 12%nat] !! Z.to_nat (1 - delta two_rows) = Some x /\
    _vte_ring_remove two_rows 1 false = Some r1 /\
    _vte_ring_insert r1 1 (Some x) = Some r2 /\
    holds_only r2 (delta two_rows) [11%nat; 12%nat] /\ freed r2 = freed two_rows.
Proof.
  apply (remove_then_insert_restores two_rows [11%nat; 12%nat] 1).
  - exact two_rows_holds_only.
  - left. reflexivity.
  - reflexivity.
Defined.

Lemma one_row_holds_only :
  holds_only (mkRing 0 1 2 (-1) None [Some 10%nat; None] []) 0 [10%nat].
Proof.
  split; [|split; [reflexivity|split; [reflexivity|]]].
  - unfold ring_ok. simpl. lia.
  - intros p Hp. simpl in Hp.
    assert (p = 0 \/ p = 1) as [->| ->] by lia; reflexivity.
Defined.

Lemma insert_then_remove_restores_witness :
  exists r1 r2,
    _vte_ring_insert (mkRing 0 1 2 (-1) None [Some 10%nat; None] []) 0 (Some 99%nat)
    = Some r1 /\
    _vte_ring_remove r1 0 false = Some r2 /\
    holds_only r2 0 [10%nat] /\ freed r2 = [].
Proof.
  apply (insert_then_remove_restores
           (mkRing 0 1 2 (-1) None [Some 10%nat; None] []) [10%nat] 0 99%nat).
  - exact one_row_holds_only.
  - left. reflexivity.
  - simpl. lia.
  - unfold _vte_ring_next. simpl. lia.
Defined.

Lemma every_row_is_destroyed_once_witness :
  exists r log,
    run apply_op (_vte_ring_new 2)
      [Append (Some 1%nat); Append (Some 2%nat); Append (Some 3%nat);
       Insert_preserve 2 (Some 4%nat); Remove 2 true; Insert 2 (Some 5%nat)] = Some r /\
    _vte_ring_free r true = Some log /\
    Permutation log [1%nat; 2%nat; 3%nat; 4%nat; 5%nat].
Proof.
  apply (every_row_is_destroyed_once 2
           [Append (Some 1%nat); Append (Some 2%nat); Append (Some 3%nat);
            Insert_preserve 2 (Some 4%nat); Remove 2 true; Insert 2 (Some 5%nat)]).
  vm_compute. repeat split; auto; intro; discriminate.
Defined.

End RingFacts.

(* ===================================================================== *)
(** * The SIXEL decoder: theorems *)
(* ===================================================================== *)

Module SixelFacts.

Import Sixel.

Section WithLimits.

Variables DECSIXEL_PARAMS_MAX DECSIXEL_PALETTE_MAX DECSIXEL_PARAMVALUE_MAX : Z.
Variables DECSIXEL_WIDTH_MAX DECSIXEL_HEIGHT_MAX : Z.

Local Abbreviation parse_run :=
  (sixel_parser_parse_run DECSIXEL_PARAMS_MAX DECSIXEL_PALETTE_MAX
     DECSIXEL_PARAMVALUE_MAX DECSIXEL_WIDTH_MAX DECSIXEL_HEIGHT_MAX).
Local Abbreviation iteration :=
  (parse_iteration DECSIXEL_PARAMS_MAX DECSIXEL_PALETTE_MAX
     DECSIXEL_PARAMVALUE_MAX DECSIXEL_WIDTH_MAX DECSIXEL_HEIGHT_MAX).
Local Abbreviation loop :=
  (parse_loop DECSIXEL_PARAMS_MAX DECSIXEL_PALETTE_MAX
     DECSIXEL_PARAMVALUE_MAX DECSIXEL_WIDTH_MAX DECSIXEL_HEIGHT_MAX).
Local Abbreviation valid := (valid_index DECSIXEL_PALETTE_MAX).
Local Abbreviation sized := (data_ok DECSIXEL_PALETTE_MAX).
Local Abbreviation bounded :=
  (image_bounded DECSIXEL_PALETTE_MAX DECSIXEL_WIDTH_MAX DECSIXEL_HEIGHT_MAX).
Local Abbreviation inv :=
  (decoder_ok DECSIXEL_PALETTE_MAX DECSIXEL_WIDTH_MAX DECSIXEL_HEIGHT_MAX).
Local Abbreviation flow_inv :=
  (flow_ok DECSIXEL_PALETTE_MAX DECSIXEL_WIDTH_MAX DECSIXEL_HEIGHT_MAX).


(** Destructs the hypotheses that say that a computation in the error monad
    has a result. *)
Ltac unbinds :=
  repeat match goal with
  | H : bind ?m _ = Some _ |- _ =>
      let v := fresh "v" in
      let E := fresh "E" in
      apply bind_some in H; destruct H as (v & E & H)
  | H : (if ?c then _ else _) = Some _ |- _ => destruct c eqn:?
  | H : (let '(_, _) := ?p in _) = Some _ |- _ => destruct p eqn:?
  | H : Some _ = Some _ |- _ => injection H as ?; subst
  | H : None = Some _ |- _ => discriminate H
  | H : (_, _) = (_, _) |- _ => injection H as ?; subst
  | H : Goto_end _ _ _ _ = Continue _ _ _ _ |- _ => discriminate H
  | H : Continue _ _ _ _ = Continue _ _ _ _ |- _ => injection H as ?; subst
  | H : true = false |- _ => discriminate H
  end.

Lemma cells_from_some src off n l (P : Z -> Prop) :
  cells_from src off n = Some l ->
  List.length l = Z.to_nat n /\ 0 <= n /\ (Forall P src -> Forall P l).
Proof.
  unfold cells_from. intros H.
  destruct (Z.leb_spec 0 off); [|discriminate].
  destruct (Z.leb_spec 0 n); [|discriminate].
  destruct (Z.leb_spec (off + n) (Z.of_nat (List.length src))); [|discriminate].
  simpl in H. injection H as <-. split; [|split].
  - rewrite length_take, length_drop. lia.
  - assumption.
  - intros HP. apply Forall_take, Forall_drop. assumption.
Qed.

Lemma copy_rows_some (P : Z -> Prop) src old_width w n : forall row out,
  copy_rows src old_width w row n = Some out ->
  0 <= w -> P 0 ->
  List.length out = (n * Z.to_nat w)%nat /\ (Forall P src -> Forall P out).
Proof.
  induction n as [|n IH]; intros row out H Hw P0; simpl in H.
  - injection H as <-. split; [reflexivity | constructor].
  - apply bind_some in H as (line & Hline & H).
    apply bind_some in H as (rest & Hrest & H). injection H as <-.
    destruct (IH _ _ Hrest Hw P0) as [L1 F1].
    assert (List.length line = Z.to_nat w /\ (Forall P src -> Forall P line)) as [L2 F2].
    { destruct (Z.gtb_spec w old_width).
      - apply bind_some in Hline as (cells & Hc & Hline). injection Hline as <-.
        destruct (cells_from_some _ _ _ _ P Hc) as (L & ? & F).
        split.
        + rewrite length_app, length_replicate, L. lia.
        + intros HP. apply Forall_app. split; [auto|].
          apply Forall_replicate. assumption.
      - destruct (cells_from_some _ _ _ _ P Hline) as (L & ? & F). auto. }
    split.
    + rewrite length_app, L1, L2. simpl. lia.
    + intros HP. apply Forall_app. auto.
Qed.

(** A resize either fails, and frees the buffer, or leaves a buffer of the
    size asked for that holds valid indices. *)
Lemma image_buffer_resize_ok h image w' h' status image' h2 :
  image_buffer_resize h image w' h' = Some (status, image', h2) ->
  1 <= w' -> 1 <= h' -> 1 <= height image -> sized image ->
  0 < DECSIXEL_PALETTE_MAX ->
  (status = -1 /\ image' = set_data image None) \/
  (status = 0 /\ width image' = w' /\ height image' = h' /\ sized image' /\
   data image' <> None /\
   palette image' = palette image /\ ncolors image' = ncolors image /\
   palette_modified image' = palette_modified image /\
   use_private_register image' = use_private_register image).
Proof.
  intros H Hw Hh Hoh Hd Hp. unfold image_buffer_resize in H.
  destruct (g_malloc h) as [ok h1]. destruct ok; simpl in H.
  2:{ injection H as <- <- <-. left. auto. }
  right.
  apply bind_some in H as (src & Hsrc & H).
  apply bind_some in H as (top & Htop & H).
  apply bind_some in H as (alt & Halt & H).
  injection H as <- <- <-.
  split; [reflexivity|]. split; [reflexivity|]. split; [reflexivity|].
  split; [|repeat split; discriminate].
  intros d Hdd. cbn in Hdd. injection Hdd as <-.
  destruct (Hd _ Hsrc) as [Ls Fs].
  assert (valid 0) as V0 by (unfold valid_index; lia).
  destruct (copy_rows_some valid _ _ _ _ _ _ Htop ltac:(lia) V0) as [Lt Ft].
  cbn [width height set_width set_height set_data].
  destruct (Z.gtb_spec h' (height image)).
  - destruct (_ && _) eqn:E; [|discriminate]. injection Halt as <-.
    apply andb_true_iff in E as [E1 E2]. apply Z.eqb_eq in E1. apply Z.leb_le in E2.
    split.
    + rewrite length_app, length_replicate. lia.
    + apply Forall_app. split; [auto|].
      apply Forall_replicate. assumption.
  - injection Halt as <-. split; [|auto]. rewrite Lt. lia.
Qed.


(** *** Finalization *)

Lemma cells_from_defined src off n :
  0 <= off -> 0 <= n -> off + n <= Z.of_nat (List.length src) ->
  exists l, cells_from src off n = Some l.
Proof.
  intros H1 H2 H3. unfold cells_from.
  destruct (Z.leb_spec 0 off); [|lia]. destruct (Z.leb_spec 0 n); [|lia].
  destruct (Z.leb_spec (off + n) (Z.of_nat (List.length src))); [|lia].
  simpl. eauto.
Qed.

Lemma copy_rows_defined src old_width old_height w n : forall row,
  0 <= old_width -> 0 <= w -> 0 <= row -> row + Z.of_nat n <= old_height ->
  Z.of_nat (List.length src) = old_width * old_height ->
  exists out, copy_rows src old_width w row n = Some out.
Proof.
  induction n as [|n IH]; intros row Ho Hw Hr Hn Hl; simpl; [eauto|].
  destruct (IH (row + 1)) as [rest Hrest]; try lia.
  rewrite Hrest.
  destruct (Z.gtb_spec w old_width).
  - destruct (cells_from_defined src (old_width * row) old_width) as [l Hc]; try nia.
    rewrite Hc. simpl. eauto.
  - destruct (cells_from_defined src (old_width * row) w) as [l Hc]; try nia.
    rewrite Hc. simpl. eauto.
Qed.

(** On a well-formed image a resize has a result, and it fails exactly when
    the allocation does. *)
Lemma image_buffer_resize_defined h image w' h' d :
  data image = Some d -> Z.of_nat (List.length d) = width image * height image ->
  1 <= width image -> 1 <= height image -> 1 <= w' -> 1 <= h' ->
  exists status image',
    image_buffer_resize h image w' h' = Some (status, image', snd (g_malloc h)) /\
    status = (if fst (g_malloc h) then 0 else -1).
Proof.
  intros Hd Hl Hw Hh Hw' Hh'. unfold image_buffer_resize.
  destruct (g_malloc h) as [ok h1]. destruct ok; cbn [negb fst snd]; [|eauto].
  rewrite Hd. cbn [bind].
  set (mh := if h' >? height image then height image else h').
  assert (0 <= mh <= height image) as Hmh
    by (unfold mh; destruct (Z.gtb_spec h' (height image)); lia).
  destruct (copy_rows_defined d (width image) (height image) w' (Z.to_nat mh) 0)
    as [top Htop]; try lia.
  rewrite Htop. cbn [bind].
  assert (valid_top : List.length top = (Z.to_nat mh * Z.to_nat w')%nat).
  { eapply (copy_rows_some (fun _ => True)); eauto. lia. }
  destruct (Z.gtb_spec h' (height image)).
  - assert (mh = height image) as Emh by (unfold mh; destruct (Z.gtb_spec h' (height image)); lia).
    destruct (Z.eqb_spec (w' * height image) (Z.of_nat (List.length top))); [|nia].
    destruct (Z.leb_spec 0 (w' * (h' - height image))); [|nia].
    cbn. eauto.
  - cbn. eauto.
Qed.

Lemma store_colors_defined vs : forall pal n,
  0 <= n -> n + Z.of_nat (List.length vs) <= Z.of_nat (List.length pal) ->
  exists pal', store_colors pal n vs = Some (pal', n + Z.of_nat (List.length vs)) /\
               List.length pal' = List.length pal.
Proof.
  induction vs as [|v vs IH]; intros pal n Hn Hl; simpl.
  - exists pal. rewrite Z.add_0_r. auto.
  - simpl in Hl. rewrite array_store_in_range by lia. cbn [bind].
    destruct (IH (<[Z.to_nat n := v]> pal) (n + 1)) as (pal' & H & L).
    + lia.
    + rewrite length_insert. lia.
    + exists pal'. rewrite H, L, length_insert. split; [f_equal; f_equal; lia | reflexivity].
Qed.

(** What a run of stores that returns has written: the index after it, a
    palette of the same size, and no entry outside it. *)
Lemma store_colors_some vs : forall pal n pal' n',
  store_colors pal n vs = Some (pal', n') ->
  n' = n + Z.of_nat (List.length vs) /\ List.length pal' = List.length pal /\
  (vs <> [] -> n' <= Z.of_nat (List.length pal)).
Proof.
  induction vs as [|v vs IH]; intros pal n pal' n' H; simpl in H.
  - injection H as <- <-. rewrite Z.add_0_r. repeat split. congruence.
  - apply bind_some in H as (pal1 & H1 & H).
    pose proof (array_store_length _ _ _ _ H1) as L1.
    assert (n < Z.of_nat (List.length pal)) as Hn.
    { unfold array_store in H1.
      destruct (Z.leb_spec 0 n); simpl in H1; [|discriminate].
      destruct (Z.ltb_spec n (Z.of_nat (List.length pal))); [assumption | discriminate]. }
    apply IH in H as (E & L & Hle). split; [|split].
    + cbn [List.length]. lia.
    + congruence.
    + intros _. destruct vs as [|v' vs'].
      * cbn [List.length] in E. lia.
      * rewrite <- L1. apply Hle. discriminate.
Qed.

(** [set_default_color] writes the entries 1 to 256: in a palette of fewer
    than 257 entries the last store of the grayscale ramp is past the
    array. *)
Lemma set_default_color_needs_257 image :
  Z.of_nat (List.length (palette image)) < 257 ->
  set_default_color DECSIXEL_PALETTE_MAX image = None.
Proof.
  intros Hl. unfold set_default_color.
  destruct (store_colors (palette image) 1 sixel_default_color_table)
    as [[p1 n1]|] eqn:E1; [|reflexivity]. cbn [bind fst snd].
  destruct (store_colors p1 n1 color_cube) as [[p2 n2]|] eqn:E2; [|reflexivity].
  cbn [bind fst snd].
  destruct (store_colors p2 n2 gray_ramp) as [[p3 n3]|] eqn:E3; [|reflexivity].
  exfalso.
  apply store_colors_some in E1 as (N1 & L1 & _).
  apply store_colors_some in E2 as (N2 & L2 & _).
  apply store_colors_some in E3 as (N3 & _ & H3).
  assert (n3 <= Z.of_nat (List.length p2)) as Hle by (apply H3; discriminate).
  change (Z.of_nat (List.length sixel_default_color_table)) with 16 in N1.
  change (Z.of_nat (List.length color_cube)) with 216 in N2.
  change (Z.of_nat (List.length gray_ramp)) with 24 in N3.
  rewrite L2, L1 in Hle. lia.
Qed.

Lemma set_default_color_defined image :
  Z.of_nat (List.length (palette image)) = DECSIXEL_PALETTE_MAX ->
  257 <= DECSIXEL_PALETTE_MAX ->
  exists pal, set_default_color DECSIXEL_PALETTE_MAX image = Some (0, set_palette image pal) /\
              List.length pal = List.length (palette image).
Proof.
  intros Hl Hp. unfold set_default_color.
  destruct (store_colors_defined sixel_default_color_table (palette image) 1)
    as (p1 & H1 & L1); [lia | simpl; lia |].
  rewrite H1. cbn [bind fst snd].
  destruct (store_colors_defined color_cube p1 (1 + Z.of_nat (List.length sixel_default_color_table)))
    as (p2 & H2 & L2); [lia | rewrite L1; simpl; lia |].
  rewrite H2. cbn [bind fst snd].
  destruct (store_colors_defined gray_ramp p2
              (1 + Z.of_nat (List.length sixel_default_color_table)
               + Z.of_nat (List.length color_cube)))
    as (p3 & H3 & L3); [lia | rewrite L2, L1; simpl; lia |].
  rewrite H3. cbn [bind fst snd].
  match goal with
  | |- context [store_colors p3 ?n ?vs] =>
      destruct (store_colors_defined vs p3 n) as (p4 & H4 & L4)
  end.
  { lia. }
  { rewrite length_replicate, L3, L2, L1. simpl. lia. }
  rewrite H4. cbn [bind fst snd].
  exists p4. split; [reflexivity|]. congruence.
Qed.

Lemma emit_pixels_defined d pal n : forall src,
  0 <= src -> src + Z.of_nat n <= Z.of_nat (List.length d) ->
  Forall (fun v => 0 <= v < Z.of_nat (List.length pal)) d ->
  exists px, emit_pixels d pal src n = Some px /\ List.length px = (4 * n)%nat.
Proof.
  induction n as [|n IH]; intros src Hs Hl Hv; simpl; [eauto|].
  destruct (array_at_in_range d src) as [idx Hidx]; [lia|].
  rewrite Hidx. cbn [bind].
  assert (0 <= idx < Z.of_nat (List.length pal)) as Hi.
  { unfold array_at in Hidx. destruct (0 <=? src); [|discriminate].
    eapply Forall_lookup_1 in Hv; eauto. }
  destruct (array_at_in_range pal idx Hi) as [color Hcolor].
  rewrite Hcolor. cbn [bind].
  destruct (IH (src + 1)) as (px & Hpx & Lpx); [lia | lia | assumption |].
  rewrite Hpx. cbn [bind]. eexists. split; [reflexivity|].
  simpl. rewrite Lpx. lia.
Qed.

Lemma emit_rows_defined d pal w rows : forall src,
  0 <= src -> 0 <= w -> src + w * Z.of_nat rows <= Z.of_nat (List.length d) ->
  Forall (fun v => 0 <= v < Z.of_nat (List.length pal)) d ->
  exists px, emit_rows d pal src w rows = Some px /\
             Z.of_nat (List.length px) = 4 * w * Z.of_nat rows.
Proof.
  induction rows as [|rows IH]; intros src Hs Hw Hl Hv; simpl.
  - exists []. split; [reflexivity | simpl; lia].
  - destruct (emit_pixels_defined d pal (Z.to_nat w) src) as (line & Hline & Lline);
      [lia | nia | assumption |].
    rewrite Hline. cbn [bind].
    destruct (IH (src + Z.of_nat (Z.to_nat w))) as (px & Hpx & Lpx);
      [lia | lia | nia | assumption |].
    rewrite Hpx. cbn [bind]. eexists. split; [reflexivity|].
    rewrite length_app. nia.
Qed.


(** The raster that [write_raster] writes for a well-formed image. *)
Lemma write_raster_defined h status0 st :
  1 <= width (image st) -> 1 <= height (image st) ->
  data (image st) <> None -> sized (image st) ->
  Z.of_nat (List.length (palette (image st))) = DECSIXEL_PALETTE_MAX ->
  (loads_default_palette (image st) = true -> 257 <= DECSIXEL_PALETTE_MAX) ->
  exists st' pixels,
    write_raster DECSIXEL_PALETTE_MAX h status0 st = Some (0, st', pixels, h) /\
    width (image st') = width (image st) /\ height (image st') = height (image st) /\
    max_x st' = max_x st /\ max_y st' = max_y st /\
    Z.of_nat (List.length pixels) = 4 * width (image st) * height (image st).
Proof.
  intros Hw Hh Hnn Hd Hl Hp. unfold write_raster. cbv zeta.
  set (img := image st) in *.
  destruct (data img) as [d|] eqn:Ed; [|contradiction].
  destruct (Hd d Ed) as [Ld Fd].
  assert (forall pal, List.length pal = List.length (palette img) ->
            exists pixels,
              emit_rows d pal 0 (width img) (Z.to_nat (height img)) = Some pixels /\
              Z.of_nat (List.length pixels) = 4 * width img * height img) as Hemit.
  { intros pal Lp.
    destruct (emit_rows_defined d pal (width img) (Z.to_nat (height img)) 0)
      as (px & Hpx & Lpx); try lia.
    - eapply Forall_impl; [exact Fd|]. unfold valid_index. intros v Hv. rewrite Lp. lia.
    - exists px. split; [exact Hpx | lia]. }
  destruct (loads_default_palette img).
  - destruct (set_default_color_defined img Hl (Hp eq_refl)) as (pal & Hs & Lpal).
    rewrite Hs. cbn [bind]. cbv iota beta. change (0 <? 0) with false. cbn [andb].
    cbn [data palette width height set_palette]. rewrite Ed. cbn [bind].
    destruct (Hemit pal Lpal) as (px & Hpx & Lpx). rewrite Hpx. cbn [bind].
    eexists _, px. split; [reflexivity|]. cbn. auto.
  - cbn [bind andb]. cbv iota beta. rewrite Ed. cbn [bind].
    destruct (Hemit (palette img) eq_refl) as (px & Hpx & Lpx). rewrite Hpx. cbn [bind].
    eexists _, px. split; [reflexivity|]. cbn. auto.
Qed.


(** C3, amended.  For a decoder whose image is well formed (a buffer of
    [width * height] cells that hold indices of the palette, and room in
    the palette for the 257 entries of the default one when it is to be
    loaded) and whose [max_x], [max_y] are not negative,
    [sixel_parser_finalize] returns, with [max_x] and [max_y] incremented
    and clamped up to [attributed_ph] and [attributed_pv]; when the image
    is wider than [max_x] or higher than [max_y] it is resized and, unless
    the allocation fails (status -1, nothing written), the BGRA raster has
    [max_x * max_y] pixels; otherwise the image is not resized and the
    raster has the [width * height] pixels of the image as it is.  (The
    claim gives the raster [max_x * max_y] pixels also when the clamped
    extents exceed the image: [finalize_keeps_a_smaller_image].) *)
Theorem finalize_raster (h : heap) (st : sixel_state_t) :
  1 <= width (image st) -> 1 <= height (image st) ->
  data (image st) <> None -> sized (image st) ->
  Z.of_nat (List.length (palette (image st))) = DECSIXEL_PALETTE_MAX ->
  (loads_default_palette (image st) = true -> 257 <= DECSIXEL_PALETTE_MAX) ->
  0 <= max_x st -> 0 <= max_y st ->
  let sx := Z.max (max_x st + 1) (attributed_ph st) in
  let sy := Z.max (max_y st + 1) (attributed_pv st) in
  exists status st' pixels h',
    sixel_parser_finalize DECSIXEL_PALETTE_MAX h st = Some (status, st', pixels, h') /\
    max_x st' = sx /\ max_y st' = sy /\
    if (width (image st) >? sx) || (height (image st) >? sy) then
      if fst (g_malloc h) then
        status = 0 /\ width (image st') = sx /\ height (image st') = sy /\
        Z.of_nat (List.length pixels) = 4 * sx * sy
      else status = -1 /\ pixels = []
    else
      status = 0 /\
      width (image st') = width (image st) /\ height (image st') = height (image st) /\
      Z.of_nat (List.length pixels) = 4 * width (image st) * height (image st).
Proof.
  intros Hw Hh Hnn Hd Hl Hp Hx Hy sx sy. unfold sixel_parser_finalize. cbv zeta.
  set (st1 := set_max_x st (max_x st + 1)).
  set (st2 := if max_x st1 <? attributed_ph st1 then set_max_x st1 (attributed_ph st1) else st1).
  set (st3 := set_max_y st2 (max_y st2 + 1)).
  set (st4 := if max_y st3 <? attributed_pv st3 then set_max_y st3 (attributed_pv st3) else st3).
  assert (image st4 = image st /\ max_x st4 = sx /\ max_y st4 = sy) as (Ei & Ex & Ey).
  { unfold st4, st3, st2, st1, sx, sy. cbn [max_x max_y attributed_ph attributed_pv set_max_x].
    destruct (Z.ltb_spec (max_x st + 1) (attributed_ph st));
      cbn [max_x max_y attributed_ph attributed_pv set_max_x set_max_y];
      destruct (Z.ltb_spec (max_y st + 1) (attributed_pv st));
      cbn [image max_x max_y set_max_x set_max_y]; repeat split; lia. }
  clearbody st4. clear st1 st2 st3. rewrite Ei, Ex, Ey.
  assert (1 <= sx /\ 1 <= sy) as [Hsx Hsy] by (unfold sx, sy; lia).
  destruct ((width (image st) >? sx) || (height (image st) >? sy)) eqn:Eshrink.
  - destruct (data (image st)) as [d|] eqn:Ed; [|contradiction].
    destruct (Hd d Ed) as [Ld Fd].
    destruct (image_buffer_resize_defined h (image st) sx sy d Ed Ld Hw Hh Hsx Hsy)
      as (status & image' & Hr & Hstatus).
    rewrite Hr. cbn [bind]. cbv iota beta.
    assert (0 < DECSIXEL_PALETTE_MAX) as Hpos.
    { destruct d as [|v d']; [simpl in Ld; nia|].
      inversion Fd as [|? ? Hv _]. unfold valid_index in Hv. lia. }
    apply image_buffer_resize_ok in Hr; auto.
    destruct (fst (g_malloc h)).
    + destruct Hr as [[E _]|(_ & W & Hgt & D & Dnn & P & NC & PM & UPR)]; [lia|].
      subst status. change (0 <? 0) with false. cbn [andb].
      assert (loads_default_palette image' = loads_default_palette (image st)) as Eload
        by (unfold loads_default_palette; rewrite NC, PM, UPR; reflexivity).
      destruct (write_raster_defined (snd (g_malloc h)) 0 (set_image st4 image'))
        as (st' & px & Hwr & W' & H' & X' & Y' & Lpx); cbn [image set_image];
        try rewrite W; try rewrite Hgt; try rewrite Eload; auto; try congruence.
      rewrite Hwr. exists 0, st', px, (snd (g_malloc h)).
      cbn [image set_image max_x max_y] in *.
      repeat split; try congruence; lia.
    + subst status. change (-1 <? 0) with true. cbn [andb].
      eexists _, _, _, _. split; [reflexivity|]. cbn [max_x max_y set_image]. auto.
  - cbn [bind andb]. cbv iota beta.
    destruct (write_raster_defined h (-1) (set_image st4 (image st4)))
      as (st' & px & Hwr & W' & H' & X' & Y' & Lpx); cbn [image set_image];
      try rewrite Ei; auto.
    rewrite Ei in Hwr. rewrite Hwr. exists 0, st', px, h.
    cbn [image set_image max_x max_y] in *. rewrite Ei in *.
    repeat split; try congruence; lia.
Qed.


(** C10.  When the image buffer is [NULL], [sixel_parser_parse] returns -1
    at once, whatever the bytes: no byte is consumed, no allocation is
    made, and the state is the one it was given. *)
Theorem parse_null_data (h : heap) (st : sixel_state_t) (p : list Z) :
  data (image st) = None ->
  parse_run h st p = Some (-1, st, p, h).
Proof. intros H. unfold sixel_parser_parse_run. rewrite H. reflexivity. Qed.

(** One byte in PS_ESC ends the call with the status it had. *)
Lemma parse_in_ESC (h : heap) (st : sixel_state_t) (c : Z) (rest : list Z) :
  data (image st) <> None -> state st = PS_ESC ->
  parse_run h st (c :: rest)
  = Some (-1, (if c =? 80 then set_state (set_param st (-1)) PS_DCS else st), rest, h).
Proof.
  intros Hd Hs. unfold sixel_parser_parse_run.
  destruct (data (image st)); [|contradiction].
  cbn [Nat.mul Nat.add List.length parse_loop]. unfold parse_iteration. rewrite Hs. unfold iteration_ESC.
  destruct ((c =? 92) || (c =? 156)) eqn:E.
  - destruct (Z.eqb_spec c 80) as [->|]; [discriminate|reflexivity].
  - destruct (c =? 80); reflexivity.
Qed.


Ltac one_turn Hs :=
  unfold sixel_parser_parse_run;
  match goal with
  | Hd : data (image ?st) <> None |- _ =>
      destruct (data (image st)) eqn:?; [|contradiction]
  end;
  cbn [Nat.mul Nat.add List.length parse_loop]; unfold parse_iteration; rewrite Hs.

(** C5, amended.  In [PS_DECSIXEL] the byte [-] is consumed, the call
    returns 0, [pos_x] becomes 0, and [pos_y] becomes [pos_y + 6] when
    [pos_y < DECSIXEL_HEIGHT_MAX - 11] and [DECSIXEL_HEIGHT_MAX + 1]
    otherwise; nothing else changes.  (The claim has [<=] for [<]:
    [newline_at_the_bound].) *)
Theorem newline_moves_down (h : heap) (st : sixel_state_t) :
  data (image st) <> None -> state st = PS_DECSIXEL ->
  parse_run h st [45]
  = Some (0,
          set_pos_y (set_pos_x st 0)
            (if pos_y st <? DECSIXEL_HEIGHT_MAX - 11
             then pos_y st + 6 else DECSIXEL_HEIGHT_MAX + 1),
          [], h).
Proof.
  intros Hd Hs. one_turn Hs. unfold iteration_DECSIXEL.
  change (45 =? 27) with false. change (45 =? 34) with false.
  change (45 =? 33) with false. change (45 =? 35) with false.
  change (45 =? 36) with false. change (45 =? 45) with true. cbv iota.
  cbn [pos_y set_pos_x].
  replace (DECSIXEL_HEIGHT_MAX - 5 - 6) with (DECSIXEL_HEIGHT_MAX - 11) by lia.
  destruct (pos_y st <? DECSIXEL_HEIGHT_MAX - 11); reflexivity.
Qed.

Lemma digit_not_special c :
  is_digit c = true -> (c =? 27) = false /\ (c =? 59) = false.
Proof.
  unfold is_digit. rewrite andb_true_iff, !Z.leb_le. intros [? ?].
  split; apply Z.eqb_neq; lia.
Qed.

Lemma accumulate_clamped_le st c :
  param (accumulate_clamped DECSIXEL_PARAMVALUE_MAX st c) <= DECSIXEL_PARAMVALUE_MAX.
Proof.
  unfold accumulate_clamped.
  destruct (Z.gtb_spec (param (accumulate st c)) DECSIXEL_PARAMVALUE_MAX);
    [cbn [param set_param]; lia | assumption].
Qed.

Lemma push_param_stores st :
  0 <= nparams st -> Z.of_nat (List.length (params st)) = DECSIXEL_PARAMS_MAX ->
  push_param DECSIXEL_PARAMS_MAX st
  = Some (if nparams st <? DECSIXEL_PARAMS_MAX
          then set_nparams (set_params st (<[Z.to_nat (nparams st) := param st]> (params st)))
                           (nparams st + 1)
          else st).
Proof.
  intros H0 Hl. unfold push_param.
  destruct (Z.ltb_spec (nparams st) DECSIXEL_PARAMS_MAX); [|reflexivity].
  rewrite array_store_in_range by lia. reflexivity.
Qed.

(** C6, amended.  In [PS_DECGRA], [PS_DECGRI] and [PS_DECGCI] a digit is
    consumed and leaves [param <= DECSIXEL_PARAMVALUE_MAX], namely
    [param * 10 + digit] clamped.  In [PS_DCS], [PS_DECGRA] and [PS_DECGCI]
    the byte [;] is consumed, stores [param] at [params[nparams]] and
    increments [nparams] exactly when [nparams < DECSIXEL_PARAMS_MAX], and
    resets [param] to 0; in [PS_DCS] a negative [param] counts as 0.  In
    [PS_DECGRI] the byte [;] ends the repeat count like any other byte that
    is not a digit: nothing is stored, [repeat_count] becomes [param] (1 for
    0), [param] and [nparams] become 0 and the decoder is back in
    [PS_DECSIXEL], where the byte is consumed.  (The claim stores the
    parameter in [PS_DECGRI] too: [semicolon_ends_a_repeat].) *)
Theorem parameters_accumulate (h : heap) (st : sixel_state_t) :
  data (image st) <> None ->
  (forall c, is_digit c = true -> clamping_state (state st) = true ->
     parse_run h st [c]
     = Some (0, accumulate_clamped DECSIXEL_PARAMVALUE_MAX st c, [], h) /\
     param (accumulate_clamped DECSIXEL_PARAMVALUE_MAX st c) <= DECSIXEL_PARAMVALUE_MAX) /\
  (listing_state (state st) = true ->
   0 <= nparams st -> Z.of_nat (List.length (params st)) = DECSIXEL_PARAMS_MAX ->
   let st1 := match state st with
              | PS_DCS => if param st <? 0 then set_param st 0 else st
              | _ => st
              end in
   parse_run h st [59]
   = Some (0,
           set_param
             (if nparams st <? DECSIXEL_PARAMS_MAX
              then set_nparams
                     (set_params st1 (<[Z.to_nat (nparams st) := param st1]> (params st)))
                     (nparams st + 1)
              else st1) 0,
           [], h)) /\
  (state st = PS_DECGRI ->
   parse_run h st [59]
   = Some (0,
           set_nparams
             (set_param
                (set_state
                   (set_repeat_count st (if param st =? 0 then 1 else param st))
                   PS_DECSIXEL) 0) 0,
           [], h)).
Proof.
  intros Hd. split; [|split].
  - intros c Hc Hs. split; [|apply accumulate_clamped_le].
    destruct (digit_not_special c Hc) as [E1 E2].
    destruct (state st) eqn:Hst; try discriminate; one_turn Hst.
    + unfold iteration_DECGRA. rewrite E1, Hc. reflexivity.
    + unfold iteration_DECGRI. rewrite E1, Hc. reflexivity.
    + unfold iteration_DECGCI. rewrite E1, Hc. reflexivity.
  - intros Hs Hn Hl.
    destruct (state st) eqn:Hst; try discriminate; cbv zeta; one_turn Hst.
    + unfold iteration_DCS. change (59 =? 27) with false.
      change (is_digit 59) with false. change (59 =? 59) with true. cbv iota.
      rewrite push_param_stores.
      2:{ destruct (param st <? 0); exact Hn. }
      2:{ destruct (param st <? 0); exact Hl. }
      cbn [bind]. destruct (param st <? 0); reflexivity.
    + unfold iteration_DECGRA. change (59 =? 27) with false.
      change (is_digit 59) with false. change (59 =? 59) with true. cbv iota.
      rewrite push_param_stores by assumption. reflexivity.
    + unfold iteration_DECGCI. change (59 =? 27) with false.
      change (is_digit 59) with false. change (59 =? 59) with true. cbv iota.
      rewrite push_param_stores by assumption. reflexivity.
  - intros Hs. one_turn Hs. unfold iteration_DECGRI.
    change (59 =? 27) with false. change (is_digit 59) with false. cbv iota.
    cbn [parse_loop parse_iteration state set_nparams set_param set_state].
    unfold iteration_DECSIXEL.
    change (59 =? 27) with false. change (59 =? 34) with false.
    change (59 =? 33) with false. change (59 =? 35) with false.
    change (59 =? 36) with false. change (59 =? 45) with false.
    change ((59 >=? 63) && (59 <=? 126)) with false. cbv iota.
    cbn [repeat_count set_repeat_count].
    destruct (param st =? 0); reflexivity.
Qed.

(** *** The invariant of the decoder

    What the limits must satisfy for [sixel_parser_init] to leave a valid
    grid: the first colour, 16, is a palette index, and a 1x1 image is
    within the limits. *)
Hypothesis palette_holds_16 : 16 < DECSIXEL_PALETTE_MAX.
Hypothesis width_max_positive : 1 <= DECSIXEL_WIDTH_MAX.
Hypothesis height_max_positive : 1 <= DECSIXEL_HEIGHT_MAX.

Lemma inv_frame st st' :
  width (image st') = width (image st) -> height (image st') = height (image st) ->
  data (image st') = data (image st) -> color_index st' = color_index st ->
  inv st -> inv st'.
Proof.
  unfold decoder_ok, image_bounded, data_ok. intros -> -> -> ->. auto.
Qed.

(** The invariant does not depend on the fields that a step rewrites outside
    the buffer, its size and the colour. *)
Ltac keeps_ok :=
  repeat match goal with
  | |- context [if ?c then _ else _] => destruct c
  end;
  first [ assumption
        | eapply inv_frame; [reflexivity | reflexivity | reflexivity | reflexivity | eassumption] ].

Lemma store_pixel_ok st pos st' :
  store_pixel st pos = Some st' -> inv st -> inv st'.
Proof.
  unfold store_pixel. intros H [(Hw & Hh & Hd) Hc].
  apply bind_some in H as (d & Hdat & H).
  apply bind_some in H as (d' & Hst & H). injection H as <-.
  split; [|exact Hc]. split; [exact Hw|]. split; [exact Hh|].
  intros d0 Hd0. cbn in Hd0. injection Hd0 as <-.
  destruct (Hd _ Hdat) as [L F]. cbn [width height set_image set_data image].
  unfold array_store in Hst. destruct (_ && _); [|discriminate]. injection Hst as <-.
  split.
  - rewrite length_insert. exact L.
  - apply Forall_insert; assumption.
Qed.

Lemma bump_max_ok st x y : inv st -> inv (bump_max st x y).
Proof.
  intros H. unfold bump_max.
  destruct (max_x st <? x); destruct (max_y _ <? y); exact H.
Qed.

Lemma paint_column_ok n : forall i mask bits st st',
  paint_column n i mask bits st = Some st' -> inv st -> inv st'.
Proof.
  induction n as [|n IH]; intros i mask bits st st' H Hok; simpl in H.
  - injection H as <-. exact Hok.
  - apply bind_some in H as (st1 & H1 & H).
    apply (IH _ _ _ _ _ H).
    destruct (negb _).
    + apply bind_some in H1 as (st2 & H2 & H1). injection H1 as <-.
      apply bump_max_ok. eapply store_pixel_ok; eauto.
    + injection H1 as <-. exact Hok.
Qed.

Lemma fill_cells_ok n : forall st y x st',
  fill_cells st y x n = Some st' -> inv st -> inv st'.
Proof.
  induction n as [|n IH]; intros st y x st' H Hok; simpl in H.
  - injection H as <-. exact Hok.
  - apply bind_some in H as (st1 & H1 & H).
    apply (IH _ _ _ _ H). eapply store_pixel_ok; eauto.
Qed.

Lemma fill_rows_ok n : forall st y st',
  fill_rows st y n = Some st' -> inv st -> inv st'.
Proof.
  induction n as [|n IH]; intros st y st' H Hok; simpl in H.
  - injection H as <-. exact Hok.
  - apply bind_some in H as (st1 & H1 & H).
    apply (IH _ _ _ H). eapply fill_cells_ok; eauto.
Qed.

Lemma paint_runs_ok fuel : forall i mask bits st st',
  paint_runs fuel i mask bits st = Some st' -> inv st -> inv st'.
Proof.
  induction fuel as [|fuel IH]; intros i mask bits st st' H Hok; simpl in H.
  - destruct (i <? 6); [discriminate|]. injection H as <-. exact Hok.
  - destruct (i <? 6); [|injection H as <-; exact Hok].
    destruct (negb _).
    + apply bind_some in H as (n & Hn & H).
      apply bind_some in H as (st1 & H1 & H).
      apply (IH _ _ _ _ _ H). apply bump_max_ok. eapply fill_rows_ok; eauto.
    + apply (IH _ _ _ _ _ H). exact Hok.
Qed.

Lemma grow_positive fuel : forall sx sy tx ty sx' sy',
  grow fuel sx sy tx ty = Some (sx', sy') -> 1 <= sx -> 1 <= sy -> 1 <= sx' /\ 1 <= sy'.
Proof.
  induction fuel as [|fuel IH]; intros sx sy tx ty sx' sy' H Hx Hy; simpl in H.
  - destruct (_ || _); [discriminate|]. injection H as <- <-. auto.
  - destruct (_ || _); [|injection H as <- <-; auto].
    apply (IH _ _ _ _ _ _ H); lia.
Qed.

Lemma inv_null st : inv st -> inv (set_image st (set_data (image st) None)).
Proof.
  intros [(Hw & Hh & Hd) Hc]. split; [|exact Hc].
  split; [exact Hw|]. split; [exact Hh|]. intros d Hd0. discriminate.
Qed.

Lemma sixel_character_ok h status st c f :
  sixel_character DECSIXEL_WIDTH_MAX DECSIXEL_HEIGHT_MAX h status st c = Some f ->
  inv st -> flow_inv f.
Proof.
  intros H Hok. unfold sixel_character in H.
  apply bind_some in H as ([[[resized status1] st1] h1] & Hr & H).
  assert (inv st1) as Hok1.
  { destruct (_ && _) in Hr.
    - apply bind_some in Hr as ([sx sy] & Hg & Hr).
      apply bind_some in Hr as ([[status2 image2] h2] & Hz & Hr).
      injection Hr as <- <- <- <-.
      pose proof Hok as [(Hw & Hh & Hd) Hc].
      apply grow_positive in Hg as [Gx Gy]; try lia.
      cbn [fst snd] in Hz.
      apply image_buffer_resize_ok in Hz; auto.
      + destruct Hz as [[-> ->]|(-> & W & Hgt & D & _)].
        * apply inv_null. exact Hok.
        * split; [|exact Hc]. unfold image_bounded. cbn [image set_image].
          rewrite W, Hgt.
          split; [|split; [|exact D]].
          -- destruct (Z.gtb_spec sx DECSIXEL_WIDTH_MAX); lia.
          -- destruct (Z.gtb_spec sy DECSIXEL_HEIGHT_MAX); lia.
      + destruct (Z.gtb_spec sx DECSIXEL_WIDTH_MAX); lia.
      + destruct (Z.gtb_spec sy DECSIXEL_HEIGHT_MAX); lia.
      + lia.
      + unfold valid_index in Hc. lia.
    - injection Hr as <- <- <- <-. exact Hok. }
  clear Hr.
  destruct (resized && (status1 <? 0)); [injection H as <-; exact Hok1|].
  apply bind_some in H as (st2 & H2 & H). injection H as <-.
  cbn [flow_ok].
  set (sta := if color_index st1 >? ncolors (image st1)
              then set_image st1 (set_ncolors (image st1) (color_index st1))
              else st1) in *.
  assert (inv sta) as Hoka by (unfold sta; keeps_ok).
  clearbody sta.
  set (stb := if pos_x sta + repeat_count sta >? width (image sta)
              then set_repeat_count sta (width (image sta) - pos_x sta)
              else sta) in *.
  assert (inv stb) as Hokb by (unfold stb; keeps_ok).
  clearbody stb.
  assert (inv st2) as Hok2.
  { destruct (_ && _) in H2; [|injection H2 as <-; exact Hokb].
    destruct (negb _) in H2; [|injection H2 as <-; exact Hokb].
    destruct (_ <=? _) in H2.
    - eapply paint_column_ok; eauto.
    - eapply paint_runs_ok; eauto. }
  keeps_ok.
Qed.


Lemma push_param_ok st st' :
  push_param DECSIXEL_PARAMS_MAX st = Some st' -> inv st -> inv st'.
Proof. unfold push_param. intros H Hok. unbinds; keeps_ok. Qed.

Lemma push_param_state st st' :
  push_param DECSIXEL_PARAMS_MAX st = Some st' -> state st' = state st.
Proof. unfold push_param. intros H. unbinds; reflexivity. Qed.

Lemma iteration_ESC_ok h status st c f :
  iteration_ESC h status st c = Some f -> inv st -> flow_inv f.
Proof. unfold iteration_ESC. intros H Hok. unbinds; cbn [flow_ok]; keeps_ok. Qed.

Lemma iteration_DCS_ok h status st c f :
  iteration_DCS DECSIXEL_PARAMS_MAX h status st c = Some f -> inv st -> flow_inv f.
Proof.
  unfold iteration_DCS. intros H Hok.
  destruct (c =? 27); [injection H as <-; cbn [flow_ok]; keeps_ok|].
  destruct (is_digit c); [injection H as <-; cbn [flow_ok]; keeps_ok|].
  destruct (c =? 59).
  { apply bind_some in H as (st1 & H1 & H). injection H as <-. cbn [flow_ok].
    apply push_param_ok in H1; [keeps_ok | keeps_ok]. }
  destruct (c =? 113); [|injection H as <-; exact Hok].
  apply bind_some in H as (st1 & H1 & H).
  assert (inv st1) as Hok1.
  { destruct (_ && _) in H1; [eapply push_param_ok; eauto | injection H1 as <-; exact Hok]. }
  apply bind_some in H as (st2 & H2 & H).
  assert (inv st2) as Hok2 by (unbinds; keeps_ok).
  apply bind_some in H as (st3 & H3 & H).
  assert (inv st3) as Hok3 by (clear H1 H2; unbinds; keeps_ok).
  injection H as <-. cbn [flow_ok]. keeps_ok.
Qed.

Lemma iteration_DECSIXEL_ok h status st c f :
  iteration_DECSIXEL DECSIXEL_WIDTH_MAX DECSIXEL_HEIGHT_MAX h status st c = Some f ->
  inv st -> flow_inv f.
Proof.
  unfold iteration_DECSIXEL. intros H Hok.
  repeat match type of H with
  | (if ?b then _ else _) = _ =>
      destruct b; [first [ injection H as <-; cbn [flow_ok]; keeps_ok
                         | eapply sixel_character_ok; eassumption ]|]
  end.
  injection H as <-. exact Hok.
Qed.

Lemma iteration_DECGRA_ok h status st c f :
  iteration_DECGRA DECSIXEL_PARAMS_MAX DECSIXEL_PARAMVALUE_MAX
                   DECSIXEL_WIDTH_MAX DECSIXEL_HEIGHT_MAX h status st c = Some f ->
  inv st -> flow_inv f.
Proof.
  unfold iteration_DECGRA. intros H Hok.
  destruct (c =? 27); [injection H as <-; cbn [flow_ok]; keeps_ok|].
  destruct (is_digit c).
  { injection H as <-. cbn [flow_ok]. unfold accumulate_clamped, accumulate. keeps_ok. }
  destruct (c =? 59).
  { apply bind_some in H as (st1 & H1 & H). injection H as <-. cbn [flow_ok].
    apply push_param_ok in H1; [keeps_ok | keeps_ok]. }
  apply bind_some in H as (st1 & H1 & H).
  apply push_param_ok in H1; [|exact Hok].
  apply bind_some in H as (st2 & H2 & H).
  assert (inv st2) as Hok2 by (unbinds; keeps_ok). clear H2.
  apply bind_some in H as (st3 & H3 & H).
  assert (inv st3) as Hok3 by (unbinds; keeps_ok). clear H3.
  apply bind_some in H as (st4 & H4 & H).
  assert (inv st4) as Hok4 by (unbinds; keeps_ok). clear H4.
  apply bind_some in H as (st5 & H5 & H).
  assert (inv st5) as Hok5 by (unbinds; keeps_ok). clear H5.
  set (st6 := if attributed_pan st5 <=? 0 then set_attributed_pan st5 1 else st5) in *.
  assert (inv st6) as Hok6 by (unfold st6; keeps_ok). clearbody st6.
  set (st7 := if attributed_pad st6 <=? 0 then set_attributed_pad st6 1 else st6) in *.
  assert (inv st7) as Hok7 by (unfold st7; keeps_ok). clearbody st7.
  apply bind_some in H as ([[[resized status1] st8] h1] & Hr & H).
  assert (inv st8) as Hok8.
  { destruct (_ || _) in Hr; [|injection Hr as <- <- <- <-; exact Hok7].
    apply bind_some in Hr as ([[status2 image2] h2] & Hz & Hr).
    injection Hr as <- <- <- <-.
    pose proof Hok7 as [(Hw & Hh & Hd) Hc].
    apply image_buffer_resize_ok in Hz; auto.
    - destruct Hz as [[-> ->]|(-> & W & Hgt & D & _)].
      + apply inv_null. exact Hok7.
      + split; [|exact Hc]. unfold image_bounded. cbn [image set_image].
        rewrite W, Hgt. split; [|split; [|exact D]].
        * destruct (Z.gtb_spec (width (image st7)) (attributed_ph st7));
            match goal with |- context [?a >? ?b] => destruct (Z.gtb_spec a b) end; lia.
        * destruct (Z.gtb_spec (height (image st7)) (attributed_pv st7));
            match goal with |- context [?a >? ?b] => destruct (Z.gtb_spec a b) end; lia.
    - destruct (Z.gtb_spec (width (image st7)) (attributed_ph st7));
        match goal with |- context [?a >? ?b] => destruct (Z.gtb_spec a b) end; lia.
    - destruct (Z.gtb_spec (height (image st7)) (attributed_pv st7));
        match goal with |- context [?a >? ?b] => destruct (Z.gtb_spec a b) end; lia.
    - lia.
    - unfold valid_index in Hc. lia. }
  destruct (resized && _); injection H as <-; cbn [flow_ok]; keeps_ok.
Qed.


Lemma iteration_DECGRI_ok h status st c f :
  iteration_DECGRI DECSIXEL_PARAMVALUE_MAX h status st c = Some f ->
  inv st -> flow_inv f.
Proof.
  unfold iteration_DECGRI. intros H Hok.
  destruct (c =? 27); [injection H as <-; cbn [flow_ok]; keeps_ok|].
  destruct (is_digit c).
  { injection H as <-. cbn [flow_ok]. unfold accumulate_clamped, accumulate. keeps_ok. }
  injection H as <-. cbn [flow_ok]. keeps_ok.
Qed.

(** The colour that [#] selects is a palette index. *)
Lemma select_color_ok st v :
  0 < DECSIXEL_PALETTE_MAX -> inv st ->
  inv (let st := set_color_index st (1 + v) in
              if color_index st <? 0 then set_color_index st 0
              else if color_index st >=? DECSIXEL_PALETTE_MAX
                   then set_color_index st (DECSIXEL_PALETTE_MAX - 1)
                   else st).
Proof.
  intros Hp [Hi Hc]. cbv zeta. cbn [color_index set_color_index].
  destruct (Z.ltb_spec (1 + v) 0); [split; [exact Hi | cbn; unfold valid_index; lia]|].
  destruct (Z.geb_spec (1 + v) DECSIXEL_PALETTE_MAX);
    (split; [exact Hi | cbn; unfold valid_index; lia]).
Qed.

Lemma iteration_DECGCI_ok h status st c f :
  iteration_DECGCI DECSIXEL_PARAMS_MAX DECSIXEL_PALETTE_MAX DECSIXEL_PARAMVALUE_MAX
                   h status st c = Some f ->
  inv st -> flow_inv f.
Proof.
  unfold iteration_DECGCI. intros H Hok.
  destruct (c =? 27); [injection H as <-; cbn [flow_ok]; keeps_ok|].
  destruct (is_digit c).
  { injection H as <-. cbn [flow_ok]. unfold accumulate_clamped, accumulate. keeps_ok. }
  destruct (c =? 59).
  { apply bind_some in H as (st1 & H1 & H). injection H as <-. cbn [flow_ok].
    apply push_param_ok in H1; [keeps_ok | keeps_ok]. }
  apply bind_some in H as (st1 & H1 & H).
  apply push_param_ok in H1; [|keeps_ok].
  apply bind_some in H as (st2 & H2 & H).
  assert (inv st2) as Hok2.
  { destruct (_ >? 0) in H2; [|injection H2 as <-; keeps_ok].
    apply bind_some in H2 as (v & Hv & H2). injection H2 as <-.
    apply select_color_ok; [lia | keeps_ok]. }
  clear H2.
  apply bind_some in H as (st3 & H3 & H).
  assert (inv st3) as Hok3 by (unbinds; keeps_ok).
  injection H as <-. exact Hok3.
Qed.

Lemma parse_iteration_ok h status st c f :
  iteration h status st c = Some f -> inv st -> flow_inv f.
Proof.
  unfold parse_iteration. destruct (state st);
    eauto using iteration_ESC_ok, iteration_DCS_ok, iteration_DECSIXEL_ok,
                iteration_DECGRA_ok, iteration_DECGRI_ok, iteration_DECGCI_ok.
Qed.

Lemma parse_loop_ok fuel : forall h status st p status' st' rest h',
  loop fuel h status st p = Some (Some (status', st', rest, h')) ->
  inv st -> inv st'.
Proof.
  induction fuel as [|fuel IH]; intros h status st p status' st' rest h' H Hok.
  - destruct p; simpl in H; [|discriminate]. injection H as _ <- _ _. exact Hok.
  - destruct p as [|c p]; simpl in H; [injection H as _ <- _ _; exact Hok|].
    destruct (iteration h status st c) as [f|] eqn:E; [|discriminate].
    apply parse_iteration_ok in E; [|exact Hok].
    destruct f as [consumed s1 st1 h1|consumed s1 st1 h1].
    + eapply IH; eauto.
    + injection H as _ <- _ _. exact E.
Qed.


(** *** The turns of the loop *)

(** A turn that leaves the byte in place leaves the decoder in
    [PS_DECSIXEL], where every turn takes a byte or ends the call. *)
Lemma byte_left_in_place h status st c status' st' h' :
  iteration h status st c = Some (Continue false status' st' h') ->
  state st <> PS_DECSIXEL /\ state st' = PS_DECSIXEL.
Proof.
  unfold parse_iteration. intros H. destruct (state st) eqn:Hs.
  - unfold iteration_ESC in H. unbinds.
  - unfold iteration_DCS in H. unbinds.
  - exfalso. unfold iteration_DECSIXEL in H.
    repeat match type of H with
    | (if ?b then _ else _) = _ => destruct b; [try discriminate|]
    end; [|discriminate].
    unfold sixel_character in H. unbinds.
  - split; [discriminate|]. unfold iteration_DECGRA in H.
    destruct (c =? 27); [discriminate|]. destruct (is_digit c); [discriminate|].
    destruct (c =? 59); [unbinds|].
    unbinds; reflexivity.
  - split; [discriminate|]. unfold iteration_DECGRI in H. unbinds; reflexivity.
  - split; [discriminate|]. unfold iteration_DECGCI in H.
    destruct (c =? 27); [discriminate|]. destruct (is_digit c); [discriminate|].
    destruct (c =? 59); [unbinds|].
    apply bind_some in H as (st1 & H1 & H). apply push_param_state in H1.
    cbn [state set_state] in H1.
    apply bind_some in H as (st2 & H2 & H).
    assert (state st2 = PS_DECSIXEL) as S2.
    { clear - H1 H2. unbinds;
        repeat match goal with |- context [if ?b then _ else _] => destruct b end;
        cbn [state set_color_index set_param]; assumption. }
    clear H2.
    apply bind_some in H as (st3 & H3 & H).
    assert (state st3 = PS_DECSIXEL) as S3.
    { clear - S2 H3. unbinds; cbn [state set_image set_params]; assumption. }
    injection H as _ <- _. exact S3.
Qed.

Lemma parse_loop_turns fuel : forall h status st p,
  (turns st p <= fuel)%nat -> exists r, loop fuel h status st p = Some r.
Proof.
  induction fuel as [|fuel IH]; intros h status st p Hf.
  - destruct p as [|c p]; [simpl; eauto|].
    exfalso. unfold turns in Hf. simpl in Hf. destruct (state st); lia.
  - destruct p as [|c p]; [simpl; eauto|].
    cbn [parse_loop].
    destruct (iteration h status st c) as [[consumed s1 st1 h1|consumed s1 st1 h1]|] eqn:E;
      eauto.
    destruct consumed.
    + apply IH. unfold turns in *. cbn [List.length] in Hf.
      destruct p; [lia|]. cbn [List.length] in *.
      destruct (state st1); destruct (state st); lia.
    + apply byte_left_in_place in E as [E1 E2].
      apply IH. unfold turns in *. rewrite E2. cbn [List.length] in *.
      destruct (state st); try contradiction; lia.
Qed.

(** The fuel that [sixel_parser_parse_run] gives the loop is enough. *)
Lemma parse_loop_fuel h status st p :
  exists r,
    parse_loop DECSIXEL_PARAMS_MAX DECSIXEL_PALETTE_MAX DECSIXEL_PARAMVALUE_MAX
               DECSIXEL_WIDTH_MAX DECSIXEL_HEIGHT_MAX
               (2 * List.length p) h status st p = Some r.
Proof.
  apply parse_loop_turns. unfold turns. destruct p; [lia|].
  destruct (state st); lia.
Qed.

Lemma sixel_parser_init_ok h st fgcolor bgcolor use_private_register status st' h' :
  sixel_parser_init h st fgcolor bgcolor use_private_register = Some (status, st', h') ->
  inv st'.
Proof.
  unfold sixel_parser_init, sixel_image_init. intros H.
  destruct (g_malloc h) as [ok h1]. destruct ok; cbn [negb] in H.
  - unbinds; (split; [|cbn; unfold valid_index; lia]);
      (split; [cbn; lia|]); (split; [cbn; lia|]);
      intros d Hd; cbn in Hd; injection Hd as <-; cbn;
      (split; [reflexivity|]); repeat constructor; unfold valid_index; lia.
  - cbn in H. injection H as <- <- <-.
    split; [|cbn; unfold valid_index; lia].
    split; [cbn; lia|]. split; [cbn; lia|]. intros d Hd. discriminate.
Qed.

Lemma sixel_parser_parse_ok h st p status st' :
  sixel_parser_parse DECSIXEL_PARAMS_MAX DECSIXEL_PALETTE_MAX DECSIXEL_PARAMVALUE_MAX
                     DECSIXEL_WIDTH_MAX DECSIXEL_HEIGHT_MAX h st p = Some (status, st') ->
  inv st -> inv st'.
Proof.
  unfold sixel_parser_parse, sixel_parser_parse_run. intros H Hok.
  apply bind_some in H as ([[[s1 st1] rest] h1] & H1 & H). injection H as <- <-.
  destruct (data (image st)); [|injection H1 as _ <- _ _; exact Hok].
  destruct (loop _ _ _ _ _) as [r|] eqn:E; [|discriminate]. subst r.
  eapply parse_loop_ok; eauto.
Qed.


(** The invariant of the decoder holds in every reachable state. *)
Lemma reachable_ok st :
  reachable DECSIXEL_PARAMS_MAX DECSIXEL_PALETTE_MAX DECSIXEL_PARAMVALUE_MAX
            DECSIXEL_WIDTH_MAX DECSIXEL_HEIGHT_MAX st ->
  inv st.
Proof.
  induction 1 as [h st fg bg upr status st' h' H | h st p status st' _ IH H].
  - eapply sixel_parser_init_ok; eauto.
  - eapply sixel_parser_parse_ok; eauto.
Qed.

(** The grid invariants hold as long as the calls have a result.  After
    [sixel_parser_init], and after every call of [sixel_parser_parse] that
    returns (a call that stores outside the buffer does not:
    [band_below_the_image_is_written]), on any bytes and whatever the
    allocator does: [1 <= width <= DECSIXEL_WIDTH_MAX],
    [1 <= height <= DECSIXEL_HEIGHT_MAX], and the buffer, when there is
    one, has [width * height] cells that each hold a palette index below
    [DECSIXEL_PALETTE_MAX].  The limits are such that the 1x1 image and the
    colour 16 of [sixel_parser_init] are within them. *)
Theorem reachable_image_bounded st :
  reachable DECSIXEL_PARAMS_MAX DECSIXEL_PALETTE_MAX DECSIXEL_PARAMVALUE_MAX
            DECSIXEL_WIDTH_MAX DECSIXEL_HEIGHT_MAX st ->
  bounded (image st).
Proof. intros H. apply reachable_ok in H. exact (proj1 H). Qed.

End WithLimits.

(** *** What the decoder does with the bytes of a picture *)

Section Bytes.
Variables DECSIXEL_PARAMS_MAX DECSIXEL_PALETTE_MAX DECSIXEL_PARAMVALUE_MAX : Z.
Variables DECSIXEL_WIDTH_MAX DECSIXEL_HEIGHT_MAX : Z.

Local Abbreviation parse_run :=
  (sixel_parser_parse_run DECSIXEL_PARAMS_MAX DECSIXEL_PALETTE_MAX
     DECSIXEL_PARAMVALUE_MAX DECSIXEL_WIDTH_MAX DECSIXEL_HEIGHT_MAX).
Local Abbreviation iteration :=
  (parse_iteration DECSIXEL_PARAMS_MAX DECSIXEL_PALETTE_MAX
     DECSIXEL_PARAMVALUE_MAX DECSIXEL_WIDTH_MAX DECSIXEL_HEIGHT_MAX).
Local Abbreviation loop :=
  (parse_loop DECSIXEL_PARAMS_MAX DECSIXEL_PALETTE_MAX
     DECSIXEL_PARAMVALUE_MAX DECSIXEL_WIDTH_MAX DECSIXEL_HEIGHT_MAX).
Local Abbreviation bytes :=
  (parse_bytes DECSIXEL_PARAMS_MAX DECSIXEL_PALETTE_MAX
     DECSIXEL_PARAMVALUE_MAX DECSIXEL_WIDTH_MAX DECSIXEL_HEIGHT_MAX).

(** Fuel beyond the turns that the bytes can take changes nothing. *)
Lemma parse_loop_enough f : forall f' h status st p,
  (turns st p <= f)%nat -> (turns st p <= f')%nat ->
  loop f h status st p = loop f' h status st p.
Proof.
  induction f as [|f IH]; intros f' h status st p Hf Hf'.
  - destruct p as [|c p]; [destruct f'; reflexivity|].
    exfalso. unfold turns in Hf. simpl in Hf. destruct (state st); lia.
  - destruct p as [|c p]; [destruct f'; reflexivity|].
    destruct f' as [|f'].
    { exfalso. unfold turns in Hf'. simpl in Hf'. destruct (state st); lia. }
    cbn [parse_loop].
    destruct (iteration h status st c) as [[consumed s1 st1 h1|consumed s1 st1 h1]|] eqn:E;
      try reflexivity.
    destruct consumed.
    + apply IH; unfold turns in *; cbn [List.length] in *;
        (destruct p; [lia|]); cbn [List.length] in *;
        destruct (state st1); destruct (state st); lia.
    + apply (byte_left_in_place DECSIXEL_PARAMS_MAX DECSIXEL_PALETTE_MAX
               DECSIXEL_PARAMVALUE_MAX DECSIXEL_WIDTH_MAX DECSIXEL_HEIGHT_MAX) in E
        as [E1 E2].
      apply IH; unfold turns in *; rewrite E2; cbn [List.length] in *;
        destruct (state st); try contradiction; lia.
Qed.

Lemma parse_run_bytes h st p :
  parse_run h st p
  = match data (image st) with
    | None => Some (-1, st, p, h)
    | Some _ => bytes h (-1) st p
    end.
Proof. reflexivity. Qed.

Lemma parse_bytes_nil h status st : bytes h status st [] = Some (0, st, [], h).
Proof. reflexivity. Qed.

Lemma parse_bytes_undefined h status st c rest :
  iteration h status st c = None -> bytes h status st (c :: rest) = None.
Proof.
  intros E. unfold parse_bytes.
  cbn [Nat.mul Nat.add List.length parse_loop]. rewrite E. reflexivity.
Qed.

Lemma parse_bytes_end h status st c rest consumed s1 st1 h1 :
  iteration h status st c = Some (Goto_end consumed s1 st1 h1) ->
  bytes h status st (c :: rest)
  = Some (s1, st1, if consumed then rest else c :: rest, h1).
Proof.
  intros E. unfold parse_bytes.
  cbn [Nat.mul Nat.add List.length parse_loop]. rewrite E. reflexivity.
Qed.

Lemma parse_bytes_taken h status st c rest s1 st1 h1 :
  iteration h status st c = Some (Continue true s1 st1 h1) ->
  bytes h status st (c :: rest) = bytes h1 s1 st1 rest.
Proof.
  intros E. unfold parse_bytes.
  cbn [Nat.mul Nat.add List.length parse_loop]. rewrite E.
  rewrite (parse_loop_enough _ (2 * List.length rest)); [reflexivity | |];
    unfold turns; destruct rest; cbn [List.length]; try lia; destruct (state st1); lia.
Qed.

Lemma parse_bytes_left h status st c rest s1 st1 h1 :
  iteration h status st c = Some (Continue false s1 st1 h1) ->
  bytes h status st (c :: rest) = bytes h1 s1 st1 (c :: rest).
Proof.
  intros E. unfold parse_bytes.
  cbn [Nat.mul Nat.add List.length parse_loop]. rewrite E.
  apply (byte_left_in_place DECSIXEL_PARAMS_MAX DECSIXEL_PALETTE_MAX
           DECSIXEL_PARAMVALUE_MAX DECSIXEL_WIDTH_MAX DECSIXEL_HEIGHT_MAX) in E
    as [E1 E2].
  change (parse_loop DECSIXEL_PARAMS_MAX DECSIXEL_PALETTE_MAX DECSIXEL_PARAMVALUE_MAX
            DECSIXEL_WIDTH_MAX DECSIXEL_HEIGHT_MAX
            (S (List.length rest + S (List.length rest + 0))) h1 s1 st1 (c :: rest))
    with (loop (2 * List.length (c :: rest)) h1 s1 st1 (c :: rest)).
  rewrite (parse_loop_enough _ (2 * List.length (c :: rest))); [reflexivity | |];
    unfold turns; rewrite E2; cbn [List.length]; lia.
Qed.


(** *** Runs of digits *)

Lemma digit_value c : is_digit c = true -> 0 <= c - 48 <= 9.
Proof. unfold is_digit. rewrite andb_true_iff, !Z.leb_le. lia. Qed.

Lemma decimal_ge ds : forall q,
  0 <= q -> forallb is_digit ds = true -> q <= decimal q ds.
Proof.
  induction ds as [|c ds IH]; intros q Hq Hd; cbn [decimal fold_left]; [lia|].
  cbn [forallb] in Hd. apply andb_true_iff in Hd as [Hc Hd].
  pose proof (digit_value c Hc).
  fold (decimal (q * 10 + c - 48) ds).
  specialize (IH (q * 10 + c - 48) ltac:(lia) Hd). lia.
Qed.

Lemma decimal_clamp M ds : forall q,
  0 <= q -> 0 <= M -> forallb is_digit ds = true ->
  Z.min M (decimal (Z.min M q) ds) = Z.min M (decimal q ds).
Proof.
  induction ds as [|c ds IH]; intros q Hq HM Hd; cbn [decimal fold_left].
  - lia.
  - cbn [forallb] in Hd. apply andb_true_iff in Hd as [Hc Hd].
    pose proof (digit_value c Hc).
    fold (decimal (Z.min M q * 10 + c - 48) ds). fold (decimal (q * 10 + c - 48) ds).
    destruct (Z_le_gt_dec q M) as [Hle|Hgt].
    + rewrite (Z.min_r M q) by lia. reflexivity.
    + rewrite (Z.min_l M q) by lia.
      pose proof (decimal_ge ds (M * 10 + c - 48) ltac:(lia) Hd).
      pose proof (decimal_ge ds (q * 10 + c - 48) ltac:(lia) Hd).
      lia.
Qed.

Lemma set_param_same st : set_param st (param st) = st.
Proof. destruct st. reflexivity. Qed.

Lemma clamped_digit h status st c :
  clamping_state (state st) = true -> is_digit c = true ->
  iteration h status st c
  = Some (Continue true status (accumulate_clamped DECSIXEL_PARAMVALUE_MAX st c) h).
Proof.
  intros Hs Hc.
  destruct (digit_not_special c Hc) as [E1 E2].
  unfold parse_iteration. destruct (state st) eqn:Hst; try discriminate.
  - unfold iteration_DECGRA. rewrite E1, Hc. reflexivity.
  - unfold iteration_DECGRI. rewrite E1, Hc. reflexivity.
  - unfold iteration_DECGCI. rewrite E1, Hc. reflexivity.
Qed.

Lemma accumulate_clamped_min st c :
  accumulate_clamped DECSIXEL_PARAMVALUE_MAX st c
  = set_param st (Z.min DECSIXEL_PARAMVALUE_MAX (param st * 10 + c - 48)).
Proof.
  unfold accumulate_clamped, accumulate. cbn [param set_param].
  destruct (Z.gtb_spec (param st * 10 + c - 48) DECSIXEL_PARAMVALUE_MAX).
  - rewrite Z.min_l by lia. reflexivity.
  - rewrite Z.min_r by lia. reflexivity.
Qed.





End Bytes.

Section Resizing.
Variables DECSIXEL_PARAMS_MAX DECSIXEL_PALETTE_MAX DECSIXEL_PARAMVALUE_MAX : Z.
Variables DECSIXEL_WIDTH_MAX DECSIXEL_HEIGHT_MAX : Z.

(** *** The cells of a resized buffer *)

Lemma array_at_lookup {A} (a : list A) i :
  0 <= i -> array_at a i = a !! Z.to_nat i.
Proof. intros H. unfold array_at. destruct (Z.leb_spec 0 i); [reflexivity | lia]. Qed.

Lemma cells_from_at src off n l x :
  cells_from src off n = Some l -> 0 <= x < n ->
  array_at l x = array_at src (off + x).
Proof.
  unfold cells_from. intros H Hx.
  destruct (Z.leb_spec 0 off); [|discriminate].
  destruct (Z.leb_spec 0 n); [|discriminate].
  destruct (Z.leb_spec (off + n) (Z.of_nat (List.length src))); [|discriminate].
  simpl in H. injection H as <-.
  rewrite !array_at_lookup by lia.
  rewrite lookup_take_lt by lia. rewrite lookup_drop. f_equal. lia.
Qed.

Lemma copy_rows_at src old_width w n : forall row out,
  copy_rows src old_width w row n = Some out -> 0 <= old_width -> 0 <= w ->
  forall x y, 0 <= x < w -> 0 <= y < Z.of_nat n ->
    array_at out (w * y + x)
    = if x <? old_width then array_at src (old_width * (row + y) + x) else Some 0.
Proof.
  induction n as [|n IH]; intros row out H Ho Hw x y Hx Hy; [lia|].
  simpl in H.
  apply bind_some in H as (line & Hline & H).
  apply bind_some in H as (rest & Hrest & H). injection H as <-.
  assert (List.length line = Z.to_nat w /\
          array_at line x
          = if x <? old_width then array_at src (old_width * row + x) else Some 0)
    as [Ll Hl].
  { destruct (Z.gtb_spec w old_width).
    - apply bind_some in Hline as (cells & Hc & Hline). injection Hline as <-.
      destruct (cells_from_some _ _ _ _ (fun _ => True) Hc) as (L & ? & _).
      split; [rewrite length_app, length_replicate, L; lia|].
      destruct (Z.ltb_spec x old_width).
      + rewrite array_at_lookup, lookup_app_l by lia.
        rewrite <- array_at_lookup by lia. eapply cells_from_at; eauto. lia.
      + rewrite array_at_lookup, lookup_app_r by lia.
        apply lookup_replicate_2. lia.
    - destruct (cells_from_some _ _ _ _ (fun _ => True) Hline) as (L & ? & _).
      split; [assumption|].
      destruct (Z.ltb_spec x old_width); [|lia].
      eapply cells_from_at; eauto. }
  destruct (Z.eq_dec y 0) as [->|Hy0].
  - rewrite Z.mul_0_r, Z.add_0_l, Z.add_0_r.
    rewrite array_at_lookup, lookup_app_l by lia.
    rewrite <- array_at_lookup by lia. exact Hl.
  - rewrite array_at_lookup, lookup_app_r by nia.
    rewrite Ll.
    replace (Z.to_nat (w * y + x) - Z.to_nat w)%nat with (Z.to_nat (w * (y - 1) + x)) by nia.
    rewrite <- array_at_lookup by nia.
    rewrite (IH _ _ Hrest Ho Hw x (y - 1)) by lia.
    replace (row + 1 + (y - 1)) with (row + y) by lia. reflexivity.
Qed.

Lemma image_buffer_resize_cells (h : heap) (image : sixel_image_t) (w' h' : Z)
        (d : list Z) :
  data image = Some d -> Z.of_nat (List.length d) = width image * height image ->
  1 <= width image -> 1 <= height image -> 1 <= w' -> 1 <= h' ->
  if fst (g_malloc h) then
    exists d',
      image_buffer_resize h image w' h'
      = Some (0, set_height (set_width (set_data image (Some d')) w') h', snd (g_malloc h)) /\
      Z.of_nat (List.length d') = w' * h' /\
      forall x y, 0 <= x < w' -> 0 <= y < h' ->
        array_at d' (w' * y + x)
        = if (x <? width image) && (y <? height image)
          then array_at d (width image * y + x) else Some 0
  else
    image_buffer_resize h image w' h' = Some (-1, set_data image None, snd (g_malloc h)).
Proof.
  intros Hd Hl Hw Hh Hw' Hh'.
  destruct (image_buffer_resize_defined h image w' h' d Hd Hl Hw Hh Hw' Hh')
    as (status & image' & Hr & Hstatus).
  unfold image_buffer_resize in *.
  destruct (g_malloc h) as [ok h1]. cbn [fst snd] in *.
  destruct ok; cbn [negb] in *; [|reflexivity].
  rewrite Hd in *. cbn [bind] in *.
  apply bind_some in Hr as (top & Htop & Hr).
  apply bind_some in Hr as (alt & Halt & Hr).
  rewrite Htop. cbn [bind]. rewrite Halt. cbn [bind].
  exists alt. split; [reflexivity|].
  set (mh := if h' >? height image then height image else h') in *.
  assert (0 <= mh <= height image /\ mh <= h') as Hmh
    by (unfold mh; destruct (Z.gtb_spec h' (height image)); lia).
  destruct (copy_rows_some (fun _ => True) _ _ _ _ _ _ Htop ltac:(lia) I) as [Lt _].
  pose proof (copy_rows_at _ _ _ _ _ _ Htop ltac:(lia) ltac:(lia)) as Hat.
  destruct (Z.gtb_spec h' (height image)) as [Hgt|Hle].
  - assert (mh = height image) as Emh by (unfold mh; destruct (Z.gtb_spec h' (height image)); lia).
    destruct (_ && _) eqn:E; [|discriminate]. injection Halt as <-.
    split; [rewrite length_app, length_replicate; nia|].
    intros x y Hx Hy.
    destruct (Z.ltb_spec y (height image)) as [Hy1|Hy1].
    + rewrite array_at_lookup, lookup_app_l by nia.
      rewrite <- array_at_lookup by nia. rewrite Hat by lia.
      rewrite Z.add_0_l. rewrite andb_true_r. reflexivity.
    + rewrite andb_false_r.
      rewrite array_at_lookup, lookup_app_r by nia.
      apply lookup_replicate_2. nia.
  - assert (mh = h') as Emh by (unfold mh; destruct (Z.gtb_spec h' (height image)); lia).
    injection Halt as <-.
    split; [nia|].
    intros x y Hx Hy. rewrite Hat by lia. rewrite Z.add_0_l.
    destruct (Z.ltb_spec y (height image)); [|lia].
    rewrite andb_true_r. reflexivity.
Qed.

(** [image_buffer_resize] keeps the picture: the cell of column [x] and row
    [y] of the new buffer is the one of the old buffer where the old image
    has that cell, and the background, 0, elsewhere.  When the allocation
    fails the buffer is gone and nothing else has changed. *)
Theorem resize_keeps_the_picture (h : heap) (image : sixel_image_t) (w' h' : Z)
        (d : list Z) :
  data image = Some d -> Z.of_nat (List.length d) = width image * height image ->
  1 <= width image -> 1 <= height image -> 1 <= w' -> 1 <= h' ->
  if fst (g_malloc h) then
    exists d',
      image_buffer_resize h image w' h'
      = Some (0, set_height (set_width (set_data image (Some d')) w') h', snd (g_malloc h)) /\
      Z.of_nat (List.length d') = w' * h' /\
      forall x y, 0 <= x < w' -> 0 <= y < h' ->
        array_at d' (w' * y + x)
        = if (x <? width image) && (y <? height image)
          then array_at d (width image * y + x) else Some 0
  else
    image_buffer_resize h image w' h' = Some (-1, set_data image None, snd (g_malloc h)).
Proof. apply image_buffer_resize_cells. Qed.

End Resizing.

Section Painting.
Variables DECSIXEL_PARAMS_MAX DECSIXEL_PALETTE_MAX DECSIXEL_PARAMVALUE_MAX : Z.
Variables DECSIXEL_WIDTH_MAX DECSIXEL_HEIGHT_MAX : Z.

(** *** Painting *)

Lemma repaint_same st d :
  data (image st) = Some d -> repaint st d (max_x st) (max_y st) = st.
Proof. destruct st as [? ? ? ? ? ? ? ? ? ? ? ? ? ? []]. cbn. intros ->. reflexivity. Qed.

Lemma store_pixel_repaint st d mx my pos d' :
  array_store d pos (color_index st) = Some d' ->
  store_pixel (repaint st d mx my) pos = Some (repaint st d' mx my).
Proof. intros H. unfold store_pixel. cbn. rewrite H. reflexivity. Qed.

Lemma store_pixel_undefined st d mx my pos :
  array_store d pos (color_index st) = None ->
  store_pixel (repaint st d mx my) pos = None.
Proof. intros H. unfold store_pixel. cbn. rewrite H. reflexivity. Qed.

Lemma bump_max_repaint st d mx my x y :
  bump_max (repaint st d mx my) x y = repaint st d (Z.max mx x) (Z.max my y).
Proof.
  unfold bump_max, repaint. cbn.
  destruct (Z.ltb_spec mx x); cbn; destruct (Z.ltb_spec my y); cbn;
    rewrite ?(Z.max_l mx x), ?(Z.max_r mx x), ?(Z.max_l my y), ?(Z.max_r my y) by lia;
    reflexivity.
Qed.

(** A mask of one bit tests that bit. *)
Lemma land_bit bits i :
  0 <= i -> (Z.land bits (2 ^ i) =? 0) = negb (Z.testbit bits i).
Proof.
  intros Hi. destruct (Z.testbit bits i) eqn:E; cbn [negb].
  - apply Z.eqb_neq. intros H.
    assert (Z.testbit (Z.land bits (2 ^ i)) i = true) as Hb
      by (rewrite Z.land_spec, E, Z.pow2_bits_true by lia; reflexivity).
    rewrite H, Z.bits_0 in Hb. discriminate.
  - apply Z.eqb_eq. apply Z.bits_inj'. intros n Hn.
    rewrite Z.land_spec, Z.bits_0, Z.pow2_bits_eqb by lia.
    destruct (Z.eqb_spec i n) as [->|]; [rewrite E; reflexivity | apply andb_false_r].
Qed.

Lemma shiftl_pow2 i n : 0 <= i -> 0 <= n -> Z.shiftl (2 ^ i) n = 2 ^ (i + n).
Proof. intros. rewrite Z.shiftl_mul_pow2, Z.pow_add_r by lia. reflexivity. Qed.

(** The cell of column [x] and row [y] is at one index only. *)
Lemma cell_index_inj w x y x0 y0 :
  0 <= x < w -> 0 <= x0 < w -> w * y + x = w * y0 + x0 -> x = x0 /\ y = y0.
Proof.
  intros Hx Hx0 E. assert (y = y0) by nia. subst. lia.
Qed.


Lemma cells_painted_refl w hh cols bits py i col d :
  cells_painted w hh cols bits py i i col d d.
Proof.
  split; [reflexivity|]. intros x y Hx Hy.
  destruct (Z.leb_spec (py + i) y), (Z.ltb_spec y (py + i)); try lia;
    rewrite ?andb_false_r; reflexivity.
Qed.

Lemma cells_painted_trans w hh cols bits py i j k col d d1 d2 :
  i <= j <= k ->
  cells_painted w hh cols bits py i j col d d1 ->
  cells_painted w hh cols bits py j k col d1 d2 ->
  cells_painted w hh cols bits py i k col d d2.
Proof.
  intros Hj [L1 H1] [L2 H2]. split; [congruence|].
  intros x y Hx Hy. rewrite H2, H1 by assumption.
  destruct (cols x); cbn [andb]; [|reflexivity].
  destruct (Z.testbit bits (y - py)); rewrite ?andb_false_r; cbn [andb]; [|reflexivity].
  rewrite !andb_true_r.
  destruct (Z.leb_spec (py + i) y), (Z.leb_spec (py + j) y),
           (Z.ltb_spec y (py + j)), (Z.ltb_spec y (py + k)); try lia; reflexivity.
Qed.

Lemma any_bit_none bits i : any_bit bits i i = false.
Proof. unfold any_bit. rewrite Z.sub_diag. reflexivity. Qed.

Lemma any_bit_app bits i j k :
  i <= j <= k -> any_bit bits i k = any_bit bits i j || any_bit bits j k.
Proof.
  intros Hj. unfold any_bit.
  replace (k - i) with ((j - i) + (k - j)) by lia.
  rewrite seqZ_app, existsb_app by lia. do 3 f_equal; lia.
Qed.

Lemma any_bit_one bits i : any_bit bits i (i + 1) = Z.testbit bits i.
Proof.
  unfold any_bit. replace (i + 1 - i) with 1 by lia.
  unfold seqZ. simpl. apply orb_false_r.
Qed.

Lemma any_bit_true bits i k :
  any_bit bits i k = true <-> exists j, i <= j < k /\ Z.testbit bits j = true.
Proof.
  unfold any_bit. rewrite existsb_exists. split.
  - intros (j & Hj & Hb). apply list_elem_of_In, elem_of_seqZ in Hj. exists j. split; [lia|auto].
  - intros (j & Hj & Hb). exists j. split; [|auto].
    apply list_elem_of_In, elem_of_seqZ. lia.
Qed.

Lemma extent_y_refl bits i py my : extent_y bits i i py my my.
Proof. split; [lia|]. split; [intros; lia | left; reflexivity]. Qed.

Lemma extent_y_trans bits i j k py my my1 my2 :
  i <= j <= k ->
  extent_y bits i j py my my1 -> extent_y bits j k py my1 my2 ->
  extent_y bits i k py my my2.
Proof.
  intros Hj (A1 & B1 & C1) (A2 & B2 & C2). split; [lia|]. split.
  - intros t Ht Hb. destruct (Z_lt_le_dec t j).
    + specialize (B1 t ltac:(lia) Hb). lia.
    + apply B2; [lia | assumption].
  - destruct C2 as [->|(t & Ht & Hb & ->)].
    + destruct C1 as [->|(t & Ht & Hb & ->)]; [left; reflexivity|].
      right. exists t. split; [lia|auto].
    + right. exists t. split; [lia|auto].
Qed.

(** One bit of a sixel that is not repeated. *)
Lemma paint_column_spec st bits k : forall i d mx my,
  let w := width (image st) in
  let hh := height (image st) in
  0 <= i -> Z.of_nat (List.length d) = w * hh ->
  0 <= pos_x st < w -> 0 <= pos_y st + i -> pos_y st + i + Z.of_nat k <= hh ->
  exists d' mx' my',
    paint_column k i (2 ^ i) bits (repaint st d mx my) = Some (repaint st d' mx' my') /\
    cells_painted w hh (fun x => (pos_x st <=? x) && (x <? pos_x st + 1))
                  bits (pos_y st) i (i + Z.of_nat k) (color_index st) d d' /\
    mx' = (if any_bit bits i (i + Z.of_nat k) then Z.max mx (pos_x st) else mx) /\
    extent_y bits i (i + Z.of_nat k) (pos_y st) my my'.
Proof.
  induction k as [|k IH]; intros i d mx my w hh Hi Hl Hx Hy Hk.
  - exists d, mx, my. rewrite Z.add_0_r. cbn [paint_column].
    split; [reflexivity|]. split; [apply cells_painted_refl|].
    rewrite any_bit_none. split; [reflexivity | apply extent_y_refl].
  - cbn [paint_column]. rewrite land_bit by lia.
    assert (exists d1 mx1 my1,
              (if negb (negb (Z.testbit bits i))
               then do st0 <- store_pixel (repaint st d mx my)
                                (width (image (repaint st d mx my))
                                 * (pos_y (repaint st d mx my) + i)
                                 + pos_x (repaint st d mx my));
                    Some (bump_max st0 (pos_x st0) (pos_y st0 + i))
               else Some (repaint st d mx my)) = Some (repaint st d1 mx1 my1) /\
              cells_painted w hh (fun x => (pos_x st <=? x) && (x <? pos_x st + 1))
                            bits (pos_y st) i (i + 1) (color_index st) d d1 /\
              mx1 = (if Z.testbit bits i then Z.max mx (pos_x st) else mx) /\
              extent_y bits i (i + 1) (pos_y st) my my1)
      as (d1 & mx1 & my1 & -> & Hc1 & Hmx1 & Hmy1).
    { destruct (Z.testbit bits i) eqn:Eb; cbn [negb].
      - cbn [width height pos_x pos_y image repaint set_max_x set_max_y set_image set_data].
        fold w. set (pos := w * (pos_y st + i) + pos_x st).
        assert (0 <= pos < Z.of_nat (List.length d)) as Hpos by (unfold pos; nia).
        rewrite (store_pixel_repaint st d mx my pos _ (array_store_in_range _ _ _ Hpos)).
        cbn [bind]. rewrite bump_max_repaint.
        cbn [width height pos_x pos_y image repaint set_max_x set_max_y set_image set_data].
        eexists _, _, _. split; [reflexivity|]. split; [|split; [reflexivity|]].
        + split; [apply length_insert|]. intros x y Hx' Hy'.
          rewrite (array_store_at _ _ _ _ _ (array_store_in_range _ _ _ Hpos)).
          unfold pos.
          destruct (Z.eqb_spec (w * y + x) (w * (pos_y st + i) + pos_x st)) as [E|E].
          * apply cell_index_inj in E as [-> ->]; [|lia|lia].
            replace (pos_y st + i - pos_y st) with i by lia. rewrite Eb.
            destruct (Z.leb_spec (pos_x st) (pos_x st)), (Z.ltb_spec (pos_x st) (pos_x st + 1)),
                     (Z.leb_spec (pos_y st + i) (pos_y st + i)),
                     (Z.ltb_spec (pos_y st + i) (pos_y st + (i + 1))); try lia. reflexivity.
          * destruct (Z.leb_spec (pos_x st) x), (Z.ltb_spec x (pos_x st + 1)),
                     (Z.leb_spec (pos_y st + i) y), (Z.ltb_spec y (pos_y st + (i + 1)));
              cbn [andb]; try reflexivity.
            exfalso. apply E. f_equal; [f_equal|]; lia.
        + split; [lia|]. split.
          * intros j Hj _. replace j with i by lia. lia.
          * destruct (Z.max_spec my (pos_y st + i)) as [[_ ->]|[_ ->]];
              [right; exists i; split; [lia|]; split; [assumption | reflexivity]
              |left; reflexivity].
      - exists d, mx, my. split; [reflexivity|]. split; [|split; [reflexivity|]].
        + split; [reflexivity|]. intros x y Hx' Hy'.
          destruct (Z.leb_spec (pos_y st + i) y), (Z.ltb_spec y (pos_y st + (i + 1)));
            rewrite ?andb_false_r; cbn [andb]; try reflexivity.
          replace (y - pos_y st) with i by lia. rewrite Eb, andb_false_r. reflexivity.
        + split; [lia|]. split; [|left; reflexivity].
          intros j Hj Hb. replace j with i in Hb by lia. congruence. }
    cbn [bind]. rewrite shiftl_pow2 by lia.
    destruct Hc1 as [L1 Hc1'].
    destruct (IH (i + 1) d1 mx1 my1) as (d' & mx' & my' & H & Hc & Hmx & Hmy);
      [lia | fold w hh; lia | assumption | lia | lia |].
    rewrite H. exists d', mx', my'. split; [reflexivity|].
    replace (i + Z.of_nat (S k)) with (i + 1 + Z.of_nat k) by lia.
    split; [|split].
    + eapply cells_painted_trans; [|split; eassumption|exact Hc]. lia.
    + rewrite Hmx, Hmx1, (any_bit_app bits i (i + 1)) by lia. rewrite any_bit_one.
      destruct (Z.testbit bits i), (any_bit bits (i + 1) (i + 1 + Z.of_nat k));
        cbn [orb]; lia.
    + eapply extent_y_trans; [|eassumption|eassumption]. lia.
Qed.


Lemma fill_cells_spec st y n : forall x d mx my,
  let w := width (image st) in
  let hh := height (image st) in
  Z.of_nat (List.length d) = w * hh ->
  0 <= x -> x + Z.of_nat n <= w -> 0 <= y < hh ->
  exists d',
    fill_cells (repaint st d mx my) y x n = Some (repaint st d' mx my) /\
    List.length d' = List.length d /\
    forall x' y', 0 <= x' < w -> 0 <= y' < hh ->
      array_at d' (w * y' + x')
      = if (y' =? y) && (x <=? x') && (x' <? x + Z.of_nat n)
        then Some (color_index st) else array_at d (w * y' + x').
Proof.
  induction n as [|n IH]; intros x d mx my w hh Hl Hx Hn Hy.
  - exists d. cbn [fill_cells]. split; [reflexivity|]. split; [reflexivity|].
    intros x' y' Hx' Hy'.
    destruct (Z.leb_spec x x'), (Z.ltb_spec x' (x + Z.of_nat 0)); try lia;
      rewrite ?andb_false_r; reflexivity.
  - cbn [fill_cells].
    cbn [width height pos_x pos_y image repaint set_max_x set_max_y set_image set_data].
    fold w. set (pos := w * y + x).
    assert (0 <= pos < Z.of_nat (List.length d)) as Hpos by (unfold pos; nia).
    rewrite (store_pixel_repaint st d mx my pos _ (array_store_in_range _ _ _ Hpos)).
    cbn [bind].
    destruct (IH (x + 1) (<[Z.to_nat pos := color_index st]> d) mx my)
      as (d' & H & L & Hc); [rewrite length_insert; assumption | lia | lia | assumption |].
    rewrite H. exists d'. split; [reflexivity|]. split; [rewrite L; apply length_insert|].
    intros x' y' Hx' Hy'. rewrite Hc by assumption.
    rewrite (array_store_at _ _ _ _ _ (array_store_in_range _ _ _ Hpos)).
    unfold pos. fold w.
    destruct (Z.eqb_spec (w * y' + x') (w * y + x)) as [E|E].
    + apply cell_index_inj in E as [-> ->]; [|lia|lia].
      rewrite Z.eqb_refl.
      destruct (Z.leb_spec (x + 1) x), (Z.leb_spec x x), (Z.ltb_spec x (x + Z.of_nat (S n))),
               (Z.ltb_spec x (x + 1 + Z.of_nat n)); try lia; reflexivity.
    + destruct (Z.eqb_spec y' y) as [->|]; cbn [andb]; [|reflexivity].
      assert (x' <> x) by (intros ->; apply E; reflexivity).
      destruct (Z.leb_spec (x + 1) x'), (Z.leb_spec x x'), (Z.ltb_spec x' (x + Z.of_nat (S n))),
               (Z.ltb_spec x' (x + 1 + Z.of_nat n)); try lia; reflexivity.
Qed.

Lemma fill_rows_spec st n : forall y d mx my,
  let w := width (image st) in
  let hh := height (image st) in
  Z.of_nat (List.length d) = w * hh ->
  0 <= pos_x st -> 0 <= repeat_count st -> pos_x st + repeat_count st <= w ->
  0 <= y -> y + Z.of_nat n <= hh ->
  exists d',
    fill_rows (repaint st d mx my) y n = Some (repaint st d' mx my) /\
    List.length d' = List.length d /\
    forall x' y', 0 <= x' < w -> 0 <= y' < hh ->
      array_at d' (w * y' + x')
      = if (pos_x st <=? x') && (x' <? pos_x st + repeat_count st)
           && (y <=? y') && (y' <? y + Z.of_nat n)
        then Some (color_index st) else array_at d (w * y' + x').
Proof.
  induction n as [|n IH]; intros y d mx my w hh Hl Hx Hrc Hw Hy Hn.
  - exists d. cbn [fill_rows]. split; [reflexivity|]. split; [reflexivity|].
    intros x' y' Hx' Hy'.
    destruct (Z.leb_spec y y'), (Z.ltb_spec y' (y + Z.of_nat 0)); try lia;
      rewrite ?andb_false_r; reflexivity.
  - cbn [fill_rows].
    cbn [width height pos_x pos_y repeat_count image repaint set_max_x set_max_y
         set_image set_data].
    destruct (fill_cells_spec st y (Z.to_nat (repeat_count st)) (pos_x st) d mx my)
      as (d1 & H1 & L1 & Hc1); [assumption | lia | fold w; lia | fold hh; lia |].
    rewrite H1. cbn [bind].
    destruct (IH (y + 1) d1 mx my) as (d' & H & L & Hc);
      [fold w hh; lia | assumption | assumption | assumption | lia | lia |].
    rewrite H. exists d'. split; [reflexivity|]. split; [congruence|].
    intros x' y' Hx' Hy'. rewrite Hc, Hc1 by assumption.
    rewrite Z2Nat.id by lia.
    destruct (Z.leb_spec (pos_x st) x'), (Z.ltb_spec x' (pos_x st + repeat_count st));
      cbn [andb]; rewrite ?andb_false_r; try reflexivity.
    destruct (Z.eqb_spec y' y), (Z.leb_spec (y + 1) y'), (Z.leb_spec y y'),
             (Z.ltb_spec y' (y + 1 + Z.of_nat n)), (Z.ltb_spec y' (y + Z.of_nat (S n))); try lia; reflexivity.
Qed.

Lemma run_length_spec bits i fuel : forall n,
  0 <= i -> 1 <= n -> 6 - (i + n) <= Z.of_nat fuel ->
  exists n',
    run_length fuel bits (2 ^ (i + n)) i n = Some n' /\
    n <= n' /\ (i + n <= 6 -> i + n' <= 6) /\
    (forall j, i + n <= j < i + n' -> Z.testbit bits j = true) /\
    (i + n' < 6 -> Z.testbit bits (i + n') = false).
Proof.
  induction fuel as [|fuel IH]; intros n Hi Hn Hf.
  - cbn [run_length]. destruct (Z.ltb_spec (i + n) 6); [lia|].
    exists n. split; [reflexivity|]. repeat split; intros; lia.
  - cbn [run_length]. destruct (Z.ltb_spec (i + n) 6).
    2:{ exists n. split; [reflexivity|]. repeat split; intros; lia. }
    rewrite land_bit by lia.
    destruct (Z.testbit bits (i + n)) eqn:Eb; cbn [negb].
    + rewrite shiftl_pow2 by lia.
      replace (i + n + 1) with (i + (n + 1)) by lia.
      destruct (IH (n + 1)) as (n' & Hr & H1 & H2 & H3 & H4); [lia | lia | lia |].
      exists n'. split; [assumption|]. split; [lia|]. split; [lia|]. split; [|assumption].
      intros j Hj. destruct (Z.eq_dec j (i + n)) as [->|]; [assumption|]. apply H3. lia.
    + exists n. split; [reflexivity|]. split; [lia|]. split; [lia|]. split; [intros; lia|].
      intros _. assumption.
Qed.

(** The loop of a repeated sixel paints the same cells, run by run. *)
Lemma paint_runs_spec st bits fuel : forall i d mx my,
  let w := width (image st) in
  let hh := height (image st) in
  0 <= i <= 6 -> 6 - i <= Z.of_nat fuel ->
  Z.of_nat (List.length d) = w * hh ->
  0 <= pos_x st -> 0 <= repeat_count st -> pos_x st + repeat_count st <= w ->
  0 <= pos_y st -> pos_y st + 6 <= hh ->
  exists d' mx' my',
    paint_runs fuel i (2 ^ i) bits (repaint st d mx my) = Some (repaint st d' mx' my') /\
    cells_painted w hh (fun x => (pos_x st <=? x) && (x <? pos_x st + repeat_count st))
                  bits (pos_y st) i 6 (color_index st) d d' /\
    mx' = (if any_bit bits i 6
           then Z.max mx (pos_x st + repeat_count st - 1) else mx) /\
    extent_y bits i 6 (pos_y st) my my'.
Proof.
  induction fuel as [|fuel IH]; intros i d mx my w hh Hi Hf Hl Hx Hrc Hw Hy Hh.
  - assert (i = 6) as -> by lia. cbn [paint_runs]. change (6 <? 6) with false. cbv iota.
    exists d, mx, my. split; [reflexivity|]. split; [apply cells_painted_refl|].
    rewrite any_bit_none. split; [reflexivity | apply extent_y_refl].
  - cbn [paint_runs]. destruct (Z.ltb_spec i 6).
    2:{ assert (i = 6) as -> by lia.
        exists d, mx, my. split; [reflexivity|]. split; [apply cells_painted_refl|].
        rewrite any_bit_none. split; [reflexivity | apply extent_y_refl]. }
    rewrite land_bit by lia.
    destruct (Z.testbit bits i) eqn:Eb; cbn [negb].
    + rewrite shiftl_pow2 by lia.
      destruct (run_length_spec bits i 6 1) as (n & Hn & N1 & N2 & N3 & N4); [lia|lia|lia|].
      rewrite Hn. cbn [bind].
      cbn [width height pos_x pos_y repeat_count image repaint set_max_x set_max_y
           set_image set_data].
      destruct (fill_rows_spec st (Z.to_nat n) (pos_y st + i) d mx my)
        as (d1 & Hfr & L1 & Hc1); [assumption|assumption|assumption|assumption|lia|fold hh; lia|].
      rewrite Hfr. cbn [bind]. rewrite bump_max_repaint.
      cbn [width height pos_x pos_y repeat_count image repaint set_max_x set_max_y
           set_image set_data].
      rewrite !shiftl_pow2 by lia.
      replace (i + (n - 1) + 1) with (i + n) by lia.
      destruct (IH (i + n) d1 (Z.max mx (pos_x st + repeat_count st - 1))
                   (Z.max my (pos_y st + i + n - 1)))
        as (d' & mx' & my' & Hpr & Hc & Hmx & Hmy);
        [lia | lia | fold w hh; lia | assumption | assumption | assumption
        | assumption | assumption |].
      rewrite Hpr. exists d', mx', my'. split; [reflexivity|].
      assert (forall j, i <= j < i + n -> Z.testbit bits j = true) as Hrun.
      { intros j Hj. destruct (Z.eq_dec j i) as [->|]; [assumption|]. apply N3. lia. }
      split; [|split].
      * eapply (cells_painted_trans _ _ _ _ _ i (i + n)); [lia| |exact Hc].
        split; [assumption|]. intros x y Hx' Hy'. rewrite Hc1 by assumption.
        rewrite Z2Nat.id by lia.
        replace (pos_y st + i + n) with (pos_y st + (i + n)) by lia.
        destruct ((pos_x st <=? x) && (x <? pos_x st + repeat_count st)); cbn [andb];
          [|reflexivity].
        destruct (Z.leb_spec (pos_y st + i) y), (Z.ltb_spec y (pos_y st + (i + n)));
          cbn [andb]; try reflexivity.
        rewrite Hrun by lia. reflexivity.
      * rewrite Hmx, (any_bit_app bits i (i + n)) by lia.
        assert (any_bit bits i (i + n) = true) as ->
          by (apply any_bit_true; exists i; split; [lia | assumption]).
        cbn [orb]. destruct (any_bit bits (i + n) 6); lia.
      * eapply (extent_y_trans _ i (i + n)); [lia| |exact Hmy].
        split; [lia|]. split.
        -- intros j Hj _. lia.
        -- destruct (Z.max_spec my (pos_y st + i + n - 1)) as [[_ ->]|[_ ->]];
             [|left; reflexivity].
           right. exists (i + n - 1). split; [lia|]. split; [apply Hrun; lia | lia].
    + rewrite shiftl_pow2 by lia.
      destruct (IH (i + 1) d mx my) as (d' & mx' & my' & Hpr & Hc & Hmx & Hmy);
        [lia | lia | assumption | assumption | assumption | assumption
        | assumption | assumption |].
      rewrite Hpr. exists d', mx', my'. split; [reflexivity|]. split; [|split].
      * eapply (cells_painted_trans _ _ _ _ _ i (i + 1)); [lia| |exact Hc].
        split; [reflexivity|]. intros x y Hx' Hy'.
        destruct (Z.leb_spec (pos_y st + i) y), (Z.ltb_spec y (pos_y st + (i + 1)));
          rewrite ?andb_false_r; cbn [andb]; try reflexivity.
        replace (y - pos_y st) with i by lia. rewrite Eb, andb_false_r. reflexivity.
      * rewrite Hmx, (any_bit_app bits i (i + 1)), any_bit_one, Eb by lia. reflexivity.
      * eapply (extent_y_trans _ i (i + 1)); [lia| |exact Hmy].
        split; [lia|]. split; [|left; reflexivity].
        intros j Hj Hb. replace j with i in Hb by lia. congruence.
Qed.

Lemma any_bit_nonzero bits : 0 <= bits < 64 -> any_bit bits 0 6 = negb (bits =? 0).
Proof.
  intros Hb. destruct (Z.eqb_spec bits 0) as [->|Hne]; cbn [negb].
  - reflexivity.
  - apply any_bit_true. exists (Z.log2 bits).
    assert (Z.log2 bits < 6) by (apply Z.log2_lt_pow2; lia).
    pose proof (Z.log2_nonneg bits).
    split; [lia | apply Z.bit_log2; lia].
Qed.

Lemma extent_y_log2 bits py my my' :
  0 < bits < 64 -> extent_y bits 0 6 py my my' -> my' = Z.max my (py + Z.log2 bits).
Proof.
  intros Hb (H1 & H2 & H3).
  assert (Z.log2 bits < 6) by (apply Z.log2_lt_pow2; lia).
  pose proof (Z.log2_nonneg bits).
  assert (py + Z.log2 bits <= my') by (apply H2; [lia | apply Z.bit_log2; lia]).
  destruct H3 as [->|(j & Hj & Hbit & ->)]; [lia|].
  assert (j <= Z.log2 bits); [|lia].
  destruct (Z_le_gt_dec j (Z.log2 bits)); [assumption|].
  rewrite Z.bits_above_log2 in Hbit by lia. discriminate.
Qed.

Lemma cells_painted_nothing w hh cols py i k col d : cells_painted w hh cols 0 py i k col d d.
Proof.
  split; [reflexivity|]. intros x y _ _.
  rewrite Z.bits_0, andb_false_r. reflexivity.
Qed.

Lemma sixel_character_paints (h : heap) (status : Z) (st : sixel_state_t) (c : Z)
        (d : list Z) :
  let w := width (image st) in
  let hh := height (image st) in
  let bits := c - 63 in
  data (image st) = Some d -> Z.of_nat (List.length d) = w * hh ->
  63 <= c <= 126 ->
  0 <= pos_x st -> 1 <= repeat_count st -> pos_x st + repeat_count st <= w ->
  0 <= pos_y st -> pos_y st + 6 <= hh ->
  exists d',
    sixel_character DECSIXEL_WIDTH_MAX DECSIXEL_HEIGHT_MAX h status st c
    = Some (Continue true status
              (set_repeat_count
                 (set_pos_x
                    (repaint
                       (if color_index st >? ncolors (image st)
                        then set_image st (set_ncolors (image st) (color_index st))
                        else st)
                       d'
                       (if bits =? 0 then max_x st
                        else Z.max (max_x st) (pos_x st + repeat_count st - 1))
                       (if bits =? 0 then max_y st
                        else Z.max (max_y st) (pos_y st + Z.log2 bits)))
                    (pos_x st + repeat_count st))
                 1)
              h) /\
    List.length d' = List.length d /\
    forall x y, 0 <= x < w -> 0 <= y < hh ->
      array_at d' (w * y + x)
      = if (pos_x st <=? x) && (x <? pos_x st + repeat_count st)
           && (pos_y st <=? y) && (y <? pos_y st + 6) && Z.testbit bits (y - pos_y st)
        then Some (color_index st) else array_at d (w * y + x).
Proof.
  intros w hh bits Hd Hl Hc Hx Hrc Hw Hy Hh.
  set (st1 := if color_index st >? ncolors (image st)
              then set_image st (set_ncolors (image st) (color_index st)) else st).
  assert (data (image st1) = Some d /\ width (image st1) = w /\ height (image st1) = hh /\
          pos_x st1 = pos_x st /\ pos_y st1 = pos_y st /\
          repeat_count st1 = repeat_count st /\ color_index st1 = color_index st /\
          max_x st1 = max_x st /\ max_y st1 = max_y st)
    as (D1 & W1 & H1 & X1 & Y1 & R1 & C1 & MX1 & MY1)
    by (unfold st1; destruct (_ >? _); cbn; repeat split; assumption || reflexivity).
  assert (exists d' mx' my',
            (if negb (bits =? 0)
             then if repeat_count st1 <=? 1 then paint_column 6 0 1 bits st1
                  else paint_runs 6 0 1 bits st1
             else Some st1) = Some (repaint st1 d' mx' my') /\
            cells_painted w hh
              (fun x => (pos_x st <=? x) && (x <? pos_x st + repeat_count st))
              bits (pos_y st) 0 6 (color_index st) d d' /\
            mx' = (if bits =? 0 then max_x st
                   else Z.max (max_x st) (pos_x st + repeat_count st - 1)) /\
            my' = (if bits =? 0 then max_y st
                   else Z.max (max_y st) (pos_y st + Z.log2 bits)))
    as (d' & mx' & my' & Hp & Hcells & -> & ->).
  { destruct (Z.eqb_spec bits 0) as [E|E]; cbn [negb].
    - exists d, (max_x st), (max_y st).
      rewrite <- MX1, <- MY1, (repaint_same st1 d D1). split; [reflexivity|].
      rewrite E. split; [apply cells_painted_nothing|]. split; reflexivity.
    - assert (0 < bits < 64) as Hb by (unfold bits in *; lia).
      pose proof (repaint_same st1 d D1) as Hsame.
      destruct (Z.leb_spec (repeat_count st1) 1) as [Hr|Hr].
      + destruct (paint_column_spec st1 bits 6 0 d (max_x st1) (max_y st1))
          as (d' & mx' & my' & Hp & Hcells & Hmx & Hmy);
          rewrite ?W1, ?H1, ?X1, ?Y1; try lia.
        change (2 ^ 0) with 1 in Hp. rewrite Hsame in Hp. rewrite Hp.
        rewrite W1, H1, X1, Y1, C1 in Hcells. rewrite X1, MX1 in Hmx.
        rewrite Y1, MY1 in Hmy.
        exists d', mx', my'. split; [reflexivity|].
        change (0 + Z.of_nat 6) with 6 in *.
        assert (repeat_count st = 1) as Er by lia.
        split; [|split].
        * rewrite Er. exact Hcells.
        * rewrite Hmx, any_bit_nonzero by lia.
          destruct (Z.eqb_spec bits 0); [contradiction|]. cbn [negb].
          rewrite Er. f_equal. lia.
        * apply extent_y_log2; assumption.
      + destruct (paint_runs_spec st1 bits 6 0 d (max_x st1) (max_y st1))
          as (d' & mx' & my' & Hp & Hcells & Hmx & Hmy);
          rewrite ?W1, ?H1, ?X1, ?Y1, ?R1; try lia.
        change (2 ^ 0) with 1 in Hp. rewrite Hsame in Hp. rewrite Hp.
        rewrite W1, H1, X1, Y1, R1, C1 in Hcells. rewrite X1, R1, MX1 in Hmx.
        rewrite Y1, MY1 in Hmy.
        exists d', mx', my'. split; [reflexivity|].
        split; [exact Hcells|]. split.
        * rewrite Hmx, any_bit_nonzero by lia.
          destruct (Z.eqb_spec bits 0); [contradiction|]. reflexivity.
        * apply extent_y_log2; assumption. }
  exists d'. split; [|split].
  - unfold sixel_character. fold w hh.
    destruct (Z.ltb_spec w (pos_x st + repeat_count st)); [lia|].
    destruct (Z.ltb_spec hh (pos_y st + 6)); [lia|].
    cbn [orb andb bind]. fold st1.
    rewrite W1, X1, R1.
    destruct (Z.gtb_spec (pos_x st + repeat_count st) w); [lia|].
    rewrite R1, Y1, H1.
    destruct (Z.gtb_spec (repeat_count st) 0); [|lia].
    destruct (Z.ltb_spec (pos_y st - 5) hh); [|lia].
    cbn [andb]. fold bits. rewrite R1 in Hp. rewrite Hp. cbn [bind].
    assert (repeat_count (repaint st1 d' (if bits =? 0 then max_x st
                   else Z.max (max_x st) (pos_x st + repeat_count st - 1))
                  (if bits =? 0 then max_y st
                   else Z.max (max_y st) (pos_y st + Z.log2 bits)))
            = repeat_count st) as -> by (rewrite <- R1; reflexivity).
    assert (pos_x (repaint st1 d' (if bits =? 0 then max_x st
                   else Z.max (max_x st) (pos_x st + repeat_count st - 1))
                  (if bits =? 0 then max_y st
                   else Z.max (max_y st) (pos_y st + Z.log2 bits)))
            = pos_x st) as -> by (rewrite <- X1; reflexivity).
    destruct (Z.gtb_spec (repeat_count st) 0); [|lia].
    reflexivity.
  - apply Hcells.
  - intros x y Hx' Hy'. destruct Hcells as [_ Hcells].
    rewrite Hcells by assumption. rewrite Z.add_0_r. reflexivity.
Qed.

Lemma sixel_byte h status st c :
  state st = PS_DECSIXEL -> 63 <= c <= 126 ->
  parse_iteration DECSIXEL_PARAMS_MAX DECSIXEL_PALETTE_MAX DECSIXEL_PARAMVALUE_MAX
    DECSIXEL_WIDTH_MAX DECSIXEL_HEIGHT_MAX h status st c
  = sixel_character DECSIXEL_WIDTH_MAX DECSIXEL_HEIGHT_MAX h status st c.
Proof.
  intros Hs Hc. unfold parse_iteration. rewrite Hs. unfold iteration_DECSIXEL.
  destruct (Z.eqb_spec c 27); [lia|]. destruct (Z.eqb_spec c 34); [lia|].
  destruct (Z.eqb_spec c 33); [lia|]. destruct (Z.eqb_spec c 35); [lia|].
  destruct (Z.eqb_spec c 36); [lia|]. destruct (Z.eqb_spec c 45); [lia|].
  destruct (Z.geb_spec c 63); [|lia]. destruct (Z.leb_spec c 126); [|lia].
  reflexivity.
Qed.

(** A sixel character inside the picture paints its bits: of the six rows
    from [pos_y] on it gives the colour [color_index] to the cells of the
    columns [pos_x] to [pos_x + repeat_count - 1] in the rows whose bit is
    set in [c - 63] and leaves every other cell; [max_x] and [max_y] grow
    to the last column and the lowest row painted, the cursor moves right
    by [repeat_count], which is 1 again, and [ncolors] is at least
    [color_index].  Nothing is allocated and the call returns 0. *)
Theorem a_sixel_paints_its_bits (h : heap) (st : sixel_state_t) (c : Z) (d : list Z) :
  let w := width (image st) in
  let hh := height (image st) in
  let bits := c - 63 in
  state st = PS_DECSIXEL ->
  data (image st) = Some d -> Z.of_nat (List.length d) = w * hh ->
  63 <= c <= 126 ->
  0 <= pos_x st -> 1 <= repeat_count st -> pos_x st + repeat_count st <= w ->
  0 <= pos_y st -> pos_y st + 6 <= hh ->
  exists d',
    sixel_parser_parse_run DECSIXEL_PARAMS_MAX DECSIXEL_PALETTE_MAX
      DECSIXEL_PARAMVALUE_MAX DECSIXEL_WIDTH_MAX DECSIXEL_HEIGHT_MAX h st [c]
    = Some (0,
            set_repeat_count
              (set_pos_x
                 (repaint
                    (if color_index st >? ncolors (image st)
                     then set_image st (set_ncolors (image st) (color_index st))
                     else st)
                    d'
                    (if bits =? 0 then max_x st
                     else Z.max (max_x st) (pos_x st + repeat_count st - 1))
                    (if bits =? 0 then max_y st
                     else Z.max (max_y st) (pos_y st + Z.log2 bits)))
                 (pos_x st + repeat_count st))
              1,
            [], h) /\
    List.length d' = List.length d /\
    forall x y, 0 <= x < w -> 0 <= y < hh ->
      array_at d' (w * y + x)
      = if (pos_x st <=? x) && (x <? pos_x st + repeat_count st)
           && (pos_y st <=? y) && (y <? pos_y st + 6) && Z.testbit bits (y - pos_y st)
        then Some (color_index st) else array_at d (w * y + x).
Proof.
  intros w hh bits Hs Hd Hl Hc Hx Hrc Hw Hy Hh.
  destruct (sixel_character_paints h (-1) st c d Hd Hl Hc Hx Hrc Hw Hy Hh)
    as (d' & Hp & Hlen & Hcells).
  exists d'. split; [|split; assumption].
  rewrite (parse_run_bytes DECSIXEL_PARAMS_MAX DECSIXEL_PALETTE_MAX
             DECSIXEL_PARAMVALUE_MAX DECSIXEL_WIDTH_MAX DECSIXEL_HEIGHT_MAX), Hd.
  rewrite <- (sixel_byte h (-1) st c Hs Hc) in Hp.
  rewrite (parse_bytes_taken _ _ _ _ _ _ _ _ _ _ _ _ _ Hp).
  apply parse_bytes_nil.
Qed.

End Painting.

Section Overflow.
Variables DECSIXEL_PARAMS_MAX DECSIXEL_PALETTE_MAX DECSIXEL_PARAMVALUE_MAX : Z.
Variables DECSIXEL_WIDTH_MAX DECSIXEL_HEIGHT_MAX : Z.

(** *** Painting below the picture *)

Lemma store_pixel_shape st d mx my pos :
  store_pixel (repaint st d mx my) pos = None \/
  exists d', store_pixel (repaint st d mx my) pos = Some (repaint st d' mx my) /\
             List.length d' = List.length d.
Proof.
  destruct (array_store d pos (color_index st)) as [d'|] eqn:E.
  - right. exists d'. split; [apply store_pixel_repaint; assumption|].
    eapply array_store_length; eassumption.
  - left. apply store_pixel_undefined; assumption.
Qed.

Lemma store_pixel_outside st d mx my pos :
  Z.of_nat (List.length d) <= pos -> store_pixel (repaint st d mx my) pos = None.
Proof.
  intros H. apply store_pixel_undefined. unfold array_store.
  destruct (Z.ltb_spec pos (Z.of_nat (List.length d))); [lia|].
  rewrite andb_false_r. reflexivity.
Qed.

Lemma paint_column_outside st bits j k : forall i d mx my,
  let w := width (image st) in
  let hh := height (image st) in
  0 <= i <= j -> j < i + Z.of_nat k -> Z.testbit bits j = true ->
  Z.of_nat (List.length d) = w * hh -> 0 <= w -> 0 <= pos_x st -> hh <= pos_y st + j ->
  paint_column k i (2 ^ i) bits (repaint st d mx my) = None.
Proof.
  induction k as [|k IH]; intros i d mx my w hh Hi Hk Hb Hl Hw Hx Hj; [lia|].
  cbn [paint_column]. rewrite land_bit by lia.
  cbn [width height pos_x pos_y image repaint set_max_x set_max_y set_image set_data].
  fold w. rewrite shiftl_pow2 by lia.
  destruct (Z.eq_dec i j) as [->|Hne].
  - rewrite Hb. cbn [negb]. rewrite store_pixel_outside; [reflexivity|]. nia.
  - destruct (Z.testbit bits i); cbn [negb].
    + destruct (store_pixel_shape st d mx my (w * (pos_y st + i) + pos_x st))
        as [->|(d' & -> & L)]; [reflexivity|].
      cbn [bind]. rewrite bump_max_repaint. apply IH; try assumption; try lia;
        fold w hh; lia.
    + cbn [bind]. apply IH; try assumption; lia.
Qed.

Lemma fill_cells_shape st y n : forall x d mx my,
  fill_cells (repaint st d mx my) y x n = None \/
  exists d', fill_cells (repaint st d mx my) y x n = Some (repaint st d' mx my) /\
             List.length d' = List.length d.
Proof.
  induction n as [|n IH]; intros x d mx my.
  - right. exists d. split; reflexivity.
  - cbn [fill_cells].
    destruct (store_pixel_shape st d mx my
                (width (image (repaint st d mx my)) * y + x)) as [->|(d1 & -> & L1)];
      [left; reflexivity|].
    cbn [bind]. destruct (IH (x + 1) d1 mx my) as [->|(d' & -> & L)];
      [left; reflexivity|].
    right. exists d'. split; [reflexivity | congruence].
Qed.

Lemma fill_rows_shape st n : forall y d mx my,
  fill_rows (repaint st d mx my) y n = None \/
  exists d', fill_rows (repaint st d mx my) y n = Some (repaint st d' mx my) /\
             List.length d' = List.length d.
Proof.
  induction n as [|n IH]; intros y d mx my.
  - right. exists d. split; reflexivity.
  - cbn [fill_rows].
    destruct (fill_cells_shape st y (Z.to_nat (repeat_count (repaint st d mx my)))
                (pos_x (repaint st d mx my)) d mx my) as [->|(d1 & -> & L1)];
      [left; reflexivity|].
    cbn [bind]. destruct (IH (y + 1) d1 mx my) as [->|(d' & -> & L)];
      [left; reflexivity|].
    right. exists d'. split; [reflexivity | congruence].
Qed.

Lemma fill_rows_outside st row n : forall y d mx my,
  let w := width (image st) in
  let hh := height (image st) in
  y <= row -> row < y + Z.of_nat n -> hh <= row ->
  Z.of_nat (List.length d) = w * hh -> 0 <= w -> 0 <= pos_x st -> 1 <= repeat_count st ->
  fill_rows (repaint st d mx my) y n = None.
Proof.
  induction n as [|n IH]; intros y d mx my w hh Hy Hn Hrow Hl Hw Hx Hrc; [lia|].
  cbn [fill_rows].
  cbn [width height pos_x pos_y repeat_count image repaint set_max_x set_max_y
       set_image set_data].
  destruct (Z.eq_dec y row) as [->|Hne].
  - destruct (Z.to_nat (repeat_count st)) as [|m] eqn:Em; [lia|].
    cbn [fill_cells].
    cbn [width height pos_x pos_y repeat_count image repaint set_max_x set_max_y
         set_image set_data].
    rewrite store_pixel_outside; [reflexivity|]. fold w. nia.
  - destruct (fill_cells_shape st y (Z.to_nat (repeat_count st)) (pos_x st) d mx my)
      as [->|(d1 & -> & L1)]; [reflexivity|].
    cbn [bind]. apply IH; try assumption; try lia; fold w hh; lia.
Qed.

Lemma paint_runs_outside st bits j fuel : forall i d mx my,
  let w := width (image st) in
  let hh := height (image st) in
  0 <= i <= j -> j < 6 -> 6 - i <= Z.of_nat fuel -> Z.testbit bits j = true ->
  Z.of_nat (List.length d) = w * hh -> 0 <= w -> 0 <= pos_x st -> 1 <= repeat_count st ->
  hh <= pos_y st + j ->
  paint_runs fuel i (2 ^ i) bits (repaint st d mx my) = None.
Proof.
  induction fuel as [|fuel IH]; intros i d mx my w hh Hi Hj6 Hf Hb Hl Hw Hx Hrc Hj; [lia|].
  cbn [paint_runs]. destruct (Z.ltb_spec i 6); [|lia].
  rewrite land_bit by lia.
  destruct (Z.testbit bits i) eqn:Eb; cbn [negb].
  - rewrite shiftl_pow2 by lia.
    destruct (run_length_spec bits i 6 1) as (n & Hn & N1 & N2 & N3 & N4); [lia|lia|lia|].
    rewrite Hn. cbn [bind].
    cbn [width height pos_x pos_y repeat_count image repaint set_max_x set_max_y
         set_image set_data].
    destruct (Z_lt_le_dec j (i + n)) as [Hin|Hout].
    + rewrite (fill_rows_outside st (pos_y st + j)); try assumption; try lia.
      reflexivity.
    + destruct (fill_rows_shape st (Z.to_nat n) (pos_y st + i) d mx my)
        as [->|(d1 & -> & L1)]; [reflexivity|].
      cbn [bind]. rewrite bump_max_repaint.
      rewrite !shiftl_pow2 by lia.
      replace (i + (n - 1) + 1) with (i + n) by lia.
      apply IH; try assumption; try lia; fold w hh; lia.
  - rewrite shiftl_pow2 by lia.
    assert (i <> j) by (intros ->; congruence).
    apply IH; try assumption; lia.
Qed.

Lemma sixel_character_outside (h : heap) (status : Z)
        (st : sixel_state_t) (c : Z) (d : list Z) (j : Z) :
  let w := width (image st) in
  let hh := height (image st) in
  data (image st) = Some d -> Z.of_nat (List.length d) = w * hh ->
  DECSIXEL_WIDTH_MAX <= w \/ DECSIXEL_HEIGHT_MAX <= hh ->
  0 <= pos_x st < w -> 1 <= repeat_count st ->
  0 <= j < 6 -> Z.testbit (c - 63) j = true -> hh <= pos_y st + j ->
  pos_y st - 5 < hh ->
  sixel_character DECSIXEL_WIDTH_MAX DECSIXEL_HEIGHT_MAX h status st c = None.
Proof.
  intros w hh Hd Hl Hmax Hx Hrc Hj Hb Hrow Hguard.
  unfold sixel_character. fold w hh.
  assert (((w <? pos_x st + repeat_count st) || (hh <? pos_y st + 6))
          && (w <? DECSIXEL_WIDTH_MAX) && (hh <? DECSIXEL_HEIGHT_MAX) = false) as ->.
  { destruct (Z.ltb_spec w DECSIXEL_WIDTH_MAX), (Z.ltb_spec hh DECSIXEL_HEIGHT_MAX);
      rewrite ?andb_false_r; try reflexivity. lia. }
  cbn [andb bind].
  set (st1 := if color_index st >? ncolors (image st)
              then set_image st (set_ncolors (image st) (color_index st)) else st).
  assert (data (image st1) = Some d /\ width (image st1) = w /\ height (image st1) = hh /\
          pos_x st1 = pos_x st /\ pos_y st1 = pos_y st /\
          repeat_count st1 = repeat_count st)
    as (D1 & W1 & H1 & X1 & Y1 & R1)
    by (unfold st1; destruct (_ >? _); cbn; repeat split; assumption || reflexivity).
  set (st2 := if pos_x st1 + repeat_count st1 >? width (image st1)
              then set_repeat_count st1 (width (image st1) - pos_x st1) else st1).
  assert (data (image st2) = Some d /\ width (image st2) = w /\ height (image st2) = hh /\
          pos_x st2 = pos_x st /\ pos_y st2 = pos_y st /\ 1 <= repeat_count st2)
    as (D2 & W2 & H2 & X2 & Y2 & R2).
  { unfold st2. destruct (Z.gtb_spec (pos_x st1 + repeat_count st1) (width (image st1)));
      cbn [image width height data pos_x pos_y repeat_count set_repeat_count];
      repeat split; try assumption; lia. }
  destruct (Z.gtb_spec (repeat_count st2) 0); [|lia].
  rewrite Y2, H2. destruct (Z.ltb_spec (pos_y st - 5) hh); [|lia].
  cbn [andb].
  assert (c - 63 <> 0) as Hne by (intros E; rewrite E, Z.bits_0 in Hb; discriminate).
  destruct (Z.eqb_spec (c - 63) 0); [contradiction|]. cbn [negb].
  rewrite <- (repaint_same st2 d D2).
  destruct (repeat_count (repaint st2 d (max_x st2) (max_y st2)) <=? 1).
  - change 1 with (2 ^ 0) at 1.
    rewrite (paint_column_outside st2 (c - 63) j); rewrite ?W2, ?H2, ?X2, ?Y2;
      try assumption; try lia. reflexivity.
  - change 1 with (2 ^ 0) at 1.
    rewrite (paint_runs_outside st2 (c - 63) j); rewrite ?W2, ?H2, ?X2, ?Y2;
      try assumption; try lia. reflexivity.
Qed.

(** A sixel that reaches below an image that cannot grow is written
    outside the buffer.  When the image has the width or the height limit
    it is not resized; the test [pos_y - 5 < height] lets the sixel in, and
    a bit that is set for a row at or below [height] is stored past the
    [width * height] cells: the call has no defined result, whatever
    follows the sixel. *)
Theorem a_sixel_below_the_picture_is_undefined (h : heap) (st : sixel_state_t)
        (c : Z) (rest : list Z) (d : list Z) (j : Z) :
  let w := width (image st) in
  let hh := height (image st) in
  state st = PS_DECSIXEL ->
  data (image st) = Some d -> Z.of_nat (List.length d) = w * hh ->
  DECSIXEL_WIDTH_MAX <= w \/ DECSIXEL_HEIGHT_MAX <= hh ->
  0 <= pos_x st < w -> 1 <= repeat_count st ->
  63 <= c <= 126 ->
  0 <= j < 6 -> Z.testbit (c - 63) j = true -> hh <= pos_y st + j ->
  pos_y st - 5 < hh ->
  sixel_parser_parse_run DECSIXEL_PARAMS_MAX DECSIXEL_PALETTE_MAX
    DECSIXEL_PARAMVALUE_MAX DECSIXEL_WIDTH_MAX DECSIXEL_HEIGHT_MAX h st (c :: rest)
  = None.
Proof.
  intros w hh Hs Hd Hl Hmax Hx Hrc Hc Hj Hb Hrow Hguard.
  rewrite (parse_run_bytes DECSIXEL_PARAMS_MAX DECSIXEL_PALETTE_MAX
             DECSIXEL_PARAMVALUE_MAX DECSIXEL_WIDTH_MAX DECSIXEL_HEIGHT_MAX), Hd.
  apply parse_bytes_undefined.
  rewrite (sixel_byte DECSIXEL_PARAMS_MAX DECSIXEL_PALETTE_MAX DECSIXEL_PARAMVALUE_MAX)
    by assumption.
  apply (sixel_character_outside h (-1) st c d j); assumption.
Qed.

End Overflow.

Section Palette.
Variables DECSIXEL_PARAMS_MAX DECSIXEL_PALETTE_MAX DECSIXEL_PARAMVALUE_MAX : Z.
Variables DECSIXEL_WIDTH_MAX DECSIXEL_HEIGHT_MAX : Z.

Ltac unbind H :=
  let v := fresh "v" in
  let E := fresh "E" in
  apply bind_some in H; destruct H as (v & E & H).

(** *** The default palette *)

(** A run of stores inside the palette replaces the entries from [n] on. *)
Lemma store_colors_exact vs : forall pal n,
  0 <= n -> n + Z.of_nat (List.length vs) <= Z.of_nat (List.length pal) ->
  store_colors pal n vs
  = Some (take (Z.to_nat n) pal ++ vs ++ drop (Z.to_nat n + List.length vs) pal,
          n + Z.of_nat (List.length vs)).
Proof.
  induction vs as [|v vs IH]; intros pal n Hn Hl; cbn [store_colors List.length] in *.
  - rewrite Nat.add_0_r, Z.add_0_r. cbn [app]. rewrite take_drop. reflexivity.
  - rewrite array_store_in_range by lia. cbn [bind].
    rewrite IH by (rewrite ?length_insert; lia).
    f_equal. f_equal; [|lia].
    replace (Z.to_nat (n + 1)) with (S (Z.to_nat n)) by lia.
    rewrite (take_S_r _ _ v) by (apply list_lookup_insert_eq; lia).
    rewrite take_insert_ge by lia.
    rewrite <- app_assoc. cbn [app]. f_equal. f_equal. f_equal.
    rewrite drop_insert_lt by lia. f_equal. lia.
Qed.

Lemma store_colors_after (a vs old : list Z) n :
  n = Z.of_nat (List.length a) -> (List.length vs <= List.length old)%nat ->
  store_colors (a ++ old) n vs
  = Some ((a ++ vs) ++ drop (List.length vs) old, n + Z.of_nat (List.length vs)).
Proof.
  intros -> Hl. rewrite store_colors_exact by (rewrite ?length_app; lia).
  rewrite Nat2Z.id, take_app_length, drop_app_add', <- app_assoc by reflexivity.
  reflexivity.
Qed.

Lemma color_cube_at :
  forallb (fun r => forallb (fun g => forallb (fun b =>
    match color_cube !! Z.to_nat (36 * r + 6 * g + b) with
    | Some v => v =? SIXEL_RGB (r * 51) (g * 51) (b * 51)
    | None => false
    end) zero_to_five) zero_to_five) zero_to_five = true.
Proof. vm_compute. reflexivity. Qed.

Lemma gray_ramp_at :
  forallb (fun i =>
    match gray_ramp !! Z.to_nat i with
    | Some v => v =? SIXEL_RGB (i * 11) (i * 11) (i * 11)
    | None => false
    end) (seqZ 0 24) = true.
Proof. vm_compute. reflexivity. Qed.

Lemma zero_to_five_In r : 0 <= r < 6 -> In r zero_to_five.
Proof. intros H. unfold zero_to_five. simpl. lia. Qed.

(** The default palette.  [set_default_color] stores the entries 1 to 256
    and fills the rest with white: it needs a palette of 257 entries, and
    with fewer it stores past the array.  It leaves entry 0, the
    background; entry [1 + i] is the colour [i] of the table of 16, entry
    [17 + 36 r + 6 g + b] the colour [(51 r, 51 g, 51 b)] of the cube and
    entry [233 + i] the gray [11 i]. *)
Theorem the_default_palette (image : sixel_image_t) :
  Z.of_nat (List.length (palette image)) = DECSIXEL_PALETTE_MAX ->
  if 257 <=? DECSIXEL_PALETTE_MAX then
    exists pal,
      set_default_color DECSIXEL_PALETTE_MAX image = Some (0, set_palette image pal) /\
      pal = take 1 (palette image) ++ sixel_default_color_table ++ color_cube ++ gray_ramp
            ++ replicate (Z.to_nat (DECSIXEL_PALETTE_MAX - 257)) (SIXEL_RGB 255 255 255) /\
      array_at pal 0 = array_at (palette image) 0 /\
      (forall i, 0 <= i < 16 ->
         array_at pal (1 + i) = array_at sixel_default_color_table i) /\
      (forall r g b, 0 <= r < 6 -> 0 <= g < 6 -> 0 <= b < 6 ->
         array_at pal (17 + 36 * r + 6 * g + b)
         = Some (SIXEL_RGB (r * 51) (g * 51) (b * 51))) /\
      (forall i, 0 <= i < 24 ->
         array_at pal (233 + i) = Some (SIXEL_RGB (i * 11) (i * 11) (i * 11))) /\
      (forall n, 257 <= n < DECSIXEL_PALETTE_MAX ->
         array_at pal n = Some (SIXEL_RGB 255 255 255))
  else set_default_color DECSIXEL_PALETTE_MAX image = None.
Proof.
  intros Hl. destruct (Z.leb_spec 257 DECSIXEL_PALETTE_MAX) as [Hp|Hp].
  2:{ apply set_default_color_needs_257. lia. }
  set (pal0 := palette image) in *.
  assert (List.length sixel_default_color_table = 16%nat) as L16 by reflexivity.
  assert (List.length color_cube = 216%nat) as L216 by reflexivity.
  assert (List.length gray_ramp = 24%nat) as L24 by reflexivity.
  assert (List.length (take 1 pal0) = 1%nat) as L1 by (rewrite length_take; lia).
  eexists. split; [|split; [reflexivity|]].
  - unfold set_default_color. fold pal0.
    rewrite <- (take_drop 1 pal0).
    rewrite store_colors_after by (rewrite ?L1, ?L16, ?length_drop; lia).
    cbn [bind fst snd].
    rewrite store_colors_after
      by (rewrite ?length_app, ?L1, ?L16, ?L216, ?length_drop; lia).
    cbn [bind fst snd].
    rewrite store_colors_after
      by (rewrite ?length_app, ?L1, ?L16, ?L216, ?L24, ?length_drop; lia).
    cbn [bind fst snd].
    rewrite store_colors_after
      by (rewrite ?length_app, ?length_replicate, ?L1, ?L16, ?L216, ?L24, ?length_drop;
          lia).
    cbn [bind fst snd].
    rewrite drop_ge
      by (rewrite ?length_replicate, ?length_drop, ?L16, ?L216, ?L24; lia).
    rewrite app_nil_r, <- !app_assoc, L16, L216, L24.
    rewrite (take_drop 1 pal0).
    replace (DECSIXEL_PALETTE_MAX - (1 + Z.of_nat 16 + Z.of_nat 216 + Z.of_nat 24))
      with (DECSIXEL_PALETTE_MAX - 257) by lia.
    reflexivity.
  - assert (forall (a b : list Z) k, 0 <= k ->
              array_at (a ++ b) (Z.of_nat (List.length a) + k) = array_at b k) as Hskip.
    { intros a b k Hk. unfold array_at.
      destruct (Z.leb_spec 0 k); [|lia].
      destruct (Z.leb_spec 0 (Z.of_nat (List.length a) + k)); [|lia].
      rewrite lookup_app_r by lia. f_equal. lia. }
    assert (forall (a b : list Z) k, 0 <= k < Z.of_nat (List.length a) ->
              array_at (a ++ b) k = array_at a k) as Hin.
    { intros a b k Hk. unfold array_at. destruct (Z.leb_spec 0 k); [|lia].
      apply lookup_app_l. lia. }
    split; [|split; [|split; [|split]]].
    + rewrite Hin by lia. unfold array_at. cbn [Z.leb Z.compare Z.to_nat].
      apply lookup_take_lt. lia.
    + intros i Hi.
      replace (1 + i) with (Z.of_nat (List.length (take 1 pal0)) + i) by lia.
      rewrite Hskip, Hin by lia. reflexivity.
    + intros r g b Hr Hg Hb.
      replace (17 + 36 * r + 6 * g + b)
        with (Z.of_nat (List.length (take 1 pal0))
              + (Z.of_nat (List.length sixel_default_color_table) + (36 * r + 6 * g + b)))
        by lia.
      rewrite !Hskip, Hin by lia.
      pose proof color_cube_at as Hcube.
      rewrite forallb_forall in Hcube. specialize (Hcube r (zero_to_five_In r Hr)).
      rewrite forallb_forall in Hcube. specialize (Hcube g (zero_to_five_In g Hg)).
      rewrite forallb_forall in Hcube. specialize (Hcube b (zero_to_five_In b Hb)).
      unfold array_at. destruct (Z.leb_spec 0 (36 * r + 6 * g + b)); [|lia].
      destruct (color_cube !! Z.to_nat (36 * r + 6 * g + b)); [|discriminate].
      apply Z.eqb_eq in Hcube. congruence.
    + intros i Hi.
      replace (233 + i)
        with (Z.of_nat (List.length (take 1 pal0))
              + (Z.of_nat (List.length sixel_default_color_table)
                 + (Z.of_nat (List.length color_cube) + i))) by lia.
      rewrite !Hskip, Hin by lia.
      pose proof gray_ramp_at as Hramp.
      rewrite forallb_forall in Hramp. specialize (Hramp i).
      unfold array_at. destruct (Z.leb_spec 0 i); [|lia].
      destruct (gray_ramp !! Z.to_nat i).
      * f_equal. apply Z.eqb_eq. apply Hramp.
        apply list_elem_of_In, elem_of_seqZ. lia.
      * exfalso. assert (false = true); [|discriminate]. apply Hramp.
        apply list_elem_of_In, elem_of_seqZ. lia.
    + intros n Hn.
      replace n
        with (Z.of_nat (List.length (take 1 pal0))
              + (Z.of_nat (List.length sixel_default_color_table)
                 + (Z.of_nat (List.length color_cube)
                    + (Z.of_nat (List.length gray_ramp) + (n - 257))))) by lia.
      rewrite !Hskip by lia.
      unfold array_at. destruct (Z.leb_spec 0 (n - 257)); [|lia].
      apply lookup_replicate_2. lia.
Qed.

End Palette.

Section Raster.
Variables DECSIXEL_PARAMS_MAX DECSIXEL_PALETTE_MAX DECSIXEL_PARAMVALUE_MAX : Z.
Variables DECSIXEL_WIDTH_MAX DECSIXEL_HEIGHT_MAX : Z.

Ltac unbind H :=
  let v := fresh "v" in
  let E := fresh "E" in
  apply bind_some in H; destruct H as (v & E & H).

(** *** The raster *)

Lemma emit_pixels_at d pal n : forall src line,
  emit_pixels d pal src n = Some line ->
  List.length line = (4 * n)%nat /\
  forall x, (x < n)%nat ->
    exists idx color,
      array_at d (src + Z.of_nat x) = Some idx /\ array_at pal idx = Some color /\
      take 4 (drop (4 * x) line) = bgra color.
Proof.
  induction n as [|n IH]; intros src line H; cbn [emit_pixels] in H.
  - injection H as <-. split; [reflexivity|]. intros x Hx. lia.
  - unbind H. unbind H. unbind H. injection H as <-.
    destruct (IH _ _ E1) as [L Hat]. split.
    + cbn [List.length]. rewrite L. lia.
    + intros [|x] Hx.
      * exists v, v0. rewrite Z.add_0_r. split; [assumption|]. split; [assumption|].
        reflexivity.
      * destruct (Hat x) as (idx & color & H1 & H2 & H3); [lia|].
        exists idx, color. split; [|split; [assumption|]].
        -- rewrite <- H1. f_equal. lia.
        -- replace (4 * S x)%nat with (S (S (S (S (4 * x)))))%nat by lia.
           exact H3.
Qed.

Lemma emit_rows_at d pal w rows : forall src pixels,
  emit_rows d pal src w rows = Some pixels ->
  forall x y, 0 <= x < w -> (y < rows)%nat ->
    exists idx color,
      array_at d (src + w * Z.of_nat y + x) = Some idx /\ array_at pal idx = Some color /\
      take 4 (drop (Z.to_nat (4 * (w * Z.of_nat y + x))) pixels) = bgra color.
Proof.
  induction rows as [|rows IH]; intros src pixels H x y Hx Hy; [lia|].
  cbn [emit_rows] in H. unbind H. unbind H. injection H as <-.
  destruct (emit_pixels_at _ _ _ _ _ E) as [L Hat].
  destruct y as [|y].
  - destruct (Hat (Z.to_nat x)) as (idx & color & H1 & H2 & H3); [lia|].
    exists idx, color. split; [|split; [assumption|]].
    + rewrite <- H1. f_equal. lia.
    + replace (Z.to_nat (4 * (w * Z.of_nat 0 + x))) with (4 * Z.to_nat x)%nat by lia.
      rewrite <- H3. rewrite drop_app_le by lia.
      rewrite take_app_le; [reflexivity|]. rewrite length_drop. lia.
  - destruct (IH _ _ E0 x y Hx) as (idx & color & H1 & H2 & H3); [lia|].
    exists idx, color. split; [|split; [assumption|]].
    + rewrite <- H1. f_equal. lia.
    + rewrite <- H3.
      replace (Z.to_nat (4 * (w * Z.of_nat (S y) + x)))
        with (List.length v + Z.to_nat (4 * (w * Z.of_nat y + x)))%nat by nia.
      rewrite drop_app_add'; reflexivity.
Qed.

(** The raster is the picture.  A call of [sixel_parser_finalize] that
    returns has written the whole raster or nothing.  When it returns 0,
    the four bytes of the pixel of column [x] and row [y] of the image
    that it leaves are the blue, green and red bytes of the palette entry
    of the cell, taken from the bits 16 to 23, 8 to 15 and 0 to 7 of the
    colour, and 255; when it returns another status, which is negative, no
    byte is written. *)
Theorem the_raster_is_the_picture (h h' : heap) (st st' : sixel_state_t)
        (status : Z) (pixels : list Z) :
  sixel_parser_finalize DECSIXEL_PALETTE_MAX h st = Some (status, st', pixels, h') ->
  if status =? 0 then
    exists d,
      data (image st') = Some d /\
      forall x y, 0 <= x < width (image st') -> 0 <= y < height (image st') ->
        exists idx color,
          array_at d (width (image st') * y + x) = Some idx /\
          array_at (palette (image st')) idx = Some color /\
          take 4 (drop (Z.to_nat (4 * (width (image st') * y + x))) pixels)
          = [Z.land (Z.shiftr color 16) 255; Z.land (Z.shiftr color 8) 255;
             Z.land color 255; 255]
  else status < 0 /\ pixels = [].
Proof.
  intros H. unfold sixel_parser_finalize in H. cbv zeta in H.
  assert (forall h0 s0 t,
            write_raster DECSIXEL_PALETTE_MAX h0 s0 t = Some (status, st', pixels, h') ->
            if status =? 0 then
              exists d,
                data (image st') = Some d /\
                forall x y, 0 <= x < width (image st') -> 0 <= y < height (image st') ->
                  exists idx color,
                    array_at d (width (image st') * y + x) = Some idx /\
                    array_at (palette (image st')) idx = Some color /\
                    take 4 (drop (Z.to_nat (4 * (width (image st') * y + x))) pixels)
                    = [Z.land (Z.shiftr color 16) 255; Z.land (Z.shiftr color 8) 255;
                       Z.land color 255; 255]
            else status < 0 /\ pixels = []) as Hw.
  { clear H. intros h0 s0 t H. unfold write_raster in H. unbind H.
    destruct v as [s1 img].
    destruct (loads_default_palette (image t) && (s1 <? 0)) eqn:Eg.
    - injection H as <- _ <- _. apply andb_true_iff in Eg as [_ Eg].
      apply Z.ltb_lt in Eg. destruct (Z.eqb_spec s1 0); [lia|]. split; [lia | reflexivity].
    - unbind H. unbind H. injection H as <- <- <- _.
      change (0 =? 0) with true. cbv iota.
      exists v. cbn [image set_image]. split; [assumption|].
      intros x y Hx Hy.
      destruct (emit_rows_at _ _ _ _ _ _ E1 x (Z.to_nat y) Hx) as (idx & color & H1 & H2 & H3);
        [lia|].
      rewrite Z2Nat.id in H1, H3 by lia. rewrite Z.add_0_l in H1.
      exists idx, color. split; [assumption|]. split; [assumption|]. exact H3. }
  unbind H. destruct v as [[s1 img] h1].
  destruct (_ && (s1 <? 0)) eqn:Eg.
  - injection H as <- _ <- _. apply andb_true_iff in Eg as [_ Eg].
    apply Z.ltb_lt in Eg. destruct (Z.eqb_spec s1 0); [lia|]. split; [lia | reflexivity].
  - eapply Hw. eassumption.
Qed.

End Raster.

Section Repeats.
Variables DECSIXEL_PARAMS_MAX DECSIXEL_PALETTE_MAX DECSIXEL_PARAMVALUE_MAX : Z.
Variables DECSIXEL_WIDTH_MAX DECSIXEL_HEIGHT_MAX : Z.

Local Abbreviation parse_run :=
  (sixel_parser_parse_run DECSIXEL_PARAMS_MAX DECSIXEL_PALETTE_MAX
     DECSIXEL_PARAMVALUE_MAX DECSIXEL_WIDTH_MAX DECSIXEL_HEIGHT_MAX).
Local Abbreviation iteration :=
  (parse_iteration DECSIXEL_PARAMS_MAX DECSIXEL_PALETTE_MAX
     DECSIXEL_PARAMVALUE_MAX DECSIXEL_WIDTH_MAX DECSIXEL_HEIGHT_MAX).
Local Abbreviation bytes :=
  (parse_bytes DECSIXEL_PARAMS_MAX DECSIXEL_PALETTE_MAX
     DECSIXEL_PARAMVALUE_MAX DECSIXEL_WIDTH_MAX DECSIXEL_HEIGHT_MAX).

(** *** Repeated sixels *)

Lemma clamped_digits_then ds rest : forall h status st,
  clamping_state (state st) = true ->
  0 <= param st <= DECSIXEL_PARAMVALUE_MAX ->
  forallb is_digit ds = true ->
  bytes h status st (ds ++ rest)
  = bytes h status
      (set_param st (Z.min DECSIXEL_PARAMVALUE_MAX (decimal (param st) ds))) rest.
Proof.
  induction ds as [|c ds IH]; intros h status st Hs Hp Hd.
  - cbn [decimal fold_left app]. rewrite Z.min_r by lia.
    rewrite set_param_same. reflexivity.
  - cbn [forallb] in Hd. apply andb_true_iff in Hd as [Hc Hd].
    pose proof (digit_value c Hc). cbn [app].
    rewrite (parse_bytes_taken _ _ _ _ _ _ _ _ _ _ _ _ _
               (clamped_digit DECSIXEL_PARAMS_MAX DECSIXEL_PALETTE_MAX
                  DECSIXEL_PARAMVALUE_MAX DECSIXEL_WIDTH_MAX DECSIXEL_HEIGHT_MAX
                  h status st c Hs Hc)).
    rewrite accumulate_clamped_min.
    rewrite IH; cbn [state param set_param]; [|assumption|lia|assumption].
    cbn [decimal fold_left]. fold (decimal (param st * 10 + c - 48) ds).
    rewrite decimal_clamp; [reflexivity | lia | lia | assumption].
Qed.

(** The repeat introducer: [!], the digits of a number and a sixel
    character paint the sixel as many columns wide as the number says (at
    most [DECSIXEL_PARAMVALUE_MAX], and once for 0 or no digits), when the
    columns and the six rows are inside the picture.  The cursor moves right
    by that number and the repeat count is 1 again. *)
Theorem a_repeated_sixel (h : heap) (st : sixel_state_t) (ds : list Z) (c : Z)
        (d : list Z) :
  let w := width (image st) in
  let hh := height (image st) in
  let bits := c - 63 in
  let p := Z.min DECSIXEL_PARAMVALUE_MAX (decimal 0 ds) in
  let n := if p =? 0 then 1 else p in
  state st = PS_DECSIXEL ->
  data (image st) = Some d -> Z.of_nat (List.length d) = w * hh ->
  0 <= DECSIXEL_PARAMVALUE_MAX -> forallb is_digit ds = true -> 63 <= c <= 126 ->
  0 <= pos_x st -> pos_x st + n <= w -> 0 <= pos_y st -> pos_y st + 6 <= hh ->
  exists st' d',
    parse_run h st (33 :: ds ++ [c]) = Some (0, st', [], h) /\
    state st' = PS_DECSIXEL /\ data (image st') = Some d' /\
    width (image st') = w /\ height (image st') = hh /\
    pos_x st' = pos_x st + n /\ pos_y st' = pos_y st /\ repeat_count st' = 1 /\
    color_index st' = color_index st /\
    max_x st' = (if bits =? 0 then max_x st else Z.max (max_x st) (pos_x st + n - 1)) /\
    max_y st' = (if bits =? 0 then max_y st
                 else Z.max (max_y st) (pos_y st + Z.log2 bits)) /\
    List.length d' = List.length d /\
    forall x y, 0 <= x < w -> 0 <= y < hh ->
      array_at d' (w * y + x)
      = if (pos_x st <=? x) && (x <? pos_x st + n)
           && (pos_y st <=? y) && (y <? pos_y st + 6) && Z.testbit bits (y - pos_y st)
        then Some (color_index st) else array_at d (w * y + x).
Proof.
  intros w hh bits p n Hs Hd Hl HM Hds Hc Hx Hw Hy Hh.
  assert (0 <= p) as Hp0.
  { unfold p. pose proof (decimal_ge ds 0 ltac:(lia) Hds). lia. }
  assert (1 <= n) as Hn by (unfold n; destruct (Z.eqb_spec p 0); lia).
  rewrite (parse_run_bytes DECSIXEL_PARAMS_MAX DECSIXEL_PALETTE_MAX
             DECSIXEL_PARAMVALUE_MAX DECSIXEL_WIDTH_MAX DECSIXEL_HEIGHT_MAX), Hd.
  (* the introducer *)
  assert (iteration h (-1) st 33
          = Some (Continue true (-1)
                    (set_state (set_nparams (set_param st 0) 0) PS_DECGRI) h)) as E1.
  { unfold parse_iteration. rewrite Hs. reflexivity. }
  rewrite (parse_bytes_taken _ _ _ _ _ _ _ _ _ _ _ _ _ E1).
  (* the number *)
  rewrite clamped_digits_then; [|reflexivity|cbn; lia|assumption].
  cbn [param set_param set_state set_nparams]. fold p.
  (* the character ends the number and stays *)
  set (sta := set_param (set_state (set_nparams (set_param st 0) 0) PS_DECGRI) p).
  set (stb := set_nparams
                (set_param
                   (set_state (set_repeat_count sta n) PS_DECSIXEL) 0) 0).
  assert (iteration h (-1) sta c = Some (Continue false (-1) stb h)) as E2.
  { unfold parse_iteration. change (state sta) with PS_DECGRI. unfold iteration_DECGRI.
    destruct (Z.eqb_spec c 27); [lia|].
    assert (is_digit c = false) as ->
      by (unfold is_digit; destruct (Z.leb_spec c 57); [lia|]; apply andb_false_r).
    change (param sta) with p. cbn [repeat_count set_repeat_count].
    unfold stb, n. destruct (Z.eqb_spec p 0); reflexivity. }
  rewrite (parse_bytes_left _ _ _ _ _ _ _ _ _ _ _ _ _ E2).
  (* the sixel *)
  assert (data (image stb) = Some d /\ width (image stb) = w /\ height (image stb) = hh /\
          pos_x stb = pos_x st /\ pos_y stb = pos_y st /\ repeat_count stb = n /\
          color_index stb = color_index st /\ max_x stb = max_x st /\
          max_y stb = max_y st /\ state stb = PS_DECSIXEL)
    as (Db & Wb & Hb & Xb & Yb & Rb & Cb & MXb & MYb & Sb)
    by (repeat split; try reflexivity; assumption).
  destruct (sixel_character_paints DECSIXEL_WIDTH_MAX DECSIXEL_HEIGHT_MAX
              h (-1) stb c d) as (d' & Hp & Hlen & Hcells);
    rewrite ?Wb, ?Hb, ?Xb, ?Yb, ?Rb; try assumption; try lia.
  rewrite <- (sixel_byte DECSIXEL_PARAMS_MAX DECSIXEL_PALETTE_MAX DECSIXEL_PARAMVALUE_MAX
                DECSIXEL_WIDTH_MAX DECSIXEL_HEIGHT_MAX h (-1) stb c Sb Hc) in Hp.
  rewrite (parse_bytes_taken _ _ _ _ _ _ _ _ _ _ _ _ _ Hp).
  rewrite parse_bytes_nil.
  rewrite Wb, Hb, Xb, Yb, Rb, Cb, MXb, MYb in *.
  eexists. exists d'. split; [reflexivity|].
  cbn [state data image width height pos_x pos_y repeat_count color_index max_x max_y
       set_repeat_count set_pos_x repaint set_max_x set_max_y set_image set_data].
  split; [destruct (_ >? _); assumption|]. split; [reflexivity|].
  split; [destruct (_ >? _); assumption|]. split; [destruct (_ >? _); assumption|].
  split; [reflexivity|]. split; [destruct (_ >? _); assumption|].
  split; [reflexivity|]. split; [destruct (_ >? _); assumption|].
  split; [reflexivity|]. split; [reflexivity|]. split; assumption.
Qed.

End Repeats.

Section Colours.
Variables DECSIXEL_PARAMS_MAX DECSIXEL_PALETTE_MAX DECSIXEL_PARAMVALUE_MAX : Z.
Variables DECSIXEL_WIDTH_MAX DECSIXEL_HEIGHT_MAX : Z.

Local Abbreviation parse_run :=
  (sixel_parser_parse_run DECSIXEL_PARAMS_MAX DECSIXEL_PALETTE_MAX
     DECSIXEL_PARAMVALUE_MAX DECSIXEL_WIDTH_MAX DECSIXEL_HEIGHT_MAX).
Local Abbreviation iteration :=
  (parse_iteration DECSIXEL_PARAMS_MAX DECSIXEL_PALETTE_MAX
     DECSIXEL_PARAMVALUE_MAX DECSIXEL_WIDTH_MAX DECSIXEL_HEIGHT_MAX).
Local Abbreviation bytes :=
  (parse_bytes DECSIXEL_PARAMS_MAX DECSIXEL_PALETTE_MAX
     DECSIXEL_PARAMVALUE_MAX DECSIXEL_WIDTH_MAX DECSIXEL_HEIGHT_MAX).

(** *** Colour registers *)

(** The colour introducer with one parameter selects a register: [#], the
    digits of a number [n] and a byte that ends the number leave the
    decoder in [PS_DECSIXEL] with [color_index = n + 1] (entry 0 is the
    background), or [DECSIXEL_PALETTE_MAX - 1] if that is less, [n]
    being at most [DECSIXEL_PARAMVALUE_MAX]; the byte is then read as a
    byte of the picture.  The palette is not touched. *)
Theorem a_colour_is_selected (h : heap) (st : sixel_state_t) (ds : list Z) (c : Z)
        (rest : list Z) :
  let p := Z.min DECSIXEL_PARAMVALUE_MAX (decimal 0 ds) in
  state st = PS_DECSIXEL -> data (image st) <> None ->
  1 <= DECSIXEL_PARAMS_MAX -> params st <> [] ->
  0 <= DECSIXEL_PARAMVALUE_MAX -> forallb is_digit ds = true ->
  is_digit c = false -> c <> 59 -> c <> 27 ->
  parse_run h st (35 :: ds ++ c :: rest)
  = parse_run h
      (set_color_index
         (set_params (set_nparams (set_param st 0) 1) (<[0%nat := p]> (params st)))
         (if 1 + p >=? DECSIXEL_PALETTE_MAX then DECSIXEL_PALETTE_MAX - 1 else 1 + p))
      (c :: rest).
Proof.
  intros p Hs Hd HP Hps HM Hds Hc H59 H27.
  assert (0 <= p) as Hp0.
  { unfold p. pose proof (decimal_ge ds 0 ltac:(lia) Hds). lia. }
  rewrite !(parse_run_bytes DECSIXEL_PARAMS_MAX DECSIXEL_PALETTE_MAX
              DECSIXEL_PARAMVALUE_MAX DECSIXEL_WIDTH_MAX DECSIXEL_HEIGHT_MAX).
  cbn [image set_color_index set_params set_nparams set_param].
  destruct (data (image st)) as [d|] eqn:Ed; [|contradiction].
  assert (iteration h (-1) st 35
          = Some (Continue true (-1)
                    (set_state (set_nparams (set_param st 0) 0) PS_DECGCI) h)) as E1.
  { unfold parse_iteration. rewrite Hs. reflexivity. }
  rewrite (parse_bytes_taken _ _ _ _ _ _ _ _ _ _ _ _ _ E1).
  rewrite (clamped_digits_then DECSIXEL_PARAMS_MAX DECSIXEL_PALETTE_MAX
             DECSIXEL_PARAMVALUE_MAX DECSIXEL_WIDTH_MAX DECSIXEL_HEIGHT_MAX);
    [|reflexivity|cbn; lia|assumption].
  cbn [param set_param set_state set_nparams]. fold p.
  set (sta := set_param (set_state (set_nparams (set_param st 0) 0) PS_DECGCI) p).
  match goal with
  | |- _ = parse_bytes _ _ _ _ _ _ _ ?s _ => set (stb := s)
  end.
  assert (iteration h (-1) sta c = Some (Continue false (-1) stb h)) as E2.
  { unfold parse_iteration. change (state sta) with PS_DECGCI. unfold iteration_DECGCI.
    destruct (Z.eqb_spec c 27); [contradiction|]. rewrite Hc.
    destruct (Z.eqb_spec c 59); [contradiction|].
    unfold push_param. cbn [nparams set_state sta set_param set_nparams].
    destruct (Z.ltb_spec 0 DECSIXEL_PARAMS_MAX); [|lia].
    cbn [params param set_state sta set_param set_nparams].
    rewrite array_store_in_range by (destruct (params st); [contradiction | cbn; lia]).
    cbn [bind nparams set_params set_nparams set_param].
    change (1 >? 0) with true. cbv iota.
    cbn [params set_params set_nparams set_param].
    assert (array_at (<[Z.to_nat 0 := p]> (params st)) 0 = Some p) as ->.
    { unfold array_at. cbn [Z.leb Z.compare Z.to_nat].
      destruct (params st); [contradiction | reflexivity]. }
    cbn [bind color_index set_color_index].
    destruct (Z.ltb_spec (1 + p) 0); [lia|].
    change (0 + 1 >? 4) with false. cbv iota. cbn [bind].
    unfold stb. clear E1 Ed Hd. revert Hs.
    destruct (1 + p >=? DECSIXEL_PALETTE_MAX);
      destruct st; cbn; intros ->; reflexivity. }
  rewrite (parse_bytes_left _ _ _ _ _ _ _ _ _ _ _ _ _ E2). reflexivity.
Qed.

End Colours.

Section EmptyPicture.
Variables DECSIXEL_PARAMS_MAX DECSIXEL_PALETTE_MAX DECSIXEL_PARAMVALUE_MAX : Z.
Variables DECSIXEL_WIDTH_MAX DECSIXEL_HEIGHT_MAX : Z.

(** *** The empty picture *)

Lemma finalize_one_cell (h : heap) (st : sixel_state_t) (color : Z) :
  max_x st = 0 -> max_y st = 0 -> attributed_ph st <= 1 -> attributed_pv st <= 1 ->
  width (image st) = 1 -> height (image st) = 1 -> data (image st) = Some [0] ->
  ncolors (image st) <= 2 -> array_at (palette (image st)) 0 = Some color ->
  sixel_parser_finalize DECSIXEL_PALETTE_MAX h st
  = Some (0, set_max_y (set_max_x st 1) 1,
          [Z.land (Z.shiftr color 16) 255; Z.land (Z.shiftr color 8) 255;
           Z.land color 255; 255], h).
Proof.
  destruct st as [s px py mx my pan pad ph pv rc ci prm np prms [w0 h0 d0 pal0 nc pm upr]].
  cbn [max_x max_y attributed_ph attributed_pv image width height data ncolors palette].
  intros -> -> Hph Hpv -> -> -> Hnc Hpal.
  unfold sixel_parser_finalize. cbn. change (0 + 1) with 1.
  destruct (Z.ltb_spec 1 ph); [lia|]. cbn. change (0 + 1) with 1.
  destruct (Z.ltb_spec 1 pv); [lia|]. cbn.
  unfold write_raster, loads_default_palette. cbn.
  destruct (Z.gtb_spec nc 2); [lia|]. rewrite andb_false_r. cbn.
  change (Z.to_nat 1) with 1%nat. cbn [emit_rows].
  change (Z.to_nat 1) with 1%nat. cbn [emit_pixels].
  change (array_at [0] 0) with (Some 0). cbn [bind]. rewrite Hpal. reflexivity.
Qed.

(** A decoder that is finalized without a byte of input gives one pixel of
    the background colour: [sixel_parser_init] makes an image of one cell,
    [sixel_parser_finalize] neither resizes it nor loads the default
    palette, and the raster is the four bytes of [bgcolor].  When the
    allocation of [sixel_parser_init] fails it returns -1 and there is no
    buffer. *)
Theorem an_empty_picture_is_one_background_pixel (h : heap) (st : sixel_state_t)
        (fgcolor bgcolor use_private_register : Z) :
  (2 <= List.length (palette (image st)))%nat ->
  exists status st1,
    sixel_parser_init h st fgcolor bgcolor use_private_register
    = Some (status, st1, snd (g_malloc h)) /\
    if fst (g_malloc h) then
      status = 0 /\
      width (image st1) = 1 /\ height (image st1) = 1 /\ data (image st1) = Some [0] /\
      array_at (palette (image st1)) 0 = Some bgcolor /\
      exists st2,
        sixel_parser_finalize DECSIXEL_PALETTE_MAX (snd (g_malloc h)) st1
        = Some (0, st2,
                [Z.land (Z.shiftr bgcolor 16) 255; Z.land (Z.shiftr bgcolor 8) 255;
                 Z.land bgcolor 255; 255],
                snd (g_malloc h)) /\
        width (image st2) = 1 /\ height (image st2) = 1 /\ max_x st2 = 1 /\ max_y st2 = 1
    else status = -1 /\ data (image st1) = None.
Proof.
  intros Hl. unfold sixel_parser_init, sixel_image_init.
  destruct (g_malloc h) as [ok h1]. cbn [fst snd].
  destruct ok; cbn [negb].
  - cbn [image palette set_state set_pos_x set_pos_y set_max_x set_max_y set_attributed_pan
         set_attributed_pad set_attributed_ph set_attributed_pv set_repeat_count
         set_color_index set_nparams set_param set_data set_width set_height set_ncolors
         set_use_private_register].
    destruct (palette (image st)) as [|p0 [|p1 pal]] eqn:Ep; cbn [List.length] in Hl;
      [lia | lia |].
    rewrite array_store_in_range by (cbn [List.length]; lia). cbn [bind].
    change (<[Z.to_nat 0 := bgcolor]> (p0 :: p1 :: pal)) with (bgcolor :: p1 :: pal).
    destruct (use_private_register =? 0).
    + eexists _, _. split; [reflexivity|].
      do 5 (split; [reflexivity|]).
      eexists. split; [apply finalize_one_cell; try reflexivity; cbn; lia|].
      repeat split; reflexivity.
    + rewrite array_store_in_range by (cbn [List.length]; lia). cbn [bind].
      eexists _, _. split; [reflexivity|].
      do 5 (split; [reflexivity|]).
      eexists. split; [apply finalize_one_cell; try reflexivity; cbn; lia|].
      repeat split; reflexivity.
  - eexists _, _. split; [reflexivity|]. split; reflexivity.
Qed.

End EmptyPicture.

Section Parameters.
Variables DECSIXEL_PARAMS_MAX DECSIXEL_PALETTE_MAX DECSIXEL_PARAMVALUE_MAX : Z.
Variables DECSIXEL_WIDTH_MAX DECSIXEL_HEIGHT_MAX : Z.

Local Abbreviation parse_run :=
  (sixel_parser_parse_run DECSIXEL_PARAMS_MAX DECSIXEL_PALETTE_MAX
     DECSIXEL_PARAMVALUE_MAX DECSIXEL_WIDTH_MAX DECSIXEL_HEIGHT_MAX).
Local Abbreviation iteration :=
  (parse_iteration DECSIXEL_PARAMS_MAX DECSIXEL_PALETTE_MAX
     DECSIXEL_PARAMVALUE_MAX DECSIXEL_WIDTH_MAX DECSIXEL_HEIGHT_MAX).
Local Abbreviation bytes :=
  (parse_bytes DECSIXEL_PARAMS_MAX DECSIXEL_PALETTE_MAX
     DECSIXEL_PARAMVALUE_MAX DECSIXEL_WIDTH_MAX DECSIXEL_HEIGHT_MAX).
Local Abbreviation number ds := (Z.min DECSIXEL_PARAMVALUE_MAX (decimal 0 ds)).

(** *** Lists of parameters *)

(** A parameter and its [;], in [PS_DECGRA] and [PS_DECGCI]: the number is
    stored at [params[nparams]]. *)
Lemma parameter_stored ds rest h status st :
  state st = PS_DECGRA \/ state st = PS_DECGCI ->
  param st = 0 -> 0 <= DECSIXEL_PARAMVALUE_MAX ->
  0 <= nparams st < DECSIXEL_PARAMS_MAX ->
  nparams st < Z.of_nat (List.length (params st)) ->
  forallb is_digit ds = true ->
  bytes h status st (ds ++ 59 :: rest)
  = bytes h status
      (set_param
         (set_nparams
            (set_params st (<[Z.to_nat (nparams st) := number ds]> (params st)))
            (nparams st + 1)) 0)
      rest.
Proof.
  intros Hs Hp HM Hn Hl Hds.
  rewrite (clamped_digits_then DECSIXEL_PARAMS_MAX DECSIXEL_PALETTE_MAX
             DECSIXEL_PARAMVALUE_MAX DECSIXEL_WIDTH_MAX DECSIXEL_HEIGHT_MAX);
    [|destruct Hs as [-> | ->]; reflexivity | lia | assumption].
  rewrite Hp.
  set (sta := set_param st (number ds)).
  assert (iteration h status sta 59
          = Some (Continue true status
                    (set_param
                       (set_nparams
                          (set_params st (<[Z.to_nat (nparams st) := number ds]> (params st)))
                          (nparams st + 1)) 0) h)) as E.
  { unfold parse_iteration.
    assert (push_param DECSIXEL_PARAMS_MAX sta
            = Some (set_nparams
                      (set_params sta (<[Z.to_nat (nparams st) := number ds]> (params st)))
                      (nparams st + 1))) as Hpush.
    { unfold push_param. cbn [nparams params param sta set_param].
      destruct (Z.ltb_spec (nparams st) DECSIXEL_PARAMS_MAX); [|lia].
      rewrite array_store_in_range by lia. reflexivity. }
    change (state sta) with (state st).
    destruct Hs as [-> | ->]; [unfold iteration_DECGRA | unfold iteration_DECGCI];
      change (59 =? 27) with false; change (is_digit 59) with false;
      change (59 =? 59) with true; cbv iota; rewrite Hpush; reflexivity. }
  rewrite (parse_bytes_taken _ _ _ _ _ _ _ _ _ _ _ _ _ E). reflexivity.
Qed.


(** [if (params[k] > M) params[k] = M;] *)
Lemma clamp_at (ps : list Z) (k v M : Z) :
  array_at ps k = Some v ->
  (if v >? M then array_store ps k M else Some ps)
  = Some (<[Z.to_nat k := Z.min M v]> ps).
Proof.
  intros H. unfold array_at in H. destruct (Z.leb_spec 0 k); [|discriminate].
  pose proof (lookup_lt_Some _ _ _ H) as Hlt.
  destruct (Z.gtb_spec v M).
  - rewrite Z.min_l by lia. apply array_store_in_range. lia.
  - rewrite Z.min_r by lia. rewrite list_insert_id by assumption. reflexivity.
Qed.

(** *** Colour registers *)

(** The colour introducer with five parameters defines a register in RGB:
    [#], the register [n], [;2;] and the three components, each a
    percentage that is cut at 100, store the colour
    [SIXEL_XRGB(r, g, b)] at the palette entry [n + 1] (or
    [DECSIXEL_PALETTE_MAX - 1] if that is less), select this entry and
    mark the palette as modified.  The byte that ends the last number is
    then read as a byte of the picture; the picture and the cursor are
    untouched. *)
Theorem a_colour_is_defined (h : heap) (st : sixel_state_t) (dn dr dg db : list Z)
        (c : Z) (rest : list Z) :
  let n := number dn in
  let idx := if 1 + n >=? DECSIXEL_PALETTE_MAX then DECSIXEL_PALETTE_MAX - 1 else 1 + n in
  let color := SIXEL_XRGB (Z.min 100 (number dr)) (Z.min 100 (number dg))
                          (Z.min 100 (number db)) in
  state st = PS_DECSIXEL -> data (image st) <> None ->
  5 <= DECSIXEL_PARAMS_MAX -> (5 <= List.length (params st))%nat ->
  2 <= DECSIXEL_PARAMVALUE_MAX ->
  1 <= DECSIXEL_PALETTE_MAX ->
  Z.of_nat (List.length (palette (image st))) = DECSIXEL_PALETTE_MAX ->
  forallb is_digit dn = true -> forallb is_digit dr = true ->
  forallb is_digit dg = true -> forallb is_digit db = true ->
  is_digit c = false -> c <> 59 -> c <> 27 ->
  exists st',
    parse_run h st (35 :: dn ++ 59 :: 50 :: 59 :: dr ++ 59 :: dg ++ 59 :: db ++ c :: rest)
    = parse_run h st' (c :: rest) /\
    state st' = PS_DECSIXEL /\ color_index st' = idx /\
    palette (image st') = <[Z.to_nat idx := color]> (palette (image st)) /\
    palette_modified (image st') = 1 /\
    data (image st') = data (image st) /\
    width (image st') = width (image st) /\ height (image st') = height (image st) /\
    ncolors (image st') = ncolors (image st) /\
    pos_x st' = pos_x st /\ pos_y st' = pos_y st /\
    max_x st' = max_x st /\ max_y st' = max_y st /\
    repeat_count st' = repeat_count st /\ param st' = 0 /\ nparams st' = 5.
Proof.
  intros n idx color Hs Hd HP Hps HM HPM Hpal Hdn Hdr Hdg Hdb Hc H59 H27.
  assert (0 <= n) as Hn0.
  { unfold n. pose proof (decimal_ge dn 0 ltac:(lia) Hdn). lia. }
  assert (0 <= number dr /\ 0 <= number dg /\ 0 <= number db) as (Hr0 & Hg0 & Hb0).
  { pose proof (decimal_ge dr 0 ltac:(lia) Hdr). pose proof (decimal_ge dg 0 ltac:(lia) Hdg).
    pose proof (decimal_ge db 0 ltac:(lia) Hdb). lia. }
  assert (number [50] = 2) as H2 by (change (decimal 0 [50]) with 2; lia).
  rewrite (parse_run_bytes DECSIXEL_PARAMS_MAX DECSIXEL_PALETTE_MAX
             DECSIXEL_PARAMVALUE_MAX DECSIXEL_WIDTH_MAX DECSIXEL_HEIGHT_MAX).
  destruct (data (image st)) as [d|] eqn:Ed; [|contradiction].
  destruct (params st) as [|p0 [|p1 [|p2 [|p3 [|p4 tl]]]]] eqn:Eps;
    cbn [List.length] in Hps; try lia.
  assert (iteration h (-1) st 35
          = Some (Continue true (-1)
                    (set_state (set_nparams (set_param st 0) 0) PS_DECGCI) h)) as E1.
  { unfold parse_iteration. rewrite Hs. reflexivity. }
  rewrite (parse_bytes_taken _ _ _ _ _ _ _ _ _ _ _ _ _ E1).
  rewrite parameter_stored;
    [|right; reflexivity|reflexivity|lia|cbn; lia|cbn; rewrite Eps; cbn; lia|assumption].
  cbn [nparams params set_param set_nparams set_params set_state]. rewrite Eps.
  change (<[Z.to_nat 0 := number dn]> (p0 :: p1 :: p2 :: p3 :: p4 :: tl))
    with (n :: p1 :: p2 :: p3 :: p4 :: tl).
  change (50 :: 59 :: dr ++ 59 :: dg ++ 59 :: db ++ c :: rest)
    with ([50] ++ 59 :: dr ++ 59 :: dg ++ 59 :: db ++ c :: rest).
  rewrite parameter_stored;
    [|right; reflexivity|reflexivity|lia|cbn; lia|cbn; lia|reflexivity].
  cbn [nparams params set_param set_nparams set_params set_state]. rewrite H2.
  change (<[Z.to_nat (0 + 1) := 2]> (n :: p1 :: p2 :: p3 :: p4 :: tl))
    with (n :: 2 :: p2 :: p3 :: p4 :: tl).
  rewrite parameter_stored;
    [|right; reflexivity|reflexivity|lia|cbn; lia|cbn; lia|assumption].
  cbn [nparams params set_param set_nparams set_params set_state].
  change (<[Z.to_nat (0 + 1 + 1) := number dr]> (n :: 2 :: p2 :: p3 :: p4 :: tl))
    with (n :: 2 :: number dr :: p3 :: p4 :: tl).
  rewrite parameter_stored;
    [|right; reflexivity|reflexivity|lia|cbn; lia|cbn; lia|assumption].
  cbn [nparams params set_param set_nparams set_params set_state].
  change (<[Z.to_nat (0 + 1 + 1 + 1) := number dg]> (n :: 2 :: number dr :: p3 :: p4 :: tl))
    with (n :: 2 :: number dr :: number dg :: p4 :: tl).
  rewrite (clamped_digits_then DECSIXEL_PARAMS_MAX DECSIXEL_PALETTE_MAX
             DECSIXEL_PARAMVALUE_MAX DECSIXEL_WIDTH_MAX DECSIXEL_HEIGHT_MAX);
    [|reflexivity|cbn; lia|assumption].
  cbn [param set_param].
  set (R := number dr) in *. set (G := number dg) in *. set (B := number db) in *.
  match goal with
  | |- context [parse_bytes _ _ _ _ _ h (-1) ?s (c :: rest)] =>
      change s with (set_param
                       (set_nparams
                          (set_params (set_state st PS_DECGCI)
                                      (n :: 2 :: R :: G :: p4 :: tl)) 4) B)
  end.
  set (sT := set_param (set_nparams (set_params (set_state st PS_DECGCI)
                                       (n :: 2 :: R :: G :: p4 :: tl)) 4) B).
  set (st' := set_image
                (set_params
                   (set_color_index
                      (set_param (set_nparams (set_state st PS_DECSIXEL) 5) 0) idx)
                   (n :: 2 :: Z.min 100 R :: Z.min 100 G :: Z.min 100 B :: tl))
                (set_palette (set_palette_modified (image st) 1)
                             (<[Z.to_nat idx := color]> (palette (image st))))).
  assert (0 <= idx < DECSIXEL_PALETTE_MAX) as Hidx
    by (unfold idx; destruct (Z.geb_spec (1 + n) DECSIXEL_PALETTE_MAX); lia).
  assert (iteration h (-1) sT c = Some (Continue false (-1) st' h)) as E2.
  { unfold parse_iteration. change (state sT) with PS_DECGCI. unfold iteration_DECGCI.
    destruct (Z.eqb_spec c 27); [contradiction|]. rewrite Hc.
    destruct (Z.eqb_spec c 59); [contradiction|].
    unfold push_param.
    change (nparams (set_state sT PS_DECSIXEL)) with 4.
    destruct (Z.ltb_spec 4 DECSIXEL_PARAMS_MAX); [|lia].
    change (params (set_state sT PS_DECSIXEL)) with (n :: 2 :: R :: G :: p4 :: tl).
    change (param (set_state sT PS_DECSIXEL)) with B.
    rewrite array_store_in_range by (cbn [List.length]; lia).
    change (<[Z.to_nat 4 := B]> (n :: 2 :: R :: G :: p4 :: tl))
      with (n :: 2 :: R :: G :: B :: tl).
    cbn [bind nparams params set_nparams set_params set_param].
    change (4 + 1 >? 0) with true. change (4 + 1 >? 4) with true. cbv iota.
    change (array_at (n :: 2 :: R :: G :: B :: tl) 0) with (Some n).
    cbn [bind color_index set_color_index].
    destruct (Z.ltb_spec (1 + n) 0); [lia|].
    match goal with
    | |- context [if 1 + n >=? DECSIXEL_PALETTE_MAX
                  then set_color_index (set_color_index ?X (1 + n)) (DECSIXEL_PALETTE_MAX - 1)
                  else set_color_index ?X (1 + n)] =>
        replace (if 1 + n >=? DECSIXEL_PALETTE_MAX
                 then set_color_index (set_color_index X (1 + n)) (DECSIXEL_PALETTE_MAX - 1)
                 else set_color_index X (1 + n))
          with (set_color_index X idx)
          by (unfold idx; destruct (1 + n >=? DECSIXEL_PALETTE_MAX); reflexivity)
    end.
    unfold sT.
    cbn [nparams params image color_index palette
         set_state set_param set_nparams set_params set_color_index set_image
         set_palette_modified set_palette].
    change (4 + 1 >? 4) with true. cbv iota.
    change (array_at (n :: 2 :: R :: G :: B :: tl) 1) with (Some 2).
    cbn [bind]. change (2 =? 1) with false. change (2 =? 2) with true. cbv iota.
    change (array_at (n :: 2 :: R :: G :: B :: tl) 2) with (Some R). cbn [bind].
    rewrite (clamp_at (n :: 2 :: R :: G :: B :: tl) 2 R 100 eq_refl).
    change (<[Z.to_nat 2 := Z.min 100 R]> (n :: 2 :: R :: G :: B :: tl))
      with (n :: 2 :: Z.min 100 R :: G :: B :: tl).
    cbn [bind].
    change (array_at (n :: 2 :: Z.min 100 R :: G :: B :: tl) 3) with (Some G). cbn [bind].
    rewrite (clamp_at (n :: 2 :: Z.min 100 R :: G :: B :: tl) 3 G 100 eq_refl).
    change (<[Z.to_nat 3 := Z.min 100 G]> (n :: 2 :: Z.min 100 R :: G :: B :: tl))
      with (n :: 2 :: Z.min 100 R :: Z.min 100 G :: B :: tl).
    cbn [bind].
    change (array_at (n :: 2 :: Z.min 100 R :: Z.min 100 G :: B :: tl) 4) with (Some B).
    cbn [bind].
    rewrite (clamp_at (n :: 2 :: Z.min 100 R :: Z.min 100 G :: B :: tl) 4 B 100 eq_refl).
    change (<[Z.to_nat 4 := Z.min 100 B]> (n :: 2 :: Z.min 100 R :: Z.min 100 G :: B :: tl))
      with (n :: 2 :: Z.min 100 R :: Z.min 100 G :: Z.min 100 B :: tl).
    cbn [bind nparams params image color_index palette
         set_state set_param set_nparams set_params set_color_index set_image
         set_palette_modified set_palette].
    change (array_at (n :: 2 :: Z.min 100 R :: Z.min 100 G :: Z.min 100 B :: tl) 2)
      with (Some (Z.min 100 R)).
    change (array_at (n :: 2 :: Z.min 100 R :: Z.min 100 G :: Z.min 100 B :: tl) 3)
      with (Some (Z.min 100 G)).
    change (array_at (n :: 2 :: Z.min 100 R :: Z.min 100 G :: Z.min 100 B :: tl) 4)
      with (Some (Z.min 100 B)).
    cbn [bind].
    rewrite array_store_in_range by lia. cbn [bind].
    reflexivity. }
  exists st'. split.
  - rewrite (parse_bytes_left _ _ _ _ _ _ _ _ _ _ _ _ _ E2).
    rewrite (parse_run_bytes DECSIXEL_PARAMS_MAX DECSIXEL_PALETTE_MAX
               DECSIXEL_PARAMVALUE_MAX DECSIXEL_WIDTH_MAX DECSIXEL_HEIGHT_MAX).
    change (data (image st')) with (data (image st)). rewrite Ed. reflexivity.
  - cbn. rewrite Ed. repeat split; reflexivity.
Qed.

End Parameters.

Section RasterAttributes.
Variables DECSIXEL_PARAMS_MAX DECSIXEL_PALETTE_MAX DECSIXEL_PARAMVALUE_MAX : Z.
Variables DECSIXEL_WIDTH_MAX DECSIXEL_HEIGHT_MAX : Z.

Local Abbreviation parse_run :=
  (sixel_parser_parse_run DECSIXEL_PARAMS_MAX DECSIXEL_PALETTE_MAX
     DECSIXEL_PARAMVALUE_MAX DECSIXEL_WIDTH_MAX DECSIXEL_HEIGHT_MAX).
Local Abbreviation iteration :=
  (parse_iteration DECSIXEL_PARAMS_MAX DECSIXEL_PALETTE_MAX
     DECSIXEL_PARAMVALUE_MAX DECSIXEL_WIDTH_MAX DECSIXEL_HEIGHT_MAX).
Local Abbreviation bytes :=
  (parse_bytes DECSIXEL_PARAMS_MAX DECSIXEL_PALETTE_MAX
     DECSIXEL_PARAMVALUE_MAX DECSIXEL_WIDTH_MAX DECSIXEL_HEIGHT_MAX).
Local Abbreviation number ds := (Z.min DECSIXEL_PARAMVALUE_MAX (decimal 0 ds)).

(** *** Raster attributes *)

(** The attributes as [iteration_DECGRA] leaves them: the aspect ratio is
    stored first and replaced by 1 where it is not positive. *)
Lemma attributes_set (s : sixel_state_t) (a b ph pv : Z) (fb fa : bool) :
  let s1 := set_attributed_pv
              (set_attributed_ph
                 (set_attributed_pan (set_attributed_pad s a) b) ph) pv in
  let s2 := if fb then set_attributed_pan s1 1 else s1 in
  (if fa then set_attributed_pad s2 1 else s2)
  = set_attributed_pad
      (set_attributed_pan (set_attributed_pv (set_attributed_ph s ph) pv)
         (if fb then 1 else b))
      (if fa then 1 else a).
Proof. destruct s, fb, fa; reflexivity. Qed.

(** The raster attributes size the image.  The double quote, four numbers
    and the byte that ends the last one leave the first number in
    [attributed_pad] and the second in [attributed_pan] (1 for 0), and the
    third and fourth, when they are positive, in [attributed_ph] and
    [attributed_pv].  An image that is narrower than [Ph] or lower than
    [Pv] is resized to the larger of its size and [Ph] by [Pv], cut at the
    limits, and keeps its picture, the new cells being background; when
    that allocation fails the call ends with status -1, the buffer gone
    and the byte not consumed.  An image that is large enough is left as
    it is.  The byte is then read as a byte of the picture. *)
Theorem raster_attributes_size_the_image (h : heap) (st : sixel_state_t)
        (d1 d2 dh dv : list Z) (c : Z) (rest : list Z) (d : list Z) :
  let w := width (image st) in
  let hh := height (image st) in
  let ph := number dh in
  let pv := number dv in
  let w' := Z.min DECSIXEL_WIDTH_MAX (Z.max w ph) in
  let h' := Z.min DECSIXEL_HEIGHT_MAX (Z.max hh pv) in
  let resized := (w <? ph) || (hh <? pv) in
  let input := 34 :: d1 ++ 59 :: d2 ++ 59 :: dh ++ 59 :: dv ++ c :: rest in
  state st = PS_DECSIXEL ->
  data (image st) = Some d -> Z.of_nat (List.length d) = w * hh ->
  1 <= w <= DECSIXEL_WIDTH_MAX -> 1 <= hh <= DECSIXEL_HEIGHT_MAX ->
  4 <= DECSIXEL_PARAMS_MAX -> (4 <= List.length (params st))%nat ->
  0 <= DECSIXEL_PARAMVALUE_MAX ->
  forallb is_digit d1 = true -> forallb is_digit d2 = true ->
  forallb is_digit dh = true -> forallb is_digit dv = true ->
  1 <= ph -> 1 <= pv ->
  is_digit c = false -> c <> 59 -> c <> 27 ->
  if resized && negb (fst (g_malloc h)) then
    exists st',
      parse_run h st input = Some (-1, st', c :: rest, snd (g_malloc h)) /\
      data (image st') = None
  else
    exists st' d',
      parse_run h st input
      = bytes (if resized then snd (g_malloc h) else h) (if resized then 0 else -1)
              st' (c :: rest) /\
      state st' = PS_DECSIXEL /\
      attributed_pad st' = (if number d1 <=? 0 then 1 else number d1) /\
      attributed_pan st' = (if number d2 <=? 0 then 1 else number d2) /\
      attributed_ph st' = ph /\ attributed_pv st' = pv /\
      width (image st') = w' /\ height (image st') = h' /\
      data (image st') = Some d' /\ Z.of_nat (List.length d') = w' * h' /\
      (forall x y, 0 <= x < w' -> 0 <= y < h' ->
         array_at d' (w' * y + x)
         = if (x <? w) && (y <? hh) then array_at d (w * y + x) else Some 0) /\
      palette (image st') = palette (image st) /\
      pos_x st' = pos_x st /\ pos_y st' = pos_y st /\
      max_x st' = max_x st /\ max_y st' = max_y st /\
      repeat_count st' = repeat_count st /\ color_index st' = color_index st /\
      param st' = 0 /\ nparams st' = 0.
Proof.
  intros w hh ph pv w' h' resized input Hs Hd Hl Hw Hh HP Hps HM H1 H2 H3 H4
         Hph Hpv Hc H59 H27.
  unfold input.
  rewrite (parse_run_bytes DECSIXEL_PARAMS_MAX DECSIXEL_PALETTE_MAX
             DECSIXEL_PARAMVALUE_MAX DECSIXEL_WIDTH_MAX DECSIXEL_HEIGHT_MAX), Hd.
  destruct (params st) as [|p0 [|p1 [|p2 [|p3 tl]]]] eqn:Eps;
    cbn [List.length] in Hps; try lia.
  assert (iteration h (-1) st 34
          = Some (Continue true (-1)
                    (set_state (set_nparams (set_param st 0) 0) PS_DECGRA) h)) as E1.
  { unfold parse_iteration. rewrite Hs. reflexivity. }
  rewrite (parse_bytes_taken _ _ _ _ _ _ _ _ _ _ _ _ _ E1).
  rewrite (parameter_stored DECSIXEL_PARAMS_MAX DECSIXEL_PALETTE_MAX
             DECSIXEL_PARAMVALUE_MAX DECSIXEL_WIDTH_MAX DECSIXEL_HEIGHT_MAX);
    [|left; reflexivity|reflexivity|lia|cbn; lia|cbn; rewrite Eps; cbn; lia|assumption].
  cbn [nparams params set_param set_nparams set_params set_state]. rewrite Eps.
  set (a := number d1). set (b := number d2).
  change (<[Z.to_nat 0 := a]> (p0 :: p1 :: p2 :: p3 :: tl)) with (a :: p1 :: p2 :: p3 :: tl).
  rewrite (parameter_stored DECSIXEL_PARAMS_MAX DECSIXEL_PALETTE_MAX
             DECSIXEL_PARAMVALUE_MAX DECSIXEL_WIDTH_MAX DECSIXEL_HEIGHT_MAX);
    [|left; reflexivity|reflexivity|lia|cbn; lia|cbn; lia|assumption].
  cbn [nparams params set_param set_nparams set_params set_state].
  change (<[Z.to_nat (0 + 1) := number d2]> (a :: p1 :: p2 :: p3 :: tl))
    with (a :: b :: p2 :: p3 :: tl).
  rewrite (parameter_stored DECSIXEL_PARAMS_MAX DECSIXEL_PALETTE_MAX
             DECSIXEL_PARAMVALUE_MAX DECSIXEL_WIDTH_MAX DECSIXEL_HEIGHT_MAX);
    [|left; reflexivity|reflexivity|lia|cbn; lia|cbn; lia|assumption].
  cbn [nparams params set_param set_nparams set_params set_state].
  change (<[Z.to_nat (0 + 1 + 1) := number dh]> (a :: b :: p2 :: p3 :: tl))
    with (a :: b :: ph :: p3 :: tl).
  rewrite (clamped_digits_then DECSIXEL_PARAMS_MAX DECSIXEL_PALETTE_MAX
             DECSIXEL_PARAMVALUE_MAX DECSIXEL_WIDTH_MAX DECSIXEL_HEIGHT_MAX);
    [|reflexivity|cbn; lia|assumption].
  cbn [param set_param]. fold pv.
  match goal with
  | |- context [parse_bytes _ _ _ _ _ h (-1) ?s (c :: rest)] =>
      change s with (set_param
                       (set_nparams
                          (set_params (set_state st PS_DECGRA)
                                      (a :: b :: ph :: p3 :: tl)) 3) pv)
  end.
  set (sT := set_param (set_nparams (set_params (set_state st PS_DECGRA)
                                       (a :: b :: ph :: p3 :: tl)) 3) pv).
  (* the decoder with the attributes, before the resize *)
  set (sA := set_attributed_pad
               (set_attributed_pan
                  (set_attributed_pv
                     (set_attributed_ph
                        (set_nparams (set_params sT (a :: b :: ph :: pv :: tl)) 4) ph) pv)
                  (if b <=? 0 then 1 else b))
               (if a <=? 0 then 1 else a)).
  assert (iteration h (-1) sT c
          = (do r <- (if resized
                      then do r <- image_buffer_resize h (image st) w' h';
                           let '(status, image, h) := r in
                           Some (true, status, set_image sA image, h)
                      else Some (false, -1, sA, h));
             let '(resized, status, st, h) := r in
             if resized && (status <? 0) then Some (Goto_end false status st h)
             else Some (Continue false status
                          (set_nparams (set_param (set_state st PS_DECSIXEL) 0) 0) h)))
    as E2.
  { unfold parse_iteration. change (state sT) with PS_DECGRA. unfold iteration_DECGRA.
    destruct (Z.eqb_spec c 27); [contradiction|]. rewrite Hc.
    destruct (Z.eqb_spec c 59); [contradiction|].
    unfold push_param.
    change (nparams sT) with 3.
    destruct (Z.ltb_spec 3 DECSIXEL_PARAMS_MAX); [|lia].
    change (params sT) with (a :: b :: ph :: p3 :: tl).
    change (param sT) with pv.
    rewrite array_store_in_range by (cbn [List.length]; lia).
    change (<[Z.to_nat 3 := pv]> (a :: b :: ph :: p3 :: tl))
      with (a :: b :: ph :: pv :: tl).
    assert ((ph >? 0) = true) as Gh by (destruct (Z.gtb_spec ph 0); [reflexivity | lia]).
    assert ((pv >? 0) = true) as Gv by (destruct (Z.gtb_spec pv 0); [reflexivity | lia]).
    assert ((if (if width (image st) >? ph then width (image st) else ph)
                   >? DECSIXEL_WIDTH_MAX
                then DECSIXEL_WIDTH_MAX
                else if width (image st) >? ph then width (image st) else ph) = w') as Hsx.
    { unfold w', w. destruct (Z.gtb_spec (width (image st)) ph);
        match goal with |- context [?x >? DECSIXEL_WIDTH_MAX] =>
          destruct (Z.gtb_spec x DECSIXEL_WIDTH_MAX) end; lia. }
    assert ((if (if height (image st) >? pv then height (image st) else pv)
                   >? DECSIXEL_HEIGHT_MAX
                then DECSIXEL_HEIGHT_MAX
                else if height (image st) >? pv then height (image st) else pv) = h') as Hsy.
    { unfold h', hh. destruct (Z.gtb_spec (height (image st)) pv);
        match goal with |- context [?x >? DECSIXEL_HEIGHT_MAX] =>
          destruct (Z.gtb_spec x DECSIXEL_HEIGHT_MAX) end; lia. }
    subst sA. unfold resized, w, hh.
    destruct (b <=? 0) eqn:Eb; destruct (a <=? 0) eqn:Ea;
      repeat first
        [ progress cbn [bind nparams params image attributed_pan attributed_pad
                        attributed_ph attributed_pv
                        set_nparams set_params set_attributed_pad
                        set_attributed_pan set_attributed_ph set_attributed_pv]
        | progress change (3 + 1 >? 0) with true
        | progress change (3 + 1 >? 1) with true
        | progress change (3 + 1 >? 2) with true
        | progress change (3 + 1 >? 3) with true
        | progress cbv iota
        | progress change (array_at (a :: b :: ph :: pv :: tl) 0) with (Some a)
        | progress change (array_at (a :: b :: ph :: pv :: tl) 1) with (Some b)
        | progress change (array_at (a :: b :: ph :: pv :: tl) 2) with (Some ph)
        | progress change (array_at (a :: b :: ph :: pv :: tl) 3) with (Some pv)
        | rewrite Gh
        | rewrite Gv
        | rewrite Eb
        | rewrite Ea ];
      unfold sT;
      cbn [bind nparams params image attributed_pan attributed_pad
           attributed_ph attributed_pv set_state set_param
           set_nparams set_params set_attributed_pad
           set_attributed_pan set_attributed_ph set_attributed_pv];
      rewrite Hsx, Hsy; change (3 + 1) with 4;
      match goal with
      | |- context [set_attributed_pad ?s a] =>
          pose proof (attributes_set s a b ph pv true true) as N1;
          pose proof (attributes_set s a b ph pv true false) as N2;
          pose proof (attributes_set s a b ph pv false true) as N3;
          pose proof (attributes_set s a b ph pv false false) as N4;
          cbv zeta iota in N1, N2, N3, N4;
          first [rewrite N1 | rewrite N2 | rewrite N3 | rewrite N4]
      end;
      reflexivity. }
  destruct resized eqn:Er.
  - (* the image grows *)
    pose proof (image_buffer_resize_cells h (image st) w' h' d Hd Hl
                  ltac:(lia) ltac:(lia) ltac:(lia) ltac:(lia)) as Hr.
    destruct (g_malloc h) as [ok h1]. cbn [fst snd andb negb] in *.
    destruct ok; cbn [negb].
    + destruct Hr as (d' & Hr & Hl' & Hcells).
      rewrite Hr in E2. cbn [bind andb] in E2.
      change (0 <? 0) with false in E2. cbv iota in E2.
      rewrite (parse_bytes_left _ _ _ _ _ _ _ _ _ _ _ _ _ E2).
      eexists. exists d'. split; [reflexivity|].
      cbn [state attributed_pad attributed_pan attributed_ph attributed_pv image
           width height data palette pos_x pos_y max_x max_y repeat_count color_index
           param nparams sA sT
           set_state set_param set_nparams set_params set_image set_attributed_pad
           set_attributed_pan set_attributed_ph set_attributed_pv
           set_height set_width set_data].
      repeat split; try reflexivity; assumption.
    + rewrite Hr in E2. cbn [bind andb] in E2.
      change (-1 <? 0) with true in E2. cbv iota in E2.
      rewrite (parse_bytes_end _ _ _ _ _ _ _ _ _ _ _ _ _ _ E2).
      eexists. split; reflexivity.
  - (* the image is large enough *)
    cbn [andb bind] in *.
    rewrite (parse_bytes_left _ _ _ _ _ _ _ _ _ _ _ _ _ E2).
    apply orb_false_iff in Er as [Ew Eh].
    apply Z.ltb_ge in Ew, Eh.
    assert (w' = w) as Ew' by (unfold w'; lia).
    assert (h' = hh) as Eh' by (unfold h'; lia).
    eexists. exists d. split; [reflexivity|].
    cbn [state attributed_pad attributed_pan attributed_ph attributed_pv image
         width height data palette pos_x pos_y max_x max_y repeat_count color_index
         param nparams sA sT
         set_state set_param set_nparams set_params set_image set_attributed_pad
         set_attributed_pan set_attributed_ph set_attributed_pv
         set_height set_width set_data].
    rewrite Ew', Eh'.
    repeat split; try reflexivity; try assumption.
    intros x y Hx Hy.
    destruct (Z.ltb_spec x w); [|lia]. destruct (Z.ltb_spec y hh); [|lia]. reflexivity.
Qed.

End RasterAttributes.

(** *** Grays in HLS *)

Lemma gray_bounds :
  forallb (fun lum =>
    match int_of_double (hls_max lum 0), int_of_double (hls_min lum 0) with
    | Some a, Some b => (a =? lum) && (b =? lum)
    | _, _ => false
    end) (seqZ 0 101) = true.
Proof. vm_compute. reflexivity. Qed.

Lemma gray_mix :
  forallb (fun lum => forallb (fun a =>
    match int_of_double
            (dadd (hls_min lum 0)
                  (dmul (dsub (hls_max lum 0) (hls_min lum 0))
                        (ddiv (double_of_int a) (double_of_int 60)))) with
    | Some v => v =? lum
    | None => false
    end) (seqZ 0 61)) (seqZ 0 101) = true.
Proof. vm_compute. reflexivity. Qed.

(** A colour of saturation 0 is a gray: for a hue of 0 to 360 and a
    lightness of 0 to 100, the values that the colour command passes,
    [hls_to_rgb] returns the colour whose three channels are the lightness,
    scaled to 0..255, whatever the hue. *)
Theorem hls_without_saturation_is_gray (hue lum : Z) :
  0 <= hue <= 360 -> 0 <= lum <= 100 ->
  hls_to_rgb hue lum 0 = Some (SIXEL_XRGB lum lum lum).
Proof.
  intros Hh Hl.
  pose proof gray_bounds as Hb. rewrite forallb_forall in Hb.
  specialize (Hb lum ltac:(apply list_elem_of_In, elem_of_seqZ; lia)).
  cbv beta in Hb.
  destruct (int_of_double (hls_max lum 0)) as [a|] eqn:Emax; [|discriminate].
  destruct (int_of_double (hls_min lum 0)) as [b|] eqn:Emin; [|discriminate].
  apply andb_true_iff in Hb as [Ha Hb'].
  apply Z.eqb_eq in Ha, Hb'. subst a b.
  assert (forall a, 0 <= a <= 60 ->
            int_of_double
              (dadd (hls_min lum 0)
                    (dmul (dsub (hls_max lum 0) (hls_min lum 0))
                          (ddiv (double_of_int a) (double_of_int 60)))) = Some lum) as Hmix.
  { intros a Ha. pose proof gray_mix as Hm. rewrite forallb_forall in Hm.
    specialize (Hm lum ltac:(apply list_elem_of_In, elem_of_seqZ; lia)).
    rewrite forallb_forall in Hm.
    specialize (Hm a ltac:(apply list_elem_of_In, elem_of_seqZ; lia)).
    cbv beta in Hm. revert Hm.
    match goal with
    | |- context [int_of_double ?t] => destruct (int_of_double t); [|discriminate]
    end.
    intros Hm. apply Z.eqb_eq in Hm. congruence. }
  unfold hls_to_rgb, hls_channels. cbv zeta.
  assert (0 <= hls_hue hue < 360) as Hrange.
  { unfold hls_hue. pose proof (Z.rem_bound_pos (hue + 240) 360). lia. }
  set (h' := hls_hue hue) in *.
  pose proof (Z.quot_rem' h' 60) as Hq.
  pose proof (Z.rem_bound_pos h' 60 ltac:(lia) ltac:(lia)) as Hr.
  rewrite Emax, Emin.
  destruct (Z.eqb_spec (Z.quot h' 60) 0);
    [rewrite Hmix by lia; reflexivity|].
  destruct (Z.eqb_spec (Z.quot h' 60) 1);
    [rewrite Hmix by lia; reflexivity|].
  destruct (Z.eqb_spec (Z.quot h' 60) 2);
    [rewrite Hmix by lia; reflexivity|].
  destruct (Z.eqb_spec (Z.quot h' 60) 3);
    [rewrite Hmix by lia; reflexivity|].
  destruct (Z.eqb_spec (Z.quot h' 60) 4);
    [rewrite Hmix by lia; reflexivity|].
  rewrite Hmix by lia. reflexivity.
Qed.

(** *** The theorems at concrete decoders

    The limits are the typical ones ([typical_params_max] and the others);
    [started h] is the decoder after [sixel_parser_init] and [after p] the
    decoder after the bytes [p]. *)

Local Abbreviation typical_run :=
  (sixel_parser_parse_run typical_params_max typical_palette_max
     typical_paramvalue_max typical_width_max typical_height_max).

Lemma started_has_a_buffer : data (image (started [])) <> None.
Proof. vm_compute. discriminate. Defined.

Lemma after_q_has_a_buffer : data (image (after [113])) <> None.
Proof. vm_compute. discriminate. Defined.

(** C1 fails on the terminator: after [sixel_parser_init] the bytes ESC and
    backslash make [sixel_parser_parse] return -1, although no allocation
    is made (the allocator still holds the outcome that it was given) and
    the buffer is there. *)
Theorem terminator_returns_failure :
  exists st',
    typical_run [true] (started []) [27; 92] = Some (-1, st', [], [true]) /\
    state st' = PS_ESC /\ data (image st') = data (image (started [])).
Proof. eexists. split; [vm_compute; reflexivity|]. split; reflexivity. Qed.

(** The status of a call that ends in [PS_ESC] is the one that the last
    resize of the call left: 0 when a sixel was painted before the
    terminator. *)
Lemma terminator_after_a_resize :
  exists st', typical_run [] (started []) [113; 126; 27; 92] = Some (0, st', [], []).
Proof. eexists. vm_compute. reflexivity. Qed.

(** The witness of C10: the decoder that a failed [sixel_parser_init]
    leaves. *)
Lemma parse_null_data_witness :
  data (image (started [false])) = None /\
  typical_run [true] (started [false]) [113; 126]
  = Some (-1, started [false], [113; 126], [true]).
Proof.
  split; [reflexivity|].
  apply (parse_null_data typical_params_max typical_palette_max typical_paramvalue_max
           typical_width_max typical_height_max [true] (started [false]) [113; 126]).
  reflexivity.
Defined.

(** The witness of C5: the first [-] of a picture. *)
Lemma newline_moves_down_witness :
  state (after [113]) = PS_DECSIXEL /\
  typical_run [] (after [113]) [45]
  = Some (0,
          set_pos_y (set_pos_x (after [113]) 0)
            (if pos_y (after [113]) <? typical_height_max - 11
             then pos_y (after [113]) + 6 else typical_height_max + 1),
          [], []).
Proof.
  split; [reflexivity|].
  apply (newline_moves_down typical_params_max typical_palette_max typical_paramvalue_max
           typical_width_max typical_height_max [] (after [113])).
  - exact after_q_has_a_buffer.
  - reflexivity.
Defined.

(** C5 as the claim states it fails at [pos_y = DECSIXEL_HEIGHT_MAX - 11]:
    the claim moves the cursor down by 6, the code sets the sentinel. *)
Lemma newline_at_the_bound :
  let st := set_pos_y (after [113]) (typical_height_max - 11) in
  exists st',
    typical_run [] st [45] = Some (0, st', [], []) /\
    pos_y st' = typical_height_max + 1 /\
    ~ newline_as_specified typical_height_max st st'.
Proof.
  cbv zeta. eexists. split; [vm_compute; reflexivity|]. split; [reflexivity|].
  intros [_ H]. vm_compute in H. discriminate H.
Qed.

(** The witness of C6: the decoder after [q#1], in [PS_DECGCI]. *)
Lemma parameters_accumulate_witness :
  state (after [113; 35; 49]) = PS_DECGCI /\
  typical_run [] (after [113; 35; 49]) [50]
  = Some (0, accumulate_clamped typical_paramvalue_max (after [113; 35; 49]) 50, [], []) /\
  param (accumulate_clamped typical_paramvalue_max (after [113; 35; 49]) 50)
  <= typical_paramvalue_max.
Proof.
  split; [reflexivity|].
  apply (parameters_accumulate typical_params_max typical_palette_max
           typical_paramvalue_max typical_width_max typical_height_max
           [] (after [113; 35; 49])).
  - vm_compute. discriminate.
  - reflexivity.
  - reflexivity.
Defined.

(** C6 as the claim states it fails in [PS_DECGRI]: after [q!5] the byte
    [;] stores nothing. *)
Lemma semicolon_ends_a_repeat :
  let st := after [113; 33; 53] in
  exists st',
    state st = PS_DECGRI /\ param st = 5 /\ nparams st = 0 /\
    typical_run [] st [59] = Some (0, st', [], []) /\
    nparams st' = 0 /\ repeat_count st' = 5 /\ state st' = PS_DECSIXEL /\
    ~ semicolon_as_specified typical_params_max st st'.
Proof.
  cbv zeta. eexists.
  split; [reflexivity|]. split; [reflexivity|]. split; [reflexivity|].
  split; [vm_compute; reflexivity|].
  split; [reflexivity|]. split; [reflexivity|]. split; [reflexivity|].
  intros [_ H]. vm_compute in H. destruct H as [H _]. discriminate H.
Qed.

Lemma red_column_sized : data_ok typical_palette_max (image red_column).
Proof.
  intros d Hd. vm_compute in Hd. injection Hd as <-.
  split; [reflexivity|].
  repeat constructor; unfold valid_index, typical_palette_max; lia.
Defined.

(** The witness of C3: the 8x8 image of [red_column] is resized to the
    1x6 pixels that were painted. *)
Lemma finalize_raster_witness :
  exists status st' pixels h',
    sixel_parser_finalize typical_palette_max [] red_column
    = Some (status, st', pixels, h') /\
    max_x st' = 1 /\ max_y st' = 6 /\
    status = 0 /\ width (image st') = 1 /\ height (image st') = 6 /\
    Z.of_nat (List.length pixels) = 4 * 1 * 6.
Proof.
  apply (finalize_raster typical_palette_max [] red_column).
  - vm_compute. discriminate.
  - vm_compute. discriminate.
  - vm_compute. discriminate.
  - exact red_column_sized.
  - reflexivity.
  - intros _. unfold typical_palette_max. lia.
  - vm_compute. discriminate.
  - vm_compute. discriminate.
Defined.

(** C3 as the claim states it fails when the clamped extents exceed the
    image: with [attributed_ph = attributed_pv = 3] and a 1x1 image,
    [max_x] and [max_y] become 3 but the image is not resized and the
    raster is the one pixel of the image. *)
Lemma finalize_keeps_a_smaller_image :
  let st := set_attributed_pv (set_attributed_ph (started []) 3) 3 in
  exists st',
    sixel_parser_finalize typical_palette_max [] st = Some (0, st', [0; 0; 0; 255], []) /\
    max_x st' = 3 /\ max_y st' = 3 /\
    width (image st') = 1 /\ height (image st') = 1 /\
    ~ raster_has_final_extent typical_palette_max [] st.
Proof.
  cbv zeta. eexists. split; [vm_compute; reflexivity|].
  split; [reflexivity|]. split; [reflexivity|].
  split; [reflexivity|]. split; [reflexivity|].
  intros (st' & pixels & h' & H & W & _).
  vm_compute in H. injection H as <- _ _. vm_compute in W. discriminate W.
Qed.

(** The witness of [reachable_image_bounded]: the decoder after [q~] is
    reachable. *)
Lemma reachable_image_bounded_witness :
  image_bounded typical_palette_max typical_width_max typical_height_max
    (image (after [113; 126])).
Proof.
  apply (reachable_image_bounded typical_params_max typical_palette_max
           typical_paramvalue_max typical_width_max typical_height_max).
  - unfold typical_palette_max. lia.
  - unfold typical_width_max. lia.
  - unfold typical_height_max. lia.
  - apply (reach_parse _ _ _ _ _ [] (started []) [113; 126] 0).
    + apply (reach_init _ _ _ _ _ [] blank_state 16777215 0 1 0 (started []) []).
      vm_compute. reflexivity.
    + vm_compute. reflexivity.
Defined.

(** C4 fails on a picture of two bands whose raster attributes give it
    less than twelve rows, at the width limit.  After [sixel_parser_init]
    the bytes [q], the raster attributes [1;1;4096;10], [~] and [-] are
    parsed with status 0 and leave an image of 4096 columns and 10 rows,
    a buffer of 40960 cells, with the cursor at row 6.  The second [~] is
    not preceded by a resize, since the image has the width limit
    (sixel.cc:508), and it passes the test [pos_y - 5 < height]
    (sixel.cc:532), which is true where the test [pos_y + 5 < height] is
    false: the sixel stores at the rows 6 to 11, of which 10 and 11 are
    past the buffer.  The call has no defined result, and so no grid that
    the invariants could hold of. *)
Theorem band_below_the_image_is_written :
  let picture := [113; 34; 49; 59; 49; 59; 52; 48; 57; 54; 59; 49; 48; 126; 45] in
  match typical_run [] (started []) picture with
  | Some (status, st', rest, h) =>
      status = 0 /\ rest = [] /\ h = [] /\ state st' = PS_DECSIXEL /\
      width (image st') = typical_width_max /\ height (image st') = 10 /\
      option_map (fun d => Z.of_nat (List.length d)) (data (image st')) = Some (4096 * 10) /\
      pos_x st' = 0 /\ pos_y st' = 6 /\ repeat_count st' = 1 /\
      (pos_y st' - 5 <? height (image st')) = true /\
      (pos_y st' + 5 <? height (image st')) = false
  | None => False
  end /\
  typical_run [] (started []) (picture ++ [126]) = None /\
  sixel_parser_parse typical_params_max typical_palette_max typical_paramvalue_max
    typical_width_max typical_height_max [] (started []) (picture ++ [126]) = None.
Proof.
  cbv zeta. split; [|split].
  - vm_compute. repeat split.
  - vm_compute. reflexivity.
  - vm_compute. reflexivity.
Qed.

(** C9.  [hls_to_rgb(0, 50, 100)] is the packed colour with R = 0, G = 0,
    B = 255: the bounds of the interpolation are [max = 100] and [min = 0],
    the rotated hue is 240, in sextant 4, the channels before the scaling
    are [r = 0], [g = 0], [b = 100]; and the colour command
    [#1;1;0;50;100] stores that colour in the palette, at the index 2 that
    the register 1 has. *)
Theorem hls_blue :
  hls_max 50 100 = double_of_int 100 /\
  hls_min 50 100 = double_of_int 0 /\
  hls_hue 0 = 240 /\ Z.quot (hls_hue 0) 60 = 4 /\
  hls_channels 0 50 100 = Some (0, 0, 100) /\
  hls_to_rgb 0 50 100 = Some (SIXEL_RGB 0 0 255) /\
  (forall color, hls_to_rgb 0 50 100 = Some color ->
     Z.land color 255 = 0 /\ Z.land (Z.shiftr color 8) 255 = 0 /\
     Z.land (Z.shiftr color 16) 255 = 255) /\
  exists st',
    typical_run [] (after [113])
      [35; 49; 59; 49; 59; 48; 59; 53; 48; 59; 49; 48; 48; 36]
    = Some (0, st', [], []) /\
    color_index st' = 2 /\
    array_at (palette (image st')) 2 = Some (SIXEL_RGB 0 0 255).
Proof.
  split; [vm_compute; reflexivity|]. split; [vm_compute; reflexivity|].
  split; [reflexivity|]. split; [reflexivity|].
  split; [vm_compute; reflexivity|]. split; [vm_compute; reflexivity|].
  split.
  - intros color H. vm_compute in H. injection H as <-. repeat split.
  - eexists. split; [vm_compute; reflexivity|]. split; reflexivity.
Qed.

(** In [PS_DCS] the digits accumulate without a clamp: [param] becomes
    [param * 10 + digit], a negative [param] counting as 0. *)
Lemma DCS_digit_is_not_clamped :
  exists st',
    state (started []) = PS_DCS /\
    typical_run [] (started []) [57; 57; 57; 57; 57] = Some (0, st', [], []) /\
    param st' = 99999 /\ typical_paramvalue_max < param st'.
Proof.
  eexists. split; [reflexivity|]. split; [vm_compute; reflexivity|].
  split; reflexivity.
Qed.

(** With the 256 palette slots that section 6 gives as typical the default
    palette does not fit: its grayscale ramp ends at index 256. *)
Lemma default_palette_needs_257_slots (image : sixel_image_t) :
  set_default_color 256 (set_palette image (replicate 256 0)) = None.
Proof. apply set_default_color_needs_257. simpl. lia. Qed.

(** The sentinel of [-] does not stop the painting on an image that has the
    height limit: after [q], the raster attributes [1;1;1;4096] and 682
    times [-], [pos_y] is [DECSIXEL_HEIGHT_MAX + 1] in an image of 4096
    rows, [pos_y - 5 < height] holds, and [~] stores at row 4097. *)
Lemma sentinel_row_is_painted :
  let picture := [113; 34; 49; 59; 49; 59; 49; 59; 52; 48; 57; 54] ++ replicate 682 45 in
  (exists st',
     typical_run [] (started []) picture = Some (0, st', [], []) /\
     width (image st') = 1 /\ height (image st') = typical_height_max /\
     pos_y st' = typical_height_max + 1) /\
  typical_run [] (started []) (picture ++ [126]) = None.
Proof.
  cbv zeta. split.
  - eexists. split; [vm_compute; reflexivity|]. repeat split.
  - vm_compute. reflexivity.
Qed.

(** A sixel painted on an image that has the width limit but not six rows
    writes outside the buffer: after [q], the raster attributes
    [1;1;4096] and [~], rows 1 to 5 of a one-row buffer. *)
Lemma sixel_written_outside_the_buffer :
  (exists st',
     typical_run [] (started []) [113; 34; 49; 59; 49; 59; 52; 48; 57; 54; 36]
     = Some (0, st', [], []) /\
     width (image st') = 4096 /\ height (image st') = 1 /\ pos_y st' = 0) /\
  typical_run [] (started []) [113; 34; 49; 59; 49; 59; 52; 48; 57; 54; 126] = None.
Proof.
  split.
  - eexists. split; [vm_compute; reflexivity|]. repeat split.
  - vm_compute. reflexivity.
Qed.


(** The witness of [resize_keeps_the_picture]: the red column in a buffer
    of 16 columns and 4 rows. *)
Lemma resize_keeps_the_picture_witness :
  exists d d',
    data (image red_column) = Some d /\
    image_buffer_resize [] (image red_column) 16 4
    = Some (0, set_height (set_width (set_data (image red_column) (Some d')) 16) 4, []) /\
    Z.of_nat (List.length d') = 16 * 4 /\
    forall x y, 0 <= x < 16 -> 0 <= y < 4 ->
      array_at d' (16 * y + x)
      = if (x <? width (image red_column)) && (y <? height (image red_column))
        then array_at d (width (image red_column) * y + x) else Some 0.
Proof.
  destruct (data (image red_column)) as [d|] eqn:Ed; [|vm_compute in Ed; discriminate Ed].
  exists d.
  assert (Z.of_nat (List.length d) = width (image red_column) * height (image red_column))
    as Hl by (vm_compute in Ed; injection Ed as <-; reflexivity).
  assert (1 <= width (image red_column)) as Hw by (vm_compute; intro; discriminate).
  assert (1 <= height (image red_column)) as Hh by (vm_compute; intro; discriminate).
  destruct (resize_keeps_the_picture [] (image red_column) 16 4 d Ed Hl Hw Hh
              ltac:(lia) ltac:(lia)) as (d' & H).
  exists d'. split; [reflexivity|]. exact H.
Defined.

(** The witness of [a_sixel_paints_its_bits]: the sixel [Z], whose bits
    are 27, three columns wide to the right of the red column. *)
Lemma a_sixel_paints_its_bits_witness :
  let st := set_repeat_count red_column 3 in
  exists d d',
    data (image st) = Some d /\
    typical_run [] st [90]
    = Some (0, set_repeat_count (set_pos_x (repaint st d' 3 5) 4) 1, [], []) /\
    array_at d' (8 * 3 + 2) = Some 2 /\ array_at d' (8 * 2 + 2) = array_at d (8 * 2 + 2).
Proof.
  cbv zeta.
  destruct (data (image (set_repeat_count red_column 3))) as [d|] eqn:Ed;
    [|vm_compute in Ed; discriminate Ed].
  exists d.
  assert (0 <= 2 < width (image (set_repeat_count red_column 3))) as Hx
    by (vm_compute; split; [intro; discriminate | reflexivity]).
  assert (0 <= 3 < height (image (set_repeat_count red_column 3))) as Hy3
    by (vm_compute; split; [intro; discriminate | reflexivity]).
  assert (0 <= 2 < height (image (set_repeat_count red_column 3))) as Hy2
    by (vm_compute; split; [intro; discriminate | reflexivity]).
  destruct (a_sixel_paints_its_bits typical_params_max typical_palette_max
              typical_paramvalue_max typical_width_max typical_height_max
              [] (set_repeat_count red_column 3) 90 d eq_refl Ed)
    as (d' & H & _ & Hcells);
    [vm_compute in Ed; injection Ed as <-; reflexivity
    | lia | vm_compute; intro; discriminate | vm_compute; intro; discriminate
    | vm_compute; intro; discriminate | vm_compute; intro; discriminate
    | vm_compute; intro; discriminate |].
  exists d'. split; [reflexivity|].
  split; [rewrite H; vm_compute; reflexivity|].
  pose proof (Hcells 2 3 Hx Hy3) as H3. pose proof (Hcells 2 2 Hx Hy2) as H2.
  clear H Hcells. vm_compute in H3, H2. vm_compute. split; assumption.
Defined.

(** The witness of [a_sixel_below_the_picture_is_undefined]: the image of
    4096 columns and one row that the raster attributes [1;1;4096] leave,
    and the sixel [~]. *)
Lemma a_sixel_below_the_picture_is_undefined_witness :
  let st := after [113; 34; 49; 59; 49; 59; 52; 48; 57; 54; 36] in
  width (image st) = typical_width_max /\ height (image st) = 1 /\
  typical_run [] st [126] = None.
Proof.
  cbv zeta. split; [reflexivity|]. split; [reflexivity|].
  destruct (data (image (after [113; 34; 49; 59; 49; 59; 52; 48; 57; 54; 36])))
    as [d|] eqn:Ed; [|vm_compute in Ed; discriminate Ed].
  apply (a_sixel_below_the_picture_is_undefined typical_params_max typical_palette_max
           typical_paramvalue_max typical_width_max typical_height_max
           [] (after [113; 34; 49; 59; 49; 59; 52; 48; 57; 54; 36]) 126 [] d 1).
  - reflexivity.
  - exact Ed.
  - vm_compute in Ed. injection Ed as <-. reflexivity.
  - left. vm_compute. intro; discriminate.
  - vm_compute. split; [intro; discriminate | reflexivity].
  - vm_compute. intro; discriminate.
  - lia.
  - lia.
  - reflexivity.
  - vm_compute. intro; discriminate.
  - vm_compute. reflexivity.
Defined.

(** The witness of [the_default_palette]: the palette of 1024 entries of
    the decoder that [sixel_parser_init] leaves. *)
Lemma the_default_palette_witness :
  exists pal,
    set_default_color typical_palette_max (image (started []))
    = Some (0, set_palette (image (started [])) pal) /\
    array_at pal 0 = array_at (palette (image (started []))) 0 /\
    array_at pal (17 + 36 * 5 + 6 * 0 + 0) = Some (SIXEL_RGB (5 * 51) (0 * 51) (0 * 51)) /\
    array_at pal (233 + 23) = Some (SIXEL_RGB (23 * 11) (23 * 11) (23 * 11)).
Proof.
  destruct (the_default_palette typical_palette_max (image (started [])) eq_refl)
    as (pal & H & _ & H0 & _ & Hcube & Hgray & _).
  exists pal. split; [exact H|]. split; [exact H0|]. split.
  - apply (Hcube 5 0 0); lia.
  - apply (Hgray 23); lia.
Defined.

(** The witness of [the_raster_is_the_picture]: the raster of the red
    column, one pixel wide and six high. *)
Lemma the_raster_is_the_picture_witness :
  match sixel_parser_finalize typical_palette_max [] red_column with
  | Some (status, st', pixels, h') =>
      status = 0 /\ width (image st') = 1 /\ height (image st') = 6 /\
      take 4 (drop (Z.to_nat (4 * (1 * 5 + 0))) pixels) = [0; 0; 255; 255]
  | None => False
  end.
Proof.
  destruct (sixel_parser_finalize typical_palette_max [] red_column)
    as [[[[status st'] pixels] h']|] eqn:E; [|vm_compute in E; discriminate E].
  assert (status = 0) as -> by (vm_compute in E; injection E as <- _ _ _; reflexivity).
  assert (width (image st') = 1) as Hw
    by (vm_compute in E; injection E as <- _ _; reflexivity).
  assert (height (image st') = 6) as Hh
    by (vm_compute in E; injection E as <- _ _; reflexivity).
  assert (data (image st') = Some [2; 2; 2; 2; 2; 2]) as Hd'
    by (vm_compute in E; injection E as <- _ _; reflexivity).
  assert (array_at (palette (image st')) 2 = Some 255) as Hp
    by (vm_compute in E; injection E as <- _ _; reflexivity).
  pose proof (the_raster_is_the_picture typical_palette_max [] h' red_column st' 0 pixels E)
    as (d & Hd & Hcells).
  clear E. rewrite Hw, Hh in Hcells.
  destruct (Hcells 0 5 ltac:(lia) ltac:(lia)) as (idx & color & H1 & H2 & H3).
  rewrite Hd' in Hd. injection Hd as <-.
  vm_compute in H1. injection H1 as <-. rewrite Hp in H2. injection H2 as <-.
  split; [reflexivity|]. split; [exact Hw|]. split; [exact Hh|]. exact H3.
Defined.

(** The witness of [a_repeated_sixel]: [!3Z] to the right of the red
    column. *)
Lemma a_repeated_sixel_witness :
  exists st' d d',
    data (image red_column) = Some d /\
    typical_run [] red_column [33; 51; 90] = Some (0, st', [], []) /\
    data (image st') = Some d' /\ pos_x st' = 4 /\ repeat_count st' = 1 /\
    array_at d' (8 * 3 + 3) = Some 2 /\ array_at d' (8 * 3 + 4) = array_at d (8 * 3 + 4).
Proof.
  destruct (data (image red_column)) as [d|] eqn:Ed; [|vm_compute in Ed; discriminate Ed].
  assert (0 <= 3 < width (image red_column)) as Hx3
    by (vm_compute; split; [intro; discriminate | reflexivity]).
  assert (0 <= 4 < width (image red_column)) as Hx4
    by (vm_compute; split; [intro; discriminate | reflexivity]).
  assert (0 <= 3 < height (image red_column)) as Hy
    by (vm_compute; split; [intro; discriminate | reflexivity]).
  destruct (a_repeated_sixel typical_params_max typical_palette_max
              typical_paramvalue_max typical_width_max typical_height_max
              [] red_column [51] 90 d eq_refl Ed)
    as (st' & d' & H & _ & Hd' & _ & _ & Hx & _ & Hrc & _ & _ & _ & _ & Hcells);
    [vm_compute in Ed; injection Ed as <-; reflexivity
    | vm_compute; intro; discriminate | reflexivity | lia | vm_compute; intro; discriminate
    | vm_compute; intro; discriminate | vm_compute; intro; discriminate
    | vm_compute; intro; discriminate |].
  exists st', d, d'. split; [reflexivity|]. split; [exact H|]. split; [exact Hd'|].
  pose proof (Hcells 3 3 Hx3 Hy) as H3. pose proof (Hcells 4 3 Hx4 Hy) as H4.
  clear H Hcells Hd'. vm_compute in Hx, H3, H4. vm_compute.
  split; [exact Hx|]. split; [exact Hrc|]. split; assumption.
Defined.

(** The witness of [a_colour_is_selected]: [#5] and a sixel after the red
    column. *)
Lemma a_colour_is_selected_witness :
  typical_run [] red_column [35; 53; 126]
  = typical_run []
      (set_color_index
         (set_params (set_nparams (set_param red_column 0) 1)
            (<[0%nat := Z.min typical_paramvalue_max (decimal 0 [53])]> (params red_column)))
         (if 1 + Z.min typical_paramvalue_max (decimal 0 [53]) >=? typical_palette_max
          then typical_palette_max - 1
          else 1 + Z.min typical_paramvalue_max (decimal 0 [53])))
      [126].
Proof.
  apply (a_colour_is_selected typical_params_max typical_palette_max
           typical_paramvalue_max typical_width_max typical_height_max
           [] red_column [53] 126 []).
  - reflexivity.
  - vm_compute. intro; discriminate.
  - vm_compute. intro; discriminate.
  - vm_compute. intro; discriminate.
  - vm_compute. intro; discriminate.
  - reflexivity.
  - reflexivity.
  - lia.
  - lia.
Defined.

(** The witness of [an_empty_picture_is_one_background_pixel]: a decoder
    with a palette of 1024 entries, black as the background. *)
Lemma an_empty_picture_is_one_background_pixel_witness :
  exists st1 st2,
    sixel_parser_init [] blank_state 16777215 0 1 = Some (0, st1, []) /\
    sixel_parser_finalize typical_palette_max [] st1 = Some (0, st2, [0; 0; 0; 255], []).
Proof.
  destruct (an_empty_picture_is_one_background_pixel typical_palette_max
              [] blank_state 16777215 0 1)
    as (status & st1 & H & Hs & _ & _ & _ & _ & st2 & H2 & _).
  - vm_compute. lia.
  - subst status. exists st1, st2. split; [exact H | exact H2].
Defined.

(** The witness of [a_colour_is_defined]: [#3;2;50;0;150] and a sixel after
    the red column. *)
Lemma a_colour_is_defined_witness :
  exists st',
    typical_run [] red_column
      [35; 51; 59; 50; 59; 53; 48; 59; 48; 59; 49; 53; 48; 126]
    = typical_run [] st' [126] /\
    color_index st' = 4 /\
    array_at (palette (image st')) 4 = Some (SIXEL_XRGB 50 0 100) /\
    palette_modified (image st') = 1.
Proof.
  destruct (a_colour_is_defined typical_params_max typical_palette_max
              typical_paramvalue_max typical_width_max typical_height_max
              [] red_column [51] [53; 48] [48] [49; 53; 48] 126 [])
    as (st' & Hrun & _ & Hci & Hpal & Hpm & _);
    [ reflexivity | vm_compute; intro; discriminate | vm_compute; intro; discriminate
    | vm_compute; lia | vm_compute; intro; discriminate | vm_compute; intro; discriminate
    | vm_compute; reflexivity | reflexivity | reflexivity | reflexivity | reflexivity
    | reflexivity | lia | lia |].
  exists st'. split; [exact Hrun|]. split; [rewrite Hci; vm_compute; reflexivity|].
  split; [rewrite Hpal; vm_compute; reflexivity | exact Hpm].
Defined.

(** The witness of [raster_attributes_size_the_image]: the raster
    attributes [1;1;16;4] and [$] after the red column, whose image of 8
    by 8 becomes one of 16 by 8. *)
Lemma raster_attributes_size_the_image_witness :
  exists st' d',
    typical_run [] red_column [34; 49; 59; 49; 59; 49; 54; 59; 52; 36]
    = parse_bytes typical_params_max typical_palette_max typical_paramvalue_max
        typical_width_max typical_height_max [] 0 st' [36] /\
    attributed_ph st' = 16 /\ attributed_pv st' = 4 /\
    width (image st') = 16 /\ height (image st') = 8 /\
    data (image st') = Some d' /\ Z.of_nat (List.length d') = 16 * 8.
Proof.
  destruct (data (image red_column)) as [d|] eqn:Ed; [|vm_compute in Ed; discriminate Ed].
  assert (Z.of_nat (List.length d) = width (image red_column) * height (image red_column))
    as Hl by (vm_compute in Ed; injection Ed as <-; reflexivity).
  pose proof (raster_attributes_size_the_image typical_params_max typical_palette_max
                typical_paramvalue_max typical_width_max typical_height_max
                [] red_column [49] [49] [49; 54] [52] 36 [] d eq_refl Ed Hl
                ltac:(vm_compute; split; intro; discriminate)
                ltac:(vm_compute; split; intro; discriminate)
                ltac:(vm_compute; intro; discriminate)
                ltac:(vm_compute; lia)
                ltac:(vm_compute; intro; discriminate)
                eq_refl eq_refl eq_refl eq_refl
                ltac:(vm_compute; intro; discriminate)
                ltac:(vm_compute; intro; discriminate)
                eq_refl ltac:(lia) ltac:(lia)) as H.
  cbv zeta in H.
  match type of H with
  | (if ?b then _ else _) =>
      assert (b = false) as Hb by (vm_compute; reflexivity); rewrite Hb in H; clear Hb
  end.
  destruct H as (st' & d' & Hrun & _ & _ & _ & Hph & Hpv & Hw & Hh & Hd' & Hl' & _).
  exists st', d'.
  split; [exact Hrun|].
  split; [rewrite Hph; vm_compute; reflexivity|].
  split; [rewrite Hpv; vm_compute; reflexivity|].
  split; [rewrite Hw; vm_compute; reflexivity|].
  split; [rewrite Hh; vm_compute; reflexivity|].
  split; [exact Hd'|]. rewrite Hl'. vm_compute. reflexivity.
Defined.

(** The witness of [hls_without_saturation_is_gray]: a hue of 200 and a
    lightness of 50. *)
Lemma hls_without_saturation_is_gray_witness :
  hls_to_rgb 200 50 0 = Some (SIXEL_XRGB 50 50 50).
Proof. apply (hls_without_saturation_is_gray 200 50); lia. Defined.

End SixelFacts.
